(** * TapForge MinerGame: a shallow embedding of the Solidity contract

    The development follows [contracts/MinerGame.sol]: unsigned machine
    integers are [Z] with their bounds written out, Solidity mappings are
    [gmap]s in which an absent key reads as the zero value of its type,
    storage arrays are lists, and every external function is a
    computation in a state-and-revert monad.  A reverted call drops the
    state it was working on, which is how the EVM undoes a failed
    transaction. *)

From Stdlib Require Import ZArith Lia List String Bool.
From stdpp Require Import base option list gmap.
Import ListNotations.

Local Open Scope Z_scope.

(** ** Keccak-256

    The contract hashes with the EVM builtin [keccak256] over
    [abi.encodePacked] byte strings.  The permutation below is
    Keccak-f[1600] on twenty-five 64-bit lanes (index [x + 5*y]), with the
    original Keccak padding (0x01 .. 0x80) and a rate of 136 bytes. *)
Module Keccak.

Definition lane_mask : Z := 2 ^ 64 - 1.

Definition rol64 (x n : Z) : Z :=
  Z.land (Z.lor (Z.shiftl x n) (Z.shiftr x (64 - n))) lane_mask.

Definition lane (A : list Z) (i : nat) : Z := nth i A 0.

(** Rotation offsets, laid out like the lanes. *)
Definition rotation_offsets : list Z :=
  [ 0;  1; 62; 28; 27;
   36; 44;  6; 55; 20;
    3; 10; 43; 25; 39;
   41; 45; 15; 21;  8;
   18;  2; 61; 56; 14].

Definition round_constants : list Z :=
  [0x0000000000000001; 0x0000000000008082; 0x800000000000808A;
   0x8000000080008000; 0x000000000000808B; 0x0000000080000001;
   0x8000000080008081; 0x8000000000008009; 0x000000000000008A;
   0x0000000000000088; 0x0000000080008009; 0x000000008000000A;
   0x000000008000808B; 0x800000000000008B; 0x8000000000008089;
   0x8000000000008003; 0x8000000000008002; 0x8000000000000080;
   0x000000000000800A; 0x800000008000000A; 0x8000000080008081;
   0x8000000000008080; 0x0000000080000001; 0x8000000080008008].

Definition theta (A : list Z) : list Z :=
  let C := map (fun x =>
      Z.lxor (lane A x) (Z.lxor (lane A (x + 5)) (Z.lxor (lane A (x + 10))
        (Z.lxor (lane A (x + 15)) (lane A (x + 20)))))) (seq 0 5) in
  let D := map (fun x =>
      Z.lxor (lane C ((x + 4) mod 5)) (rol64 (lane C ((x + 1) mod 5)) 1))
    (seq 0 5) in
  map (fun i => Z.lxor (lane A i) (lane D (i mod 5))) (seq 0 25).

(** rho and pi together: lane [(x, y)] moves to [(y, 2x + 3y)], so the lane
    that lands on [(X, Y)] comes from [((X + 3Y) mod 5, X)]. *)
Definition rho_pi (A : list Z) : list Z :=
  map (fun j =>
      let X := (j mod 5)%nat in
      let Y := (j / 5)%nat in
      let src := (((X + 3 * Y) mod 5) + 5 * X)%nat in
      rol64 (lane A src) (nth src rotation_offsets 0)) (seq 0 25).

Definition chi (B : list Z) : list Z :=
  map (fun j =>
      let x := (j mod 5)%nat in
      let y := (j / 5)%nat in
      Z.lxor (lane B j)
        (Z.land (Z.lxor (lane B (((x + 1) mod 5) + 5 * y)) lane_mask)
                (lane B (((x + 2) mod 5) + 5 * y)))) (seq 0 25).

Definition iota (rc : Z) (A : list Z) : list Z :=
  match A with
  | a0 :: rest => Z.lxor a0 rc :: rest
  | [] => []
  end.

Definition round (A : list Z) (rc : Z) : list Z :=
  iota rc (chi (rho_pi (theta A))).

Definition keccak_f (A : list Z) : list Z := fold_left round round_constants A.

Definition rate : nat := 136.

Definition pad (msg : list Z) : list Z :=
  let q := (rate - (length msg mod rate))%nat in
  if (q =? 1)%nat then msg ++ [0x81]
  else msg ++ [0x01] ++ repeat 0 (q - 2) ++ [0x80].

Fixpoint le_bytes_to_Z (bs : list Z) : Z :=
  match bs with
  | [] => 0
  | b :: rest => b + 256 * le_bytes_to_Z rest
  end.

Fixpoint be_bytes_to_Z_acc (acc : Z) (bs : list Z) : Z :=
  match bs with
  | [] => acc
  | b :: rest => be_bytes_to_Z_acc (256 * acc + b) rest
  end.

Fixpoint Z_to_le_bytes (n : nat) (v : Z) : list Z :=
  match n with
  | O => []
  | S n' => v mod 256 :: Z_to_le_bytes n' (v / 256)
  end.

Fixpoint lanes_of (n : nat) (bs : list Z) : list Z :=
  match n with
  | O => []
  | S n' => le_bytes_to_Z (firstn 8 bs) :: lanes_of n' (skipn 8 bs)
  end.

Definition absorb_block (A blk : list Z) : list Z :=
  let L := lanes_of 17 blk in
  map (fun i => Z.lxor (lane A i) (lane L i)) (seq 0 25).

Fixpoint absorb (blocks : nat) (A bs : list Z) : list Z :=
  match blocks with
  | O => A
  | S n => absorb n (keccak_f (absorb_block A (firstn rate bs))) (skipn rate bs)
  end.

(** The digest, read as Solidity reads [uint256(bytes32)]: big-endian. *)
Definition keccak256 (msg : list Z) : Z :=
  let p := pad msg in
  let A := absorb (length p / rate) (repeat 0 25) p in
  be_bytes_to_Z_acc 0 (concat (map (Z_to_le_bytes 8) (firstn 4 A))).

End Keccak.

(** ** [abi.encodePacked]

    Static values are packed big-endian on their own width, without
    padding between them. *)
Definition be_bytes (n : nat) (v : Z) : list Z := rev (Keccak.Z_to_le_bytes n v).

Definition encode_uint256 (v : Z) : list Z := be_bytes 32 v.
Definition encode_uint128 (v : Z) : list Z := be_bytes 16 v.
Definition encode_uint16 (v : Z) : list Z := be_bytes 2 v.
Definition encode_address (v : Z) : list Z := be_bytes 20 v.
Definition encode_bytes32 (v : Z) : list Z := be_bytes 32 v.

(** ** Machine integers

    [uint256] arithmetic outside an [unchecked] block reverts with a panic
    when the mathematical result leaves the type; inside an [unchecked]
    block it wraps.  Explicit narrowing conversions truncate. *)
Definition MAX_UINT256 : Z := 2 ^ 256 - 1.
Definition MAX_UINT128 : Z := 2 ^ 128 - 1.

Definition wrap256 (v : Z) : Z := v mod 2 ^ 256.
Definition uint128 (v : Z) : Z := v mod 2 ^ 128.
Definition uint16 (v : Z) : Z := v mod 2 ^ 16.

Inductive Error : Type :=
| Revert (reason : string)     (* require(cond, reason) and revert(reason) *)
| Panic                        (* checked arithmetic, array index *)
| CustomError (name : string). (* custom errors of the inherited contracts
                                  and of the collaborators *)

Inductive Result (A : Type) : Type :=
| Ok (a : A)
| Fail (e : Error).
Arguments Ok {A} a.
Arguments Fail {A} e.

Definition bindR {A B : Type} (r : Result A) (k : A -> Result B) : Result B :=
  match r with
  | Ok a => k a
  | Fail e => Fail e
  end.

Notation "'let?' x := r 'in' k" := (bindR r (fun x => k))
  (at level 10, x name, r at level 100, k at level 200, only parsing).

Definition checked_add (a b : Z) : Result Z :=
  if a + b <=? MAX_UINT256 then Ok (a + b) else Fail Panic.

Definition checked_sub (a b : Z) : Result Z :=
  if b <=? a then Ok (a - b) else Fail Panic.

Definition checked_mul (a b : Z) : Result Z :=
  if a * b <=? MAX_UINT256 then Ok (a * b) else Fail Panic.

(** Reading a storage array at an index; out of range is a panic. *)
Definition array_get (l : list Z) (i : nat) : Result Z :=
  match l !! i with
  | Some v => Ok v
  | None => Fail Panic
  end.

(** ** Constants of the contract *)
Definition BASE_REWARD : Z := 10 * 10 ^ 18.
Definition MAX_TAPS_PER_CALL : Z := 20.
Definition MAX_TAPS_PER_BLOCK : Z := 100.
Definition UPGRADE_COST_MULTIPLIER : Z := 100 * 10 ^ 18.
Definition PITY_THRESHOLD : Z := 50.
Definition PITY_INCREMENT : Z := 2.
Definition MAX_PITY_BONUS : Z := 50.
Definition CRITICAL_BASE_CHANCE : Z := 10.

Definition MAX_LEVEL : Z := 100.
Definition MAX_REGISTERED_MINERS : Z := 50.
Definition COMMIT_REVEAL_BLOCKS : Z := 1.
Definition MAX_REVEAL_DELAY : Z := 256.
Definition MAX_DAILY_MINT : Z := 1000000 * 10 ^ 18.

Definition ether : Z := 10 ^ 18.
Definition one_day : Z := 86400.

(** ** Data model *)
Definition address : Type := Z.

Record PlayerData : Type := mkPlayerData {
  level : Z;
  totalPower : Z;
  pendingRewards : Z;
  totalMined : Z;
  totalTaps : Z;
  criticalHits : Z;
  lastTapBlock : Z;
  tapsSinceCritical : Z;
  registeredMiners : list Z
}.

Record GemReward : Type := mkGemReward {
  bonus : Z;
  dropChance : Z
}.

Record CommitData : Type := mkCommitData {
  hash : Z;
  blockNumber : Z;
  taps : Z;
  revealed : bool
}.

Inductive GemType : Type := NONE | RUBY | SAPPHIRE | DIAMOND.

Global Instance GemType_eq_dec : EqDecision GemType.
Proof. solve_decision. Defined.

Inductive Event : Type :=
| Tapped (player : address) (count reward : Z) (critical : bool)
| GemFound (player : address) (gemType : GemType) (gemBonus : Z)
| Withdrawn (player : address) (amount : Z)
| MinerRegistered (player : address) (tokenId : Z)
| MinerUnregistered (player : address) (tokenId : Z)
| PlayerUpgraded (player : address) (newLevel cost : Z)
| CommitmentMade (player : address) (commitment : Z)
| CommitmentRevealed (player : address) (reward : Z)
| EmergencyPause (caller : address)
| DailyLimitUpdated (newLimit : Z).

(** The zero values a mapping yields for a key never written. *)
Global Instance PlayerData_inhabited : Inhabited PlayerData :=
  populate (mkPlayerData 0 0 0 0 0 0 0 0 []).
Global Instance CommitData_inhabited : Inhabited CommitData :=
  populate (mkCommitData 0 0 0 false).

(** *** The reward ledger, [contracts/MinerToken.sol]

    Balances, allowances and roles come from the OpenZeppelin bases
    (ERC20, ERC20Burnable, AccessControl); [mint] is the contract's own. *)
Record MinerToken : Type := mkMinerToken {
  totalSupply : Z;
  totalMinted : Z;
  balances : gmap address Z;
  allowances : gmap (address * address) Z;
  minters : gset address
}.

Definition MAX_SUPPLY : Z := 100000000 * 10 ^ 18.

(** A [mapping(K => uint256)] read at a key: zero when never written. *)
Definition mapping_get `{Countable K} (m : gmap K Z) (k : K) : Z :=
  default 0 (m !! k).

Definition balanceOf (t : MinerToken) (a : address) : Z :=
  mapping_get (balances t) a.
Definition allowance (t : MinerToken) (holder spender : address) : Z :=
  mapping_get (allowances t) (holder, spender).

Definition requireR (c : bool) (reason : string) : Result unit :=
  if c then Ok tt else Fail (Revert reason).

(** [mint(to, amount)] as called by [caller]. *)
Definition mint (caller to amount : Z) (t : MinerToken) : Result MinerToken :=
  if negb (bool_decide (caller ∈ minters t))
  then Fail (CustomError "AccessControlUnauthorizedAccount")
  else
    let currentSupply := totalSupply t in
    let? _ := requireR (amount <=? MAX_SUPPLY) "MinerToken: Amount exceeds max" in
    let? room := checked_sub MAX_SUPPLY amount in
    let? _ := requireR (currentSupply <=? room) "MinerToken: Max supply exceeded" in
    let? minted := checked_add (totalMinted t) amount in
    if to =? 0 then Fail (CustomError "ERC20InvalidReceiver")
    else
      let? supply := checked_add (totalSupply t) amount in
      Ok (mkMinerToken supply minted
            (<[to := wrap256 (balanceOf t to + amount)]> (balances t))
            (allowances t) (minters t)).

(** [burnFrom(account, value)] as called by [spender]: spend the allowance
    (an unlimited allowance is left as it is), then burn.  The library's
    [_approve] inside refuses the zero address as account or as spender
    with errors of its own (ERC20InvalidApprover, ERC20InvalidSpender);
    that refusal is not modelled, so for a zero address the outcome here
    may differ from the library's.  The game calls [burnFrom] on behalf of
    a caller, which is never the zero address, with its own address as
    spender. *)
Definition burnFrom (spender account value : Z) (t : MinerToken) : Result MinerToken :=
  let currentAllowance := allowance t account spender in
  let? allowances' :=
    if currentAllowance <? MAX_UINT256 then
      if currentAllowance <? value
      then Fail (CustomError "ERC20InsufficientAllowance")
      else Ok (<[(account, spender) := currentAllowance - value]> (allowances t))
    else Ok (allowances t) in
  if account =? 0 then Fail (CustomError "ERC20InvalidSender")
  else
    let fromBalance := balanceOf t account in
    if fromBalance <? value then Fail (CustomError "ERC20InsufficientBalance")
    else
      Ok (mkMinerToken (wrap256 (totalSupply t - value)) (totalMinted t)
            (<[account := fromBalance - value]> (balances t))
            allowances' (minters t)).

(** *** Storage of the game contract *)
Record World : Type := mkWorld {
  this : address;                       (* address(this) *)
  players : gmap address PlayerData;
  blockTaps : gmap (address * Z) Z;
  gemRewards : GemType -> GemReward;
  commitments : gmap address CommitData;
  currentDay : Z;
  todaysMinted : Z;
  dailyMintLimit : Z;
  criticalMultipliers : list Z;
  criticalWeights : list Z;
  paused : bool;                        (* Pausable *)
  owner : address;                      (* Ownable2Step *)
  pendingOwner : address;
  minerToken : MinerToken;              (* the ledger the game mints on *)
  events : list Event                   (* the log, oldest first *)
}.

(** What a call sees of the chain and of the asset registry
    ([MinerNFT]: [ownerOf] fails for a token that does not exist). *)
Record Env : Type := mkEnv {
  msg_sender : address;
  block_number : Z;
  block_timestamp : Z;
  block_prevrandao : Z;
  block_hashes : Z -> Z;
  nft_ownerOf : Z -> option address;
  nft_power : Z -> Z
}.

(** The builtin [blockhash]: the digest of one of the 256 most recent
    blocks, the current one excluded, and zero otherwise. *)
Definition blockhash (e : Env) (n : Z) : Z :=
  if (n <? block_number e) && (block_number e - 256 <=? n)
  then block_hashes e n
  else 0.

(** *** Field updates *)
Definition set_level (v : Z) (p : PlayerData) : PlayerData :=
  mkPlayerData v (totalPower p) (pendingRewards p) (totalMined p) (totalTaps p)
    (criticalHits p) (lastTapBlock p) (tapsSinceCritical p) (registeredMiners p).
Definition set_totalPower (v : Z) (p : PlayerData) : PlayerData :=
  mkPlayerData (level p) v (pendingRewards p) (totalMined p) (totalTaps p)
    (criticalHits p) (lastTapBlock p) (tapsSinceCritical p) (registeredMiners p).
Definition set_pendingRewards (v : Z) (p : PlayerData) : PlayerData :=
  mkPlayerData (level p) (totalPower p) v (totalMined p) (totalTaps p)
    (criticalHits p) (lastTapBlock p) (tapsSinceCritical p) (registeredMiners p).
Definition set_totalMined (v : Z) (p : PlayerData) : PlayerData :=
  mkPlayerData (level p) (totalPower p) (pendingRewards p) v (totalTaps p)
    (criticalHits p) (lastTapBlock p) (tapsSinceCritical p) (registeredMiners p).
Definition set_totalTaps (v : Z) (p : PlayerData) : PlayerData :=
  mkPlayerData (level p) (totalPower p) (pendingRewards p) (totalMined p) v
    (criticalHits p) (lastTapBlock p) (tapsSinceCritical p) (registeredMiners p).
Definition set_criticalHits (v : Z) (p : PlayerData) : PlayerData :=
  mkPlayerData (level p) (totalPower p) (pendingRewards p) (totalMined p)
    (totalTaps p) v (lastTapBlock p) (tapsSinceCritical p) (registeredMiners p).
Definition set_lastTapBlock (v : Z) (p : PlayerData) : PlayerData :=
  mkPlayerData (level p) (totalPower p) (pendingRewards p) (totalMined p)
    (totalTaps p) (criticalHits p) v (tapsSinceCritical p) (registeredMiners p).
Definition set_tapsSinceCritical (v : Z) (p : PlayerData) : PlayerData :=
  mkPlayerData (level p) (totalPower p) (pendingRewards p) (totalMined p)
    (totalTaps p) (criticalHits p) (lastTapBlock p) v (registeredMiners p).
Definition set_registeredMiners (v : list Z) (p : PlayerData) : PlayerData :=
  mkPlayerData (level p) (totalPower p) (pendingRewards p) (totalMined p)
    (totalTaps p) (criticalHits p) (lastTapBlock p) (tapsSinceCritical p) v.

Definition set_revealed (v : bool) (c : CommitData) : CommitData :=
  mkCommitData (hash c) (blockNumber c) (taps c) v.

Definition set_players (v : gmap address PlayerData) (w : World) : World :=
  mkWorld (this w) v (blockTaps w) (gemRewards w) (commitments w) (currentDay w)
    (todaysMinted w) (dailyMintLimit w) (criticalMultipliers w)
    (criticalWeights w) (paused w) (owner w) (pendingOwner w) (minerToken w)
    (events w).
Definition set_blockTaps (v : gmap (address * Z) Z) (w : World) : World :=
  mkWorld (this w) (players w) v (gemRewards w) (commitments w) (currentDay w)
    (todaysMinted w) (dailyMintLimit w) (criticalMultipliers w)
    (criticalWeights w) (paused w) (owner w) (pendingOwner w) (minerToken w)
    (events w).
Definition set_gemRewards (v : GemType -> GemReward) (w : World) : World :=
  mkWorld (this w) (players w) (blockTaps w) v (commitments w) (currentDay w)
    (todaysMinted w) (dailyMintLimit w) (criticalMultipliers w)
    (criticalWeights w) (paused w) (owner w) (pendingOwner w) (minerToken w)
    (events w).
Definition set_commitments (v : gmap address CommitData) (w : World) : World :=
  mkWorld (this w) (players w) (blockTaps w) (gemRewards w) v (currentDay w)
    (todaysMinted w) (dailyMintLimit w) (criticalMultipliers w)
    (criticalWeights w) (paused w) (owner w) (pendingOwner w) (minerToken w)
    (events w).
Definition set_currentDay (v : Z) (w : World) : World :=
  mkWorld (this w) (players w) (blockTaps w) (gemRewards w) (commitments w) v
    (todaysMinted w) (dailyMintLimit w) (criticalMultipliers w)
    (criticalWeights w) (paused w) (owner w) (pendingOwner w) (minerToken w)
    (events w).
Definition set_todaysMinted (v : Z) (w : World) : World :=
  mkWorld (this w) (players w) (blockTaps w) (gemRewards w) (commitments w)
    (currentDay w) v (dailyMintLimit w) (criticalMultipliers w)
    (criticalWeights w) (paused w) (owner w) (pendingOwner w) (minerToken w)
    (events w).
Definition set_dailyMintLimit (v : Z) (w : World) : World :=
  mkWorld (this w) (players w) (blockTaps w) (gemRewards w) (commitments w)
    (currentDay w) (todaysMinted w) v (criticalMultipliers w)
    (criticalWeights w) (paused w) (owner w) (pendingOwner w) (minerToken w)
    (events w).
Definition set_criticalWeights (v : list Z) (w : World) : World :=
  mkWorld (this w) (players w) (blockTaps w) (gemRewards w) (commitments w)
    (currentDay w) (todaysMinted w) (dailyMintLimit w) (criticalMultipliers w)
    v (paused w) (owner w) (pendingOwner w) (minerToken w) (events w).
Definition set_paused (v : bool) (w : World) : World :=
  mkWorld (this w) (players w) (blockTaps w) (gemRewards w) (commitments w)
    (currentDay w) (todaysMinted w) (dailyMintLimit w) (criticalMultipliers w)
    (criticalWeights w) v (owner w) (pendingOwner w) (minerToken w) (events w).
Definition set_owner (v : address) (w : World) : World :=
  mkWorld (this w) (players w) (blockTaps w) (gemRewards w) (commitments w)
    (currentDay w) (todaysMinted w) (dailyMintLimit w) (criticalMultipliers w)
    (criticalWeights w) (paused w) v (pendingOwner w) (minerToken w) (events w).
Definition set_pendingOwner (v : address) (w : World) : World :=
  mkWorld (this w) (players w) (blockTaps w) (gemRewards w) (commitments w)
    (currentDay w) (todaysMinted w) (dailyMintLimit w) (criticalMultipliers w)
    (criticalWeights w) (paused w) (owner w) v (minerToken w) (events w).
Definition set_minerToken (v : MinerToken) (w : World) : World :=
  mkWorld (this w) (players w) (blockTaps w) (gemRewards w) (commitments w)
    (currentDay w) (todaysMinted w) (dailyMintLimit w) (criticalMultipliers w)
    (criticalWeights w) (paused w) (owner w) (pendingOwner w) v (events w).
Definition set_events (v : list Event) (w : World) : World :=
  mkWorld (this w) (players w) (blockTaps w) (gemRewards w) (commitments w)
    (currentDay w) (todaysMinted w) (dailyMintLimit w) (criticalMultipliers w)
    (criticalWeights w) (paused w) (owner w) (pendingOwner w) (minerToken w) v.

(** ** The state-and-revert monad *)
Definition M (A : Type) : Type := World -> Result (A * World).

Definition ret {A : Type} (a : A) : M A := fun w => Ok (a, w).

Definition bind {A B : Type} (m : M A) (k : A -> M B) : M B :=
  fun w =>
    match m w with
    | Ok (a, w') => k a w'
    | Fail e => Fail e
    end.

Notation "'do' x <- m ; k" := (bind m (fun x => k))
  (at level 10, x name, m at level 100, k at level 200, only parsing).
Notation "'do' '_' <- m ; k" := (bind m (fun _ => k))
  (at level 10, m at level 100, k at level 200, only parsing).

Definition throw {A : Type} (e : Error) : M A := fun _ => Fail e.

Definition require (c : bool) (reason : string) : M unit :=
  if c then ret tt else throw (Revert reason).

(** A pure or view computation run inside a call. *)
Definition lift {A : Type} (r : Result A) : M A :=
  fun w =>
    match r with
    | Ok a => Ok (a, w)
    | Fail e => Fail e
    end.

Definition view {A : Type} (f : World -> A) : M A := fun w => Ok (f w, w).
Definition store (f : World -> World) : M unit := fun w => Ok (tt, f w).

Definition read_player (a : address) : M PlayerData :=
  view (fun w => players w !!! a).
Definition write_player (a : address) (f : PlayerData -> PlayerData) : M unit :=
  store (fun w => set_players (<[a := f (players w !!! a)]> (players w)) w).

Definition read_commit (a : address) : M CommitData :=
  view (fun w => commitments w !!! a).

Definition emit (ev : Event) : M unit :=
  store (fun w => set_events (events w ++ [ev]) w).

(** Modifiers of the inherited contracts.  [nonReentrant] is not modelled:
    every call here is the outermost call of its transaction, and the
    collaborators never call back. *)
Definition whenNotPaused : M unit :=
  do p <- view paused;
  if p then throw (CustomError "EnforcedPause") else ret tt.

Definition whenPaused : M unit :=
  do p <- view paused;
  if p then ret tt else throw (CustomError "ExpectedPause").

Definition onlyOwner (e : Env) : M unit :=
  do o <- view owner;
  if o =? msg_sender e then ret tt
  else throw (CustomError "OwnableUnauthorizedAccount").


(** ** The rest of the ledger, [contracts/MinerToken.sol]

    [mint] and [burnFrom] above are the two entry points the game calls.
    The constructor, [batchMint] and [burn] complete the contract.  [_mint]
    and [_burn] are ERC20's internal primitives, the ones [mint] and
    [burnFrom] go through.  [MinerToken] holds the storage of the ledger;
    its notifications (TokensMinted, TokensBurned) are not kept. *)
Definition INITIAL_SUPPLY : Z := 1000000 * 10 ^ 18.

Definition _mint (to amount : Z) (t : MinerToken) : Result MinerToken :=
  if to =? 0 then Fail (CustomError "ERC20InvalidReceiver")
  else
    let? supply := checked_add (totalSupply t) amount in
    Ok (mkMinerToken supply (totalMinted t)
          (<[to := wrap256 (balanceOf t to + amount)]> (balances t))
          (allowances t) (minters t)).

Definition _burn (account value : Z) (t : MinerToken) : Result MinerToken :=
  if account =? 0 then Fail (CustomError "ERC20InvalidSender")
  else
    let fromBalance := balanceOf t account in
    if fromBalance <? value then Fail (CustomError "ERC20InsufficientBalance")
    else
      Ok (mkMinerToken (wrap256 (totalSupply t - value)) (totalMinted t)
            (<[account := fromBalance - value]> (balances t))
            (allowances t) (minters t)).

Definition set_totalMinted (v : Z) (t : MinerToken) : MinerToken :=
  mkMinerToken (totalSupply t) v (balances t) (allowances t) (minters t).

(** The constructor grants both roles to [defaultAdmin] and mints the
    initial supply to it. *)
Definition constructor_MinerToken (defaultAdmin : address) : Result MinerToken :=
  let? t := _mint defaultAdmin INITIAL_SUPPLY
              (mkMinerToken 0 0 ∅ ∅ {[ defaultAdmin ]}) in
  Ok (set_totalMinted INITIAL_SUPPLY t).

(** The first loop of [batchMint]: the sum of the amounts.  The addition
    inside the [require] is itself checked. *)
Fixpoint batchMint_total (amounts : list Z) (n i : nat) (totalAmount : Z)
    : Result Z :=
  match n with
  | O => Ok totalAmount
  | S n' =>
      let? amount := array_get amounts i in
      let? sum := checked_add totalAmount amount in
      let? _ := requireR (totalAmount <=? sum) "MinerToken: Arithmetic overflow" in
      let? totalAmount := checked_add totalAmount amount in
      batchMint_total amounts n' (S i) totalAmount
  end.

(** The second loop: mint to each recipient and count it as minted. *)
Fixpoint batchMint_loop (recipients amounts : list Z) (n i : nat)
    (t : MinerToken) : Result MinerToken :=
  match n with
  | O => Ok t
  | S n' =>
      let? to := array_get recipients i in
      let? amount := array_get amounts i in
      let? t := _mint to amount t in
      let? minted := checked_add (totalMinted t) amount in
      batchMint_loop recipients amounts n' (S i) (set_totalMinted minted t)
  end.

(** [batchMint(recipients, amounts)] as called by [caller]. *)
Definition batchMint (caller : address) (recipients amounts : list Z)
    (t : MinerToken) : Result MinerToken :=
  if negb (bool_decide (caller ∈ minters t))
  then Fail (CustomError "AccessControlUnauthorizedAccount")
  else
    let? _ := requireR (0 <? length recipients)%nat "MinerToken: Empty arrays" in
    let? _ := requireR (length recipients =? length amounts)%nat
                "MinerToken: Arrays length mismatch" in
    let? totalAmount := batchMint_total amounts (length amounts) 0 0 in
    let currentSupply := totalSupply t in
    let? room := checked_sub MAX_SUPPLY totalAmount in
    let? _ := requireR (currentSupply <=? room) "MinerToken: Max supply exceeded" in
    batchMint_loop recipients amounts (length recipients) 0 t.

(** [burn(value)] as called by [caller]: the caller's own tokens. *)
Definition burn (caller value : Z) (t : MinerToken) : Result MinerToken :=
  _burn caller value t.

(** The sum of all balances. *)
Definition sum_balances (m : gmap address Z) : Z :=
  map_fold (fun _ v acc => v + acc) 0 m.

(** What the ledger keeps true of its storage. *)
Record wf_token (t : MinerToken) : Prop := mk_wf_token {
  wf_balances : forall a, 0 <= balanceOf t a;
  wf_supply_sum : sum_balances (balances t) = totalSupply t;
  wf_supply_cap : totalSupply t <= MAX_SUPPLY;
  wf_minted : totalSupply t <= totalMinted t <= MAX_UINT256
}.

(** Minting [amounts] to [recipients] one call of [mint] at a time. *)
Fixpoint mint_each (caller : address) (recipients amounts : list Z)
    (t : MinerToken) : Result MinerToken :=
  match recipients, amounts with
  | to :: recipients', amount :: amounts' =>
      let? t := mint caller to amount t in
      mint_each caller recipients' amounts' t
  | _, _ => Ok t
  end.

(** ** The asset registry, [MinerNFT]

    The second contract of [contracts/MinerGame.sol].  Ownership comes from
    the ERC721 base ([_owners], where an absent token reads as the zero
    address), the list of all tokens from ERC721Enumerable, and the roles
    from AccessControl.  Transfers are functions of the base; what the game
    sees of them is the [nft_ownerOf] of its environment. *)
Module NFT.

Inductive Rarity : Type := COMMON | RARE | EPIC | LEGENDARY.

Global Instance Rarity_eq_dec : EqDecision Rarity.
Proof. solve_decision. Defined.

Record MinerData : Type := mkMinerData {
  rarity : Rarity;
  power : Z;
  mintedAt : Z;
  name : string
}.

Global Instance MinerData_inhabited : Inhabited MinerData :=
  populate (mkMinerData COMMON 0 0 EmptyString).

Inductive Event : Type :=
| MinerMinted (to : address) (tokenId : Z) (rarity : Rarity) (power : Z)
| MinerUpgraded (tokenId newPower : Z)
| MinerRenamed (tokenId : Z) (newName : string).

Definition COMMON_POWER : Z := 1.
Definition RARE_POWER : Z := 3.
Definition EPIC_POWER : Z := 7.
Definition LEGENDARY_POWER : Z := 15.

Definition MAX_SUPPLY : Z := 10000.

Record Registry : Type := mkRegistry {
  _tokenIdCounter : Z;
  _owners : gmap Z Z;             (* ERC721: token => owner *)
  _allTokens : list Z;            (* ERC721Enumerable *)
  miners : gmap Z MinerData;
  minterRole : gset address;      (* holders of MINTER_ROLE *)
  gameRole : gset address;        (* holders of GAME_ROLE *)
  adminRole : gset address;       (* holders of DEFAULT_ADMIN_ROLE *)
  _baseTokenURI : string;
  log : list Event                (* oldest first *)
}.

Definition set_tokenIdCounter (v : Z) (s : Registry) : Registry :=
  mkRegistry v (_owners s) (_allTokens s) (miners s) (minterRole s)
    (gameRole s) (adminRole s) (_baseTokenURI s) (log s).
Definition set_minted (tokenId to : Z) (s : Registry) : Registry :=
  mkRegistry (_tokenIdCounter s) (<[tokenId := to]> (_owners s))
    (_allTokens s ++ [tokenId]) (miners s) (minterRole s) (gameRole s)
    (adminRole s) (_baseTokenURI s) (log s).
Definition set_miners (v : gmap Z MinerData) (s : Registry) : Registry :=
  mkRegistry (_tokenIdCounter s) (_owners s) (_allTokens s) v (minterRole s)
    (gameRole s) (adminRole s) (_baseTokenURI s) (log s).
Definition set_baseTokenURI (v : string) (s : Registry) : Registry :=
  mkRegistry (_tokenIdCounter s) (_owners s) (_allTokens s) (miners s)
    (minterRole s) (gameRole s) (adminRole s) v (log s).
Definition set_log (v : list Event) (s : Registry) : Registry :=
  mkRegistry (_tokenIdCounter s) (_owners s) (_allTokens s) (miners s)
    (minterRole s) (gameRole s) (adminRole s) (_baseTokenURI s) v.

Definition set_power (v : Z) (m : MinerData) : MinerData :=
  mkMinerData (rarity m) v (mintedAt m) (name m).
Definition set_name (v : string) (m : MinerData) : MinerData :=
  mkMinerData (rarity m) (power m) (mintedAt m) v.

Definition constructor (baseURI : string) (defaultAdmin : address) : Registry :=
  mkRegistry 0 ∅ [] ∅ {[ defaultAdmin ]} ∅ {[ defaultAdmin ]} baseURI [].

(** *** What the bases provide *)

Definition onlyRole (role : gset address) (e : Env) : Result unit :=
  if bool_decide (msg_sender e ∈ role) then Ok tt
  else Fail (CustomError "AccessControlUnauthorizedAccount").

Definition _ownerOf (s : Registry) (tokenId : Z) : address :=
  mapping_get (_owners s) tokenId.

Definition ownerOf (s : Registry) (tokenId : Z) : Result address :=
  let tokenOwner := _ownerOf s tokenId in
  if tokenOwner =? 0 then Fail (CustomError "ERC721NonexistentToken")
  else Ok tokenOwner.

Definition totalSupply (s : Registry) : Z := Z.of_nat (length (_allTokens s)).

(** What a receiver does when it is handed a token.  A receiver that has
    code is called, [onERC721Received], once the token has been assigned to
    it; the call runs on the storage as it then stands and may call back
    into the registry, so it comes back with a storage of its own making
    and its answer, or it reverts, with or without a reason. *)
Inductive HookResult : Type :=
| HookReturned (accepted : bool) (s : Registry)
| HookReverted (reason : option Error).

(** The code at the addresses: [None] at a plain account, which is not
    called; at a contract its [onERC721Received], a function of the
    operator, the token and the storage.  What the hook does to the storage
    is left open: a statement that quantifies over the code holds whatever
    the receiver calls. *)
Definition Code : Type :=
  address -> option (address -> Z -> Registry -> HookResult).

Definition checkOnERC721Received (code : Code) (operator to tokenId : Z)
    (s : Registry) : Result Registry :=
  match code to with
  | None => Ok s
  | Some onERC721Received =>
      match onERC721Received operator tokenId s with
      | HookReturned true s' => Ok s'
      | HookReturned false _ => Fail (CustomError "ERC721InvalidReceiver")
      | HookReverted None => Fail (CustomError "ERC721InvalidReceiver")
      | HookReverted (Some reason) => Fail reason
      end
  end.

(** [_safeMint]: the receiver must not be the zero address and the token
    must not exist; the token is assigned, and then a receiver that is a
    contract is asked. *)
Definition _safeMint (code : Code) (operator to tokenId : Z) (s : Registry)
    : Result Registry :=
  if to =? 0 then Fail (CustomError "ERC721InvalidReceiver")
  else if negb (_ownerOf s tokenId =? 0)
  then Fail (CustomError "ERC721InvalidSender")
  else checkOnERC721Received code operator to tokenId (set_minted tokenId to s).

(** *** The contract's own functions *)

Definition _getPowerByRarity (r : Rarity) : Z :=
  if bool_decide (r = COMMON) then COMMON_POWER
  else if bool_decide (r = RARE) then RARE_POWER
  else if bool_decide (r = EPIC) then EPIC_POWER
  else if bool_decide (r = LEGENDARY) then LEGENDARY_POWER
  else COMMON_POWER.

Definition mintMiner (e : Env) (code : Code) (to : address)
    (r : Rarity) (minerName : string) (s : Registry) : Result (Z * Registry) :=
  let? _ := onlyRole (minterRole s) e in
  let? _ := requireR (totalSupply s <? MAX_SUPPLY) "MinerNFT: Max supply reached" in
  let? _ := requireR (String.length minerName <=? 32)%nat
              "MinerNFT: Name too long" in
  let tokenId := _tokenIdCounter s in
  let? next := checked_add tokenId 1 in
  let s := set_tokenIdCounter next s in
  let? s := _safeMint code (msg_sender e) to tokenId s in
  let minerPower := _getPowerByRarity r in
  let s :=
    set_miners
      (<[tokenId := mkMinerData r minerPower (block_timestamp e) minerName]>
         (miners s)) s in
  let s := set_log (log s ++ [MinerMinted to tokenId r minerPower]) s in
  Ok (tokenId, s).

(** Two storages on the way through [mintMiner]: the one the receiver of
    the new token is asked on, and the one the call leaves from what the
    receiver came back with. *)
Definition handed_over (to : address) (s : Registry) : Registry :=
  set_minted (_tokenIdCounter s) to
    (set_tokenIdCounter (_tokenIdCounter s + 1) s).

Definition recorded (e : Env) (to : address) (tokenId : Z) (r : Rarity)
    (minerName : string) (s : Registry) : Registry :=
  set_log (log s ++ [MinerMinted to tokenId r (_getPowerByRarity r)])
    (set_miners
       (<[tokenId :=
            mkMinerData r (_getPowerByRarity r) (block_timestamp e) minerName]>
          (miners s)) s).

(** The loop of [batchMintMiners]; [tokenIds] is the array being filled. *)
Fixpoint batchMintMiners_loop (e : Env) (code : Code)
    (to : address) (rarities : list Rarity) (n i : nat) (tokenIds : list Z)
    (s : Registry) : Result (list Z * Registry) :=
  match n with
  | O => Ok (tokenIds, s)
  | S n' =>
      let? r := match rarities !! i with
                | Some r => Ok r
                | None => Fail Panic
                end in
      let? minted := mintMiner e code to r EmptyString s in
      if bool_decide (i < length tokenIds)%nat then
        batchMintMiners_loop e code to rarities n' (S i)
          (<[i := fst minted]> tokenIds) (snd minted)
      else Fail Panic
  end.

Definition batchMintMiners (e : Env) (code : Code) (to : address)
    (rarities : list Rarity) (count : Z) (s : Registry)
    : Result (list Z * Registry) :=
  let? _ := onlyRole (minterRole s) e in
  let? _ := requireR ((0 <? count) && (count <=? 20)) "MinerNFT: Invalid count" in
  let? _ := requireR (Z.of_nat (length rarities) =? count)
              "MinerNFT: Arrays mismatch" in
  let? total := checked_add (totalSupply s) count in
  let? _ := requireR (total <=? MAX_SUPPLY) "MinerNFT: Max supply exceeded" in
  batchMintMiners_loop e code to rarities (Z.to_nat count) 0
    (replicate (Z.to_nat count) 0) s.

Definition upgradeMiner (e : Env) (tokenId additionalPower : Z) (s : Registry)
    : Result Registry :=
  let? _ := onlyRole (gameRole s) e in
  let? _ := requireR (negb (_ownerOf s tokenId =? 0))
              "MinerNFT: Token does not exist" in
  let currentPower := power (miners s !!! tokenId) in
  let? sum := checked_add currentPower additionalPower in
  let? _ := requireR (currentPower <=? sum) "MinerNFT: Power overflow" in
  let? sum := checked_add currentPower additionalPower in
  let? _ := requireR (sum <=? MAX_UINT256 / 1000) "MinerNFT: Power too high" in
  let? newPower := checked_add currentPower additionalPower in
  let s :=
    set_miners
      (<[tokenId := set_power newPower (miners s !!! tokenId)]> (miners s)) s in
  Ok (set_log (log s ++ [MinerUpgraded tokenId (power (miners s !!! tokenId))]) s).

Definition renameMiner (e : Env) (tokenId : Z) (newName : string) (s : Registry)
    : Result Registry :=
  let? tokenOwner := ownerOf s tokenId in
  let? _ := requireR (tokenOwner =? msg_sender e) "MinerNFT: Not the owner" in
  let? _ := requireR (String.length newName <=? 32)%nat
              "MinerNFT: Name too long" in
  let s :=
    set_miners
      (<[tokenId := set_name newName (miners s !!! tokenId)]> (miners s)) s in
  Ok (set_log (log s ++ [MinerRenamed tokenId newName]) s).

Definition getMiner (s : Registry) (tokenId : Z) : Result MinerData :=
  let? _ := requireR (negb (_ownerOf s tokenId =? 0))
              "MinerNFT: Token does not exist" in
  Ok (miners s !!! tokenId).

Definition setBaseURI (e : Env) (baseURI : string) (s : Registry)
    : Result Registry :=
  let? _ := onlyRole (adminRole s) e in
  Ok (set_baseTokenURI baseURI s).

Definition _baseURI (s : Registry) : string := _baseTokenURI s.

(** What the registry keeps true of its storage: tokens are numbered from
    zero in the order they were minted, and a token's record exists exactly
    when the token does. *)
Record wf_registry (s : Registry) : Prop := mk_wf_registry {
  wf_counter : _tokenIdCounter s = totalSupply s;
  wf_cap : totalSupply s <= MAX_SUPPLY;
  wf_all : _allTokens s = map Z.of_nat (seq 0 (length (_allTokens s)));
  wf_owned : forall tokenId,
    _ownerOf s tokenId <> 0 <-> 0 <= tokenId < _tokenIdCounter s;
  wf_record : forall tokenId,
    0 <= tokenId < _tokenIdCounter s ->
    exists m, miners s !! tokenId = Some m /\
      COMMON_POWER <= power m <= MAX_UINT256 / 1000 /\
      (String.length (name m) <= 32)%nat;
  wf_no_record : forall tokenId,
    ~ (0 <= tokenId < _tokenIdCounter s) -> miners s !! tokenId = None
}.

End NFT.

(** The environment a call of the game sees when [s] is the registry. *)
Definition registry_env (s : NFT.Registry) (e : Env) : Env :=
  mkEnv (msg_sender e) (block_number e) (block_timestamp e)
    (block_prevrandao e) (block_hashes e)
    (fun tokenId =>
       match NFT.ownerOf s tokenId with
       | Ok tokenOwner => Some tokenOwner
       | Fail _ => None
       end)
    (fun tokenId =>
       match NFT.getMiner s tokenId with
       | Ok m => NFT.power m
       | Fail _ => 0
       end).

(** A registry in which account 1 holds the administrator and minter roles
    and the game at address 999 the game role, and account 5 owns token 0, a
    rare miner. *)
Definition scenario_registry : NFT.Registry :=
  NFT.mkRegistry 1 {[ 0 := 5 ]} [0]
    {[ 0 := NFT.mkMinerData NFT.RARE 3 1700000000 EmptyString ]}
    {[ 1 ]} {[ 999 ]} {[ 1 ]} EmptyString [].

(** ** The contract

    The hash is a variable of the section: nothing below depends on which
    function it is, and the statements hold for the EVM's [keccak256]
    ([Keccak.keccak256] above) as for any other. *)
Section MinerGame.

Variable keccak256 : list Z -> Z.

(** A view function that can revert. *)
Definition viewR {A : Type} (f : World -> Result A) : M A :=
  fun w =>
    match f w with
    | Ok a => Ok (a, w)
    | Fail e => Fail e
    end.

(** ** Internal helpers of [MinerGame] *)

Definition _calculatePityBonus (tapsSinceCritical : Z) : Result Z :=
  if tapsSinceCritical <=? PITY_THRESHOLD then Ok 0
  else
    let? excess := checked_sub tapsSinceCritical PITY_THRESHOLD in
    let? bonus := checked_mul excess PITY_INCREMENT in
    Ok (if bonus >? MAX_PITY_BONUS then MAX_PITY_BONUS else bonus).

(** [for (i = 0; i < 4; )] over the cumulative weights; [n] counts the
    iterations left.  Falling out of the loop returns the first multiplier. *)
Fixpoint _selectMultiplier_loop (w : World) (random : Z) (n i : nat)
    (cumulative : Z) : Result Z :=
  match n with
  | O => array_get (criticalMultipliers w) 0
  | S n' =>
      let? weight := array_get (criticalWeights w) i in
      let? cumulative := checked_add cumulative weight in
      if random <? cumulative then array_get (criticalMultipliers w) i
      else _selectMultiplier_loop w random n' (S i) cumulative
  end.

Definition _selectMultiplier (w : World) (seed : Z) : Result Z :=
  let random := seed mod 100 in
  _selectMultiplier_loop w random 4 0 0.

Definition _selectGem (w : World) (seed : Z) : Result GemType :=
  let random := seed mod 100 in
  if random <? dropChance (gemRewards w RUBY) then Ok RUBY
  else
    let? random := checked_sub random (dropChance (gemRewards w RUBY)) in
    if random <? dropChance (gemRewards w SAPPHIRE) then Ok SAPPHIRE
    else
      let? random := checked_sub random (dropChance (gemRewards w SAPPHIRE)) in
      if random <? dropChance (gemRewards w DIAMOND) then Ok DIAMOND
      else Ok NONE.

(** The loop of [_calculateAndCachePower] over the registered miners: a
    miner whose [ownerOf] fails or names somebody else is skipped. *)
Fixpoint sum_owned_power (e : Env) (playerAddress : address)
    (miners : list Z) (totalPower : Z) : Result Z :=
  match miners with
  | [] => Ok totalPower
  | tokenId :: rest =>
      let? totalPower :=
        match nft_ownerOf e tokenId with
        | Some tokenOwner =>
            if tokenOwner =? playerAddress
            then checked_add totalPower (nft_power e tokenId)
            else Ok totalPower
        | None => Ok totalPower
        end in
      sum_owned_power e playerAddress rest totalPower
  end.

Definition _calculateAndCachePower (e : Env) (playerAddress : address) : M Z :=
  do player <- read_player playerAddress;
  do totalPower <-
    lift (sum_owned_power e playerAddress (registeredMiners player) 0);
  do next <- lift (checked_add (level player) 1);
  do finalPower <- lift (checked_mul totalPower next);
  do _ <- require (finalPower <=? MAX_UINT128) "Total power overflow";
  do _ <- write_player playerAddress (set_totalPower (uint128 finalPower));
  ret finalPower.

(** *** The tap loop *)
Record TapLoop : Type := mkTapLoop {
  loop_randomSeed : Z;
  loop_totalReward : Z;
  loop_hasCritical : bool
}.

(** One tap, after its sub-seed [randomSeed] has been derived. *)
Definition tap_roll (e : Env) (baseTapReward randomSeed totalReward : Z)
    (hasCritical : bool) : M TapLoop :=
  let sender := msg_sender e in
  do player <- read_player sender;
  do pity <- lift (_calculatePityBonus (tapsSinceCritical player));
  do critChance <- lift (checked_add CRITICAL_BASE_CHANCE pity);
  do outcome <-
    (if randomSeed mod 100 <? critChance then
       do multiplier <- viewR (fun w => _selectMultiplier w randomSeed);
       do tapReward <- lift (checked_mul baseTapReward multiplier);
       do _ <- write_player sender
                 (fun p => set_criticalHits (wrap256 (criticalHits p + 1)) p);
       do _ <- write_player sender (set_tapsSinceCritical 0);
       do tapReward <-
         (if randomSeed mod 100 <? 5 then
            do gem <- viewR (fun w => _selectGem w (Z.shiftr randomSeed 8));
            if bool_decide (gem <> NONE) then
              do gemBonus <- view (fun w => bonus (gemRewards w gem));
              do tapReward <- lift (checked_add tapReward gemBonus);
              do _ <- emit (GemFound sender gem gemBonus);
              ret tapReward
            else ret tapReward
          else ret tapReward);
       ret (tapReward, true)
     else
       do _ <- write_player sender
                 (fun p => set_tapsSinceCritical
                             (wrap256 (tapsSinceCritical p + 1)) p);
       ret (baseTapReward, hasCritical));
  do totalReward <- lift (checked_add totalReward (fst outcome));
  ret (mkTapLoop randomSeed totalReward (snd outcome)).

(** The body of the loop for index [i]: re-derive the sub-seed, then roll. *)
Definition tap_iteration (e : Env) (baseTapReward i : Z) (l : TapLoop)
    : M TapLoop :=
  let randomSeed :=
    keccak256 (encode_uint256 (loop_randomSeed l) ++ encode_uint16 i) in
  tap_roll e baseTapReward randomSeed (loop_totalReward l) (loop_hasCritical l).

(** [for (uint16 i = 0; i < taps; ) { ...; unchecked { i++; } }] with
    [remaining = taps - i]. *)
Fixpoint tap_loop (e : Env) (baseTapReward : Z) (remaining : nat) (i : Z)
    (l : TapLoop) : M TapLoop :=
  match remaining with
  | O => ret l
  | S remaining' =>
      do l' <- tap_iteration e baseTapReward i l;
      tap_loop e baseTapReward remaining' (uint16 (i + 1)) l'
  end.

Definition _executeTaps (e : Env) (taps randomSeed : Z) (isCommitReveal : bool)
    : M Z :=
  let sender := msg_sender e in
  let currentBlock := block_number e in
  do currentBlockTaps <-
    view (fun w => mapping_get (blockTaps w) (sender, currentBlock));
  do used <- lift (checked_add currentBlockTaps taps);
  do _ <- require (used <=? MAX_TAPS_PER_BLOCK) "Block limit exceeded";
  do _ <- store (fun w =>
            set_blockTaps (<[(sender, currentBlock) := used]> (blockTaps w)) w);
  do totalPower <- _calculateAndCachePower e sender;
  do scaled <- lift (checked_add totalPower 1);
  do baseTapReward <- lift (checked_mul BASE_REWARD scaled);
  do baseTapReward <-
    (if isCommitReveal then
       do boosted <- lift (checked_mul baseTapReward 110);
       ret (boosted / 100)
     else ret baseTapReward);
  do l <- tap_loop e baseTapReward (Z.to_nat taps) 0
            (mkTapLoop randomSeed 0 false);
  let totalReward := loop_totalReward l in
  do player <- read_player sender;
  do pending <- lift (checked_add (pendingRewards player) totalReward);
  do _ <- write_player sender (set_pendingRewards pending);
  do _ <- write_player sender
            (fun p => set_totalTaps (wrap256 (totalTaps p + taps)) p);
  do _ <- write_player sender (set_lastTapBlock currentBlock);
  do _ <- emit (Tapped sender taps totalReward (loop_hasCritical l));
  ret totalReward.

(** ** External functions *)

Definition commitTap (e : Env) (commitment taps : Z) : M unit :=
  do _ <- whenNotPaused;
  do _ <- require ((0 <? taps) && (taps <=? MAX_TAPS_PER_CALL))
            "Invalid tap count";
  do commit <- read_commit (msg_sender e);
  do _ <- require ((blockNumber commit =? 0) || revealed commit)
            "Pending commitment";
  do _ <- store (fun w =>
            set_commitments
              (<[msg_sender e :=
                   mkCommitData commitment (uint128 (block_number e))
                     (uint128 taps) false]> (commitments w)) w);
  emit (CommitmentMade (msg_sender e) commitment).

Definition revealTap (e : Env) (secret nonce : Z) : M unit :=
  do _ <- whenNotPaused;
  do commit <- read_commit (msg_sender e);
  do _ <- require (0 <? blockNumber commit) "No commitment";
  do _ <- require (negb (revealed commit)) "Already revealed";
  do earliest <- lift (checked_add (blockNumber commit) COMMIT_REVEAL_BLOCKS);
  do _ <- require (earliest <=? block_number e) "Too early";
  (* Check blockhash availability before time window check *)
  do target <- lift (checked_add (blockNumber commit) COMMIT_REVEAL_BLOCKS);
  let blockHash := blockhash e target in
  do _ <- require (negb (blockHash =? 0)) "Block hash not available";
  do latest <- lift (checked_add (blockNumber commit) MAX_REVEAL_DELAY);
  do _ <- require (block_number e <=? latest) "Too late";
  (* Verify commitment *)
  let hash' :=
    keccak256 (encode_address (msg_sender e) ++ encode_uint256 secret ++
               encode_uint256 nonce ++ encode_uint128 (taps commit)) in
  do _ <- require (hash' =? hash commit) "Invalid reveal";
  do _ <- store (fun w =>
            set_commitments
              (<[msg_sender e := set_revealed true (commitments w !!! msg_sender e)]>
                 (commitments w)) w);
  let randomSeed :=
    keccak256 (encode_bytes32 blockHash ++ encode_uint256 secret ++
               encode_uint256 nonce ++ encode_address (msg_sender e)) in
  do reward <- _executeTaps e (uint16 (taps commit)) randomSeed true;
  emit (CommitmentRevealed (msg_sender e) reward).

Definition tapMine (e : Env) (taps : Z) : M unit :=
  do _ <- whenNotPaused;
  do _ <- require ((0 <? taps) && (taps <=? MAX_TAPS_PER_CALL))
            "Invalid tap count";
  do previous <- lift (checked_sub (block_number e) 1);
  let randomSeed :=
    keccak256 (encode_uint256 (block_timestamp e) ++
               encode_uint256 (block_prevrandao e) ++
               encode_address (msg_sender e) ++
               encode_bytes32 (blockhash e previous)) in
  do _ <- _executeTaps e taps randomSeed false;
  ret tt.

Definition withdraw (e : Env) : M unit :=
  do player <- read_player (msg_sender e);
  let amount := pendingRewards player in
  do _ <- require (0 <? amount) "No pending rewards";
  (* Check and update daily limit *)
  let today := block_timestamp e / one_day in
  do day <- view currentDay;
  do _ <- (if negb (today =? day) then
             do _ <- store (set_currentDay today);
             store (set_todaysMinted 0)
           else ret tt);
  do minted <- view todaysMinted;
  do total <- lift (checked_add minted amount);
  do limit <- view dailyMintLimit;
  do _ <- require (total <=? limit) "Daily limit exceeded";
  do total <- lift (checked_add minted amount);
  do _ <- store (set_todaysMinted total);
  do _ <- write_player (msg_sender e) (set_pendingRewards 0);
  do mined <- lift (checked_add (totalMined player) amount);
  do _ <- write_player (msg_sender e) (set_totalMined mined);
  do _ <- (fun w =>
             match mint (this w) (msg_sender e) amount (minerToken w) with
             | Ok t => Ok (tt, set_minerToken t w)
             | Fail err => Fail err
             end);
  emit (Withdrawn (msg_sender e) amount).

(** The duplicate scan of [registerMiner]. *)
Fixpoint require_not_registered (miners : list Z) (tokenId : Z) : Result unit :=
  match miners with
  | [] => Ok tt
  | m :: rest =>
      let? _ := requireR (negb (m =? tokenId)) "Already registered" in
      require_not_registered rest tokenId
  end.

Definition registerMiner (e : Env) (tokenId : Z) : M unit :=
  do tokenOwner <-
    lift (match nft_ownerOf e tokenId with
          | Some o => Ok o
          | None => Fail (CustomError "ERC721NonexistentToken")
          end);
  do _ <- require (tokenOwner =? msg_sender e) "Not the owner";
  do player <- read_player (msg_sender e);
  do _ <- require (Z.of_nat (length (registeredMiners player))
                     <? MAX_REGISTERED_MINERS) "Max miners reached";
  (* Check for duplicates *)
  do _ <- lift (require_not_registered (registeredMiners player) tokenId);
  do _ <- write_player (msg_sender e)
            (fun p => set_registeredMiners (registeredMiners p ++ [tokenId]) p);
  emit (MinerRegistered (msg_sender e) tokenId).

(** The scan of [unregisterMiner]: at the first match the last element is
    written over it and the array is shortened by one. *)
Fixpoint unregister_loop (e : Env) (tokenId : Z) (n i : nat) : M unit :=
  match n with
  | O => throw (Revert "Miner not registered")
  | S n' =>
      do player <- read_player (msg_sender e);
      let miners := registeredMiners player in
      do current <- lift (array_get miners i);
      if current =? tokenId then
        do last <- lift (array_get miners (length miners - 1));
        do _ <- write_player (msg_sender e)
                  (fun p => set_registeredMiners
                              (<[i := last]> (registeredMiners p)) p);
        do _ <- write_player (msg_sender e)
                  (fun p => set_registeredMiners
                              (take (length (registeredMiners p) - 1)
                                 (registeredMiners p)) p);
        emit (MinerUnregistered (msg_sender e) tokenId)
      else unregister_loop e tokenId n' (S i)
  end.

Definition unregisterMiner (e : Env) (tokenId : Z) : M unit :=
  do player <- read_player (msg_sender e);
  unregister_loop e tokenId (length (registeredMiners player)) 0.

Definition upgrade (e : Env) : M unit :=
  do player <- read_player (msg_sender e);
  do _ <- require (level player <? MAX_LEVEL) "Max level reached";
  do next <- lift (checked_add (level player) 1);
  do cost <- lift (checked_mul next UPGRADE_COST_MULTIPLIER);
  do token <- view minerToken;
  do _ <- require (cost <=? balanceOf token (msg_sender e))
            "Insufficient balance";
  do self <- view this;
  do _ <- require (cost <=? allowance token (msg_sender e) self)
            "Insufficient allowance";
  do _ <- (fun w =>
             match burnFrom (this w) (msg_sender e) cost (minerToken w) with
             | Ok t => Ok (tt, set_minerToken t w)
             | Fail err => Fail err
             end);
  do _ <- write_player (msg_sender e)
            (fun p => set_level (uint128 (level p + 1)) p);
  do upgraded <- read_player (msg_sender e);
  emit (PlayerUpgraded (msg_sender e) (level upgraded) cost).

(** ** Admin functions *)

Definition pause (e : Env) : M unit :=
  do _ <- onlyOwner e;
  do _ <- whenNotPaused;
  store (set_paused true).

Definition unpause (e : Env) : M unit :=
  do _ <- onlyOwner e;
  do _ <- whenPaused;
  store (set_paused false).

Definition emergencyPause (e : Env) : M unit :=
  do _ <- onlyOwner e;
  do _ <- whenNotPaused;
  do _ <- store (set_paused true);
  emit (EmergencyPause (msg_sender e)).

Definition setDailyLimit (e : Env) (newLimit : Z) : M unit :=
  do _ <- onlyOwner e;
  do _ <- require (0 <? newLimit) "Invalid limit";
  do _ <- require (newLimit <=? 1000000 * ether) "Limit too high";
  do _ <- store (set_dailyMintLimit newLimit);
  emit (DailyLimitUpdated newLimit).

Definition updateGemReward (e : Env) (gemType : GemType) (bonus dropChance : Z)
    : M unit :=
  do _ <- onlyOwner e;
  do _ <- require (bool_decide (gemType <> NONE)) "Invalid gem";
  do _ <- require (dropChance <=? 100) "Invalid chance";
  do _ <- require (bonus <=? 10000 * 10 ^ 18) "Bonus too high";
  store (fun w =>
    set_gemRewards
      (fun g => if bool_decide (g = gemType)
                then mkGemReward (uint128 bonus) (uint128 dropChance)
                else gemRewards w g) w).

(** The loop of [updateCriticalWeights]: each entry is added to the running
    total and stored before the total is checked. *)
Fixpoint updateCriticalWeights_loop (weights : list Z) (n i : nat) (total : Z)
    : M Z :=
  match n with
  | O => ret total
  | S n' =>
      do weight <- lift (array_get weights i);
      do total <- lift (checked_add total weight);
      do stored <- view criticalWeights;
      do _ <- (if bool_decide (i < length stored)%nat
               then store (set_criticalWeights (<[i := weight]> stored))
               else throw Panic);
      updateCriticalWeights_loop weights n' (S i) total
  end.

Definition updateCriticalWeights (e : Env) (weights : list Z) : M unit :=
  do _ <- onlyOwner e;
  do _ <- require (length weights =? 4)%nat "Invalid weights length";
  do total <- updateCriticalWeights_loop weights (length weights) 0 0;
  require (total =? 100) "Weights must sum to 100".

(** Inherited from Ownable2Step. *)
Definition transferOwnership (e : Env) (newOwner : address) : M unit :=
  do _ <- onlyOwner e;
  store (set_pendingOwner newOwner).

Definition acceptOwnership (e : Env) : M unit :=
  do pending <- view pendingOwner;
  if pending =? msg_sender e then
    do _ <- store (set_pendingOwner 0);
    store (set_owner (msg_sender e))
  else throw (CustomError "OwnableUnauthorizedAccount").

Definition renounceOwnership (e : Env) : M unit :=
  do _ <- onlyOwner e;
  do _ <- store (set_pendingOwner 0);
  store (set_owner 0).

(** ** Deployment, transactions and reachable states *)

Definition initial_gemRewards (g : GemType) : GemReward :=
  match g with
  | NONE => mkGemReward 0 0
  | RUBY => mkGemReward (100 * 10 ^ 18) 70
  | SAPPHIRE => mkGemReward (500 * 10 ^ 18) 25
  | DIAMOND => mkGemReward (2000 * 10 ^ 18) 5
  end.

(** The storage right after the constructor ran in environment [e], for a
    game deployed at [self] over the ledger [token]. *)
Definition constructor (e : Env) (self : address) (token : MinerToken) : World :=
  mkWorld self ∅ ∅ initial_gemRewards ∅ (block_timestamp e / one_day) 0
    MAX_DAILY_MINT [2; 5; 10; 50] [60; 25; 10; 5] false (msg_sender e) 0
    token [].

Inductive Call : Type :=
| CommitTap (commitment taps : Z)
| RevealTap (secret nonce : Z)
| TapMine (taps : Z)
| Withdraw
| RegisterMiner (tokenId : Z)
| UnregisterMiner (tokenId : Z)
| Upgrade
| Pause
| Unpause
| EmergencyPauseCall
| SetDailyLimit (newLimit : Z)
| UpdateGemReward (gemType : GemType) (bonus dropChance : Z)
| UpdateCriticalWeights (weights : list Z)
| TransferOwnership (newOwner : address)
| AcceptOwnership
| RenounceOwnership.

Definition dispatch (e : Env) (c : Call) : M unit :=
  match c with
  | CommitTap commitment taps => commitTap e commitment taps
  | RevealTap secret nonce => revealTap e secret nonce
  | TapMine taps => tapMine e taps
  | Withdraw => withdraw e
  | RegisterMiner tokenId => registerMiner e tokenId
  | UnregisterMiner tokenId => unregisterMiner e tokenId
  | Upgrade => upgrade e
  | Pause => pause e
  | Unpause => unpause e
  | EmergencyPauseCall => emergencyPause e
  | SetDailyLimit newLimit => setDailyLimit e newLimit
  | UpdateGemReward gemType bonus dropChance =>
      updateGemReward e gemType bonus dropChance
  | UpdateCriticalWeights weights => updateCriticalWeights e weights
  | TransferOwnership newOwner => transferOwnership e newOwner
  | AcceptOwnership => acceptOwnership e
  | RenounceOwnership => renounceOwnership e
  end.

(** A transaction: the storage a call leaves behind.  A call that reverts
    leaves the storage it found. *)
Definition transact (e : Env) (c : Call) (w : World) : World :=
  match dispatch e c w with
  | Ok (_, w') => w'
  | Fail _ => w
  end.

(** What the chain guarantees of an environment: a transaction runs in a
    block after genesis, block numbers fit 64 bits, and the registry
    reports powers of type [uint256]. *)
Definition valid_env (e : Env) : Prop :=
  0 < block_number e < 2 ^ 64 /\
  forall tokenId, 0 <= nft_power e tokenId <= MAX_UINT256.

Definition is_uint256 (v : Z) : Prop := 0 <= v <= MAX_UINT256.

(** Calldata is decoded against the ABI before the body runs: the
    arguments of a call lie within their Solidity types. *)
Definition valid_call (c : Call) : Prop :=
  match c with
  | CommitTap commitment taps => is_uint256 commitment /\ 0 <= taps < 2 ^ 16
  | RevealTap secret nonce => is_uint256 secret /\ is_uint256 nonce
  | TapMine taps => 0 <= taps < 2 ^ 16
  | RegisterMiner tokenId => is_uint256 tokenId
  | UnregisterMiner tokenId => is_uint256 tokenId
  | SetDailyLimit newLimit => is_uint256 newLimit
  | UpdateGemReward _ bonus dropChance =>
      is_uint256 bonus /\ is_uint256 dropChance
  | UpdateCriticalWeights weights => Forall is_uint256 weights
  | TransferOwnership newOwner => 0 <= newOwner < 2 ^ 160
  | _ => True
  end.

(** States of the game: deployment, then transactions; the ledger is a
    contract of its own and other parties change it in between. *)
Inductive reachable : World -> Prop :=
| reachable_deploy (e : Env) (self : address) (token : MinerToken) :
    valid_env e -> reachable (constructor e self token)
| reachable_transact (e : Env) (c : Call) (w : World) :
    reachable w -> valid_env e -> valid_call c -> reachable (transact e c w)
| reachable_ledger (t : MinerToken) (w : World) :
    reachable w -> reachable (set_minerToken t w).

(** ** Invariants of the storage *)

Record wf_player (p : PlayerData) : Prop := mk_wf_player {
  wf_level : 0 <= level p <= MAX_LEVEL;
  wf_pendingRewards : is_uint256 (pendingRewards p);
  wf_totalMined : is_uint256 (totalMined p);
  wf_totalTaps : is_uint256 (totalTaps p);
  wf_criticalHits : is_uint256 (criticalHits p);
  wf_tapsSinceCritical : is_uint256 (tapsSinceCritical p);
  wf_no_duplicate : NoDup (registeredMiners p);
  wf_miner_cap :
    Z.of_nat (length (registeredMiners p)) <= MAX_REGISTERED_MINERS
}.

(** A commitment is pending from [commitTap] until its [revealTap]. *)
Definition pending_commit (c : CommitData) : bool :=
  (0 <? blockNumber c) && negb (revealed c).

Record wf_commit (c : CommitData) : Prop := mk_wf_commit {
  wf_blockNumber : 0 <= blockNumber c < 2 ^ 64;
  wf_taps : 0 < blockNumber c -> 0 < taps c <= MAX_TAPS_PER_CALL;
  wf_revealed : revealed c = true -> 0 < blockNumber c
}.

Definition is_commit_of (a : address) (ev : Event) : bool :=
  match ev with
  | CommitmentMade player _ => player =? a
  | _ => false
  end.

Definition is_reveal_of (a : address) (ev : Event) : bool :=
  match ev with
  | CommitmentRevealed player _ => player =? a
  | _ => false
  end.

Definition count_events (f : Event -> bool) (log : list Event) : nat :=
  length (List.filter f log).

(** Commitments of [a] made and not yet revealed, counted on the log. *)
Definition outstanding_commits (a : address) (log : list Event) : Z :=
  Z.of_nat (count_events (is_commit_of a) log)
  - Z.of_nat (count_events (is_reveal_of a) log).

Definition sum_list (l : list Z) : Z := fold_right Z.add 0 l.

Record wf_world (w : World) : Prop := mk_wf_world {
  wf_multipliers : criticalMultipliers w = [2; 5; 10; 50];
  wf_weights_length : length (criticalWeights w) = 4%nat;
  wf_weights_range : Forall (fun x => 0 <= x) (criticalWeights w);
  wf_weights_sum : sum_list (criticalWeights w) = 100;
  wf_gems : forall g,
    0 <= bonus (gemRewards w g) <= 10000 * 10 ^ 18 /\
    0 <= dropChance (gemRewards w g) <= 100;
  wf_players : forall a, wf_player (players w !!! a);
  wf_commits : forall a, wf_commit (commitments w !!! a);
  wf_blockTaps : forall k,
    0 <= mapping_get (blockTaps w) k <= MAX_TAPS_PER_BLOCK;
  wf_log : forall a,
    outstanding_commits a (events w) =
      if pending_commit (commitments w !!! a) then 1 else 0
}.

(** The asset-power sum of a player: the powers of the registered miners
    the registry still reports as the player's. *)
Definition owned_power (e : Env) (a : address) (miners : list Z) : Z :=
  sum_list
    (map (fun tokenId =>
            match nft_ownerOf e tokenId with
            | Some tokenOwner =>
                if tokenOwner =? a then nft_power e tokenId else 0
            | None => 0
            end) miners).

(** The largest bonus in the gem table. *)
Definition max_gem_bonus (w : World) : Z :=
  Z.max (bonus (gemRewards w RUBY))
    (Z.max (bonus (gemRewards w SAPPHIRE)) (bonus (gemRewards w DIAMOND))).

(** The tables a tap reads. *)
Definition config_ok (w : World) : Prop :=
  criticalMultipliers w = [2; 5; 10; 50] /\
  length (criticalWeights w) = 4%nat /\
  Forall (fun x => 0 <= x) (criticalWeights w) /\
  sum_list (criticalWeights w) = 100 /\
  forall g, 0 <= bonus (gemRewards w g) <= 10000 * 10 ^ 18.

(** What the tap loop leaves of a world: the caller's record [p'] and the
    notifications [evs] added to the log. *)
Definition tap_effect (a : address) (p' : PlayerData) (evs : list Event)
    (w : World) : World :=
  set_events (events w ++ evs) (set_players (<[a := p']> (players w)) w).

Definition is_gem_event (a : address) (ev : Event) : Prop :=
  exists g b, ev = GemFound a g b.

(** The caller's record after the bookkeeping that closes [_executeTaps]. *)
Definition tapped_player (bn taps pending : Z) (p : PlayerData) : PlayerData :=
  set_lastTapBlock bn (set_totalTaps (wrap256 (totalTaps p + taps))
    (set_pendingRewards pending p)).

(** The per-batch base reward for a cached power [finalPower]. *)
Definition base_tap_reward (finalPower : Z) (isCommitReveal : bool) : Z :=
  if isCommitReveal then BASE_REWARD * (finalPower + 1) * 110 / 100
  else BASE_REWARD * (finalPower + 1).

(** The storage a successful [_executeTaps] leaves, given what the loop did
    to the caller's critical counters ([ch], [tsc]) and to the log. *)
Definition executed_world (e : Env) (taps reward ch tsc : Z)
    (evs : list Event) (crit : bool) (w : World) : World :=
  let a := msg_sender e in
  let bn := block_number e in
  let p := players w !!! a in
  let finalPower := owned_power e a (registeredMiners p) * (level p + 1) in
  set_events (events w ++ evs ++ [Tapped a taps reward crit])
    (set_players
       (<[a := tapped_player bn taps (pendingRewards p + reward)
                 (set_tapsSinceCritical tsc
                    (set_criticalHits ch
                       (set_totalPower (uint128 finalPower) p)))]> (players w))
       (set_blockTaps
          (<[(a, bn) := mapping_get (blockTaps w) (a, bn) + taps]> (blockTaps w))
          w)).

(** ** A concrete scenario

    A game deployed at address 999 by account 1 over an empty ledger on
    which the game may mint; player 5 owns asset 7 (power 3) in the
    registry. *)
Definition scenario_token : MinerToken := mkMinerToken 0 0 ∅ ∅ {[ 999 ]}.

Definition scenario_env (sender number timestamp : Z) : Env :=
  mkEnv sender number timestamp 7 (fun n => n + 1000)
    (fun tokenId => if tokenId =? 7 then Some 5 else None)
    (fun tokenId => if tokenId =? 7 then 3 else 0).

Definition scenario_world : World :=
  constructor (scenario_env 1 10 1700000000) 999 scenario_token.

(** ** View functions *)

Definition getPlayerData (playerAddress : address) (w : World) : PlayerData :=
  players w !!! playerAddress.

Definition getRegisteredMiners (playerAddress : address) (w : World) : list Z :=
  registeredMiners (players w !!! playerAddress).

Definition getCommitment (playerAddress : address) (w : World) : CommitData :=
  commitments w !!! playerAddress.

(** ** Rewards on the log

    What the [Tapped] notifications credited to a player and what the
    [Withdrawn] notifications paid out. *)
Definition tapped_reward (a : address) (ev : Event) : Z :=
  match ev with
  | Tapped player _ reward _ => if player =? a then reward else 0
  | _ => 0
  end.

Definition withdrawn_amount (a : address) (ev : Event) : Z :=
  match ev with
  | Withdrawn player amount => if player =? a then amount else 0
  | _ => 0
  end.

Definition credited (a : address) (log : list Event) : Z :=
  sum_list (map (tapped_reward a) log).

Definition paid_out (a : address) (log : list Event) : Z :=
  sum_list (map (withdrawn_amount a) log).

(** The calls guarded by [onlyOwner]. *)
Definition is_admin_call (c : Call) : bool :=
  match c with
  | Pause | Unpause | EmergencyPauseCall | SetDailyLimit _
  | UpdateGemReward _ _ _ | UpdateCriticalWeights _
  | TransferOwnership _ | RenounceOwnership => true
  | _ => false
  end.

(** The outcome of a call with [f] applied to the storage it leaves. *)
Definition map_world {A : Type} (f : World -> World) (r : Result (A * World))
    : Result (A * World) :=
  match r with
  | Ok (a, w) => Ok (a, f w)
  | Fail err => Fail err
  end.

(** ** More of the scenario *)

(** A ledger on which player 5 holds 500 tokens and has approved the game at
    address 999 for as much. *)
Definition funded_token : MinerToken :=
  mkMinerToken (500 * 10 ^ 18) (500 * 10 ^ 18) {[ 5 := 500 * 10 ^ 18 ]}
    {[ (5, 999) := 500 * 10 ^ 18 ]} {[ 999 ]}.

(** ** A batch, tap by tap

    The loop of [_executeTaps] read as a list.  Tap [i] rolls on the
    sub-seed hashed from the sub-seed of the tap before it (the seed of the
    batch for the first tap) and from [i]; what it does depends on that
    sub-seed and on the caller's dry streak, [tapsSinceCritical], as the taps
    before it left it. *)
Record Tap : Type := mkTap {
  tap_index : Z;
  tap_subSeed : Z;
  tap_streak : Z
}.

(** The pity bonus the tap is given. *)
Definition pity_of (t : Tap) : Z :=
  match _calculatePityBonus (tap_streak t) with
  | Ok pity => pity
  | Fail _ => 0
  end.

Definition is_critical (t : Tap) : bool :=
  tap_subSeed t mod 100 <? CRITICAL_BASE_CHANCE + pity_of t.

(** The caller's dry streak and critical hits after the tap. *)
Definition streak_after (t : Tap) : Z :=
  if is_critical t then 0 else wrap256 (tap_streak t + 1).

Definition hits_after (hits : Z) (t : Tap) : Z :=
  if is_critical t then wrap256 (hits + 1) else hits.

Fixpoint batch_taps (n : nat) (i seed streak : Z) : list Tap :=
  match n with
  | O => []
  | S n' =>
      let t :=
        mkTap i (keccak256 (encode_uint256 seed ++ encode_uint16 i)) streak in
      t :: batch_taps n' (uint16 (i + 1)) (tap_subSeed t) (streak_after t)
  end.

Definition final_streak (ts : list Tap) (streak : Z) : Z :=
  fold_left (fun _ t => streak_after t) ts streak.

Definition final_hits (ts : list Tap) (hits : Z) : Z :=
  fold_left hits_after ts hits.

(** The multiplier and the gem of a critical tap, and what a tap pays when
    the reward of a plain tap in its batch is [base]. *)
Definition multiplier_of (w : World) (t : Tap) : Z :=
  match _selectMultiplier w (tap_subSeed t) with
  | Ok multiplier => multiplier
  | Fail _ => 0
  end.

Definition gem_of (w : World) (t : Tap) : GemType :=
  if tap_subSeed t mod 100 <? 5 then
    match _selectGem w (Z.shiftr (tap_subSeed t) 8) with
    | Ok gem => gem
    | Fail _ => NONE
    end
  else NONE.

Definition tap_pays (w : World) (base : Z) (t : Tap) : Z :=
  if is_critical t then
    base * multiplier_of w t
    + (if bool_decide (gem_of w t <> NONE)
       then bonus (gemRewards w (gem_of w t)) else 0)
  else base.

Lemma checked_add_ok a b : a + b <= MAX_UINT256 -> checked_add a b = Ok (a + b).
Proof. intros H. unfold checked_add. destruct (Z.leb_spec (a + b) MAX_UINT256); [done | lia]. Qed.
Lemma checked_mul_ok a b : a * b <= MAX_UINT256 -> checked_mul a b = Ok (a * b).
Proof. intros H. unfold checked_mul. destruct (Z.leb_spec (a * b) MAX_UINT256); [done | lia]. Qed.
Lemma checked_sub_ok a b : b <= a -> checked_sub a b = Ok (a - b).
Proof. intros H. unfold checked_sub. destruct (Z.leb_spec b a); [done | lia]. Qed.

Lemma MAX_UINT256_big : 10 ^ 30 < MAX_UINT256.
Proof. reflexivity. Qed.

Lemma config_weights w :
  config_ok w ->
  exists a b c d, criticalWeights w = [a; b; c; d] /\
    0 <= a /\ 0 <= b /\ 0 <= c /\ 0 <= d /\ a + b + c + d = 100.
Proof.
  intros (_ & Hlen & Hpos & Hsum & _).
  destruct (criticalWeights w) as [| a [| b [| c [| d [| ? ?]]]]]; try discriminate.
  exists a, b, c, d. split; [done |].
  repeat match goal with H : Forall _ (_ :: _) |- _ => apply Forall_cons in H as [? H] end.
  unfold sum_list in Hsum. cbn in Hsum. lia.
Qed.

Lemma selectMultiplier_ok w seed :
  config_ok w ->
  exists m, _selectMultiplier w seed = Ok m /\ (m = 2 \/ m = 5 \/ m = 10 \/ m = 50).
Proof.
  intros Hc. destruct (config_weights w Hc) as (a & b & c & d & Hw & ? & ? & ? & ? & ?).
  destruct Hc as (Hm & _).
  pose proof MAX_UINT256_big.
  unfold _selectMultiplier, _selectMultiplier_loop. rewrite Hw, Hm.
  unfold array_get. cbn [lookup list_lookup bindR].
  rewrite (checked_add_ok 0 a) by lia. cbn [bindR].
  destruct (Z.ltb_spec (seed mod 100) (0 + a)); [eauto |].
  rewrite (checked_add_ok (0 + a) b) by lia. cbn [bindR].
  destruct (Z.ltb_spec (seed mod 100) (0 + a + b)); [eauto 6 |].
  rewrite (checked_add_ok (0 + a + b) c) by lia. cbn [bindR].
  destruct (Z.ltb_spec (seed mod 100) (0 + a + b + c)); [eauto 6 |].
  rewrite (checked_add_ok (0 + a + b + c) d) by lia. cbn [bindR].
  destruct (Z.ltb_spec (seed mod 100) (0 + a + b + c + d)); eauto 6.
Qed.

Lemma selectGem_ok w seed : exists g, _selectGem w seed = Ok g.
Proof.
  unfold _selectGem.
  destruct (Z.ltb_spec (seed mod 100) (dropChance (gemRewards w RUBY))); [eauto |].
  rewrite checked_sub_ok by lia. cbn [bindR].
  destruct (Z.ltb_spec (seed mod 100 - dropChance (gemRewards w RUBY))
              (dropChance (gemRewards w SAPPHIRE))); [eauto |].
  rewrite checked_sub_ok by lia. cbn [bindR].
  destruct (Z.ltb_spec (seed mod 100 - dropChance (gemRewards w RUBY)
                        - dropChance (gemRewards w SAPPHIRE))
              (dropChance (gemRewards w DIAMOND))); eauto.
Qed.

Lemma gem_bonus_le_max w g : g <> NONE -> bonus (gemRewards w g) <= max_gem_bonus w.
Proof. intros Hg. unfold max_gem_bonus. destruct g; [done | lia ..]. Qed.

Lemma max_gem_bonus_range w : config_ok w -> 0 <= max_gem_bonus w <= 10000 * 10 ^ 18.
Proof.
  intros (_ & _ & _ & _ & Hg). unfold max_gem_bonus.
  pose proof (Hg RUBY). pose proof (Hg SAPPHIRE). pose proof (Hg DIAMOND). lia.
Qed.

Ltac monad_unfold :=
  unfold read_player, write_player, read_commit, emit, whenNotPaused,
    whenPaused, onlyOwner, require, bind, ret, throw, lift, view, viewR,
    store in *.

Ltac world_simpl :=
  cbn [this players blockTaps gemRewards commitments currentDay todaysMinted
       dailyMintLimit criticalMultipliers criticalWeights paused owner
       pendingOwner minerToken events
       set_events set_players set_blockTaps set_commitments set_minerToken
       set_currentDay set_todaysMinted set_dailyMintLimit set_criticalWeights
       set_gemRewards set_paused set_owner set_pendingOwner].

Tactic Notation "world_simpl" "in" hyp(H) :=
  cbn [this players blockTaps gemRewards commitments currentDay todaysMinted
       dailyMintLimit criticalMultipliers criticalWeights paused owner
       pendingOwner minerToken events
       set_events set_players set_blockTaps set_commitments set_minerToken
       set_currentDay set_todaysMinted set_dailyMintLimit set_criticalWeights
       set_gemRewards set_paused set_owner set_pendingOwner] in H.

Ltac run :=
  repeat first [ progress monad_unfold | progress simplify_eq | case_match ].

Ltac boolify :=
  repeat match goal with
  | H : (_ && _) = true |- _ => apply andb_true_iff in H as [? ?]
  | H : negb _ = true |- _ => apply negb_true_iff in H
  | H : negb _ = false |- _ => apply negb_false_iff in H
  | H : (_ <? _) = true |- _ => apply Z.ltb_lt in H
  | H : (_ <? _) = false |- _ => apply Z.ltb_ge in H
  | H : (_ <=? _) = true |- _ => apply Z.leb_le in H
  | H : (_ <=? _) = false |- _ => apply Z.leb_gt in H
  | H : (_ =? _) = true |- _ => apply Z.eqb_eq in H
  | H : (_ =? _) = false |- _ => apply Z.eqb_neq in H
  | H : bool_decide _ = true |- _ => apply bool_decide_eq_true in H
  | H : bool_decide _ = false |- _ => apply bool_decide_eq_false in H
  end.

Lemma wrap256_range v : is_uint256 (wrap256 v).
Proof.
  unfold is_uint256, wrap256, MAX_UINT256.
  pose proof (Z.mod_pos_bound v (2 ^ 256) ltac:(reflexivity)). lia.
Qed.

Lemma wrap256_small v : is_uint256 v -> wrap256 v = v.
Proof. unfold is_uint256, wrap256, MAX_UINT256. intros. apply Z.mod_small. lia. Qed.

Lemma checked_add_inv a b c : checked_add a b = Ok c -> c = a + b /\ a + b <= MAX_UINT256.
Proof. unfold checked_add. intros H. case_match; simplify_eq. boolify. done. Qed.
Lemma checked_mul_inv a b c : checked_mul a b = Ok c -> c = a * b /\ a * b <= MAX_UINT256.
Proof. unfold checked_mul. intros H. case_match; simplify_eq. boolify. done. Qed.
Lemma checked_sub_inv a b c : checked_sub a b = Ok c -> c = a - b /\ b <= a.
Proof. unfold checked_sub. intros H. case_match; simplify_eq. boolify. done. Qed.

Lemma tap_effect_nil a p w :
  players w !! a = Some p -> tap_effect a p [] w = w.
Proof.
  intros H. unfold tap_effect, set_events, set_players. destruct w; cbn in *.
  rewrite app_nil_r, insert_id by done. reflexivity.
Qed.

Lemma tap_effect_compose a p1 evs1 p2 evs2 w :
  tap_effect a p2 evs2 (tap_effect a p1 evs1 w) = tap_effect a p2 (evs1 ++ evs2) w.
Proof.
  unfold tap_effect, set_events, set_players. cbn.
  rewrite insert_insert_eq, app_assoc. reflexivity.
Qed.

Lemma tap_effect_nil' a p w :
  tap_effect a p [] w = set_players (<[a := p]> (players w)) w.
Proof. unfold tap_effect, set_events, set_players. cbn. by rewrite app_nil_r. Qed.

Lemma tap_roll_run e base rs total hc w p :
  players w !! msg_sender e = Some p ->
  tap_roll e base rs total hc w =
    let a := msg_sender e in
    let? pity := _calculatePityBonus (tapsSinceCritical p) in
    let? critChance := checked_add CRITICAL_BASE_CHANCE pity in
    if rs mod 100 <? critChance then
      let p' := set_tapsSinceCritical 0
                  (set_criticalHits (wrap256 (criticalHits p + 1)) p) in
      let? multiplier := _selectMultiplier w rs in
      let? tapReward := checked_mul base multiplier in
      if rs mod 100 <? 5 then
        let? gem := _selectGem w (Z.shiftr rs 8) in
        if bool_decide (gem <> NONE) then
          let gemBonus := bonus (gemRewards w gem) in
          let? tapReward := checked_add tapReward gemBonus in
          let? totalReward := checked_add total tapReward in
          Ok (mkTapLoop rs totalReward true,
              tap_effect a p' [GemFound a gem gemBonus] w)
        else
          let? totalReward := checked_add total tapReward in
          Ok (mkTapLoop rs totalReward true, tap_effect a p' [] w)
      else
        let? totalReward := checked_add total tapReward in
        Ok (mkTapLoop rs totalReward true, tap_effect a p' [] w)
    else
      let? totalReward := checked_add total base in
      Ok (mkTapLoop rs totalReward hc,
          tap_effect a
            (set_tapsSinceCritical (wrap256 (tapsSinceCritical p + 1)) p) [] w).
Proof.
  intros Hp.
  assert (Hpt : players w !!! msg_sender e = p) by (by apply lookup_total_correct).
  unfold tap_roll. monad_unfold. cbv beta zeta. rewrite Hpt.
  destruct (_calculatePityBonus (tapsSinceCritical p)) as [pity |]; [| done].
  cbn [bindR]. destruct (checked_add CRITICAL_BASE_CHANCE pity) as [cc |]; [| done].
  cbn [bindR]. destruct (rs mod 100 <? cc).
  - destruct (_selectMultiplier w rs) as [m |]; [| done]. cbn [bindR].
    destruct (checked_mul base m) as [tr |]; [| done]. cbn [bindR].
    cbn [players set_players]. rewrite Hpt, !lookup_total_insert_eq, insert_insert_eq.
    destruct (rs mod 100 <? 5).
    + change (_selectGem (set_players _ _) (Z.shiftr rs 8)) with (_selectGem w (Z.shiftr rs 8)).
      destruct (_selectGem w (Z.shiftr rs 8)) as [g |]; [| done]. cbn [bindR].
      destruct (bool_decide (g <> NONE)).
      * cbn [gemRewards set_players]. monad_unfold.
        destruct (checked_add tr (bonus (gemRewards w g))) as [tr' |]; [| done].
        cbn [bindR fst snd]. destruct (checked_add total tr') as [tot |]; done.
      * cbn [bindR fst snd]. rewrite tap_effect_nil'.
        destruct (checked_add total tr) as [tot |]; done.
    + cbn [bindR fst snd]. rewrite tap_effect_nil'.
      destruct (checked_add total tr) as [tot |]; done.
  - cbn [bindR fst snd]. rewrite ?Hpt, tap_effect_nil'.
    destruct (checked_add total base) as [tot |]; done.
Qed.

Lemma pity_bonus_ok n :
  n <= 2 ^ 255 + 49 -> exists z, _calculatePityBonus n = Ok z /\ 0 <= z <= MAX_PITY_BONUS.
Proof.
  intros Hn. unfold _calculatePityBonus.
  destruct (Z.leb_spec n PITY_THRESHOLD) as [Hle | Hgt].
  - exists 0. split; [done | unfold MAX_PITY_BONUS; lia].
  - rewrite checked_sub_ok by lia. cbn [bindR].
    rewrite checked_mul_ok.
    2:{ unfold PITY_THRESHOLD, PITY_INCREMENT in *. unfold MAX_UINT256.
        change (2 ^ 256) with (2 * 2 ^ 255). lia. }
    cbn [bindR]. eexists. split; [reflexivity |].
    unfold PITY_THRESHOLD, PITY_INCREMENT, MAX_PITY_BONUS in *.
    destruct (Z.gtb_spec ((n - 50) * 2) 50); lia.
Qed.

Lemma pity_bonus_inv n z : _calculatePityBonus n = Ok z -> 0 <= z <= MAX_PITY_BONUS.
Proof.
  unfold _calculatePityBonus. intros H.
  destruct (Z.leb_spec n PITY_THRESHOLD) as [Hle | Hgt].
  - simplify_eq. unfold MAX_PITY_BONUS. lia.
  - destruct (checked_sub n PITY_THRESHOLD) as [d |] eqn:Hd; [| done].
    apply checked_sub_inv in Hd as [-> _]. cbn [bindR] in H.
    destruct (checked_mul (n - PITY_THRESHOLD) PITY_INCREMENT) as [b |] eqn:Hb; [| done].
    apply checked_mul_inv in Hb as [-> _]. cbn [bindR] in H. simplify_eq.
    unfold PITY_THRESHOLD, PITY_INCREMENT, MAX_PITY_BONUS in *.
    destruct (Z.gtb_spec ((n - 50) * 2) 50); lia.
Qed.

Lemma config_gem_nonneg w g : config_ok w -> 0 <= bonus (gemRewards w g).
Proof. intros (_ & _ & _ & _ & Hg). apply Hg. Qed.

Lemma tap_roll_inv e base rs total hc w p l' w' :
  config_ok w -> players w !! msg_sender e = Some p -> 0 <= base ->
  tap_roll e base rs total hc w = Ok (l', w') ->
  exists reward crit ch tsc evs,
    l' = mkTapLoop rs (total + reward) crit /\
    w' = tap_effect (msg_sender e)
           (set_tapsSinceCritical tsc (set_criticalHits ch p)) evs w /\
    base <= reward <= 50 * base + max_gem_bonus w /\
    total + reward <= MAX_UINT256 /\
    (is_uint256 (criticalHits p) -> is_uint256 ch) /\
    is_uint256 tsc /\
    (is_uint256 (tapsSinceCritical p) -> tsc <= tapsSinceCritical p + 1) /\
    Forall (is_gem_event (msg_sender e)) evs.
Proof.
  intros Hc Hp Hbase Hrun.
  pose proof (max_gem_bonus_range w Hc) as HG.
  rewrite (tap_roll_run _ _ _ _ _ _ _ Hp) in Hrun. cbv zeta in Hrun.
  destruct (_calculatePityBonus (tapsSinceCritical p)) as [pity |]; [| done].
  cbn [bindR] in Hrun.
  destruct (checked_add CRITICAL_BASE_CHANCE pity) as [cc |]; [| done].
  cbn [bindR] in Hrun.
  assert (Hzero : is_uint256 0) by (unfold is_uint256, MAX_UINT256; lia).
  destruct (rs mod 100 <? cc).
  - destruct (selectMultiplier_ok w rs Hc) as (m & Hm & Hcases).
    rewrite Hm in Hrun. cbn [bindR] in Hrun.
    destruct (checked_mul base m) as [tr |] eqn:Htr; [| done].
    apply checked_mul_inv in Htr as [-> Htr]. cbn [bindR] in Hrun.
    assert (Hmb : base <= base * m <= 50 * base) by nia.
    destruct (rs mod 100 <? 5).
    + destruct (_selectGem w (Z.shiftr rs 8)) as [g |]; [| done].
      cbn [bindR] in Hrun.
      destruct (bool_decide (g <> NONE)) eqn:Hg.
      * apply bool_decide_eq_true in Hg.
        destruct (checked_add (base * m) (bonus (gemRewards w g))) as [tr' |] eqn:Htr';
          [| done].
        apply checked_add_inv in Htr' as [-> Htr']. cbn [bindR] in Hrun.
        destruct (checked_add total (base * m + bonus (gemRewards w g))) as [tot |] eqn:Htot;
          [| done].
        apply checked_add_inv in Htot as [-> Htot]. cbn [bindR] in Hrun. simplify_eq.
        pose proof (gem_bonus_le_max w g Hg). pose proof (config_gem_nonneg w g Hc).
        eexists _, true, _, 0, [_].
        split; [reflexivity |]. split; [reflexivity |].
        split; [lia |]. split; [lia |].
        split; [intros _; apply wrap256_range |]. split; [exact Hzero |].
        split; [intros [? ?]; lia |].
        repeat constructor. by eexists _, _.
      * destruct (checked_add total (base * m)) as [tot |] eqn:Htot; [| done].
        apply checked_add_inv in Htot as [-> Htot]. cbn [bindR] in Hrun. simplify_eq.
        eexists _, true, _, 0, [].
        split; [reflexivity |]. split; [reflexivity |].
        split; [lia |]. split; [lia |].
        split; [intros _; apply wrap256_range |]. split; [exact Hzero |].
        split; [intros [? ?]; lia | constructor].
    + destruct (checked_add total (base * m)) as [tot |] eqn:Htot; [| done].
      apply checked_add_inv in Htot as [-> Htot]. cbn [bindR] in Hrun. simplify_eq.
      eexists _, true, _, 0, [].
      split; [reflexivity |]. split; [reflexivity |].
      split; [lia |]. split; [lia |].
      split; [intros _; apply wrap256_range |]. split; [exact Hzero |].
      split; [intros [? ?]; lia | constructor].
  - destruct (checked_add total base) as [tot |] eqn:Htot; [| done].
    apply checked_add_inv in Htot as [-> Htot]. cbn [bindR] in Hrun. simplify_eq.
    exists base, hc, (criticalHits p), (wrap256 (tapsSinceCritical p + 1)), [].
    split; [reflexivity |]. split; [f_equal; by destruct p |].
    pose proof (max_gem_bonus_range w Hc).
    split; [lia |]. split; [lia |].
    split; [done |]. split; [apply wrap256_range |].
    split; [| constructor].
    intros [H0 H1]. unfold wrap256.
    destruct (Z.eq_dec (tapsSinceCritical p) MAX_UINT256) as [-> | Hne].
    + vm_compute. discriminate.
    + rewrite Z.mod_small; unfold MAX_UINT256 in *; lia.
Qed.

Lemma tap_roll_succeeds e base rs total hc w p :
  config_ok w -> players w !! msg_sender e = Some p ->
  tapsSinceCritical p <= 2 ^ 255 + 49 -> 0 <= base ->
  total + 50 * base + max_gem_bonus w <= MAX_UINT256 -> 0 <= total ->
  exists r, tap_roll e base rs total hc w = Ok r.
Proof.
  intros Hc Hp Htsc Hbase Hroom Htot.
  pose proof (max_gem_bonus_range w Hc) as HG.
  rewrite (tap_roll_run _ _ _ _ _ _ _ Hp). cbv zeta.
  destruct (pity_bonus_ok _ Htsc) as (pity & -> & Hpity). cbn [bindR].
  pose proof MAX_UINT256_big.
  rewrite checked_add_ok by (unfold CRITICAL_BASE_CHANCE, MAX_PITY_BONUS in *; lia).
  cbn [bindR]. destruct (rs mod 100 <? CRITICAL_BASE_CHANCE + pity).
  - destruct (selectMultiplier_ok w rs Hc) as (m & -> & Hcases). cbn [bindR].
    assert (Hmb : base <= base * m <= 50 * base) by nia.
    rewrite checked_mul_ok by lia. cbn [bindR].
    destruct (rs mod 100 <? 5).
    + destruct (selectGem_ok w (Z.shiftr rs 8)) as (g & ->). cbn [bindR].
      destruct (bool_decide (g <> NONE)) eqn:Hg.
      * apply bool_decide_eq_true in Hg.
        pose proof (gem_bonus_le_max w g Hg). pose proof (config_gem_nonneg w g Hc).
        rewrite checked_add_ok by lia. cbn [bindR].
        rewrite checked_add_ok by lia. cbn [bindR]. eauto.
      * rewrite checked_add_ok by lia. cbn [bindR]. eauto.
    + rewrite checked_add_ok by lia. cbn [bindR]. eauto.
  - rewrite checked_add_ok by lia. cbn [bindR]. eauto.
Qed.

Lemma config_ok_tap_effect a p evs w : config_ok (tap_effect a p evs w) <-> config_ok w.
Proof. reflexivity. Qed.

Lemma max_gem_bonus_tap_effect a p evs w :
  max_gem_bonus (tap_effect a p evs w) = max_gem_bonus w.
Proof. reflexivity. Qed.

Lemma tap_effect_lookup a p evs w : players (tap_effect a p evs w) !! a = Some p.
Proof. unfold tap_effect. cbn. apply lookup_insert_eq. Qed.

Lemma tap_loop_inv e base n : forall i l w p l' w',
  config_ok w -> players w !! msg_sender e = Some p -> 0 <= base ->
  is_uint256 (criticalHits p) -> is_uint256 (tapsSinceCritical p) ->
  tap_loop e base n i l w = Ok (l', w') ->
  exists ch tsc evs,
    w' = tap_effect (msg_sender e)
           (set_tapsSinceCritical tsc (set_criticalHits ch p)) evs w /\
    is_uint256 ch /\ is_uint256 tsc /\
    tsc <= tapsSinceCritical p + Z.of_nat n /\
    Forall (is_gem_event (msg_sender e)) evs /\
    loop_totalReward l + Z.of_nat n * base <= loop_totalReward l' /\
    loop_totalReward l' <=
      loop_totalReward l + Z.of_nat n * (50 * base + max_gem_bonus w) /\
    (n <> O -> loop_totalReward l' <= MAX_UINT256).
Proof.
  induction n as [| n IH]; intros i l w p l' w' Hc Hp Hbase Hch Htsc Hrun.
  - cbn in Hrun. unfold ret in Hrun. simplify_eq.
    exists (criticalHits p), (tapsSinceCritical p), [].
    split.
    { replace (set_tapsSinceCritical _ _) with p by (by destruct p).
      symmetry. by apply tap_effect_nil. }
    repeat (split; [first [done | constructor | lia] |]). done.
  - cbn [tap_loop] in Hrun. unfold bind at 1 in Hrun.
    destruct (tap_iteration e base i l w) as [[l1 w1] |] eqn:Hit; [| done].
    unfold tap_iteration in Hit.
    apply (tap_roll_inv _ _ _ _ _ _ p) in Hit
      as (reward & crit & ch1 & tsc1 & evs1 & -> & -> & Hrew & Hfit & Hch1 & Htsc1 & Hstep & Hev1);
      [| done ..].
    apply (IH _ _ _ (set_tapsSinceCritical tsc1 (set_criticalHits ch1 p))) in Hrun
      as (ch & tsc & evs & -> & Hch' & Htsc' & Hbound & Hev & Hlo & Hhi & Hmax);
      [| done | apply tap_effect_lookup | done | cbn; auto | cbn; auto].
    rewrite tap_effect_compose.
    cbn [loop_totalReward tapsSinceCritical set_tapsSinceCritical set_criticalHits] in *.
    rewrite max_gem_bonus_tap_effect in Hhi. rewrite Nat2Z.inj_succ.
    exists ch, tsc, (evs1 ++ evs).
    split; [reflexivity |]. split; [done |]. split; [done |].
    split; [specialize (Hstep Htsc); lia |].
    split; [by apply Forall_app |].
    pose proof (max_gem_bonus_range w Hc).
    split; [lia |]. split; [lia |].
    intros _. destruct n as [| n'].
    + assert (loop_totalReward l' = loop_totalReward l + reward) by lia. lia.
    + apply Hmax. done.
Qed.

Lemma tap_loop_succeeds e base n : forall i l w p,
  config_ok w -> players w !! msg_sender e = Some p -> 0 <= base ->
  is_uint256 (tapsSinceCritical p) ->
  tapsSinceCritical p + Z.of_nat n <= 2 ^ 255 + 50 ->
  0 <= loop_totalReward l ->
  loop_totalReward l + Z.of_nat n * (50 * base + max_gem_bonus w) <= MAX_UINT256 ->
  exists r, tap_loop e base n i l w = Ok r.
Proof.
  induction n as [| n IH]; intros i l w p Hc Hp Hbase Htsc Hpity Hl Hroom.
  - cbn. unfold ret. eauto.
  - pose proof (max_gem_bonus_range w Hc) as HG.
    cbn [tap_loop]. unfold bind at 1. unfold tap_iteration.
    destruct (tap_roll_succeeds e base
                (keccak256 (encode_uint256 (loop_randomSeed l) ++ encode_uint16 i))
                (loop_totalReward l) (loop_hasCritical l) w p) as ([l1 w1] & Hroll);
      [done | done | rewrite Nat2Z.inj_succ in Hpity; destruct Htsc; lia | done
      | rewrite Nat2Z.inj_succ in Hroom; nia | done |].
    rewrite Hroll.
    apply (tap_roll_inv _ _ _ _ _ _ p) in Hroll
      as (reward & crit & ch1 & tsc1 & evs1 & -> & -> & Hrew & Hfit & Hch1 & Htsc1 & Hstep & Hev1);
      [| done ..].
    apply (IH _ _ _ (set_tapsSinceCritical tsc1 (set_criticalHits ch1 p))).
    + done.
    + apply tap_effect_lookup.
    + done.
    + done.
    + cbn [tapsSinceCritical set_tapsSinceCritical set_criticalHits].
      specialize (Hstep Htsc). rewrite Nat2Z.inj_succ in Hpity. lia.
    + cbn [loop_totalReward]. lia.
    + cbn [loop_totalReward]. rewrite max_gem_bonus_tap_effect.
      rewrite Nat2Z.inj_succ in Hroom. nia.
Qed.

Lemma owned_power_nonneg e a miners :
  (forall t, 0 <= nft_power e t) -> 0 <= owned_power e a miners.
Proof.
  intros Hpow. unfold owned_power, sum_list.
  induction miners as [| t rest IH]; cbn; [lia |].
  destruct (nft_ownerOf e t) as [o |]; [destruct (o =? a) |]; specialize (Hpow t); lia.
Qed.

Lemma sum_owned_power_inv e a miners : forall acc r,
  sum_owned_power e a miners acc = Ok r -> r = acc + owned_power e a miners.
Proof.
  unfold owned_power, sum_list.
  induction miners as [| t rest IH]; intros acc r H; cbn in *.
  - simplify_eq. lia.
  - destruct (nft_ownerOf e t) as [o |]; [destruct (o =? a) |]; cbn [bindR] in H.
    + destruct (checked_add acc (nft_power e t)) as [acc' |] eqn:Ha; [| done].
      apply checked_add_inv in Ha as [-> _]. cbn [bindR] in H.
      apply IH in H. lia.
    + apply IH in H. lia.
    + apply IH in H. lia.
Qed.

Lemma sum_owned_power_ok e a miners : forall acc,
  (forall t, 0 <= nft_power e t) ->
  acc + owned_power e a miners <= MAX_UINT256 ->
  sum_owned_power e a miners acc = Ok (acc + owned_power e a miners).
Proof.
  induction miners as [| t rest IH]; intros acc Hpow Hfit.
  - cbn. unfold owned_power, sum_list. cbn. f_equal. lia.
  - pose proof (owned_power_nonneg e a rest Hpow) as Hrest.
    unfold owned_power, sum_list in *. cbn in *.
    destruct (nft_ownerOf e t) as [o |]; [destruct (o =? a) |]; cbn [bindR].
    + rewrite checked_add_ok by lia. cbn [bindR]. rewrite IH by (done || lia).
      f_equal. lia.
    + rewrite IH by (done || lia). f_equal.
    + rewrite IH by (done || lia). f_equal.
Qed.

(** The world after the power cache and the tap counter were written. *)
Lemma calculateAndCachePower_run e a w :
  _calculateAndCachePower e a w =
    let p := players w !!! a in
    let? totalPower := sum_owned_power e a (registeredMiners p) 0 in
    let? next := checked_add (level p) 1 in
    let? finalPower := checked_mul totalPower next in
    if finalPower <=? MAX_UINT128 then
      Ok (finalPower,
          set_players (<[a := set_totalPower (uint128 finalPower) p]> (players w)) w)
    else Fail (Revert "Total power overflow").
Proof.
  unfold _calculateAndCachePower. monad_unfold. cbv beta zeta.
  destruct (sum_owned_power e a (registeredMiners (players w !!! a)) 0) as [tp |]; [| done].
  cbn [bindR]. destruct (checked_add (level (players w !!! a)) 1) as [next |]; [| done].
  cbn [bindR]. destruct (checked_mul tp next) as [fp |]; [| done].
  cbn [bindR]. destruct (fp <=? MAX_UINT128); done.
Qed.


Lemma executeTaps_run e taps seed cr w :
  _executeTaps e taps seed cr w =
    let a := msg_sender e in
    let bn := block_number e in
    let p := players w !!! a in
    let? used := checked_add (mapping_get (blockTaps w) (a, bn)) taps in
    if used <=? MAX_TAPS_PER_BLOCK then
      let? totalPower := sum_owned_power e a (registeredMiners p) 0 in
      let? next := checked_add (level p) 1 in
      let? finalPower := checked_mul totalPower next in
      if finalPower <=? MAX_UINT128 then
        let w2 :=
          set_players (<[a := set_totalPower (uint128 finalPower) p]> (players w))
            (set_blockTaps (<[(a, bn) := used]> (blockTaps w)) w) in
        let? scaled := checked_add finalPower 1 in
        let? base := checked_mul BASE_REWARD scaled in
        let? base :=
          (if cr then let? boosted := checked_mul base 110 in Ok (boosted / 100)
           else Ok base) in
        match tap_loop e base (Z.to_nat taps) 0 (mkTapLoop seed 0 false) w2 with
        | Ok (l, w3) =>
            let p3 := players w3 !!! a in
            let? pending := checked_add (pendingRewards p3) (loop_totalReward l) in
            Ok (loop_totalReward l,
                set_events
                  (events w3 ++ [Tapped a taps (loop_totalReward l) (loop_hasCritical l)])
                  (set_players (<[a := tapped_player bn taps pending p3]> (players w3)) w3))
        | Fail err => Fail err
        end
      else Fail (Revert "Total power overflow")
    else Fail (Revert "Block limit exceeded").
Proof.
  unfold _executeTaps. cbv zeta. unfold bind at 1. unfold view at 1.
  unfold bind at 1. unfold lift at 1.
  destruct (checked_add (mapping_get (blockTaps w) (msg_sender e, block_number e)) taps)
    as [used |]; [| done].
  cbn [bindR]. unfold bind at 1. unfold require at 1.
  destruct (used <=? MAX_TAPS_PER_BLOCK); [| done].
  unfold ret at 1. unfold bind at 1. unfold store at 1.
  unfold bind at 1. rewrite calculateAndCachePower_run. cbv zeta.
  cbn [players set_blockTaps].
  destruct (sum_owned_power e (msg_sender e) _ 0) as [tp |]; [| done].
  cbn [bindR]. destruct (checked_add (level (players w !!! msg_sender e)) 1) as [next |]; [| done].
  cbn [bindR]. destruct (checked_mul tp next) as [fp |]; [| done].
  cbn [bindR]. destruct (fp <=? MAX_UINT128); [| done].
  unfold bind at 1. unfold lift at 1.
  destruct (checked_add fp 1) as [scaled |]; [| done]. cbn [bindR].
  unfold bind at 1. unfold lift at 1.
  destruct (checked_mul BASE_REWARD scaled) as [base |]; [| done]. cbn [bindR].
  unfold bind at 1.
  assert (Hfin : forall b w2,
    (do l <- tap_loop e b (Z.to_nat taps) 0 (mkTapLoop seed 0 false);
     do player <- read_player (msg_sender e);
     do pending <- lift (checked_add (pendingRewards player) (loop_totalReward l));
     do _ <- write_player (msg_sender e) (set_pendingRewards pending);
     do _ <- write_player (msg_sender e)
               (fun p => set_totalTaps (wrap256 (totalTaps p + taps)) p);
     do _ <- write_player (msg_sender e) (set_lastTapBlock (block_number e));
     do _ <- emit (Tapped (msg_sender e) taps (loop_totalReward l) (loop_hasCritical l));
     ret (loop_totalReward l)) w2 =
    match tap_loop e b (Z.to_nat taps) 0 (mkTapLoop seed 0 false) w2 with
    | Ok (l, w3) =>
        bindR (checked_add (pendingRewards (players w3 !!! msg_sender e)) (loop_totalReward l))
          (fun pending =>
            Ok (loop_totalReward l,
                set_events
                  (events w3 ++ [Tapped (msg_sender e) taps (loop_totalReward l) (loop_hasCritical l)])
                  (set_players
                     (<[msg_sender e := tapped_player (block_number e) taps pending
                                          (players w3 !!! msg_sender e)]> (players w3)) w3)))
    | Fail err => Fail err
    end).
  { intros b w2. unfold bind at 1.
    destruct (tap_loop e b _ _ _ _) as [[l w3] |]; [| done].
    monad_unfold. cbv beta.
    destruct (checked_add _ _) as [pending |]; [| done]. cbn [bindR].
    cbn [players set_players events]. rewrite !lookup_total_insert_eq, !insert_insert_eq.
    reflexivity. }
  destruct cr.
  - destruct (checked_mul base 110) as [boosted |]; [| done]. cbn [bindR]. apply Hfin.
  - cbn [bindR]. apply Hfin.
Qed.

Lemma base_tap_reward_range fp cr :
  0 <= fp <= MAX_UINT128 ->
  0 <= base_tap_reward fp cr /\ 50 * base_tap_reward fp cr <= 2 ^ 200.
Proof.
  intros [H0 H1]. unfold base_tap_reward, BASE_REWARD, MAX_UINT128 in *.
  assert (Hb : 10 * 10 ^ 18 * (fp + 1) <= 10 * 10 ^ 18 * 2 ^ 128) by nia.
  assert (Hc : 10 * 10 ^ 18 * 2 ^ 128 * 110 / 100 * 50 <= 2 ^ 200) by (vm_compute; discriminate).
  assert (Hd : 10 * 10 ^ 18 * 2 ^ 128 * 50 <= 2 ^ 200) by (vm_compute; discriminate).
  destruct cr.
  - pose proof (Z.div_le_mono (10 * 10 ^ 18 * (fp + 1) * 110) (10 * 10 ^ 18 * 2 ^ 128 * 110) 100
                  ltac:(lia) ltac:(nia)).
    split; [apply Z.div_pos; nia | lia].
  - nia.
Qed.

Lemma base_tap_reward_run fp (cr : bool) :
  0 <= fp <= MAX_UINT128 ->
  (let? scaled := checked_add fp 1 in
   let? base := checked_mul BASE_REWARD scaled in
   if cr then let? boosted := checked_mul base 110 in Ok (boosted / 100)
   else Ok base) = Ok (base_tap_reward fp cr).
Proof.
  intros [H0 H1].
  assert (Hb : 10 * 10 ^ 18 * (fp + 1) * 110 <= 10 * 10 ^ 18 * 2 ^ 128 * 110)
    by (unfold MAX_UINT128 in *; nia).
  assert (Hc : 10 * 10 ^ 18 * 2 ^ 128 * 110 <= MAX_UINT256) by (vm_compute; discriminate).
  assert (Hd : 2 ^ 128 <= MAX_UINT256) by (vm_compute; discriminate).
  rewrite checked_add_ok by (unfold MAX_UINT128 in *; lia). cbn [bindR].
  rewrite checked_mul_ok by (unfold BASE_REWARD; nia). cbn [bindR].
  unfold base_tap_reward. destruct cr; [| done].
  rewrite checked_mul_ok by (unfold BASE_REWARD; nia). done.
Qed.

Lemma executeTaps_inv e taps seed cr w r w' :
  config_ok w -> valid_env e -> 0 <= taps ->
  wf_player (players w !!! msg_sender e) ->
  _executeTaps e taps seed cr w = Ok (r, w') ->
  let a := msg_sender e in
  let p := players w !!! a in
  let finalPower := owned_power e a (registeredMiners p) * (level p + 1) in
  let base := base_tap_reward finalPower cr in
  exists ch tsc evs crit,
    w' = executed_world e taps r ch tsc evs crit w /\
    mapping_get (blockTaps w) (a, block_number e) + taps <= MAX_TAPS_PER_BLOCK /\
    0 <= finalPower <= MAX_UINT128 /\
    is_uint256 ch /\ is_uint256 tsc /\
    Forall (is_gem_event a) evs /\
    taps * base <= r <= taps * (50 * base + max_gem_bonus w) /\
    pendingRewards p + r <= MAX_UINT256.
Proof.
  intros Hc [Hbn Hpow] Htaps Hwp Hrun. cbv zeta.
  rewrite executeTaps_run in Hrun. cbv zeta in Hrun.
  set (a := msg_sender e) in *. set (p := players w !!! a) in *.
  destruct (checked_add (mapping_get (blockTaps w) (a, block_number e)) taps)
    as [used |] eqn:Hused; [| done].
  apply checked_add_inv in Hused as [-> _]. cbn [bindR] in Hrun.
  destruct (Z.leb_spec (mapping_get (blockTaps w) (a, block_number e) + taps)
              MAX_TAPS_PER_BLOCK) as [Hlimit | _]; [| done].
  destruct (sum_owned_power e a (registeredMiners p) 0) as [tp |] eqn:Htp; [| done].
  apply sum_owned_power_inv in Htp. rewrite Z.add_0_l in Htp. subst tp.
  cbn [bindR] in Hrun.
  destruct (checked_add (level p) 1) as [next |] eqn:Hnext; [| done].
  apply checked_add_inv in Hnext as [-> _]. cbn [bindR] in Hrun.
  destruct (checked_mul (owned_power e a (registeredMiners p)) (level p + 1))
    as [fp |] eqn:Hfp; [| done].
  apply checked_mul_inv in Hfp as [-> _]. cbn [bindR] in Hrun.
  set (fp := owned_power e a (registeredMiners p) * (level p + 1)) in *.
  destruct (Z.leb_spec fp MAX_UINT128) as [Hfit | _]; [| done].
  assert (Hfp0 : 0 <= fp).
  { pose proof (owned_power_nonneg e a (registeredMiners p) (fun t => proj1 (Hpow t))).
    destruct Hwp as [[? ?] _ _ _ _ _ _ _]. subst fp. nia. }
  pose proof (base_tap_reward_run fp cr (conj Hfp0 Hfit)) as Hbase.
  destruct (checked_add fp 1) as [scaled |]; [| done]. cbn [bindR] in Hrun, Hbase.
  destruct (checked_mul BASE_REWARD scaled) as [base0 |]; [| done].
  cbn [bindR] in Hrun, Hbase. rewrite Hbase in Hrun. cbn [bindR] in Hrun.
  pose proof (base_tap_reward_range fp cr (conj Hfp0 Hfit)) as [Hb0 _].
  set (p2 := set_totalPower (uint128 fp) p) in *.
  destruct (tap_loop e (base_tap_reward fp cr) (Z.to_nat taps) 0 _ _) as [[l w3] |] eqn:Hloop;
    [| done].
  apply (tap_loop_inv _ _ _ _ _ _ p2) in Hloop
    as (ch & tsc & evs & -> & Hch & Htsc & _ & Hev & Hlo & Hhi & _);
    [| exact Hc | apply lookup_insert_eq | done | apply Hwp | apply Hwp].
  cbn [loop_totalReward] in Hlo, Hhi. rewrite Z2Nat.id in Hlo, Hhi by done.
  rewrite (lookup_total_correct _ _ _ (tap_effect_lookup _ _ _ _)) in Hrun.
  cbn [pendingRewards set_tapsSinceCritical set_criticalHits set_totalPower p2] in Hrun.
  destruct (checked_add (pendingRewards p) (loop_totalReward l)) as [pending |] eqn:Hpend;
    [| done].
  apply checked_add_inv in Hpend as [-> Hpend]. cbn [bindR] in Hrun. simplify_eq.
  exists ch, tsc, evs, (loop_hasCritical l).
  split.
  { subst p2 fp p a. unfold executed_world, tap_effect. world_simpl.
    rewrite !insert_insert_eq, <- app_assoc. reflexivity. }
  change (max_gem_bonus _) with (max_gem_bonus w) in Hhi.
  repeat (split; [first [done | lia] |]). done.
Qed.

Lemma executeTaps_succeeds e taps seed cr w :
  config_ok w -> valid_env e -> 0 <= taps ->
  let a := msg_sender e in
  let p := players w !!! a in
  let finalPower := owned_power e a (registeredMiners p) * (level p + 1) in
  let base := base_tap_reward finalPower cr in
  wf_player p ->
  mapping_get (blockTaps w) (a, block_number e) + taps <= MAX_TAPS_PER_BLOCK ->
  finalPower <= MAX_UINT128 ->
  tapsSinceCritical p + taps <= 2 ^ 255 + 50 ->
  pendingRewards p + taps * (50 * base + max_gem_bonus w) <= MAX_UINT256 ->
  exists r w', _executeTaps e taps seed cr w = Ok (r, w').
Proof.
  intros Hc Henv Htaps a p fp base Hwp Hlimit Hfit Hpity Hroom.
  pose proof Henv as [Hbn Hpow].
  assert (Hfp0 : 0 <= fp).
  { pose proof (owned_power_nonneg e a (registeredMiners p) (fun t => proj1 (Hpow t))).
    destruct Hwp as [[? ?] _ _ _ _ _ _ _]. subst fp. nia. }
  assert (Hop : 0 <= owned_power e a (registeredMiners p) <= MAX_UINT128).
  { pose proof (owned_power_nonneg e a (registeredMiners p) (fun t => proj1 (Hpow t))).
    destruct Hwp as [[? ?] _ _ _ _ _ _ _]. subst fp. split; [done | nia]. }
  assert (H128 : MAX_UINT128 + 200 <= MAX_UINT256) by (vm_compute; discriminate).
  pose proof (base_tap_reward_range fp cr (conj Hfp0 Hfit)) as [Hb0 _].
  pose proof (max_gem_bonus_range w Hc) as HG.
  destruct Hwp as [Hlvl [Hpend0 _] _ _ Hch Htsc _ _].
  assert (Hrun : exists l w3,
    tap_loop e base (Z.to_nat taps) 0 (mkTapLoop seed 0 false)
      (set_players (<[a := set_totalPower (uint128 fp) p]> (players w))
         (set_blockTaps
            (<[(a, block_number e) := mapping_get (blockTaps w) (a, block_number e) + taps]>
               (blockTaps w)) w)) = Ok (l, w3)).
  { destruct (tap_loop_succeeds e base (Z.to_nat taps) 0 (mkTapLoop seed 0 false)
                (set_players (<[a := set_totalPower (uint128 fp) p]> (players w))
                   (set_blockTaps
                      (<[(a, block_number e) := mapping_get (blockTaps w) (a, block_number e) + taps]>
                         (blockTaps w)) w))
                (set_totalPower (uint128 fp) p)) as ([l w3] & Hl).
    - exact Hc.
    - apply lookup_insert_eq.
    - done.
    - done.
    - cbn [tapsSinceCritical set_totalPower]. rewrite Z2Nat.id by done. done.
    - cbn. lia.
    - cbn [loop_totalReward]. rewrite Z2Nat.id by done.
      change (max_gem_bonus _) with (max_gem_bonus w). nia.
    - eauto. }
  destruct Hrun as (l & w3 & Hloop).
  rewrite executeTaps_run. cbv zeta. fold a. fold p.
  rewrite checked_add_ok by (unfold MAX_TAPS_PER_BLOCK in *; lia). cbn [bindR].
  destruct (Z.leb_spec (mapping_get (blockTaps w) (a, block_number e) + taps)
              MAX_TAPS_PER_BLOCK) as [_ | Hbad]; [| lia].
  rewrite (sum_owned_power_ok e a (registeredMiners p) 0 (fun t => proj1 (Hpow t)))
    by lia.
  rewrite Z.add_0_l. cbn [bindR].
  rewrite checked_add_ok by (unfold MAX_LEVEL in *; lia). cbn [bindR].
  rewrite checked_mul_ok by (fold fp; lia). cbn [bindR]. fold fp.
  destruct (Z.leb_spec fp MAX_UINT128) as [_ | Hbad]; [| lia].
  pose proof (base_tap_reward_run fp cr (conj Hfp0 Hfit)) as Hbase.
  destruct (checked_add fp 1) as [scaled |]; [| done]. cbn [bindR] in Hbase |- *.
  destruct (checked_mul BASE_REWARD scaled) as [base0 |]; [| done].
  cbn [bindR] in Hbase |- *. rewrite Hbase. cbn [bindR]. fold base.
  rewrite Hloop.
  apply (tap_loop_inv _ _ _ _ _ _ (set_totalPower (uint128 fp) p)) in Hloop
    as (ch & tsc & evs & -> & Hch' & Htsc' & _ & Hev & Hlo & Hhi & _);
    [| exact Hc | apply lookup_insert_eq | done | done | done].
  cbn [loop_totalReward] in Hlo, Hhi. rewrite Z2Nat.id in Hlo, Hhi by done.
  change (max_gem_bonus _) with (max_gem_bonus w) in Hhi.
  rewrite (lookup_total_correct _ _ _ (tap_effect_lookup _ _ _ _)).
  cbn [pendingRewards set_tapsSinceCritical set_criticalHits set_totalPower].
  rewrite checked_add_ok by lia. cbn [bindR]. eauto.
Qed.

(** ** The tap loop, tap by tap *)

Lemma tap_roll_step e base rs i total hc w p l' w' :
  players w !! msg_sender e = Some p ->
  tap_roll e base rs total hc w = Ok (l', w') ->
  let t := mkTap i rs (tapsSinceCritical p) in
  (exists pity, _calculatePityBonus (tap_streak t) = Ok pity) /\
  l' = mkTapLoop rs (total + tap_pays w base t) (hc || is_critical t) /\
  total + tap_pays w base t <= MAX_UINT256 /\
  exists evs,
    w' = tap_effect (msg_sender e)
           (set_tapsSinceCritical (streak_after t)
              (set_criticalHits (hits_after (criticalHits p) t) p)) evs w /\
    Forall (is_gem_event (msg_sender e)) evs.
Proof.
  intros Hp Hrun. cbv zeta.
  rewrite (tap_roll_run _ _ _ _ _ _ _ Hp) in Hrun. cbv zeta in Hrun.
  unfold tap_pays, streak_after, hits_after, is_critical, pity_of, multiplier_of,
    gem_of.
  cbn [tap_subSeed tap_streak].
  destruct (_calculatePityBonus (tapsSinceCritical p)) as [pity |]; [| done].
  cbn [bindR] in Hrun.
  destruct (checked_add CRITICAL_BASE_CHANCE pity) as [cc |] eqn:Hcc; [| done].
  apply checked_add_inv in Hcc as [-> _]. cbn [bindR] in Hrun.
  split; [eauto |].
  destruct (rs mod 100 <? CRITICAL_BASE_CHANCE + pity).
  - destruct (_selectMultiplier w rs) as [m |]; [| done]. cbn [bindR] in Hrun.
    destruct (checked_mul base m) as [tr |] eqn:Htr; [| done].
    apply checked_mul_inv in Htr as [-> _]. cbn [bindR] in Hrun.
    rewrite orb_true_r.
    destruct (rs mod 100 <? 5).
    + destruct (_selectGem w (Z.shiftr rs 8)) as [g |]; [| done].
      cbn [bindR] in Hrun.
      destruct (bool_decide (g <> NONE)).
      * destruct (checked_add (base * m) (bonus (gemRewards w g))) as [tr' |] eqn:Htr';
          [| done].
        apply checked_add_inv in Htr' as [-> _]. cbn [bindR] in Hrun.
        destruct (checked_add total (base * m + bonus (gemRewards w g)))
          as [tot |] eqn:Htot; [| done].
        apply checked_add_inv in Htot as [-> Htot]. cbn [bindR] in Hrun.
        injection Hrun as <- <-.
        split; [reflexivity |]. split; [exact Htot |].
        eexists. split; [reflexivity |]. repeat constructor. by eexists _, _.
      * destruct (checked_add total (base * m)) as [tot |] eqn:Htot; [| done].
        apply checked_add_inv in Htot as [-> Htot]. cbn [bindR] in Hrun.
        injection Hrun as <- <-.
        split; [f_equal; lia |]. split; [lia |].
        exists []. split; [reflexivity | constructor].
    + rewrite bool_decide_eq_false_2 by (intros Hne; by apply Hne).
      destruct (checked_add total (base * m)) as [tot |] eqn:Htot; [| done].
      apply checked_add_inv in Htot as [-> Htot]. cbn [bindR] in Hrun.
      injection Hrun as <- <-.
      split; [f_equal; lia |]. split; [lia |].
      exists []. split; [reflexivity | constructor].
  - rewrite orb_false_r.
    destruct (checked_add total base) as [tot |] eqn:Htot; [| done].
    apply checked_add_inv in Htot as [-> Htot]. cbn [bindR] in Hrun.
    injection Hrun as <- <-.
    split; [reflexivity |]. split; [exact Htot |].
    exists []. split; [| constructor]. f_equal; by destruct p.
Qed.

Lemma tap_loop_trace e base n : forall i l w p l' w',
  players w !! msg_sender e = Some p ->
  tap_loop e base n i l w = Ok (l', w') ->
  let ts := batch_taps n i (loop_randomSeed l) (tapsSinceCritical p) in
  Forall (fun t => exists pity, _calculatePityBonus (tap_streak t) = Ok pity) ts /\
  loop_totalReward l' = loop_totalReward l + sum_list (map (tap_pays w base) ts) /\
  loop_hasCritical l' = loop_hasCritical l || existsb is_critical ts /\
  exists evs,
    w' = tap_effect (msg_sender e)
           (set_tapsSinceCritical (final_streak ts (tapsSinceCritical p))
              (set_criticalHits (final_hits ts (criticalHits p)) p)) evs w /\
    Forall (is_gem_event (msg_sender e)) evs.
Proof.
  induction n as [| n IH]; intros i l w p l' w' Hp Hrun; cbv zeta.
  - cbn in Hrun. unfold ret in Hrun. injection Hrun as <- <-.
    cbn [batch_taps map existsb final_streak final_hits fold_left].
    unfold sum_list. cbn [fold_right].
    split; [constructor |]. split; [lia |]. split; [by rewrite orb_false_r |].
    exists []. split; [| constructor].
    replace (set_tapsSinceCritical _ _) with p by (by destruct p).
    symmetry. by apply tap_effect_nil.
  - cbn [tap_loop] in Hrun. unfold bind at 1 in Hrun.
    destruct (tap_iteration e base i l w) as [[l1 w1] |] eqn:Hit; [| done].
    unfold tap_iteration in Hit.
    apply (tap_roll_step _ _ _ i _ _ _ p) in Hit; [| exact Hp].
    cbv zeta in Hit.
    destruct Hit as (Hpity & -> & _ & evs1 & -> & Hev1).
    apply (IH _ _ _ _ _ _ (tap_effect_lookup _ _ _ _)) in Hrun.
    cbv zeta in Hrun.
    destruct Hrun as (Hpities & Hreward & Hcrit & evs & -> & Hev).
    cbn [loop_randomSeed loop_totalReward loop_hasCritical tapsSinceCritical
         criticalHits set_tapsSinceCritical set_criticalHits] in *.
    cbn [batch_taps map existsb tap_subSeed]. unfold final_streak, final_hits.
    cbn [fold_left]. unfold sum_list in *. cbn [fold_right].
    split; [by constructor |].
    split; [rewrite Hreward; change (tap_pays (tap_effect _ _ _ w)) with (tap_pays w); lia |].
    split; [by rewrite Hcrit, orb_assoc |].
    exists (evs1 ++ evs). split; [| by apply Forall_app].
    by rewrite tap_effect_compose.
Qed.

Lemma executeTaps_trace e taps seed cr w r w' :
  valid_env e -> wf_player (players w !!! msg_sender e) ->
  _executeTaps e taps seed cr w = Ok (r, w') ->
  let a := msg_sender e in
  let p := players w !!! a in
  let finalPower := owned_power e a (registeredMiners p) * (level p + 1) in
  let base := base_tap_reward finalPower cr in
  let ts := batch_taps (Z.to_nat taps) 0 seed (tapsSinceCritical p) in
  0 <= finalPower <= MAX_UINT128 /\
  mapping_get (blockTaps w) (a, block_number e) + taps <= MAX_TAPS_PER_BLOCK /\
  Forall (fun t => exists pity, _calculatePityBonus (tap_streak t) = Ok pity) ts /\
  r = sum_list (map (tap_pays w base) ts) /\
  pendingRewards p + r <= MAX_UINT256 /\
  exists evs,
    w' = executed_world e taps r (final_hits ts (criticalHits p))
           (final_streak ts (tapsSinceCritical p)) evs
           (existsb is_critical ts) w /\
    Forall (is_gem_event a) evs.
Proof.
  intros [Hbn Hpow] Hwp Hrun. cbv zeta.
  rewrite executeTaps_run in Hrun. cbv zeta in Hrun.
  set (a := msg_sender e) in *. set (p := players w !!! a) in *.
  destruct (checked_add (mapping_get (blockTaps w) (a, block_number e)) taps)
    as [used |] eqn:Hused; [| done].
  apply checked_add_inv in Hused as [-> _]. cbn [bindR] in Hrun.
  destruct (Z.leb_spec (mapping_get (blockTaps w) (a, block_number e) + taps)
              MAX_TAPS_PER_BLOCK) as [Hlimit | _]; [| done].
  destruct (sum_owned_power e a (registeredMiners p) 0) as [tp |] eqn:Htp; [| done].
  apply sum_owned_power_inv in Htp. rewrite Z.add_0_l in Htp. subst tp.
  cbn [bindR] in Hrun.
  destruct (checked_add (level p) 1) as [next |] eqn:Hnext; [| done].
  apply checked_add_inv in Hnext as [-> _]. cbn [bindR] in Hrun.
  destruct (checked_mul (owned_power e a (registeredMiners p)) (level p + 1))
    as [fp |] eqn:Hfp; [| done].
  apply checked_mul_inv in Hfp as [-> _]. cbn [bindR] in Hrun.
  set (fp := owned_power e a (registeredMiners p) * (level p + 1)) in *.
  destruct (Z.leb_spec fp MAX_UINT128) as [Hfit | _]; [| done].
  assert (Hfp0 : 0 <= fp).
  { pose proof (owned_power_nonneg e a (registeredMiners p) (fun t => proj1 (Hpow t))).
    destruct Hwp as [[? ?] _ _ _ _ _ _ _]. subst fp. nia. }
  pose proof (base_tap_reward_run fp cr (conj Hfp0 Hfit)) as Hbase.
  destruct (checked_add fp 1) as [scaled |]; [| done]. cbn [bindR] in Hrun, Hbase.
  destruct (checked_mul BASE_REWARD scaled) as [base0 |]; [| done].
  cbn [bindR] in Hrun, Hbase. rewrite Hbase in Hrun. cbn [bindR] in Hrun.
  set (p2 := set_totalPower (uint128 fp) p) in *.
  destruct (tap_loop e (base_tap_reward fp cr) (Z.to_nat taps) 0 _ _) as [[l w3] |] eqn:Hloop;
    [| done].
  apply (tap_loop_trace _ _ _ _ _ _ p2) in Hloop; [| apply lookup_insert_eq].
  cbv zeta in Hloop.
  destruct Hloop as (Hpities & Hreward & Hcrit & evs & -> & Hev).
  cbn [loop_randomSeed loop_totalReward loop_hasCritical orb] in Hpities, Hreward, Hcrit.
  rewrite Z.add_0_l in Hreward.
  rewrite (lookup_total_correct _ _ _ (tap_effect_lookup _ _ _ _)) in Hrun.
  cbn [pendingRewards set_tapsSinceCritical set_criticalHits set_totalPower p2] in Hrun.
  destruct (checked_add (pendingRewards p) (loop_totalReward l)) as [pending |] eqn:Hpend;
    [| done].
  apply checked_add_inv in Hpend as [-> Hpend]. cbn [bindR] in Hrun.
  injection Hrun as <- <-.
  split; [done |]. split; [done |]. split; [exact Hpities |].
  split; [exact Hreward |]. split; [exact Hpend |].
  exists evs. split; [| exact Hev]. rewrite Hcrit.
  subst p2 fp p a. unfold executed_world, tap_effect. world_simpl.
  rewrite !insert_insert_eq, <- app_assoc. reflexivity.
Qed.

(** *** What the taps of a batch have in common *)

Lemma batch_taps_length n : forall i seed streak,
  length (batch_taps n i seed streak) = n.
Proof. induction n as [| n IH]; intros i seed streak; cbn; [done | by rewrite IH]. Qed.

Lemma wrap256_le v : 0 <= v -> 0 <= wrap256 v <= v.
Proof.
  intros Hv. unfold wrap256. split; [apply Z.mod_pos_bound; lia |].
  apply Z.mod_le; lia.
Qed.

Lemma streak_after_range t :
  0 <= tap_streak t -> 0 <= streak_after t <= tap_streak t + 1.
Proof.
  intros Hs. unfold streak_after. destruct (is_critical t); [lia |].
  pose proof (wrap256_le (tap_streak t + 1)). lia.
Qed.

(** The dry streak a tap starts from is at most the streak the batch
    started from plus the number of taps before it. *)
Lemma batch_taps_streak n : forall i seed streak k t,
  0 <= streak ->
  batch_taps n i seed streak !! k = Some t ->
  0 <= tap_streak t <= streak + Z.of_nat k.
Proof.
  induction n as [| n IH]; intros i seed streak k t Hs Ht; [done |].
  cbn [batch_taps] in Ht. destruct k as [| k].
  - injection Ht as <-. cbn [tap_streak]. lia.
  - cbn [lookup list_lookup] in Ht.
    pose proof (streak_after_range
                  (mkTap i (keccak256 (encode_uint256 seed ++ encode_uint16 i)) streak)
                  Hs) as Hnext.
    cbn [tap_streak] in Hnext. apply IH in Ht; [| lia]. lia.
Qed.

(** From one tap to the next: the first tap starts from the stored streak,
    and each later one from what the tap before it left. *)
Lemma batch_taps_chain n : forall i seed streak,
  (forall t, batch_taps n i seed streak !! 0%nat = Some t ->
     tap_index t = i /\ tap_streak t = streak /\
     tap_subSeed t = keccak256 (encode_uint256 seed ++ encode_uint16 i)) /\
  (forall k t t',
     batch_taps n i seed streak !! k = Some t ->
     batch_taps n i seed streak !! S k = Some t' ->
     tap_index t' = uint16 (tap_index t + 1) /\
     tap_streak t' = streak_after t /\
     tap_subSeed t' =
       keccak256 (encode_uint256 (tap_subSeed t) ++ encode_uint16 (tap_index t'))).
Proof.
  induction n as [| n IH]; intros i seed streak; [done |].
  cbn [batch_taps]. split.
  - intros t Ht. injection Ht as <-. done.
  - intros [| k] t t' Ht Ht'; cbn [lookup list_lookup] in Ht, Ht'.
    + injection Ht as <-. cbn [tap_index tap_subSeed].
      destruct (proj1 (IH _ _ _) t' Ht') as (-> & -> & ->). done.
    + exact (proj2 (IH _ _ _) k t t' Ht Ht').
Qed.

Lemma tap_pays_least w base t :
  config_ok w -> 0 <= base -> base <= tap_pays w base t.
Proof.
  intros Hc Hbase. unfold tap_pays, multiplier_of.
  destruct (is_critical t); [| lia].
  destruct (selectMultiplier_ok w (tap_subSeed t) Hc) as (m & -> & Hm).
  pose proof (config_gem_nonneg w (gem_of w t) Hc).
  destruct (bool_decide _); nia.
Qed.

Lemma BASE_REWARD_pos : 0 < BASE_REWARD.
Proof. by vm_compute. Qed.

Lemma base_tap_reward_least fp cr :
  0 <= fp -> BASE_REWARD <= base_tap_reward fp cr.
Proof.
  intros Hfp. pose proof BASE_REWARD_pos. unfold base_tap_reward.
  destruct cr; [| nia].
  apply Z.div_le_lower_bound; nia.
Qed.

(** A dry streak is paid for: every tap that lengthens it pays at least
    [BASE_REWARD]. *)
Lemma batch_streak_paid w base :
  config_ok w -> BASE_REWARD <= base ->
  forall n i seed streak, 0 <= streak ->
    0 <= final_streak (batch_taps n i seed streak) streak /\
    BASE_REWARD * final_streak (batch_taps n i seed streak) streak
      <= BASE_REWARD * streak
         + sum_list (map (tap_pays w base) (batch_taps n i seed streak)).
Proof.
  intros Hc Hbase. pose proof BASE_REWARD_pos as Hpos.
  induction n as [| n IH]; intros i seed streak Hs.
  - cbn. lia.
  - cbn [batch_taps map]. unfold final_streak, sum_list in *. cbn [fold_left fold_right].
    set (t := mkTap i (keccak256 (encode_uint256 seed ++ encode_uint16 i)) streak).
    pose proof (streak_after_range t Hs) as Hnext.
    pose proof (tap_pays_least w base t Hc ltac:(lia)) as Hpay.
    destruct (IH (uint16 (i + 1)) (tap_subSeed t) (streak_after t) ltac:(lia))
      as [Hlow Hhigh].
    split; [exact Hlow |].
    assert (Hcase : BASE_REWARD * streak_after t
                    <= BASE_REWARD * streak + tap_pays w base t).
    { clear IH Hlow Hhigh. revert Hnext Hpay. unfold streak_after, tap_pays.
      change (tap_streak t) with streak. revert Hbase Hpos.
      generalize BASE_REWARD. intros B HB HBpos.
      destruct (is_critical t); intros Hnext Hpay.
      - assert (0 <= B * streak) by nia. lia.
      - assert (B * wrap256 (streak + 1) <= B * (streak + 1)) by nia. lia. }
    lia.
Qed.

Lemma executeTaps_streak e taps seed cr w r w' :
  config_ok w -> valid_env e -> wf_player (players w !!! msg_sender e) ->
  _executeTaps e taps seed cr w = Ok (r, w') ->
  forall a,
    BASE_REWARD * tapsSinceCritical (players w !!! a)
      <= pendingRewards (players w !!! a) + totalMined (players w !!! a) ->
    BASE_REWARD * tapsSinceCritical (players w' !!! a)
      <= pendingRewards (players w' !!! a) + totalMined (players w' !!! a).
Proof.
  intros Hc Henv Hwp Hrun a Hpaid.
  apply executeTaps_trace in Hrun; [| done | done]. cbv zeta in Hrun.
  destruct Hrun as (Hfp & _ & _ & Hreward & _ & evs & -> & _).
  unfold executed_world. world_simpl.
  destruct (Z.eqb_spec (msg_sender e) a) as [<- | Hne];
    [rewrite lookup_total_insert_eq | by rewrite lookup_total_insert_ne].
  cbn [tapsSinceCritical pendingRewards totalMined tapped_player set_lastTapBlock
       set_totalTaps set_pendingRewards set_tapsSinceCritical set_criticalHits
       set_totalPower].
  destruct (batch_streak_paid w _ Hc (base_tap_reward_least _ cr (proj1 Hfp))
              (Z.to_nat taps) 0 seed
              (tapsSinceCritical (players w !!! msg_sender e))
              (proj1 (wf_tapsSinceCritical _ Hwp))) as [_ Hstreak].
  rewrite <- Hreward in Hstreak. lia.
Qed.

Lemma outstanding_commits_snoc a log ev :
  outstanding_commits a (log ++ [ev]) =
    outstanding_commits a log
    + (if is_commit_of a ev then 1 else 0)
    - (if is_reveal_of a ev then 1 else 0).
Proof.
  unfold outstanding_commits, count_events.
  rewrite !List.filter_app, !length_app. cbn [List.filter].
  destruct (is_commit_of a ev), (is_reveal_of a ev); cbn [length]; lia.
Qed.

Lemma filter_gem_events (f : Event -> bool) b evs :
  (forall g x, f (GemFound b g x) = false) ->
  Forall (is_gem_event b) evs -> List.filter f evs = [].
Proof.
  intros Hf Hev. induction Hev as [| ev evs (g & x & ->) _ IH]; [done |].
  cbn. rewrite Hf. exact IH.
Qed.

Lemma outstanding_commits_gems a b log evs :
  Forall (is_gem_event b) evs ->
  outstanding_commits a (log ++ evs) = outstanding_commits a log.
Proof.
  intros Hev. unfold outstanding_commits, count_events.
  rewrite !List.filter_app, !length_app.
  rewrite !(filter_gem_events _ b evs) by done. cbn. lia.
Qed.

Lemma uint128_small v : 0 <= v < 2 ^ 128 -> uint128 v = v.
Proof. intros H. unfold uint128. apply Z.mod_small. lia. Qed.

Lemma uint128_range v : 0 <= uint128 v <= MAX_UINT128.
Proof.
  unfold uint128, MAX_UINT128.
  pose proof (Z.mod_pos_bound v (2 ^ 128) ltac:(reflexivity)). lia.
Qed.

Lemma uint128_block v : 0 < v < 2 ^ 64 -> uint128 v = v.
Proof.
  intros H. apply uint128_small. split; [lia |].
  apply Z.lt_trans with (2 ^ 64); [lia | reflexivity].
Qed.

Lemma uint128_taps v : 0 < v <= MAX_TAPS_PER_CALL -> uint128 v = v.
Proof.
  intros H. apply uint128_small. split; [lia |].
  apply Z.le_lt_trans with MAX_TAPS_PER_CALL; [lia | reflexivity].
Qed.

Lemma wf_world_config w : wf_world w -> config_ok w.
Proof.
  intros [? ? ? ? Hgems _ _ _ _]. repeat split; try done; apply Hgems.
Qed.

Lemma mapping_get_insert `{Countable K} (m : gmap K Z) k v :
  mapping_get (<[k := v]> m) k = v.
Proof. unfold mapping_get. by rewrite lookup_insert_eq. Qed.

Lemma mapping_get_insert_ne `{Countable K} (m : gmap K Z) k k' v :
  k <> k' -> mapping_get (<[k := v]> m) k' = mapping_get m k'.
Proof. intros. unfold mapping_get. by rewrite lookup_insert_ne. Qed.

Lemma constructor_wf e self token : valid_env e -> wf_world (constructor e self token).
Proof.
  intros _. constructor; cbn.
  - done.
  - done.
  - repeat constructor; lia.
  - done.
  - intros []; cbn; lia.
  - intros a. rewrite lookup_total_empty.
    constructor; cbn;
      first [ by constructor
            | unfold is_uint256, MAX_UINT256, MAX_LEVEL, MAX_REGISTERED_MINERS; lia ].
  - intros a. rewrite lookup_total_empty. constructor; cbn; first [lia | discriminate].
  - intros k. unfold mapping_get. rewrite lookup_empty. cbn. unfold MAX_TAPS_PER_BLOCK. lia.
  - intros a. rewrite lookup_total_empty. reflexivity.
Qed.

Lemma commitTap_wf e commitment taps w w' :
  wf_world w -> valid_env e ->
  commitTap e commitment taps w = Ok (tt, w') -> wf_world w'.
Proof.
  intros Hwf [Hbn _] Hrun. unfold commitTap in Hrun. run. boolify.
  destruct Hwf as [? ? ? ? Hgems Hplayers Hcommits Hblock Hlog]. constructor; world_simpl; try done.
  - intros a. destruct (decide (a = msg_sender e)) as [-> | Hne].
    + rewrite lookup_total_insert_eq. constructor; cbn.
      * rewrite uint128_block by lia. lia.
      * intros _. rewrite uint128_taps by lia. lia.
      * discriminate.
    + rewrite lookup_total_insert_ne by done. apply Hcommits.
  - intros a. rewrite outstanding_commits_snoc. cbn.
    destruct (decide (a = msg_sender e)) as [-> | Hne].
    + rewrite lookup_total_insert_eq, Z.eqb_refl, Hlog.
      unfold pending_commit at 2. cbn. rewrite uint128_block by lia.
      destruct (Z.ltb_spec 0 (block_number e)); [| lia]. cbn.
      unfold pending_commit.
      match goal with H : _ || _ = true |- _ => apply orb_true_iff in H as [E1 | E1] end.
      * apply Z.eqb_eq in E1. rewrite E1. cbn. lia.
      * rewrite E1, andb_false_r. lia.
    + rewrite lookup_total_insert_ne by done.
      destruct (Z.eqb_spec (msg_sender e) a); [congruence |]. rewrite Hlog. lia.
Qed.

Lemma executed_world_wf e taps r ch tsc evs crit w :
  wf_world w -> valid_env e -> 0 <= taps ->
  mapping_get (blockTaps w) (msg_sender e, block_number e) + taps <= MAX_TAPS_PER_BLOCK ->
  is_uint256 ch -> is_uint256 tsc -> Forall (is_gem_event (msg_sender e)) evs ->
  0 <= r -> pendingRewards (players w !!! msg_sender e) + r <= MAX_UINT256 ->
  wf_world (executed_world e taps r ch tsc evs crit w).
Proof.
  intros Hwf Henv Htaps Hlimit Hch Htsc Hev Hr Hfit.
  destruct Hwf as [? ? ? ? Hgems Hplayers Hcommits Hblock Hlog]. unfold executed_world. constructor; world_simpl; try done.
  - intros a. destruct (decide (a = msg_sender e)) as [-> | Hne].
    + rewrite lookup_total_insert_eq.
      destruct (Hplayers (msg_sender e)) as [? [? ?] ? ? ? ? ? ?].
      constructor; cbn; try done.
      * unfold is_uint256. lia.
      * apply wrap256_range.
    + rewrite lookup_total_insert_ne by done. apply Hplayers.
  - intros k. destruct (decide (k = (msg_sender e, block_number e))) as [-> | Hne].
    + rewrite mapping_get_insert. specialize (Hblock (msg_sender e, block_number e)). lia.
    + rewrite mapping_get_insert_ne by done. apply Hblock.
  - intros a. rewrite app_assoc, outstanding_commits_snoc. cbn.
    rewrite (outstanding_commits_gems _ (msg_sender e)) by done. rewrite Hlog. lia.
Qed.

Lemma executeTaps_wf e taps seed cr w r w' :
  wf_world w -> valid_env e -> 0 <= taps ->
  _executeTaps e taps seed cr w = Ok (r, w') -> wf_world w'.
Proof.
  intros Hwf Henv Htaps Hrun.
  apply executeTaps_inv in Hrun
    as (ch & tsc & evs & crit & -> & Hlimit & Hfp & Hch & Htsc & Hev & Hr & Hfit);
    [| by apply wf_world_config | done | done | apply Hwf].
  pose proof (base_tap_reward_range _ cr Hfp) as [Hb0 _].
  apply executed_world_wf; try done. nia.
Qed.

Lemma tapMine_wf e taps w w' :
  wf_world w -> valid_env e -> tapMine e taps w = Ok (tt, w') -> wf_world w'.
Proof.
  intros Hwf Henv Hrun. unfold tapMine in Hrun.
  unfold bind at 1 in Hrun.
  destruct (whenNotPaused w) as [[[] w1] |] eqn:Hp; [| done].
  assert (w1 = w) as -> by (unfold whenNotPaused in Hp; run; done).
  unfold bind at 1, require at 1 in Hrun.
  destruct ((0 <? taps) && (taps <=? MAX_TAPS_PER_CALL)) eqn:Hcount; [| done].
  unfold ret at 1 in Hrun. unfold bind at 1, lift at 1 in Hrun.
  destruct (checked_sub (block_number e) 1) as [previous |]; [| done].
  unfold bind at 1 in Hrun.
  destruct (_executeTaps e taps _ false w) as [[r w2] |] eqn:Hexec; [| done].
  unfold ret in Hrun. simplify_eq. boolify.
  eapply executeTaps_wf; [done | done | | done]. lia.
Qed.

Lemma tapMine_run e taps w :
  tapMine e taps w =
    if paused w then Fail (CustomError "EnforcedPause")
    else if (0 <? taps) && (taps <=? MAX_TAPS_PER_CALL) then
      let? previous := checked_sub (block_number e) 1 in
      let randomSeed :=
        keccak256 (encode_uint256 (block_timestamp e) ++
                   encode_uint256 (block_prevrandao e) ++
                   encode_address (msg_sender e) ++
                   encode_bytes32 (blockhash e previous)) in
      match _executeTaps e taps randomSeed false w with
      | Ok (_, w') => Ok (tt, w')
      | Fail err => Fail err
      end
    else Fail (Revert "Invalid tap count").
Proof.
  unfold tapMine. monad_unfold. cbv beta.
  destruct (paused w); [done |].
  destruct ((0 <? taps) && (taps <=? MAX_TAPS_PER_CALL)); [| done].
  destruct (checked_sub (block_number e) 1) as [previous |]; [| done].
  cbn [bindR]. cbv zeta.
  destruct (_executeTaps e taps _ false w) as [[r w'] |]; done.
Qed.

Lemma revealTap_run e secret nonce w :
  revealTap e secret nonce w =
    let a := msg_sender e in
    let commit := commitments w !!! a in
    if paused w then Fail (CustomError "EnforcedPause")
    else if negb (0 <? blockNumber commit) then Fail (Revert "No commitment")
    else if revealed commit then Fail (Revert "Already revealed")
    else
      let? earliest := checked_add (blockNumber commit) COMMIT_REVEAL_BLOCKS in
      if negb (earliest <=? block_number e) then Fail (Revert "Too early")
      else
        let blockHash := blockhash e earliest in
        if blockHash =? 0 then Fail (Revert "Block hash not available")
        else
          let? latest := checked_add (blockNumber commit) MAX_REVEAL_DELAY in
          if negb (block_number e <=? latest) then Fail (Revert "Too late")
          else
            let hash' :=
              keccak256 (encode_address a ++ encode_uint256 secret ++
                         encode_uint256 nonce ++ encode_uint128 (taps commit)) in
            if negb (hash' =? hash commit) then Fail (Revert "Invalid reveal")
            else
              let randomSeed :=
                keccak256 (encode_bytes32 blockHash ++ encode_uint256 secret ++
                           encode_uint256 nonce ++ encode_address a) in
              match
                _executeTaps e (uint16 (taps commit)) randomSeed true
                  (set_commitments
                     (<[a := set_revealed true commit]> (commitments w)) w)
              with
              | Ok (reward, w') =>
                  Ok (tt, set_events (events w' ++ [CommitmentRevealed a reward]) w')
              | Fail err => Fail err
              end.
Proof.
  unfold revealTap. monad_unfold. cbv beta zeta.
  destruct (paused w); [done |].
  destruct (0 <? blockNumber (commitments w !!! msg_sender e)); [| done].
  destruct (revealed (commitments w !!! msg_sender e)); [done |].
  cbn [negb].
  destruct (checked_add (blockNumber (commitments w !!! msg_sender e)) COMMIT_REVEAL_BLOCKS)
    as [earliest |]; [| done].
  cbn [bindR]. destruct (earliest <=? block_number e); [| done].
  cbn [negb]. destruct (blockhash e earliest =? 0); [done |].
  cbn [negb].
  destruct (checked_add (blockNumber (commitments w !!! msg_sender e)) MAX_REVEAL_DELAY)
    as [latest |]; [| done].
  cbn [bindR]. destruct (block_number e <=? latest); [| done].
  cbn [negb]. destruct (_ =? hash (commitments w !!! msg_sender e)); [| done].
  cbn [negb].
  destruct (_executeTaps e _ _ true _) as [[r w'] |]; done.
Qed.

Lemma uint16_range v : 0 <= uint16 v < 2 ^ 16.
Proof. unfold uint16. apply Z.mod_pos_bound. reflexivity. Qed.

Lemma uint16_taps v : 0 <= v <= MAX_TAPS_PER_CALL -> uint16 v = v.
Proof.
  intros H. unfold uint16. apply Z.mod_small. split; [lia |].
  apply Z.le_lt_trans with MAX_TAPS_PER_CALL; [lia | reflexivity].
Qed.

Lemma revealTap_wf e secret nonce w w' :
  wf_world w -> valid_env e ->
  revealTap e secret nonce w = Ok (tt, w') -> wf_world w'.
Proof.
  intros Hwf Henv Hrun. rewrite revealTap_run in Hrun. cbv zeta in Hrun.
  repeat match type of Hrun with
         | context [keccak256 ?x] =>
             let h := fresh "h" in set (h := keccak256 x) in Hrun; clearbody h
         end.
  set (a := msg_sender e) in *. set (c := commitments w !!! a) in *.
  destruct (paused w); [done |].
  destruct (Z.ltb_spec 0 (blockNumber c)) as [Hbn | _]; [| done]. cbn [negb] in Hrun.
  destruct (revealed c) eqn:Hrev; [done |].
  destruct (checked_add (blockNumber c) COMMIT_REVEAL_BLOCKS) as [earliest |]; [| done].
  cbn [bindR] in Hrun. destruct (earliest <=? block_number e); [| done].
  cbn [negb] in Hrun. destruct (blockhash e earliest =? 0); [done |].
  destruct (checked_add (blockNumber c) MAX_REVEAL_DELAY) as [latest |]; [| done].
  cbn [bindR] in Hrun. destruct (block_number e <=? latest); [| done].
  cbn [negb] in Hrun. destruct (_ =? hash c); [| done]. cbn [negb] in Hrun.
  destruct (_executeTaps e (uint16 (taps c)) _ true _) as [[r w2] |] eqn:Hexec; [| done].
  simplify_eq.
  pose proof (uint16_range (taps c)) as Hu.
  apply executeTaps_inv in Hexec
    as (ch & tsc & evs & crit & -> & Hlimit & Hfp & Hch & Htsc & Hev & Hr & Hfit);
    [| exact (wf_world_config w Hwf) | done | lia
     | exact (wf_players w Hwf (msg_sender e))].
  world_simpl in Hlimit. world_simpl in Hfp. world_simpl in Hr. world_simpl in Hfit.
  change (max_gem_bonus _) with (max_gem_bonus w) in Hr.
  fold a in Hlimit, Hfp, Hr, Hfit, Hev.
  pose proof (base_tap_reward_range _ true Hfp) as [Hb0 _].
  pose proof (max_gem_bonus_range w (wf_world_config w Hwf)) as HG.
  assert (Hr0 : 0 <= r) by nia.
  subst c a.
  destruct Hwf as [? ? ? ? Hgems Hplayers Hcommits Hblock Hlog]. unfold executed_world. constructor; world_simpl; try done.
  - intros x. destruct (decide (x = msg_sender e)) as [-> | Hne].
    + rewrite lookup_total_insert_eq.
      destruct (Hplayers (msg_sender e)) as [? [? ?] ? ? ? ? ? ?].
      constructor; cbn; try done.
      * unfold is_uint256. lia.
      * apply wrap256_range.
    + rewrite lookup_total_insert_ne by done. apply Hplayers.
  - intros x. destruct (decide (x = msg_sender e)) as [-> | Hne].
    + rewrite lookup_total_insert_eq. destruct (Hcommits (msg_sender e)) as [? ? ?].
      constructor; cbn; try done.
    + rewrite lookup_total_insert_ne by done. apply Hcommits.
  - intros k. destruct (decide (k = (msg_sender e, block_number e))) as [-> | Hne].
    + rewrite mapping_get_insert.
      specialize (Hblock (msg_sender e, block_number e)). lia.
    + rewrite mapping_get_insert_ne by done. apply Hblock.
  - intros x. rewrite outstanding_commits_snoc. cbn [is_commit_of is_reveal_of].
    rewrite app_assoc, outstanding_commits_snoc. cbn [is_commit_of is_reveal_of].
    rewrite (outstanding_commits_gems _ (msg_sender e)) by done.
    rewrite Hlog.
    destruct (decide (x = msg_sender e)) as [-> | Hne].
    + rewrite lookup_total_insert_eq, Z.eqb_refl. unfold pending_commit. cbn.
      rewrite Hrev.
      destruct (Z.ltb_spec 0 (blockNumber (commitments w !!! msg_sender e))); [| lia].
      rewrite andb_false_r. cbn. lia.
    + rewrite lookup_total_insert_ne by done.
      destruct (Z.eqb_spec (msg_sender e) x); [congruence | lia].
Qed.

(** *** Withdrawal, registration, upgrade *)

Lemma withdraw_run e w :
  withdraw e w =
    let a := msg_sender e in
    let p := players w !!! a in
    let amount := pendingRewards p in
    if 0 <? amount then
      let today := block_timestamp e / one_day in
      let rollover := negb (today =? currentDay w) in
      let minted := if rollover then 0 else todaysMinted w in
      let? total := checked_add minted amount in
      if total <=? dailyMintLimit w then
        let? mined := checked_add (totalMined p) amount in
        match mint (this w) a amount (minerToken w) with
        | Ok t =>
            Ok (tt,
                set_events (events w ++ [Withdrawn a amount])
                  (set_minerToken t
                     (set_players
                        (<[a := set_totalMined mined (set_pendingRewards 0 p)]>
                           (players w))
                        (set_todaysMinted total
                           (if rollover then set_currentDay today w else w)))))
        | Fail err => Fail err
        end
      else Fail (Revert "Daily limit exceeded")
    else Fail (Revert "No pending rewards").
Proof.
  unfold withdraw. monad_unfold. cbv beta zeta.
  destruct (0 <? pendingRewards (players w !!! msg_sender e)); [| done].
  destruct (negb (block_timestamp e / one_day =? currentDay w)).
  - world_simpl.
    destruct (checked_add 0 _) as [total |]; [| done]. cbn [bindR]. world_simpl.
    destruct (total <=? dailyMintLimit w); [| done].
    destruct (checked_add (totalMined _) _) as [mined |]; [| done]. cbn [bindR].
    world_simpl. rewrite lookup_total_insert_eq, insert_insert_eq.
    destruct (mint _ _ _ _) as [t |]; done.
  - destruct (checked_add (todaysMinted w) _) as [total |]; [| done]. cbn [bindR].
    destruct (total <=? dailyMintLimit w); [| done].
    destruct (checked_add (totalMined _) _) as [mined |]; [| done]. cbn [bindR].
    world_simpl. rewrite lookup_total_insert_eq, insert_insert_eq.
    destruct (mint _ _ _ _) as [t |]; done.
Qed.

Lemma outstanding_commits_other a log ev :
  is_commit_of a ev = false -> is_reveal_of a ev = false ->
  outstanding_commits a (log ++ [ev]) = outstanding_commits a log.
Proof. intros Hc Hr. rewrite outstanding_commits_snoc, Hc, Hr. lia. Qed.

Lemma withdraw_wf e w w' :
  wf_world w -> valid_env e -> withdraw e w = Ok (tt, w') -> wf_world w'.
Proof.
  intros Hwf Henv Hrun. rewrite withdraw_run in Hrun. cbv zeta in Hrun.
  destruct (0 <? _); [| done].
  destruct (negb (_ =? currentDay w)).
  all: destruct (checked_add _ _) as [total |]; [| done]; cbn [bindR] in Hrun.
  all: destruct (total <=? dailyMintLimit w); [| done].
  all: destruct (checked_add (totalMined _) _) as [mined |] eqn:Hmined; [| done].
  all: apply checked_add_inv in Hmined as [-> Hmined]; cbn [bindR] in Hrun.
  all: destruct (mint _ _ _ _) as [t |]; [| done]; simplify_eq.
  all: destruct Hwf as [? ? ? ? Hgems Hplayers Hcommits Hblock Hlog].
  all: constructor; world_simpl; try done.
  all: try (intros x; rewrite outstanding_commits_other by done; apply Hlog).
  all: intros x; destruct (decide (x = msg_sender e)) as [-> | Hne];
    [ rewrite lookup_total_insert_eq
    | rewrite lookup_total_insert_ne by done; apply Hplayers ].
  all: destruct (Hplayers (msg_sender e)) as [? ? [? ?] ? ? ? ? ?];
    constructor; cbn; try done; unfold is_uint256 in *; lia.
Qed.

Lemma require_not_registered_ok miners tokenId :
  tokenId ∉ miners -> require_not_registered miners tokenId = Ok tt.
Proof.
  induction miners as [| m rest IH]; intros Hnot; [done |].
  apply not_elem_of_cons in Hnot as [Hne Hrest]. cbn.
  destruct (Z.eqb_spec m tokenId); [congruence |]. cbn. auto.
Qed.

Lemma require_not_registered_dup miners tokenId :
  tokenId ∈ miners ->
  require_not_registered miners tokenId = Fail (Revert "Already registered").
Proof.
  induction miners as [| m rest IH]; intros Hin; [by apply elem_of_nil in Hin |].
  cbn. destruct (Z.eqb_spec m tokenId) as [-> | Hne]; [done |]. cbn.
  apply elem_of_cons in Hin as [-> | Hin]; [done | auto].
Qed.

Lemma registerMiner_run e tokenId w :
  registerMiner e tokenId w =
    let a := msg_sender e in
    let p := players w !!! a in
    match nft_ownerOf e tokenId with
    | None => Fail (CustomError "ERC721NonexistentToken")
    | Some tokenOwner =>
        if tokenOwner =? a then
          if Z.of_nat (length (registeredMiners p)) <? MAX_REGISTERED_MINERS then
            if bool_decide (tokenId ∈ registeredMiners p)
            then Fail (Revert "Already registered")
            else
              Ok (tt,
                  set_events (events w ++ [MinerRegistered a tokenId])
                    (set_players
                       (<[a := set_registeredMiners
                                 (registeredMiners p ++ [tokenId]) p]> (players w))
                       w))
          else Fail (Revert "Max miners reached")
        else Fail (Revert "Not the owner")
    end.
Proof.
  unfold registerMiner. monad_unfold. cbv beta zeta.
  destruct (nft_ownerOf e tokenId) as [o |]; [| done].
  destruct (o =? msg_sender e); [| done].
  destruct (Z.of_nat _ <? MAX_REGISTERED_MINERS); [| done].
  destruct (bool_decide_reflect (tokenId ∈ registeredMiners (players w !!! msg_sender e)))
    as [Hin | Hnot].
  - by rewrite require_not_registered_dup.
  - by rewrite require_not_registered_ok.
Qed.

Lemma registerMiner_wf e tokenId w w' :
  wf_world w -> registerMiner e tokenId w = Ok (tt, w') -> wf_world w'.
Proof.
  intros Hwf Hrun. rewrite registerMiner_run in Hrun. cbv zeta in Hrun.
  destruct (nft_ownerOf e tokenId) as [o |]; [| done].
  destruct (o =? msg_sender e); [| done].
  destruct (Z.ltb_spec (Z.of_nat (length (registeredMiners (players w !!! msg_sender e))))
              MAX_REGISTERED_MINERS) as [Hcap | _]; [| done].
  destruct (bool_decide_reflect (tokenId ∈ registeredMiners (players w !!! msg_sender e)))
    as [Hin | Hnot]; [done |].
  simplify_eq.
  destruct Hwf as [? ? ? ? Hgems Hplayers Hcommits Hblock Hlog].
  constructor; world_simpl; try done.
  - intros x. destruct (decide (x = msg_sender e)) as [-> | Hne].
    + rewrite lookup_total_insert_eq.
      destruct (Hplayers (msg_sender e)) as [? ? ? ? ? ? Hnodup ?].
      constructor; cbn; try done.
      * apply NoDup_app. split; [done |]. split; [| apply NoDup_singleton].
        intros y Hy Hy'. apply list_elem_of_singleton in Hy'. congruence.
      * rewrite length_app. cbn. lia.
    + rewrite lookup_total_insert_ne by done. apply Hplayers.
  - intros x. rewrite outstanding_commits_other by done. apply Hlog.
Qed.

(** Overwriting one element with the last and dropping the last keeps a
    list free of duplicates. *)
Lemma swap_remove_NoDup (l : list Z) (i : nat) (last : Z) :
  NoDup l -> l !! (length l - 1)%nat = Some last -> (i < length l)%nat ->
  NoDup (take (length l - 1) (<[i := last]> l)).
Proof.
  intros Hnd Hlast Hi. apply NoDup_alt. intros j k x Hj Hk.
  assert (Hj' : (j < length l - 1)%nat).
  { apply lookup_lt_Some in Hj. rewrite length_take, length_insert in Hj. lia. }
  assert (Hk' : (k < length l - 1)%nat).
  { apply lookup_lt_Some in Hk. rewrite length_take, length_insert in Hk. lia. }
  rewrite lookup_take_lt in Hj, Hk by done.
  rewrite NoDup_alt in Hnd.
  destruct (decide (i = j)) as [Eij | Hij], (decide (i = k)) as [Eik | Hik].
  - congruence.
  - subst j. rewrite list_lookup_insert_eq in Hj by done.
    rewrite list_lookup_insert_ne in Hk by done. simplify_eq.
    pose proof (Hnd _ _ _ Hlast Hk). lia.
  - subst k. rewrite list_lookup_insert_eq in Hk by done.
    rewrite list_lookup_insert_ne in Hj by done. simplify_eq.
    pose proof (Hnd _ _ _ Hlast Hj). lia.
  - rewrite list_lookup_insert_ne in Hj, Hk by done. eauto.
Qed.

Lemma unregister_loop_inv e tokenId n : forall i w w',
  (n + i = length (registeredMiners (players w !!! msg_sender e)))%nat ->
  unregister_loop e tokenId n i w = Ok (tt, w') ->
  exists k last,
    let p := players w !!! msg_sender e in
    (k < length (registeredMiners p))%nat /\
    registeredMiners p !! k = Some tokenId /\
    registeredMiners p !! (length (registeredMiners p) - 1)%nat = Some last /\
    w' = set_events (events w ++ [MinerUnregistered (msg_sender e) tokenId])
           (set_players
              (<[msg_sender e :=
                   set_registeredMiners
                     (take (length (registeredMiners p) - 1)
                        (<[k := last]> (registeredMiners p))) p]> (players w)) w).
Proof.
  induction n as [| n IH]; intros i w w' Hlen Hrun; [done |].
  cbn [unregister_loop] in Hrun. monad_unfold. cbv beta zeta in Hrun.
  unfold array_get in Hrun at 1.
  destruct (registeredMiners (players w !!! msg_sender e) !! i) as [current |] eqn:Hcur;
    [| done].
  destruct (Z.eqb_spec current tokenId) as [-> | Hne].
  - unfold array_get in Hrun.
    destruct (registeredMiners (players w !!! msg_sender e)
                !! (length (registeredMiners (players w !!! msg_sender e)) - 1)%nat)
      as [last |] eqn:Hlast; [| done].
    world_simpl in Hrun. rewrite lookup_total_insert_eq, insert_insert_eq in Hrun.
    cbn [registeredMiners set_registeredMiners] in Hrun. rewrite length_insert in Hrun.
    simplify_eq. exists i, last. cbv zeta.
    split; [by eapply lookup_lt_Some |]. split; [done |]. split; [done |].
    reflexivity.
  - apply IH in Hrun; [done | lia].
Qed.

Lemma unregisterMiner_wf e tokenId w w' :
  wf_world w -> unregisterMiner e tokenId w = Ok (tt, w') -> wf_world w'.
Proof.
  intros Hwf Hrun. unfold unregisterMiner in Hrun. unfold bind, read_player, view in Hrun.
  apply unregister_loop_inv in Hrun as (k & last & Hk & Hfound & Hlast & ->); [| lia].
  destruct Hwf as [? ? ? ? Hgems Hplayers Hcommits Hblock Hlog].
  constructor; world_simpl; try done.
  - intros x. destruct (decide (x = msg_sender e)) as [-> | Hne].
    + rewrite lookup_total_insert_eq.
      destruct (Hplayers (msg_sender e)) as [? ? ? ? ? ? Hnodup ?].
      constructor; cbn; try done.
      * by apply swap_remove_NoDup.
      * rewrite length_take, length_insert. lia.
    + rewrite lookup_total_insert_ne by done. apply Hplayers.
  - intros x. rewrite outstanding_commits_other by done. apply Hlog.
Qed.

Lemma upgrade_wf e w w' :
  wf_world w -> upgrade e w = Ok (tt, w') -> wf_world w'.
Proof.
  intros Hwf Hrun. unfold upgrade in Hrun. monad_unfold. cbv beta zeta in Hrun.
  destruct (Z.ltb_spec (level (players w !!! msg_sender e)) MAX_LEVEL) as [Hlvl | _];
    [| done].
  destruct (checked_add _ 1) as [next |]; [| done].
  destruct (checked_mul next _) as [cost |]; [| done].
  destruct (cost <=? balanceOf _ _); [| done].
  destruct (cost <=? allowance _ _ _); [| done].
  destruct (burnFrom _ _ _ _) as [t |]; [| done].
  world_simpl in Hrun. simplify_eq.
  destruct Hwf as [? ? ? ? Hgems Hplayers Hcommits Hblock Hlog].
  constructor; world_simpl; try done.
  - intros x. destruct (decide (x = msg_sender e)) as [-> | Hne].
    + rewrite lookup_total_insert_eq.
      destruct (Hplayers (msg_sender e)) as [[? ?] ? ? ? ? ? ? ?].
      constructor; cbn; try done.
      rewrite uint128_small; unfold MAX_LEVEL in *; [lia |].
      split; [lia |]. apply Z.le_lt_trans with 100; [lia | reflexivity].
    + rewrite lookup_total_insert_ne by done. apply Hplayers.
  - intros x. rewrite outstanding_commits_other by done. apply Hlog.
Qed.

(** *** Admin functions *)

Ltac admin_wf Hwf Hrun :=
  monad_unfold; cbv beta in Hrun;
  repeat match type of Hrun with
         | context [if ?b then _ else _] => destruct b; [| try done]; try done
         end;
  world_simpl in Hrun; simplify_eq;
  destruct Hwf as [? ? ? ? Hgems Hplayers Hcommits Hblock Hlog];
  constructor; world_simpl; try done;
  try (intros x; rewrite outstanding_commits_other by done; apply Hlog).

Lemma pause_wf e w w' : wf_world w -> pause e w = Ok (tt, w') -> wf_world w'.
Proof. intros Hwf Hrun. unfold pause in Hrun. admin_wf Hwf Hrun. Qed.

Lemma unpause_wf e w w' : wf_world w -> unpause e w = Ok (tt, w') -> wf_world w'.
Proof. intros Hwf Hrun. unfold unpause in Hrun. admin_wf Hwf Hrun. Qed.

Lemma emergencyPause_wf e w w' :
  wf_world w -> emergencyPause e w = Ok (tt, w') -> wf_world w'.
Proof. intros Hwf Hrun. unfold emergencyPause in Hrun. admin_wf Hwf Hrun. Qed.

Lemma setDailyLimit_wf e newLimit w w' :
  wf_world w -> setDailyLimit e newLimit w = Ok (tt, w') -> wf_world w'.
Proof. intros Hwf Hrun. unfold setDailyLimit in Hrun. admin_wf Hwf Hrun. Qed.

Lemma transferOwnership_wf e newOwner w w' :
  wf_world w -> transferOwnership e newOwner w = Ok (tt, w') -> wf_world w'.
Proof. intros Hwf Hrun. unfold transferOwnership in Hrun. admin_wf Hwf Hrun. Qed.

Lemma acceptOwnership_wf e w w' :
  wf_world w -> acceptOwnership e w = Ok (tt, w') -> wf_world w'.
Proof. intros Hwf Hrun. unfold acceptOwnership in Hrun. admin_wf Hwf Hrun. Qed.

Lemma renounceOwnership_wf e w w' :
  wf_world w -> renounceOwnership e w = Ok (tt, w') -> wf_world w'.
Proof. intros Hwf Hrun. unfold renounceOwnership in Hrun. admin_wf Hwf Hrun. Qed.

Lemma updateGemReward_wf e gemType bonus dropChance w w' :
  wf_world w -> is_uint256 bonus -> is_uint256 dropChance ->
  updateGemReward e gemType bonus dropChance w = Ok (tt, w') -> wf_world w'.
Proof.
  intros Hwf [Hb0 _] [Hd0 _] Hrun. unfold updateGemReward in Hrun.
  monad_unfold. cbv beta in Hrun.
  destruct (owner w =? msg_sender e); [| done].
  destruct (bool_decide (gemType <> NONE)); [| done].
  destruct (Z.leb_spec dropChance 100) as [Hd | _]; [| done].
  destruct (Z.leb_spec bonus (10000 * 10 ^ 18)) as [Hb | _]; [| done].
  simplify_eq.
  destruct Hwf as [? ? ? ? Hgems Hplayers Hcommits Hblock Hlog].
  constructor; world_simpl; try done.
  intros g. destruct (bool_decide (g = gemType)); [| apply Hgems]. cbn.
  rewrite !uint128_small; [lia | |].
  - split; [lia |]. apply Z.le_lt_trans with 100; [lia | reflexivity].
  - split; [lia |]. apply Z.le_lt_trans with (10000 * 10 ^ 18); [lia | reflexivity].
Qed.

(** The update loop on a four-entry array: every running total fits, or
    the call has already panicked. *)
Lemma updateCriticalWeights_run e (a b c d s0 s1 s2 s3 : Z) w :
  criticalWeights w = [s0; s1; s2; s3] ->
  owner w = msg_sender e ->
  updateCriticalWeights e [a; b; c; d] w =
    let? t1 := checked_add 0 a in
    let? t2 := checked_add t1 b in
    let? t3 := checked_add t2 c in
    let? t4 := checked_add t3 d in
    if t4 =? 100 then Ok (tt, set_criticalWeights [a; b; c; d] w)
    else Fail (Revert "Weights must sum to 100").
Proof.
  intros Hw Ho. unfold updateCriticalWeights. monad_unfold. cbv beta.
  rewrite Ho, Z.eqb_refl. cbn [length Nat.eqb updateCriticalWeights_loop].
  monad_unfold. cbv beta. unfold array_get. cbn [lookup list_lookup].
  destruct (checked_add 0 a) as [t1 |]; [| done]. cbn [bindR]. rewrite Hw.
  destruct (checked_add t1 b) as [t2 |]; [| done]. cbn [bindR].
  destruct (checked_add t2 c) as [t3 |]; [| done]. cbn [bindR].
  destruct (checked_add t3 d) as [t4 |]; [| done]. cbn [bindR].
  repeat (rewrite bool_decide_eq_true_2 by (cbn; lia); world_simpl;
          cbn [length list_insert insert]).
  destruct (t4 =? 100); done.
Qed.

Lemma updateCriticalWeights_spec e weights w :
  length (criticalWeights w) = 4%nat -> Forall is_uint256 weights ->
  match updateCriticalWeights e weights w with
  | Ok (_, w') =>
      owner w = msg_sender e /\ length weights = 4%nat /\
      sum_list weights = 100 /\ w' = set_criticalWeights weights w
  | Fail _ =>
      ~ (owner w = msg_sender e /\ length weights = 4%nat /\
         sum_list weights = 100)
  end.
Proof.
  intros Hlen Hrange.
  destruct (Z.eqb_spec (owner w) (msg_sender e)) as [Ho | Ho].
  2:{ unfold updateCriticalWeights. monad_unfold. cbv beta.
      destruct (Z.eqb_spec (owner w) (msg_sender e)); [done |]. tauto. }
  destruct (decide (length weights = 4%nat)) as [Hl | Hl].
  2:{ unfold updateCriticalWeights. monad_unfold. cbv beta.
      rewrite Ho, Z.eqb_refl.
      destruct (Nat.eqb_spec (length weights) 4); [done |]. tauto. }
  destruct weights as [| a [| b [| c [| d [| ? ?]]]]]; try discriminate.
  destruct (criticalWeights w) as [| s0 [| s1 [| s2 [| s3 [| ? ?]]]]] eqn:Hw;
    try discriminate.
  rewrite (updateCriticalWeights_run e a b c d s0 s1 s2 s3 w Hw Ho).
  repeat match goal with
         | H : Forall _ (_ :: _) |- _ => apply Forall_cons in H as [[? ?] H]
         end.
  unfold sum_list. cbn [fold_right].
  destruct (checked_add 0 a) as [t1 |] eqn:Hadd1.
  2:{ unfold checked_add in Hadd1. destruct (Z.leb_spec (0 + a) MAX_UINT256); [done |].
      pose proof MAX_UINT256_big. cbn [bindR]. lia. }
  apply checked_add_inv in Hadd1 as [-> Hadd1]. cbn [bindR].
  destruct (checked_add (0 + a) b) as [t2 |] eqn:Hadd2.
  2:{ unfold checked_add in Hadd2. destruct (Z.leb_spec (0 + a + b) MAX_UINT256); [done |].
      pose proof MAX_UINT256_big. cbn [bindR]. lia. }
  apply checked_add_inv in Hadd2 as [-> Hadd2]. cbn [bindR].
  destruct (checked_add (0 + a + b) c) as [t3 |] eqn:Hadd3.
  2:{ unfold checked_add in Hadd3. destruct (Z.leb_spec (0 + a + b + c) MAX_UINT256); [done |].
      pose proof MAX_UINT256_big. cbn [bindR]. lia. }
  apply checked_add_inv in Hadd3 as [-> Hadd3]. cbn [bindR].
  destruct (checked_add (0 + a + b + c) d) as [t4 |] eqn:Hadd4.
  2:{ unfold checked_add in Hadd4.
      destruct (Z.leb_spec (0 + a + b + c + d) MAX_UINT256); [done |].
      pose proof MAX_UINT256_big. cbn [bindR]. lia. }
  apply checked_add_inv in Hadd4 as [-> Hadd4]. cbn [bindR].
  destruct (Z.eqb_spec (0 + a + b + c + d) 100); [repeat split; (done || lia) | lia].
Qed.

Lemma updateCriticalWeights_wf e weights w w' :
  wf_world w -> Forall is_uint256 weights ->
  updateCriticalWeights e weights w = Ok (tt, w') -> wf_world w'.
Proof.
  intros Hwf Hrange Hrun.
  pose proof (updateCriticalWeights_spec e weights w (wf_weights_length w Hwf) Hrange)
    as Hspec.
  rewrite Hrun in Hspec. destruct Hspec as (_ & Hlen & Hsum & ->).
  destruct Hwf as [? ? ? ? Hgems Hplayers Hcommits Hblock Hlog].
  constructor; world_simpl; try done.
  eapply Forall_impl; [exact Hrange |]. intros x [? _]. done.
Qed.

(** *** Every transaction keeps the invariant *)

Lemma dispatch_wf e c w w' :
  wf_world w -> valid_env e -> valid_call c ->
  dispatch e c w = Ok (tt, w') -> wf_world w'.
Proof.
  intros Hwf Henv Hcall Hrun. destruct c; cbn [dispatch valid_call] in *.
  - eapply commitTap_wf; eauto.
  - eapply revealTap_wf; eauto.
  - eapply tapMine_wf; eauto.
  - eapply withdraw_wf; eauto.
  - eapply registerMiner_wf; eauto.
  - eapply unregisterMiner_wf; eauto.
  - eapply upgrade_wf; eauto.
  - eapply pause_wf; eauto.
  - eapply unpause_wf; eauto.
  - eapply emergencyPause_wf; eauto.
  - eapply setDailyLimit_wf; eauto.
  - destruct Hcall as [Hb Hd].
    exact (updateGemReward_wf _ _ _ _ _ _ Hwf Hb Hd Hrun).
  - eapply updateCriticalWeights_wf; eauto.
  - eapply transferOwnership_wf; eauto.
  - eapply acceptOwnership_wf; eauto.
  - eapply renounceOwnership_wf; eauto.
Qed.

Lemma transact_wf e c w :
  wf_world w -> valid_env e -> valid_call c -> wf_world (transact e c w).
Proof.
  intros Hwf Henv Hcall. unfold transact.
  destruct (dispatch e c w) as [[[] w'] |] eqn:Hrun; [| done].
  eapply dispatch_wf; eauto.
Qed.

Lemma reachable_wf w : reachable w -> wf_world w.
Proof.
  induction 1 as [e self token Henv | e c w _ IH Henv Hcall | t w _ IH].
  - by apply constructor_wf.
  - by apply transact_wf.
  - destruct IH. by constructor.
Qed.

(** ** The claims *)

(** The pity bonus as a function of its argument: for every [n] up to
    [2^255 + 49] it is 0 when [n <= PITY_THRESHOLD] and
    [min ((n - PITY_THRESHOLD) * PITY_INCREMENT) MAX_PITY_BONUS] beyond it;
    it is 0 at 50, 2 at 51 and [MAX_PITY_BONUS] from 75 on.  (Above
    [2^255 + 49] the checked multiplication by [PITY_INCREMENT] would leave
    [uint256]; no dry streak gets there.) *)
Lemma pity_bonus_values (n : Z) :
  n <= 2 ^ 255 + 49 ->
  (n <= PITY_THRESHOLD -> _calculatePityBonus n = Ok 0) /\
  (PITY_THRESHOLD < n ->
     _calculatePityBonus n =
       Ok (Z.min ((n - PITY_THRESHOLD) * PITY_INCREMENT) MAX_PITY_BONUS)) /\
  (75 <= n -> _calculatePityBonus n = Ok MAX_PITY_BONUS) /\
  _calculatePityBonus 50 = Ok 0 /\
  _calculatePityBonus 51 = Ok 2.
Proof.
  intros Hn.
  assert (Hgt : PITY_THRESHOLD < n ->
     _calculatePityBonus n =
       Ok (Z.min ((n - PITY_THRESHOLD) * PITY_INCREMENT) MAX_PITY_BONUS)).
  { intros Hlt. unfold _calculatePityBonus.
    destruct (Z.leb_spec n PITY_THRESHOLD) as [Hle | _]; [lia |].
    rewrite checked_sub_ok by lia. cbn [bindR].
    rewrite checked_mul_ok.
    2:{ unfold PITY_THRESHOLD, PITY_INCREMENT, MAX_UINT256 in *.
        change (2 ^ 256) with (2 * 2 ^ 255). lia. }
    cbn [bindR]. f_equal.
    destruct (Z.gtb_spec ((n - PITY_THRESHOLD) * PITY_INCREMENT) MAX_PITY_BONUS); lia. }
  split; [| split; [exact Hgt | split; [| split; reflexivity]]].
  - intros Hle. unfold _calculatePityBonus.
    destruct (Z.leb_spec n PITY_THRESHOLD); [done | lia].
  - intros H75. rewrite Hgt by (unfold PITY_THRESHOLD; lia). f_equal.
    unfold PITY_THRESHOLD, PITY_INCREMENT, MAX_PITY_BONUS. lia.
Qed.

(** C9: called by the owner with entries of type [uint256],
    [updateCriticalWeights] accepts an array exactly when it has length 4
    and sums to 100; an accepted array becomes the stored weights, and a
    rejected call leaves the stored weights as they were, although the loop
    had already written them when the sum was checked. *)
Theorem critical_weights_update (e : Env) (w : World) (weights : list Z) :
  reachable w -> Forall is_uint256 weights -> owner w = msg_sender e ->
  ((exists w', updateCriticalWeights e weights w = Ok (tt, w')) <->
     (length weights = 4%nat /\ sum_list weights = 100)) /\
  (forall w', updateCriticalWeights e weights w = Ok (tt, w') ->
     criticalWeights w' = weights) /\
  (forall err, updateCriticalWeights e weights w = Fail err ->
     criticalWeights (transact e (UpdateCriticalWeights weights) w)
       = criticalWeights w).
Proof.
  intros Hreach Hrange Howner.
  pose proof (reachable_wf w Hreach) as Hwf.
  pose proof (updateCriticalWeights_spec e weights w (wf_weights_length w Hwf) Hrange)
    as Hspec.
  split; [split |].
  - intros [w' Hrun]. rewrite Hrun in Hspec. tauto.
  - intros [Hlen Hsum].
    destruct (updateCriticalWeights e weights w) as [[[] w'] | err]; [eauto | tauto].
  - split.
    + intros w' Hrun. rewrite Hrun in Hspec. destruct Hspec as (_ & _ & _ & ->). done.
    + intros err Hrun. unfold transact. cbn [dispatch]. by rewrite Hrun.
Qed.

(** C5: [withdraw] fails when nothing is pending; it fails when the minted
    total of the day (counted from zero after a day rollover) plus the
    pending amount exceeds the daily limit; when it succeeds the pending
    rewards are zero and [totalMined] has grown by exactly the amount, so the
    same call repeated at once fails; and a failed call leaves the storage,
    the player's record included, as it was. *)
Theorem withdraw_guards (e : Env) (w : World) :
  let a := msg_sender e in
  let p := players w !!! a in
  let amount := pendingRewards p in
  let minted :=
    if negb (block_timestamp e / one_day =? currentDay w) then 0
    else todaysMinted w in
  (amount = 0 -> withdraw e w = Fail (Revert "No pending rewards")) /\
  (0 < amount -> dailyMintLimit w < minted + amount ->
     exists err, withdraw e w = Fail err) /\
  (0 < amount -> dailyMintLimit w < minted + amount ->
     minted + amount <= MAX_UINT256 ->
     withdraw e w = Fail (Revert "Daily limit exceeded")) /\
  (forall w', withdraw e w = Ok (tt, w') ->
     0 < amount /\ minted + amount <= dailyMintLimit w /\
     pendingRewards (players w' !!! a) = 0 /\
     totalMined (players w' !!! a) = totalMined p + amount /\
     withdraw e w' = Fail (Revert "No pending rewards")) /\
  (forall err, withdraw e w = Fail err ->
     transact e Withdraw w = w /\
     players (transact e Withdraw w) !!! a = p).
Proof.
  cbv zeta. rewrite withdraw_run. cbv zeta.
  set (a := msg_sender e). set (p := players w !!! a).
  set (minted := if negb _ then 0 else todaysMinted w).
  split; [| split; [| split; [| split]]].
  - intros ->. done.
  - intros Hpos Hover. destruct (Z.ltb_spec 0 (pendingRewards p)); [| lia].
    destruct (checked_add minted (pendingRewards p)) as [total |] eqn:Htotal;
      cbn [bindR]; [| eauto].
    apply checked_add_inv in Htotal as [-> _].
    destruct (Z.leb_spec (minted + pendingRewards p) (dailyMintLimit w)); [lia | eauto].
  - intros Hpos Hover Hfit. destruct (Z.ltb_spec 0 (pendingRewards p)); [| lia].
    rewrite checked_add_ok by done. cbn [bindR].
    destruct (Z.leb_spec (minted + pendingRewards p) (dailyMintLimit w)); [lia | done].
  - intros w' Hrun.
    destruct (Z.ltb_spec 0 (pendingRewards p)) as [Hpos | _]; [| done].
    destruct (checked_add minted (pendingRewards p)) as [total |] eqn:Htotal; [| done].
    apply checked_add_inv in Htotal as [-> _]. cbn [bindR] in Hrun.
    destruct (Z.leb_spec (minted + pendingRewards p) (dailyMintLimit w)) as [Hlim | _];
      [| done].
    destruct (checked_add (totalMined p) (pendingRewards p)) as [mined |] eqn:Hmined;
      [| done].
    apply checked_add_inv in Hmined as [-> _]. cbn [bindR] in Hrun.
    destruct (mint _ _ _ _) as [t |]; [| done]. simplify_eq.
    world_simpl. rewrite lookup_total_insert_eq.
    split; [done |]. split; [done |]. split; [reflexivity |].
    split; [reflexivity |].
    rewrite withdraw_run. cbv zeta. world_simpl.
    rewrite lookup_total_insert_eq. reflexivity.
  - intros err Hrun. unfold transact. cbn [dispatch].
    rewrite withdraw_run. cbv zeta. fold a p minted. rewrite Hrun. done.
Qed.

Lemma executeTaps_over_limit e taps seed cr w :
  MAX_TAPS_PER_BLOCK <
    mapping_get (blockTaps w) (msg_sender e, block_number e) + taps ->
  _executeTaps e taps seed cr w =
    Fail (if mapping_get (blockTaps w) (msg_sender e, block_number e) + taps
             <=? MAX_UINT256
          then Revert "Block limit exceeded" else Panic).
Proof.
  intros Hover. rewrite executeTaps_run. cbv zeta. unfold checked_add.
  destruct (_ + taps <=? MAX_UINT256); [| done]. cbn [bindR].
  destruct (Z.leb_spec (mapping_get (blockTaps w) (msg_sender e, block_number e) + taps)
              MAX_TAPS_PER_BLOCK); [lia | done].
Qed.

(** C4: a tap execution whose count, added to the taps the caller already
    used in the current block, exceeds [MAX_TAPS_PER_BLOCK] fails, on the
    direct path and on the reveal path alike, and the transaction leaves the
    whole storage as it was: pending rewards, total taps, critical hits,
    taps since the last critical, last tap block and the per-block counter. *)
Theorem tap_limit_all_or_nothing (e : Env) (w : World) (count seed : Z)
    (isCommitReveal : bool) (secret nonce : Z) :
  let a := msg_sender e in
  let used := mapping_get (blockTaps w) (a, block_number e) in
  MAX_TAPS_PER_BLOCK < used + count ->
  (exists err, _executeTaps e count seed isCommitReveal w = Fail err) /\
  ((exists err, tapMine e count w = Fail err) /\
   transact e (TapMine count) w = w) /\
  (uint16 (taps (commitments w !!! a)) = count ->
   (exists err, revealTap e secret nonce w = Fail err) /\
   transact e (RevealTap secret nonce) w = w) /\
  (forall c, (c = TapMine count \/
              (c = RevealTap secret nonce /\
               uint16 (taps (commitments w !!! a)) = count)) ->
     let w' := transact e c w in
     players w' !!! a = players w !!! a /\
     mapping_get (blockTaps w') (a, block_number e) = used).
Proof.
  cbv zeta. intros Hover.
  assert (Htap : exists err, tapMine e count w = Fail err).
  { rewrite tapMine_run. destruct (paused w); [eauto |].
    destruct (_ && _); [| eauto].
    destruct (checked_sub _ _) as [previous |]; cbn [bindR]; [| eauto].
    cbv zeta. rewrite executeTaps_over_limit by done. eauto. }
  assert (Hrev : uint16 (taps (commitments w !!! msg_sender e)) = count ->
                 exists err, revealTap e secret nonce w = Fail err).
  { intros Hcount. rewrite revealTap_run. cbv zeta.
    destruct (paused w); [eauto |].
    destruct (negb _); [eauto |].
    destruct (revealed _); [eauto |].
    destruct (checked_add _ COMMIT_REVEAL_BLOCKS) as [earliest |]; cbn [bindR]; [| eauto].
    destruct (negb _); [eauto |].
    destruct (_ =? 0); [eauto |].
    destruct (checked_add _ MAX_REVEAL_DELAY) as [latest |]; cbn [bindR]; [| eauto].
    destruct (negb _); [eauto |].
    destruct (negb _); [eauto |].
    rewrite Hcount. rewrite executeTaps_over_limit by done. eauto. }
  assert (Htx1 : transact e (TapMine count) w = w).
  { destruct Htap as [err Htap]. unfold transact. cbn [dispatch]. by rewrite Htap. }
  assert (Htx2 : uint16 (taps (commitments w !!! msg_sender e)) = count ->
                 transact e (RevealTap secret nonce) w = w).
  { intros Hcount. destruct (Hrev Hcount) as [err Hfail].
    unfold transact. cbn [dispatch]. by rewrite Hfail. }
  split; [rewrite executeTaps_over_limit by done; eauto |].
  split; [done |]. split; [auto |].
  intros c [-> | [-> Hcount]]; [rewrite Htx1 | rewrite Htx2 by done]; done.
Qed.

(** C7: in every reachable state the registered miners of every player are
    free of duplicates and at most [MAX_REGISTERED_MINERS] many, and every
    transaction keeps it so; [registerMiner] fails when the caller does not
    own the asset, when the cap is reached and when the asset is already
    registered. *)
Theorem registered_miners_invariant (w : World) :
  reachable w ->
  (forall a,
     NoDup (registeredMiners (players w !!! a)) /\
     Z.of_nat (length (registeredMiners (players w !!! a)))
       <= MAX_REGISTERED_MINERS) /\
  (forall e c a, valid_env e -> valid_call c ->
     NoDup (registeredMiners (players (transact e c w) !!! a)) /\
     Z.of_nat (length (registeredMiners (players (transact e c w) !!! a)))
       <= MAX_REGISTERED_MINERS) /\
  (forall e tokenId,
     let miners := registeredMiners (players w !!! msg_sender e) in
     (nft_ownerOf e tokenId <> Some (msg_sender e) ->
        exists err, registerMiner e tokenId w = Fail err) /\
     (forall other, nft_ownerOf e tokenId = Some other -> other <> msg_sender e ->
        registerMiner e tokenId w = Fail (Revert "Not the owner")) /\
     (nft_ownerOf e tokenId = Some (msg_sender e) ->
        Z.of_nat (length miners) = MAX_REGISTERED_MINERS ->
        registerMiner e tokenId w = Fail (Revert "Max miners reached")) /\
     (nft_ownerOf e tokenId = Some (msg_sender e) ->
        Z.of_nat (length miners) < MAX_REGISTERED_MINERS ->
        tokenId ∈ miners ->
        registerMiner e tokenId w = Fail (Revert "Already registered")) /\
     (tokenId ∈ miners -> exists err, registerMiner e tokenId w = Fail err) /\
     (Z.of_nat (length miners) = MAX_REGISTERED_MINERS ->
        exists err, registerMiner e tokenId w = Fail err)).
Proof.
  intros Hreach. pose proof (reachable_wf w Hreach) as Hwf.
  split; [| split].
  - intros a. destruct (wf_players w Hwf a). done.
  - intros e c a Henv Hcall.
    destruct (wf_players _ (transact_wf e c w Hwf Henv Hcall) a). done.
  - intros e tokenId. cbv zeta. rewrite registerMiner_run. cbv zeta.
    split; [| split; [| split; [| split; [| split]]]].
    + intros Hown. destruct (nft_ownerOf e tokenId) as [o |]; [| eauto].
      destruct (Z.eqb_spec o (msg_sender e)) as [-> | _]; [done | eauto].
    + intros other -> Hother.
      destruct (Z.eqb_spec other (msg_sender e)); [done | done].
    + intros -> Hfull. rewrite Z.eqb_refl.
      destruct (Z.ltb_spec (Z.of_nat (length (registeredMiners (players w !!! msg_sender e))))
                  MAX_REGISTERED_MINERS); [lia | done].
    + intros -> Hroom Hin. rewrite Z.eqb_refl.
      destruct (Z.ltb_spec (Z.of_nat (length (registeredMiners (players w !!! msg_sender e))))
                  MAX_REGISTERED_MINERS); [| lia].
      by rewrite bool_decide_eq_true_2.
    + intros Hin. destruct (nft_ownerOf e tokenId) as [o |]; [| eauto].
      destruct (o =? msg_sender e); [| eauto].
      destruct (_ <? _); [| eauto].
      rewrite bool_decide_eq_true_2 by done. eauto.
    + intros Hfull. destruct (nft_ownerOf e tokenId) as [o |]; [| eauto].
      destruct (o =? msg_sender e); [| eauto].
      destruct (Z.ltb_spec (Z.of_nat (length (registeredMiners (players w !!! msg_sender e))))
                  MAX_REGISTERED_MINERS); [lia | eauto].
Qed.

(** C6: in every reachable state a player has at most one commitment made
    and not yet revealed (counted on the log, it is one exactly when the
    stored commitment is pending); [commitTap] fails while the caller's
    commitment is pending, [revealTap] on a revealed commitment fails with
    "Already revealed", and an accepted commit found no commitment or a
    revealed one. *)
Theorem single_pending_commitment (w : World) :
  reachable w ->
  (forall a,
     0 <= outstanding_commits a (events w) <= 1 /\
     (outstanding_commits a (events w) = 1 <->
        pending_commit (commitments w !!! a) = true)) /\
  (forall e commitment count,
     pending_commit (commitments w !!! msg_sender e) = true ->
     (exists err, commitTap e commitment count w = Fail err) /\
     (paused w = false -> 0 < count <= MAX_TAPS_PER_CALL ->
        commitTap e commitment count w = Fail (Revert "Pending commitment"))) /\
  (forall e secret nonce,
     revealed (commitments w !!! msg_sender e) = true ->
     (exists err, revealTap e secret nonce w = Fail err) /\
     (paused w = false ->
        revealTap e secret nonce w = Fail (Revert "Already revealed"))) /\
  (forall e commitment count w',
     valid_env e -> commitTap e commitment count w = Ok (tt, w') ->
     (blockNumber (commitments w !!! msg_sender e) = 0 \/
      revealed (commitments w !!! msg_sender e) = true) /\
     pending_commit (commitments w' !!! msg_sender e) = true).
Proof.
  intros Hreach. pose proof (reachable_wf w Hreach) as Hwf.
  split; [| split; [| split]].
  - intros a. rewrite (wf_log w Hwf a).
    destruct (pending_commit (commitments w !!! a)); split; (lia || done).
  - intros e commitment count Hpending.
    unfold pending_commit in Hpending.
    apply andb_true_iff in Hpending as [Hbn Hrev].
    apply Z.ltb_lt in Hbn. apply negb_true_iff in Hrev.
    assert (Hguard : (blockNumber (commitments w !!! msg_sender e) =? 0)
                     || revealed (commitments w !!! msg_sender e) = false).
    { rewrite Hrev, orb_false_r. apply Z.eqb_neq. lia. }
    unfold commitTap. monad_unfold. cbv beta. split.
    + destruct (paused w); [eauto |].
      destruct (_ && _); [| eauto]. rewrite Hguard. eauto.
    + intros -> [Hlo Hhi].
      destruct (Z.ltb_spec 0 count); [| lia].
      destruct (Z.leb_spec count MAX_TAPS_PER_CALL); [| lia]. cbn [andb].
      by rewrite Hguard.
  - intros e secret nonce Hrev.
    pose proof (wf_revealed _ (wf_commits w Hwf (msg_sender e)) Hrev) as Hbn.
    rewrite revealTap_run. cbv zeta. split.
    + destruct (paused w); [eauto |].
      destruct (negb _); [eauto |]. rewrite Hrev. eauto.
    + intros ->. destruct (Z.ltb_spec 0 (blockNumber (commitments w !!! msg_sender e)));
        [| lia].
      cbn [negb]. by rewrite Hrev.
  - intros e commitment count w' [Hbn _] Hrun.
    unfold commitTap in Hrun. monad_unfold. cbv beta in Hrun.
    destruct (paused w); [done |].
    destruct (_ && _); [| done].
    destruct (_ || _) eqn:Hguard; [| done]. simplify_eq. split.
    + apply orb_true_iff in Hguard as [Hz | Hr]; [left; by apply Z.eqb_eq | by right].
    + world_simpl. rewrite lookup_total_insert_eq.
      unfold pending_commit. cbn. apply andb_true_iff. split; [| done].
      apply Z.ltb_lt. rewrite uint128_block by done. lia.
Qed.

Lemma tap_room_fits base G count pending :
  0 <= base -> 50 * base <= 2 ^ 200 -> 0 <= G <= 10000 * 10 ^ 18 ->
  0 <= count <= 2 ^ 16 -> pending <= 2 ^ 255 ->
  pending + count * (50 * base + G) <= MAX_UINT256.
Proof.
  intros Hb Hb' HG Hc Hp.
  assert (Hk : 2 ^ 255 + 2 ^ 16 * (2 ^ 200 + 10000 * 10 ^ 18) <= MAX_UINT256)
    by (vm_compute; discriminate).
  assert (count * (50 * base + G) <= 2 ^ 16 * (2 ^ 200 + 10000 * 10 ^ 18)) by nia.
  lia.
Qed.

(** C1 (as the code computes it): for a count in [1, 20] and every seed, a
    direct tap execution in a reachable state, by a player with asset-power
    sum [P] and level [L] whose product fits [uint128], with tap budget left
    in the block and counters far from the top of [uint256], succeeds; its
    total reward is at least [BASE_REWARD * (P * (L + 1) + 1) * count] and
    at most that times 50 plus the largest gem bonus once per tap; and
    [totalTaps] grows by exactly the count (modulo 2^256).  [tapMine] runs
    this execution with the seed it derives from the block. *)
Theorem direct_tap_reward_bounds (e : Env) (w : World) (count seed : Z) :
  let a := msg_sender e in
  let p := players w !!! a in
  let P := owned_power e a (registeredMiners p) in
  let L := level p in
  let base := BASE_REWARD * (P * (L + 1) + 1) in
  reachable w -> valid_env e ->
  1 <= count <= MAX_TAPS_PER_CALL ->
  mapping_get (blockTaps w) (a, block_number e) + count <= MAX_TAPS_PER_BLOCK ->
  P * (L + 1) <= MAX_UINT128 ->
  tapsSinceCritical p <= 2 ^ 255 ->
  pendingRewards p <= 2 ^ 255 ->
  (exists totalReward w',
     _executeTaps e count seed false w = Ok (totalReward, w') /\
     base * count <= totalReward /\
     totalReward <= base * count * 50 + count * max_gem_bonus w /\
     totalTaps (players w' !!! a) = wrap256 (totalTaps p + count) /\
     (totalTaps p + count <= MAX_UINT256 ->
        totalTaps (players w' !!! a) = totalTaps p + count) /\
     pendingRewards (players w' !!! a) = pendingRewards p + totalReward) /\
  (paused w = false ->
     exists derived,
       tapMine e count w =
         match _executeTaps e count derived false w with
         | Ok (_, w') => Ok (tt, w')
         | Fail err => Fail err
         end).
Proof.
  cbv zeta. intros Hreach Henv Hcount Hlimit Hfit Htsc Hpend.
  pose proof (reachable_wf w Hreach) as Hwf.
  pose proof (wf_world_config w Hwf) as Hc.
  pose proof (wf_players w Hwf (msg_sender e)) as Hwp.
  pose proof (max_gem_bonus_range w Hc) as HG.
  set (a := msg_sender e) in *. set (p := players w !!! a) in *.
  set (fp := owned_power e a (registeredMiners p) * (level p + 1)) in *.
  assert (Hfp0 : 0 <= fp).
  { destruct Henv as [_ Hpow].
    pose proof (owned_power_nonneg e a (registeredMiners p) (fun t => proj1 (Hpow t))).
    destruct Hwp as [[? ?] _ _ _ _ _ _ _]. subst fp. nia. }
  pose proof (base_tap_reward_range fp false (conj Hfp0 Hfit)) as [Hb0 Hb50].
  change (base_tap_reward fp false) with (BASE_REWARD * (fp + 1)) in Hb0, Hb50.
  unfold MAX_TAPS_PER_CALL in Hcount.
  split.
  - destruct (executeTaps_succeeds e count seed false w) as (r & w' & Hrun);
      [done | done | lia | done | done | done | fold a p; lia | |].
    { fold a p fp. change (base_tap_reward fp false) with (BASE_REWARD * (fp + 1)).
      apply tap_room_fits; try done. split; [lia |].
      apply Z.le_trans with 20; [lia | vm_compute; discriminate]. }
    exists r, w'. split; [exact Hrun |].
    apply executeTaps_inv in Hrun
      as (ch & tsc & evs & crit & -> & _ & _ & _ & _ & _ & Hr & _);
      [| done | done | lia | done].
    fold a p fp in Hr. change (base_tap_reward fp false) with (BASE_REWARD * (fp + 1)) in Hr.
    unfold executed_world. world_simpl. fold a. rewrite lookup_total_insert_eq. cbn.
    fold p. split; [lia |]. split; [lia |]. split; [reflexivity |].
    split; [| reflexivity].
    intros Hroom. apply wrap256_small. destruct Hwp as [_ _ _ [? ?] _ _ _ _].
    unfold is_uint256. lia.
  - intros Hp. rewrite tapMine_run, Hp.
    destruct (Z.ltb_spec 0 count); [| lia].
    destruct (Z.leb_spec count MAX_TAPS_PER_CALL); [| unfold MAX_TAPS_PER_CALL in *; lia].
    cbn [andb]. destruct Henv as [Hbn _].
    rewrite checked_sub_ok by lia. cbn [bindR]. cbv zeta. eauto.
Qed.

(** C10: the reward of a batch is the sum of what its taps pay, and every
    tap is paid from one base reward, fixed once per batch:
    [BASE_REWARD * (power + 1)] on the direct path, and that times 110
    divided by 100 (truncating) on the commit-reveal path.  A tap that is not
    critical pays the base reward; a critical tap pays the base reward times
    its multiplier; and a critical tap that finds a gem pays that plus the
    gem bonus as it stands in the table, so neither the multiplier nor the
    10% bonus touches the gem bonus.  This holds of every tap of every
    batch, whatever came before it in the batch. *)
Theorem gem_bonus_is_flat (e : Env) (w : World) (taps seed : Z)
    (isCommitReveal : bool) (reward : Z) (w' : World) :
  let a := msg_sender e in
  let p := players w !!! a in
  let power := owned_power e a (registeredMiners p) * (level p + 1) in
  let base :=
    if isCommitReveal then BASE_REWARD * (power + 1) * 110 / 100
    else BASE_REWARD * (power + 1) in
  let ts := batch_taps (Z.to_nat taps) 0 seed (tapsSinceCritical p) in
  reachable w -> valid_env e ->
  _executeTaps e taps seed isCommitReveal w = Ok (reward, w') ->
  reward = sum_list (map (tap_pays w base) ts) /\
  forall t, t ∈ ts ->
    (is_critical t = false -> tap_pays w base t = base) /\
    (is_critical t = true ->
     exists m,
       _selectMultiplier w (tap_subSeed t) = Ok m /\
       (5 <= tap_subSeed t mod 100 -> tap_pays w base t = base * m) /\
       (tap_subSeed t mod 100 < 5 ->
        exists g,
          _selectGem w (Z.shiftr (tap_subSeed t) 8) = Ok g /\
          (g = NONE -> tap_pays w base t = base * m) /\
          (g <> NONE -> tap_pays w base t = base * m + bonus (gemRewards w g)))).
Proof.
  cbv zeta. intros Hreach Henv Hrun.
  pose proof (reachable_wf w Hreach) as Hwf.
  pose proof (wf_world_config w Hwf) as Hc.
  apply executeTaps_trace in Hrun;
    [| exact Henv | exact (wf_players w Hwf (msg_sender e))].
  cbv zeta in Hrun. destruct Hrun as (_ & _ & _ & Hreward & _).
  split; [exact Hreward |].
  intros t _. unfold tap_pays, multiplier_of, gem_of. split.
  - by intros ->.
  - intros ->.
    destruct (selectMultiplier_ok w (tap_subSeed t) Hc) as (m & Hm & _).
    exists m. split; [exact Hm |]. rewrite Hm. split.
    + intros Hplain. destruct (Z.ltb_spec (tap_subSeed t mod 100) 5); [lia |].
      rewrite bool_decide_eq_false_2 by (intros Hne; by apply Hne). lia.
    + intros Hgem. destruct (Z.ltb_spec (tap_subSeed t mod 100) 5); [| lia].
      destruct (selectGem_ok w (Z.shiftr (tap_subSeed t) 8)) as (g & Hg).
      exists g. split; [exact Hg |]. rewrite Hg. split.
      * intros ->. rewrite bool_decide_eq_false_2 by (intros Hne; by apply Hne).
        lia.
      * intros Hne. by rewrite bool_decide_eq_true_2.
Qed.

(** C2 (as the code computes it): for a caller with a pending commitment
    who supplies the matching secret and nonce on an unpaused contract,
    [revealTap] in the block of the commit fails with "Too early"; one block
    later it still fails, with "Block hash not available", because the digest
    of the current block cannot be read; from two blocks up to
    [MAX_REVEAL_DELAY] blocks after the commit it succeeds (given the tap
    itself can run); and more than [COMMIT_REVEAL_BLOCKS + MAX_REVEAL_DELAY]
    blocks after the commit it fails with "Block hash not available", that
    check coming before the "Too late" check, which is only ever reported
    exactly [MAX_REVEAL_DELAY + 1] blocks after the commit. *)
Theorem reveal_window (e : Env) (w : World) (secret nonce : Z) :
  let a := msg_sender e in
  let commit := commitments w !!! a in
  let p := players w !!! a in
  let elapsed := block_number e - blockNumber commit in
  reachable w -> valid_env e -> paused w = false ->
  pending_commit commit = true ->
  hash commit =
    keccak256 (encode_address a ++ encode_uint256 secret ++
               encode_uint256 nonce ++ encode_uint128 (taps commit)) ->
  block_hashes e (blockNumber commit + COMMIT_REVEAL_BLOCKS) <> 0 ->
  (elapsed < COMMIT_REVEAL_BLOCKS ->
     revealTap e secret nonce w = Fail (Revert "Too early")) /\
  (elapsed = COMMIT_REVEAL_BLOCKS ->
     revealTap e secret nonce w = Fail (Revert "Block hash not available")) /\
  (COMMIT_REVEAL_BLOCKS < elapsed <= MAX_REVEAL_DELAY ->
     mapping_get (blockTaps w) (a, block_number e) + taps commit
       <= MAX_TAPS_PER_BLOCK ->
     owned_power e a (registeredMiners p) * (level p + 1) <= MAX_UINT128 ->
     tapsSinceCritical p <= 2 ^ 255 -> pendingRewards p <= 2 ^ 255 ->
     exists w', revealTap e secret nonce w = Ok (tt, w') /\
       revealed (commitments w' !!! a) = true /\
       totalTaps (players w' !!! a) = wrap256 (totalTaps p + taps commit)) /\
  (elapsed = MAX_REVEAL_DELAY + 1 ->
     revealTap e secret nonce w = Fail (Revert "Too late")) /\
  (COMMIT_REVEAL_BLOCKS + MAX_REVEAL_DELAY < elapsed ->
     revealTap e secret nonce w = Fail (Revert "Block hash not available")).
Proof.
  cbv zeta. intros Hreach Henv Hpaused Hpending Hhash Hdigest.
  pose proof (reachable_wf w Hreach) as Hwf.
  pose proof (wf_commits w Hwf (msg_sender e)) as [[Hbn0 Hbn64] Htaps _].
  pose proof Henv as [[Hnow0 Hnow64] _].
  unfold pending_commit in Hpending.
  apply andb_true_iff in Hpending as [Hbn Hrev].
  apply Z.ltb_lt in Hbn. apply negb_true_iff in Hrev.
  specialize (Htaps Hbn).
  assert (H64 : 2 ^ 64 + 256 <= MAX_UINT256) by (vm_compute; discriminate).
  set (a := msg_sender e) in *. set (c := commitments w !!! a) in *.
  assert (Hprefix :
    revealTap e secret nonce w =
      if negb (blockNumber c + COMMIT_REVEAL_BLOCKS <=? block_number e)
      then Fail (Revert "Too early")
      else if blockhash e (blockNumber c + COMMIT_REVEAL_BLOCKS) =? 0
      then Fail (Revert "Block hash not available")
      else if negb (block_number e <=? blockNumber c + MAX_REVEAL_DELAY)
      then Fail (Revert "Too late")
      else
        match
          _executeTaps e (taps c)
            (keccak256 (encode_bytes32 (blockhash e (blockNumber c + COMMIT_REVEAL_BLOCKS))
                        ++ encode_uint256 secret ++ encode_uint256 nonce
                        ++ encode_address a)) true
            (set_commitments (<[a := set_revealed true c]> (commitments w)) w)
        with
        | Ok (reward, w') =>
            Ok (tt, set_events (events w' ++ [CommitmentRevealed a reward]) w')
        | Fail err => Fail err
        end).
  { rewrite revealTap_run. cbv zeta. fold a c.
    rewrite Hpaused, Hrev.
    destruct (Z.ltb_spec 0 (blockNumber c)); [| lia]. cbn [negb].
    rewrite checked_add_ok by (unfold COMMIT_REVEAL_BLOCKS; lia). cbn [bindR].
    rewrite checked_add_ok by (unfold MAX_REVEAL_DELAY; lia). cbn [bindR].
    rewrite <- Hhash, Z.eqb_refl. cbn [negb].
    rewrite uint16_taps by lia. reflexivity. }
  rewrite Hprefix. unfold blockhash.
  unfold COMMIT_REVEAL_BLOCKS, MAX_REVEAL_DELAY in *.
  split; [| split; [| split; [| split]]].
  - intros Hearly. destruct (Z.leb_spec (blockNumber c + 1) (block_number e)); [lia | done].
  - intros Hexact. destruct (Z.leb_spec (blockNumber c + 1) (block_number e)); [| lia].
    cbn [negb]. destruct (Z.ltb_spec (blockNumber c + 1) (block_number e)); [lia |].
    done.
  - intros [Hlo Hhi] Hlimit Hfit Htsc Hpend.
    destruct (Z.leb_spec (blockNumber c + 1) (block_number e)); [| lia]. cbn [negb].
    destruct (Z.ltb_spec (blockNumber c + 1) (block_number e)); [| lia].
    destruct (Z.leb_spec (block_number e - 256) (blockNumber c + 1)); [| lia].
    cbn [andb]. destruct (Z.eqb_spec (block_hashes e (blockNumber c + 1)) 0); [done |].
    destruct (Z.leb_spec (block_number e) (blockNumber c + 256)); [| lia]. cbn [negb].
    pose proof (wf_world_config w Hwf) as Hc.
    pose proof (wf_players w Hwf a) as Hwp.
    pose proof (max_gem_bonus_range w Hc) as HG.
    assert (Hfp0 : 0 <= owned_power e a (registeredMiners (players w !!! a))
                        * (level (players w !!! a) + 1)).
    { destruct Henv as [_ Hpow].
      pose proof (owned_power_nonneg e a (registeredMiners (players w !!! a))
                    (fun t => proj1 (Hpow t))).
      destruct Hwp as [[? ?] _ _ _ _ _ _ _]. nia. }
    pose proof (base_tap_reward_range _ true (conj Hfp0 Hfit)) as [Hb0 Hb50].
    unfold MAX_TAPS_PER_CALL in Htaps.
    destruct (executeTaps_succeeds e (taps c)
                (keccak256 (encode_bytes32 (block_hashes e (blockNumber c + 1))
                            ++ encode_uint256 secret ++ encode_uint256 nonce
                            ++ encode_address a)) true
                (set_commitments (<[a := set_revealed true c]> (commitments w)) w))
      as (r & w' & Hrun);
      [exact Hc | done | lia | exact Hwp | exact Hlimit | exact Hfit
      | world_simpl; fold a; lia | |].
    { world_simpl. fold a. change (max_gem_bonus _) with (max_gem_bonus w).
      apply tap_room_fits; try done. split; [lia |].
      apply Z.le_trans with 20; [lia | vm_compute; discriminate]. }
    rewrite Hrun. eexists. split; [reflexivity |].
    apply executeTaps_inv in Hrun
      as (ch & tsc & evs & crit & -> & _); [| exact Hc | done | lia | exact Hwp].
    unfold executed_world. world_simpl. fold a.
    rewrite !lookup_total_insert_eq. split; reflexivity.
  - intros Hlate.
    destruct (Z.leb_spec (blockNumber c + 1) (block_number e)); [| lia]. cbn [negb].
    destruct (Z.ltb_spec (blockNumber c + 1) (block_number e)); [| lia].
    destruct (Z.leb_spec (block_number e - 256) (blockNumber c + 1)); [| lia].
    cbn [andb]. destruct (Z.eqb_spec (block_hashes e (blockNumber c + 1)) 0); [done |].
    destruct (Z.leb_spec (block_number e) (blockNumber c + 256)); [lia | done].
  - intros Hgone.
    destruct (Z.leb_spec (blockNumber c + 1) (block_number e)); [| lia]. cbn [negb].
    destruct (Z.ltb_spec (blockNumber c + 1) (block_number e)); [| lia].
    destruct (Z.leb_spec (block_number e - 256) (blockNumber c + 1)); [lia |].
    done.
Qed.

(** A tap whose sub-seed is 5 or more modulo 100 finds no gem, whatever the
    bits above the eighth are. *)
Lemma tap_roll_no_gem e base rs total hc w p l' w' :
  players w !! msg_sender e = Some p ->
  5 <= rs mod 100 ->
  tap_roll e base rs total hc w = Ok (l', w') ->
  events w' = events w.
Proof.
  intros Hp Hroll Hrun.
  rewrite (tap_roll_run _ _ _ _ _ _ _ Hp) in Hrun. cbv zeta in Hrun.
  destruct (_calculatePityBonus (tapsSinceCritical p)) as [pity |]; [| done].
  cbn [bindR] in Hrun.
  destruct (checked_add CRITICAL_BASE_CHANCE pity) as [cc |]; [| done].
  cbn [bindR] in Hrun.
  destruct (Z.ltb_spec (rs mod 100) 5); [lia |].
  destruct (rs mod 100 <? cc).
  - destruct (_selectMultiplier w rs) as [m |]; [| done]. cbn [bindR] in Hrun.
    destruct (checked_mul base m) as [tr |]; [| done]. cbn [bindR] in Hrun.
    destruct (checked_add total tr) as [tot |]; [| done]. cbn [bindR] in Hrun.
    simplify_eq. unfold tap_effect. world_simpl. apply app_nil_r.
  - destruct (checked_add total base) as [tot |]; [| done]. cbn [bindR] in Hrun.
    simplify_eq. unfold tap_effect. world_simpl. apply app_nil_r.
Qed.

(** ** What each call leaves behind

    The storage after a successful call, written out, with what the call
    checked on the way.  Invariants of the reachable states are proved from
    these. *)

Lemma commitTap_inv e commitment count w w' :
  commitTap e commitment count w = Ok (tt, w') ->
  paused w = false /\ 0 < count <= MAX_TAPS_PER_CALL /\
  (blockNumber (commitments w !!! msg_sender e) = 0 \/
   revealed (commitments w !!! msg_sender e) = true) /\
  w' = set_events (events w ++ [CommitmentMade (msg_sender e) commitment])
         (set_commitments
            (<[msg_sender e :=
                 mkCommitData commitment (uint128 (block_number e))
                   (uint128 count) false]> (commitments w)) w).
Proof.
  intros Hrun. unfold commitTap in Hrun. monad_unfold. cbv beta in Hrun.
  destruct (paused w); [done |].
  destruct ((0 <? count) && (count <=? MAX_TAPS_PER_CALL)) eqn:Hcount; [| done].
  destruct ((blockNumber (commitments w !!! msg_sender e) =? 0)
            || revealed (commitments w !!! msg_sender e)) eqn:Hfree; [| done].
  world_simpl in Hrun. simplify_eq. boolify.
  split; [done |]. split; [lia |]. split; [| done].
  apply orb_true_iff in Hfree as [Hz | Hr]; [left; lia | by right].
Qed.

Lemma tapMine_inv e count w w' :
  wf_world w -> valid_env e -> tapMine e count w = Ok (tt, w') ->
  paused w = false /\ 0 < count <= MAX_TAPS_PER_CALL /\
  exists r ch tsc evs crit,
    w' = executed_world e count r ch tsc evs crit w /\
    Forall (is_gem_event (msg_sender e)) evs /\
    0 <= r /\ pendingRewards (players w !!! msg_sender e) + r <= MAX_UINT256 /\
    mapping_get (blockTaps w) (msg_sender e, block_number e) + count
      <= MAX_TAPS_PER_BLOCK /\
    0 <= owned_power e (msg_sender e)
           (registeredMiners (players w !!! msg_sender e))
         * (level (players w !!! msg_sender e) + 1) <= MAX_UINT128.
Proof.
  intros Hwf Henv Hrun. rewrite tapMine_run in Hrun.
  destruct (paused w); [done |].
  destruct ((0 <? count) && (count <=? MAX_TAPS_PER_CALL)) eqn:Hcount; [| done].
  destruct (checked_sub (block_number e) 1) as [previous |]; [| done].
  cbn [bindR] in Hrun. cbv zeta in Hrun.
  destruct (_executeTaps e count _ false w) as [[r w2] |] eqn:Hexec; [| done].
  simplify_eq. boolify.
  apply executeTaps_inv in Hexec
    as (ch & tsc & evs & crit & -> & Hlimit & Hfp & Hch & Htsc & Hev & Hr & Hfit);
    [| by apply wf_world_config | done | lia | apply Hwf].
  pose proof (base_tap_reward_range _ false Hfp) as [Hb0 _].
  split; [done |]. split; [lia |].
  exists r, ch, tsc, evs, crit. repeat split; first [done | lia | nia].
Qed.

Lemma revealTap_inv e secret nonce w w' :
  wf_world w -> valid_env e -> revealTap e secret nonce w = Ok (tt, w') ->
  let a := msg_sender e in
  let c := commitments w !!! a in
  paused w = false /\ pending_commit c = true /\
  blockNumber c + COMMIT_REVEAL_BLOCKS < block_number e /\
  block_number e <= blockNumber c + MAX_REVEAL_DELAY /\
  exists r ch tsc evs crit,
    w' = set_events
           (events w ++ evs ++ [Tapped a (taps c) r crit; CommitmentRevealed a r])
           (executed_world e (taps c) r ch tsc evs crit
              (set_commitments (<[a := set_revealed true c]> (commitments w)) w)) /\
    Forall (is_gem_event a) evs /\
    0 <= r /\ pendingRewards (players w !!! a) + r <= MAX_UINT256 /\
    mapping_get (blockTaps w) (a, block_number e) + taps c <= MAX_TAPS_PER_BLOCK /\
    0 < taps c <= MAX_TAPS_PER_CALL.
Proof.
  intros Hwf Henv Hrun. cbv zeta. rewrite revealTap_run in Hrun. cbv zeta in Hrun.
  repeat match type of Hrun with
         | context [keccak256 ?x] =>
             let h := fresh "h" in set (h := keccak256 x) in Hrun; clearbody h
         end.
  destruct (paused w); [done |].
  destruct (Z.ltb_spec 0 (blockNumber (commitments w !!! msg_sender e)))
    as [Hbn | _]; [| done].
  cbn [negb] in Hrun.
  destruct (revealed (commitments w !!! msg_sender e)) eqn:Hrev; [done |].
  destruct (checked_add (blockNumber (commitments w !!! msg_sender e))
              COMMIT_REVEAL_BLOCKS) as [earliest |] eqn:Hearly; [| done].
  apply checked_add_inv in Hearly as [-> _].
  cbn [bindR] in Hrun.
  destruct (Z.leb_spec
              (blockNumber (commitments w !!! msg_sender e) + COMMIT_REVEAL_BLOCKS)
              (block_number e)) as [Hge | _]; [| done].
  cbn [negb] in Hrun.
  destruct (Z.eqb_spec
              (blockhash e (blockNumber (commitments w !!! msg_sender e)
                            + COMMIT_REVEAL_BLOCKS)) 0) as [| Hhash]; [done |].
  destruct (checked_add (blockNumber (commitments w !!! msg_sender e))
              MAX_REVEAL_DELAY) as [latest |] eqn:Hlate; [| done].
  apply checked_add_inv in Hlate as [-> _].
  cbn [bindR] in Hrun.
  destruct (Z.leb_spec (block_number e)
              (blockNumber (commitments w !!! msg_sender e) + MAX_REVEAL_DELAY))
    as [Hle | _]; [| done].
  cbn [negb] in Hrun. destruct (_ =? hash _); [| done]. cbn [negb] in Hrun.
  destruct (_executeTaps e _ _ true _) as [[r w2] |] eqn:Hexec; [| done].
  simplify_eq.
  pose proof (wf_taps _ (wf_commits w Hwf (msg_sender e)) Hbn) as Htaps.
  rewrite uint16_taps in Hexec by lia.
  apply executeTaps_inv in Hexec
    as (ch & tsc & evs & crit & -> & Hlimit & Hfp & Hch & Htsc & Hev & Hr & Hfit);
    [| exact (wf_world_config w Hwf) | done | lia
     | exact (wf_players w Hwf (msg_sender e))].
  world_simpl in Hlimit. world_simpl in Hfp. world_simpl in Hr. world_simpl in Hfit.
  pose proof (base_tap_reward_range _ true Hfp) as [Hb0 _].
  split; [done |].
  split. { unfold pending_commit. rewrite Hrev. by destruct (Z.ltb_spec 0 (blockNumber (commitments w !!! msg_sender e))); [| lia]. }
  split.
  { unfold blockhash in Hhash.
    destruct (Z.ltb_spec
                (blockNumber (commitments w !!! msg_sender e) + COMMIT_REVEAL_BLOCKS)
                (block_number e)); [done |]. cbn in Hhash. done. }
  split; [done |].
  exists r, ch, tsc, evs, crit.
  split.
  { unfold executed_world. world_simpl. rewrite <- !app_assoc. reflexivity. }
  repeat split; first [done | lia | nia].
Qed.

Lemma withdraw_inv e w w' :
  withdraw e w = Ok (tt, w') ->
  let a := msg_sender e in
  let p := players w !!! a in
  let amount := pendingRewards p in
  let today := block_timestamp e / one_day in
  let rollover := negb (today =? currentDay w) in
  let minted := if rollover then 0 else todaysMinted w in
  0 < amount /\ minted + amount <= dailyMintLimit w /\
  totalMined p + amount <= MAX_UINT256 /\
  exists t,
    mint (this w) a amount (minerToken w) = Ok t /\
    w' = set_events (events w ++ [Withdrawn a amount])
           (set_minerToken t
              (set_players
                 (<[a := set_totalMined (totalMined p + amount)
                           (set_pendingRewards 0 p)]> (players w))
                 (set_todaysMinted (minted + amount)
                    (if rollover then set_currentDay today w else w)))).
Proof.
  intros Hrun. rewrite withdraw_run in Hrun. cbv zeta in *.
  destruct (Z.ltb_spec 0 (pendingRewards (players w !!! msg_sender e)))
    as [Hpos | _]; [| done].
  destruct (checked_add _ _) as [total |] eqn:Htotal; [| done].
  apply checked_add_inv in Htotal as [-> _]. cbn [bindR] in Hrun.
  destruct (Z.leb_spec ((if negb (block_timestamp e / one_day =? currentDay w)
                         then 0 else todaysMinted w)
                        + pendingRewards (players w !!! msg_sender e))
              (dailyMintLimit w)) as [Hlimit | _]; [| done].
  destruct (checked_add (totalMined _) _) as [mined |] eqn:Hmined; [| done].
  apply checked_add_inv in Hmined as [-> Hmined]. cbn [bindR] in Hrun.
  destruct (mint _ _ _ _) as [t |] eqn:Hmint; [| done]. simplify_eq.
  split; [done |]. split; [done |]. split; [done |]. by exists t.
Qed.

Lemma registerMiner_inv e tokenId w w' :
  registerMiner e tokenId w = Ok (tt, w') ->
  let a := msg_sender e in
  let p := players w !!! a in
  nft_ownerOf e tokenId = Some a /\
  Z.of_nat (length (registeredMiners p)) < MAX_REGISTERED_MINERS /\
  (tokenId ∉ registeredMiners p) /\
  w' = set_events (events w ++ [MinerRegistered a tokenId])
         (set_players
            (<[a := set_registeredMiners (registeredMiners p ++ [tokenId]) p]>
               (players w)) w).
Proof.
  intros Hrun. rewrite registerMiner_run in Hrun. cbv zeta in *.
  destruct (nft_ownerOf e tokenId) as [o |]; [| done].
  destruct (Z.eqb_spec o (msg_sender e)) as [Ho | _]; [| done].
  destruct (Z.ltb_spec (Z.of_nat (length (registeredMiners (players w !!! msg_sender e))))
              MAX_REGISTERED_MINERS) as [Hcap | _]; [| done].
  destruct (bool_decide_reflect (tokenId ∈ registeredMiners (players w !!! msg_sender e)))
    as [Hin | Hnot]; [done |].
  by simplify_eq.
Qed.

Lemma unregisterMiner_inv e tokenId w w' :
  unregisterMiner e tokenId w = Ok (tt, w') ->
  exists k last,
    let p := players w !!! msg_sender e in
    (k < length (registeredMiners p))%nat /\
    registeredMiners p !! k = Some tokenId /\
    registeredMiners p !! (length (registeredMiners p) - 1)%nat = Some last /\
    w' = set_events (events w ++ [MinerUnregistered (msg_sender e) tokenId])
           (set_players
              (<[msg_sender e :=
                   set_registeredMiners
                     (take (length (registeredMiners p) - 1)
                        (<[k := last]> (registeredMiners p))) p]> (players w)) w).
Proof.
  intros Hrun. unfold unregisterMiner in Hrun.
  unfold bind, read_player, view in Hrun.
  apply unregister_loop_inv in Hrun; [exact Hrun | lia].
Qed.

Lemma upgrade_run e w :
  upgrade e w =
    let a := msg_sender e in
    let p := players w !!! a in
    if level p <? MAX_LEVEL then
      let? next := checked_add (level p) 1 in
      let? cost := checked_mul next UPGRADE_COST_MULTIPLIER in
      if cost <=? balanceOf (minerToken w) a then
        if cost <=? allowance (minerToken w) a (this w) then
          match burnFrom (this w) a cost (minerToken w) with
          | Ok t =>
              Ok (tt,
                  set_events
                    (events w ++ [PlayerUpgraded a (uint128 (level p + 1)) cost])
                    (set_players
                       (<[a := set_level (uint128 (level p + 1)) p]> (players w))
                       (set_minerToken t w)))
          | Fail err => Fail err
          end
        else Fail (Revert "Insufficient allowance")
      else Fail (Revert "Insufficient balance")
    else Fail (Revert "Max level reached").
Proof.
  unfold upgrade. monad_unfold. cbv beta zeta.
  destruct (level (players w !!! msg_sender e) <? MAX_LEVEL); [| done].
  destruct (checked_add _ 1) as [next |]; [| done]. cbn [bindR].
  destruct (checked_mul next _) as [cost |]; [| done]. cbn [bindR].
  destruct (cost <=? balanceOf _ _); [| done].
  destruct (cost <=? allowance _ _ _); [| done].
  destruct (burnFrom _ _ _ _) as [t |]; [| done].
  world_simpl. rewrite lookup_total_insert_eq. reflexivity.
Qed.

Lemma upgrade_cost_fits l :
  0 <= l <= MAX_LEVEL ->
  checked_add l 1 = Ok (l + 1) /\
  checked_mul (l + 1) UPGRADE_COST_MULTIPLIER
    = Ok ((l + 1) * UPGRADE_COST_MULTIPLIER).
Proof.
  intros [H0 H1]. unfold MAX_LEVEL in H1. pose proof MAX_UINT256_big.
  split.
  - apply checked_add_ok. lia.
  - apply checked_mul_ok. unfold UPGRADE_COST_MULTIPLIER.
    apply Z.le_trans with (10 ^ 30); [| lia].
    apply Z.le_trans with (101 * (100 * 10 ^ 18)); [nia | by vm_compute].
Qed.

Lemma upgrade_inv e w w' :
  wf_world w -> upgrade e w = Ok (tt, w') ->
  let a := msg_sender e in
  let p := players w !!! a in
  let cost := (level p + 1) * UPGRADE_COST_MULTIPLIER in
  level p < MAX_LEVEL /\
  cost <= balanceOf (minerToken w) a /\
  cost <= allowance (minerToken w) a (this w) /\
  exists t,
    burnFrom (this w) a cost (minerToken w) = Ok t /\
    w' = set_events (events w ++ [PlayerUpgraded a (level p + 1) cost])
           (set_players (<[a := set_level (level p + 1) p]> (players w))
              (set_minerToken t w)).
Proof.
  intros Hwf Hrun. cbv zeta. rewrite upgrade_run in Hrun. cbv zeta in Hrun.
  pose proof (wf_level _ (wf_players w Hwf (msg_sender e))) as Hlvl.
  destruct (Z.ltb_spec (level (players w !!! msg_sender e)) MAX_LEVEL)
    as [Hmax | _]; [| done].
  destruct (upgrade_cost_fits _ Hlvl) as [Hnext Hcost].
  rewrite Hnext in Hrun. cbn [bindR] in Hrun.
  rewrite Hcost in Hrun. cbn [bindR] in Hrun.
  destruct (Z.leb_spec ((level (players w !!! msg_sender e) + 1) * UPGRADE_COST_MULTIPLIER)
              (balanceOf (minerToken w) (msg_sender e))) as [Hbal | _]; [| done].
  destruct (Z.leb_spec ((level (players w !!! msg_sender e) + 1) * UPGRADE_COST_MULTIPLIER)
              (allowance (minerToken w) (msg_sender e) (this w))) as [Hal | _]; [| done].
  destruct (burnFrom _ _ _ _) as [t |] eqn:Hburn; [| done].
  rewrite uint128_small in Hrun.
  2:{ unfold MAX_LEVEL in *. split; [lia |].
      apply Z.le_lt_trans with 100; [lia | reflexivity]. }
  simplify_eq. repeat split; try done. by exists t.
Qed.

(** *** The calls of the owner *)

Lemma pause_inv e w w' :
  pause e w = Ok (tt, w') ->
  owner w = msg_sender e /\ paused w = false /\ w' = set_paused true w.
Proof.
  intros Hrun. unfold pause in Hrun. monad_unfold. cbv beta in Hrun.
  destruct (Z.eqb_spec (owner w) (msg_sender e)); [| done].
  destruct (paused w); [done |]. by simplify_eq.
Qed.

Lemma unpause_inv e w w' :
  unpause e w = Ok (tt, w') ->
  owner w = msg_sender e /\ paused w = true /\ w' = set_paused false w.
Proof.
  intros Hrun. unfold unpause in Hrun. monad_unfold. cbv beta in Hrun.
  destruct (Z.eqb_spec (owner w) (msg_sender e)); [| done].
  destruct (paused w); [| done]. by simplify_eq.
Qed.

Lemma emergencyPause_inv e w w' :
  emergencyPause e w = Ok (tt, w') ->
  owner w = msg_sender e /\ paused w = false /\
  w' = set_events (events w ++ [EmergencyPause (msg_sender e)])
         (set_paused true w).
Proof.
  intros Hrun. unfold emergencyPause in Hrun. monad_unfold. cbv beta in Hrun.
  destruct (Z.eqb_spec (owner w) (msg_sender e)); [| done].
  destruct (paused w); [done |]. world_simpl in Hrun. by simplify_eq.
Qed.

Lemma setDailyLimit_inv e newLimit w w' :
  setDailyLimit e newLimit w = Ok (tt, w') ->
  owner w = msg_sender e /\ 0 < newLimit <= 1000000 * ether /\
  w' = set_events (events w ++ [DailyLimitUpdated newLimit])
         (set_dailyMintLimit newLimit w).
Proof.
  intros Hrun. unfold setDailyLimit in Hrun. monad_unfold. cbv beta in Hrun.
  destruct (Z.eqb_spec (owner w) (msg_sender e)); [| done].
  destruct (Z.ltb_spec 0 newLimit); [| done].
  destruct (Z.leb_spec newLimit (1000000 * ether)); [| done].
  world_simpl in Hrun. by simplify_eq.
Qed.

Lemma updateGemReward_inv e gemType gemBonus chance w w' :
  updateGemReward e gemType gemBonus chance w = Ok (tt, w') ->
  owner w = msg_sender e /\ gemType <> NONE /\ chance <= 100 /\
  gemBonus <= 10000 * 10 ^ 18 /\
  w' = set_gemRewards
         (fun g => if bool_decide (g = gemType)
                   then mkGemReward (uint128 gemBonus) (uint128 chance)
                   else gemRewards w g) w.
Proof.
  intros Hrun. unfold updateGemReward in Hrun. monad_unfold. cbv beta in Hrun.
  destruct (Z.eqb_spec (owner w) (msg_sender e)); [| done].
  destruct (bool_decide_reflect (gemType <> NONE)); [| done].
  destruct (Z.leb_spec chance 100); [| done].
  destruct (Z.leb_spec gemBonus (10000 * 10 ^ 18)); [| done].
  by simplify_eq.
Qed.

Lemma updateCriticalWeights_inv e weights w w' :
  wf_world w -> Forall is_uint256 weights ->
  updateCriticalWeights e weights w = Ok (tt, w') ->
  owner w = msg_sender e /\ length weights = 4%nat /\ sum_list weights = 100 /\
  w' = set_criticalWeights weights w.
Proof.
  intros Hwf Hrange Hrun.
  pose proof (updateCriticalWeights_spec e weights w (wf_weights_length w Hwf) Hrange)
    as Hspec.
  by rewrite Hrun in Hspec.
Qed.

Lemma transferOwnership_inv e newOwner w w' :
  transferOwnership e newOwner w = Ok (tt, w') ->
  owner w = msg_sender e /\ w' = set_pendingOwner newOwner w.
Proof.
  intros Hrun. unfold transferOwnership in Hrun. monad_unfold. cbv beta in Hrun.
  destruct (Z.eqb_spec (owner w) (msg_sender e)); [| done]. by simplify_eq.
Qed.

Lemma acceptOwnership_inv e w w' :
  acceptOwnership e w = Ok (tt, w') ->
  pendingOwner w = msg_sender e /\
  w' = set_owner (msg_sender e) (set_pendingOwner 0 w).
Proof.
  intros Hrun. unfold acceptOwnership in Hrun. monad_unfold. cbv beta in Hrun.
  destruct (Z.eqb_spec (pendingOwner w) (msg_sender e)); [| done].
  world_simpl in Hrun. by simplify_eq.
Qed.

Lemma renounceOwnership_inv e w w' :
  renounceOwnership e w = Ok (tt, w') ->
  owner w = msg_sender e /\ w' = set_owner 0 (set_pendingOwner 0 w).
Proof.
  intros Hrun. unfold renounceOwnership in Hrun. monad_unfold. cbv beta in Hrun.
  destruct (Z.eqb_spec (owner w) (msg_sender e)); [| done].
  world_simpl in Hrun. by simplify_eq.
Qed.

(** *** Induction on the reachable states *)

Lemma reachable_invariant (I : World -> Prop) :
  (forall e self token, valid_env e -> I (constructor e self token)) ->
  (forall e c w w',
     wf_world w -> I w -> valid_env e -> valid_call c ->
     dispatch e c w = Ok (tt, w') -> I w') ->
  (forall t w, I w -> I (set_minerToken t w)) ->
  forall w, reachable w -> I w.
Proof.
  intros Hinit Hstep Hledger w Hreach.
  induction Hreach as [e self token Henv | e c w Hreach IH Henv Hcall | t w _ IH].
  - by apply Hinit.
  - unfold transact. destruct (dispatch e c w) as [[[] w'] |] eqn:Hrun; [| done].
    eapply Hstep; eauto. by apply reachable_wf.
  - by apply Hledger.
Qed.

(** Case analysis on a successful call: the call is replaced by what it
    checked and by the storage it left. *)
Ltac invert_dispatch Hwf Henv Hcall Hrun :=
  match type of Hrun with
  | dispatch _ ?c _ = _ =>
      destruct c as [commitment count | secret nonce | count | | tokenId
                    | tokenId | | | | | newLimit | gemType gemBonus chance
                    | weights | newOwner | | ];
      cbn [dispatch valid_call] in Hrun, Hcall
  end;
  [ apply commitTap_inv in Hrun as (Kunpaused & Kcount & Kfree & ->)
  | apply revealTap_inv in Hrun; [| exact Hwf | exact Henv];
    cbv zeta in Hrun;
    destruct Hrun as (Kunpaused & Kpending & Kearly & Klate & r_ & ch_ & tsc_
                      & evs_ & crit_ & -> & Kgems & Kr & Kfit & Klimit & Kcount)
  | apply tapMine_inv in Hrun; [| exact Hwf | exact Henv];
    destruct Hrun as (Kunpaused & Kcount & r_ & ch_ & tsc_ & evs_ & crit_ & ->
                      & Kgems & Kr & Kfit & Klimit & Kpower)
  | apply withdraw_inv in Hrun; cbv zeta in Hrun;
    destruct Hrun as (Kamount & Klimit & Kmined & t_ & Kmint & ->)
  | apply registerMiner_inv in Hrun; cbv zeta in Hrun;
    destruct Hrun as (Kown & Kcap & Knew & ->)
  | apply unregisterMiner_inv in Hrun; cbv zeta in Hrun;
    destruct Hrun as (k_ & last_ & Kk & Kfound & Klast & ->)
  | apply upgrade_inv in Hrun; [| exact Hwf]; cbv zeta in Hrun;
    destruct Hrun as (Klevel & Kbalance & Kallowance & t_ & Kburn & ->)
  | apply pause_inv in Hrun as (Kowner & Kpaused & ->)
  | apply unpause_inv in Hrun as (Kowner & Kpaused & ->)
  | apply emergencyPause_inv in Hrun as (Kowner & Kpaused & ->)
  | apply setDailyLimit_inv in Hrun as (Kowner & Krange & ->)
  | apply updateGemReward_inv in Hrun
      as (Kowner & Kgem & Kchance & Kbonus & ->)
  | apply updateCriticalWeights_inv in Hrun; [| exact Hwf | exact Hcall];
    destruct Hrun as (Kowner & Klen & Ksum & ->)
  | apply transferOwnership_inv in Hrun as (Kowner & ->)
  | apply acceptOwnership_inv in Hrun as (Kpending & ->)
  | apply renounceOwnership_inv in Hrun as (Kowner & ->) ].

(** ** The dry streak *)

Lemma tapMine_streak e count w w' :
  wf_world w -> valid_env e -> tapMine e count w = Ok (tt, w') ->
  forall a,
    BASE_REWARD * tapsSinceCritical (players w !!! a)
      <= pendingRewards (players w !!! a) + totalMined (players w !!! a) ->
    BASE_REWARD * tapsSinceCritical (players w' !!! a)
      <= pendingRewards (players w' !!! a) + totalMined (players w' !!! a).
Proof.
  intros Hwf Henv Hrun. rewrite tapMine_run in Hrun.
  destruct (paused w); [done |].
  destruct ((0 <? count) && (count <=? MAX_TAPS_PER_CALL)); [| done].
  destruct (checked_sub (block_number e) 1) as [previous |]; [| done].
  cbn [bindR] in Hrun. cbv zeta in Hrun.
  destruct (_executeTaps e count _ false w) as [[r w2] |] eqn:Hexec; [| done].
  injection Hrun as <-.
  exact (executeTaps_streak _ _ _ _ _ _ _ (wf_world_config w Hwf) Henv
           (wf_players w Hwf (msg_sender e)) Hexec).
Qed.

Lemma revealTap_streak e secret nonce w w' :
  wf_world w -> valid_env e -> revealTap e secret nonce w = Ok (tt, w') ->
  forall a,
    BASE_REWARD * tapsSinceCritical (players w !!! a)
      <= pendingRewards (players w !!! a) + totalMined (players w !!! a) ->
    BASE_REWARD * tapsSinceCritical (players w' !!! a)
      <= pendingRewards (players w' !!! a) + totalMined (players w' !!! a).
Proof.
  intros Hwf Henv Hrun. rewrite revealTap_run in Hrun. cbv zeta in Hrun.
  repeat match type of Hrun with
         | context [keccak256 ?x] =>
             let h := fresh "h" in set (h := keccak256 x) in Hrun; clearbody h
         end.
  destruct (paused w); [done |].
  destruct (0 <? blockNumber (commitments w !!! msg_sender e)); [| done].
  cbn [negb] in Hrun.
  destruct (revealed (commitments w !!! msg_sender e)); [done |].
  destruct (checked_add _ COMMIT_REVEAL_BLOCKS) as [earliest |]; [| done].
  cbn [bindR] in Hrun.
  destruct (earliest <=? block_number e); [| done]. cbn [negb] in Hrun.
  destruct (blockhash e earliest =? 0); [done |].
  destruct (checked_add _ MAX_REVEAL_DELAY) as [latest |]; [| done].
  cbn [bindR] in Hrun.
  destruct (block_number e <=? latest); [| done]. cbn [negb] in Hrun.
  destruct (_ =? hash _); [| done]. cbn [negb] in Hrun.
  destruct (_executeTaps e _ _ true _) as [[r w2] |] eqn:Hexec; [| done].
  injection Hrun as <-. intros a Hpaid.
  match type of Hexec with
  | _executeTaps _ ?count ?seed _ ?w0 = _ =>
      exact (executeTaps_streak e count seed true w0 r w2
               (wf_world_config w Hwf) Henv (wf_players w Hwf (msg_sender e))
               Hexec a Hpaid)
  end.
Qed.

(** A dry streak is paid for: each tap that lengthened it paid at least
    [BASE_REWARD] into the pending rewards, and a withdrawal moves them to
    the total mined. *)
Lemma streak_is_paid_for w :
  reachable w ->
  forall a,
    BASE_REWARD * tapsSinceCritical (players w !!! a)
      <= pendingRewards (players w !!! a) + totalMined (players w !!! a).
Proof.
  apply (reachable_invariant
           (fun w => forall a,
              BASE_REWARD * tapsSinceCritical (players w !!! a)
                <= pendingRewards (players w !!! a) + totalMined (players w !!! a))).
  - intros e self token _ a. cbn. rewrite lookup_total_empty. cbn. lia.
  - intros e c w0 w' Hwf IH Henv Hcall Hrun a. specialize (IH a).
    pose proof Hrun as Hrun0.
    invert_dispatch Hwf Henv Hcall Hrun.
    2: exact (revealTap_streak _ _ _ _ _ Hwf Henv Hrun0 a IH).
    2: exact (tapMine_streak _ _ _ _ Hwf Henv Hrun0 a IH).
    all: clear Hrun0; world_simpl; try exact IH.
    all: destruct (Z.eqb_spec (msg_sender e) a) as [<- | Hne];
      [ rewrite ?lookup_total_insert_eq
      | rewrite ?lookup_total_insert_ne by done ];
      cbn [pendingRewards totalMined tapsSinceCritical set_level set_totalPower
           set_pendingRewards set_totalMined set_totalTaps set_criticalHits
           set_lastTapBlock set_tapsSinceCritical set_registeredMiners];
      world_simpl; try lia.
  - intros t w0 IH a. exact (IH a).
Qed.

Lemma streak_bound_facts :
  2 * MAX_UINT256 < BASE_REWARD * 2 ^ 194 /\ 2 ^ 194 + 2 ^ 16 <= 2 ^ 255 + 49.
Proof. split; by vm_compute. Qed.

(** C8: the pity bonus on every dry streak the code can pass.  In a
    reachable state a player's dry streak, [tapsSinceCritical], is below
    [2^194]: every tap that lengthened it paid at least [BASE_REWARD], and
    what was paid fits [uint256] twice over.  So for every [n] from zero up
    to such a streak and the taps of one more batch on top (fewer than
    [2^16]), the pity bonus is 0 when [n <= PITY_THRESHOLD] and
    [min ((n - PITY_THRESHOLD) * PITY_INCREMENT) MAX_PITY_BONUS] beyond it;
    it is 0 at 50, 2 at 51 and [MAX_PITY_BONUS] from 75 on.  And every tap
    of every batch run from a reachable state is given exactly that bonus
    for the streak it starts from. *)
Theorem pity_bonus_of_every_streak (w : World) (a : address) (n : Z) :
  let streak := tapsSinceCritical (players w !!! a) in
  reachable w -> 0 <= n <= streak + 2 ^ 16 ->
  0 <= streak < 2 ^ 194 /\
  (n <= PITY_THRESHOLD -> _calculatePityBonus n = Ok 0) /\
  (PITY_THRESHOLD < n ->
     _calculatePityBonus n =
       Ok (Z.min ((n - PITY_THRESHOLD) * PITY_INCREMENT) MAX_PITY_BONUS)) /\
  (75 <= n -> _calculatePityBonus n = Ok MAX_PITY_BONUS) /\
  _calculatePityBonus 50 = Ok 0 /\
  _calculatePityBonus 51 = Ok 2 /\
  (forall e taps seed isCommitReveal reward w',
     valid_env e -> msg_sender e = a ->
     _executeTaps e taps seed isCommitReveal w = Ok (reward, w') ->
     forall t, t ∈ batch_taps (Z.to_nat taps) 0 seed streak ->
       0 <= tap_streak t < 2 ^ 194 + 2 ^ 16 /\
       _calculatePityBonus (tap_streak t) =
         Ok (if tap_streak t <=? PITY_THRESHOLD then 0
             else Z.min ((tap_streak t - PITY_THRESHOLD) * PITY_INCREMENT)
                    MAX_PITY_BONUS)).
Proof.
  cbv zeta. intros Hreach Hn.
  pose proof (reachable_wf w Hreach) as Hwf.
  pose proof (wf_players w Hwf a) as Hwp.
  pose proof (streak_is_paid_for w Hreach a) as Hpaid.
  destruct streak_bound_facts as [Hbig Hfits].
  assert (Hstreak : 0 <= tapsSinceCritical (players w !!! a) < 2 ^ 194).
  { destruct Hwp as [_ [_ Hpending] [_ Hmined] _ _ [Hlow _] _ _].
    split; [exact Hlow |].
    destruct (Z.lt_ge_cases (tapsSinceCritical (players w !!! a)) (2 ^ 194))
      as [| Hge]; [done |].
    pose proof (Z.mul_le_mono_nonneg_l _ _ BASE_REWARD
                  (Z.lt_le_incl _ _ BASE_REWARD_pos) Hge).
    lia. }
  split; [exact Hstreak |].
  destruct (pity_bonus_values n ltac:(lia)) as (Hzero & Hgrow & Hcap & H50 & H51).
  split; [exact Hzero |]. split; [exact Hgrow |]. split; [exact Hcap |].
  split; [exact H50 |]. split; [exact H51 |].
  intros e taps seed cr reward w' Henv <- Hrun t Ht.
  apply executeTaps_trace in Hrun; [| exact Henv | exact Hwp].
  cbv zeta in Hrun. destruct Hrun as (_ & Hlimit & _).
  apply list_elem_of_lookup in Ht as [k Ht].
  pose proof (lookup_lt_Some _ _ _ Ht) as Hk. rewrite batch_taps_length in Hk.
  pose proof (wf_blockTaps w Hwf (msg_sender e, block_number e)) as [Hused _].
  unfold MAX_TAPS_PER_BLOCK in Hlimit.
  apply batch_taps_streak in Ht; [| lia].
  assert (Hsmall : Z.of_nat k < 2 ^ 16).
  { assert (Z.of_nat k < 100) by lia.
    assert (100 < 2 ^ 16) by (by vm_compute). lia. }
  split; [lia |].
  destruct (pity_bonus_values (tap_streak t) ltac:(lia)) as (Hz & Hg & _).
  destruct (Z.leb_spec (tap_streak t) PITY_THRESHOLD); auto.
Qed.

(** ** Further properties of the game *)

(** *** Commitments whose window has passed *)

Lemma commitTap_pending_fails e commitment count w :
  pending_commit (commitments w !!! msg_sender e) = true ->
  exists err, commitTap e commitment count w = Fail err.
Proof.
  intros Hpending.
  destruct (commitTap e commitment count w) as [[[] w'] |] eqn:Hrun; [| eauto].
  apply commitTap_inv in Hrun as (_ & _ & Hfree & _).
  unfold pending_commit in Hpending. apply andb_true_iff in Hpending as [Hbn Hrev].
  boolify. destruct Hfree as [Hz | Hr]; [lia | congruence].
Qed.

(** X1: a pending commitment whose reveal window has passed stays as it is
    for good.  In any block more than [MAX_REVEAL_DELAY] after the commit the
    owner of the commitment can neither reveal it nor replace it by a new
    one, and no transaction of anybody changes the stored commitment, so the
    player is shut out of the commit-reveal path. *)
Theorem expired_commitment_is_permanent (w : World) (e : Env) (a : address) :
  let c := getCommitment a w in
  reachable w -> valid_env e ->
  pending_commit c = true ->
  blockNumber c + MAX_REVEAL_DELAY < block_number e ->
  (msg_sender e = a ->
     (forall commitment count,
        exists err, commitTap e commitment count w = Fail err) /\
     (forall secret nonce,
        exists err, revealTap e secret nonce w = Fail err)) /\
  (forall call, valid_call call ->
     getCommitment a (transact e call w) = c).
Proof.
  cbv zeta. unfold getCommitment. intros Hreach Henv Hpending Hlate.
  pose proof (reachable_wf w Hreach) as Hwf.
  split.
  - intros <-. split.
    + intros commitment count. by apply commitTap_pending_fails.
    + intros secret nonce.
      destruct (revealTap e secret nonce w) as [[[] w'] |] eqn:Hrun; [| eauto].
      apply revealTap_inv in Hrun as (_ & _ & _ & Hle & _); [lia | done | done].
  - intros call Hcall. unfold transact.
    destruct (dispatch e call w) as [[[] w'] |] eqn:Hrun; [| done].
    invert_dispatch Hwf Henv Hcall Hrun; unfold executed_world; world_simpl;
      try done.
    + destruct (decide (msg_sender e = a)) as [<- | Hne].
      * unfold pending_commit in Hpending.
        apply andb_true_iff in Hpending as [Hbn Hrev]. boolify.
        destruct Kfree as [Hz | Hr]; [lia | congruence].
      * by rewrite lookup_total_insert_ne.
    + destruct (decide (msg_sender e = a)) as [<- | Hne]; [lia |].
      by rewrite lookup_total_insert_ne.
    + by destruct (negb _).
Qed.

(** *** Rewards on the log and in the records *)

Lemma credited_app a log1 log2 :
  credited a (log1 ++ log2) = credited a log1 + credited a log2.
Proof.
  unfold credited, sum_list. rewrite map_app, fold_right_app.
  induction (map (tapped_reward a) log1) as [| x l IH]; cbn; lia.
Qed.

Lemma paid_out_app a log1 log2 :
  paid_out a (log1 ++ log2) = paid_out a log1 + paid_out a log2.
Proof.
  unfold paid_out, sum_list. rewrite map_app, fold_right_app.
  induction (map (withdrawn_amount a) log1) as [| x l IH]; cbn; lia.
Qed.

Lemma credited_gems a b evs :
  Forall (is_gem_event b) evs -> credited a evs = 0.
Proof.
  intros Hev. induction Hev as [| ev evs (g & x & ->) _ IH]; [done |].
  unfold credited, sum_list in *. cbn. lia.
Qed.

Lemma paid_out_gems a b evs :
  Forall (is_gem_event b) evs -> paid_out a evs = 0.
Proof.
  intros Hev. induction Hev as [| ev evs (g & x & ->) _ IH]; [done |].
  unfold paid_out, sum_list in *. cbn. lia.
Qed.

Ltac log_simpl :=
  rewrite ?credited_app, ?paid_out_app;
  repeat match goal with
         | H : Forall (is_gem_event ?b) ?evs |- context [credited ?a ?evs] =>
             rewrite (credited_gems a b evs H)
         | H : Forall (is_gem_event ?b) ?evs |- context [paid_out ?a ?evs] =>
             rewrite (paid_out_gems a b evs H)
         end;
  unfold credited, paid_out, sum_list in *;
  cbn [map fold_right tapped_reward withdrawn_amount].

Ltac player_simpl :=
  cbn [level totalPower pendingRewards totalMined totalTaps criticalHits
       lastTapBlock tapsSinceCritical registeredMiners
       set_level set_totalPower set_pendingRewards set_totalMined
       set_totalTaps set_criticalHits set_lastTapBlock set_tapsSinceCritical
       set_registeredMiners tapped_player].

(** X2: rewards are conserved.  In every reachable state, what the [Tapped]
    notifications credited to a player is exactly the pending rewards plus
    the total mined of the player's record, and what the [Withdrawn]
    notifications paid out is exactly the total mined. *)
Theorem rewards_are_conserved (w : World) (a : address) :
  reachable w ->
  credited a (events w)
    = pendingRewards (getPlayerData a w) + totalMined (getPlayerData a w) /\
  paid_out a (events w) = totalMined (getPlayerData a w).
Proof.
  unfold getPlayerData. intros Hreach. revert a.
  apply (reachable_invariant
           (fun w => forall a,
              credited a (events w)
                = pendingRewards (players w !!! a) + totalMined (players w !!! a) /\
              paid_out a (events w) = totalMined (players w !!! a)));
    [| | | exact Hreach]; clear w Hreach.
  - intros e self token _ a. cbn. by rewrite lookup_total_empty.
  - intros e c w w' Hwf IH Henv Hcall Hrun a. destruct (IH a) as [IHc IHp].
    invert_dispatch Hwf Henv Hcall Hrun; unfold executed_world; world_simpl;
      log_simpl; try done.
    all: destruct (Z.eqb_spec (msg_sender e) a) as [<- | Hne];
      [ rewrite ?lookup_total_insert_eq
      | rewrite ?lookup_total_insert_ne by done ];
      player_simpl; world_simpl; try lia.
  - intros t w IH a. exact (IH a).
Qed.

(** *** Pausing and the owner's calls *)

Lemma set_paused_id w : set_paused (paused w) w = w.
Proof. by destruct w. Qed.

Lemma withdraw_ignores_pause e b w :
  withdraw e (set_paused b w) = map_world (set_paused b) (withdraw e w).
Proof.
  rewrite !withdraw_run. cbv zeta. world_simpl.
  destruct (0 <? _); [| done].
  destruct (checked_add _ _) as [total |]; [| done]. cbn [bindR].
  destruct (total <=? dailyMintLimit w); [| done].
  destruct (checked_add (totalMined _) _) as [mined |]; [| done]. cbn [bindR].
  destruct (mint _ _ _ _) as [t |]; [| done]. cbn [map_world].
  by destruct (negb _).
Qed.

Lemma registerMiner_ignores_pause e tokenId b w :
  registerMiner e tokenId (set_paused b w)
    = map_world (set_paused b) (registerMiner e tokenId w).
Proof.
  rewrite !registerMiner_run. cbv zeta. world_simpl.
  destruct (nft_ownerOf e tokenId) as [o |]; [| done].
  destruct (o =? msg_sender e); [| done].
  destruct (_ <? MAX_REGISTERED_MINERS); [| done].
  by destruct (bool_decide _).
Qed.

Lemma unregister_loop_ignores_pause e tokenId b n : forall i w,
  unregister_loop e tokenId n i (set_paused b w)
    = map_world (set_paused b) (unregister_loop e tokenId n i w).
Proof.
  induction n as [| n IH]; intros i w; [done |].
  cbn [unregister_loop]. monad_unfold. cbv beta zeta. world_simpl.
  destruct (array_get _ i) as [current |]; [| done].
  destruct (current =? tokenId); [| apply IH].
  destruct (array_get _ _) as [last |]; [| done].
  world_simpl. reflexivity.
Qed.

Lemma unregisterMiner_ignores_pause e tokenId b w :
  unregisterMiner e tokenId (set_paused b w)
    = map_world (set_paused b) (unregisterMiner e tokenId w).
Proof.
  unfold unregisterMiner, bind, read_player, view. world_simpl.
  apply unregister_loop_ignores_pause.
Qed.

Lemma upgrade_ignores_pause e b w :
  upgrade e (set_paused b w) = map_world (set_paused b) (upgrade e w).
Proof.
  rewrite !upgrade_run. cbv zeta. world_simpl.
  destruct (_ <? MAX_LEVEL); [| done].
  destruct (checked_add _ 1) as [next |]; [| done]. cbn [bindR].
  destruct (checked_mul next _) as [cost |]; [| done]. cbn [bindR].
  destruct (cost <=? balanceOf _ _); [| done].
  destruct (cost <=? allowance _ _ _); [| done].
  by destruct (burnFrom _ _ _ _) as [t |].
Qed.

(** X3: pausing stops tapping and nothing else.  While the game is paused,
    [commitTap], [revealTap] and [tapMine] fail with EnforcedPause whatever
    their arguments; [withdraw], [registerMiner], [unregisterMiner] and
    [upgrade] do not read the flag: each does to a paused game exactly what
    it would do to the same game unpaused. *)
Theorem pause_stops_tapping_only (e : Env) (w : World) :
  paused w = true ->
  (forall commitment count,
     commitTap e commitment count w = Fail (CustomError "EnforcedPause")) /\
  (forall secret nonce,
     revealTap e secret nonce w = Fail (CustomError "EnforcedPause")) /\
  (forall count, tapMine e count w = Fail (CustomError "EnforcedPause")) /\
  withdraw e w = map_world (set_paused true) (withdraw e (set_paused false w)) /\
  (forall tokenId,
     registerMiner e tokenId w
       = map_world (set_paused true)
           (registerMiner e tokenId (set_paused false w))) /\
  (forall tokenId,
     unregisterMiner e tokenId w
       = map_world (set_paused true)
           (unregisterMiner e tokenId (set_paused false w))) /\
  upgrade e w = map_world (set_paused true) (upgrade e (set_paused false w)).
Proof.
  intros Hpaused.
  assert (Hw : w = set_paused true (set_paused false w)).
  { rewrite <- Hpaused. by destruct w. }
  split; [| split; [| split; [| split; [| split; [| split]]]]].
  - intros commitment count. unfold commitTap. monad_unfold. cbv beta.
    by rewrite Hpaused.
  - intros secret nonce. rewrite revealTap_run. cbv zeta. by rewrite Hpaused.
  - intros count. rewrite tapMine_run. by rewrite Hpaused.
  - rewrite Hw at 1. apply withdraw_ignores_pause.
  - intros tokenId. rewrite Hw at 1. apply registerMiner_ignores_pause.
  - intros tokenId. rewrite Hw at 1. apply unregisterMiner_ignores_pause.
  - rewrite Hw at 1. apply upgrade_ignores_pause.
Qed.

(** X4: the configuration is the owner's.  A transaction sent by anybody
    but the owner leaves the pause flag, the daily limit, the gem table and
    the critical weights and multipliers as they were; the calls guarded by
    [onlyOwner] fail with OwnableUnauthorizedAccount; and the owner stays
    the owner unless the sender is the pending owner accepting the
    ownership. *)
Theorem configuration_is_the_owners (w : World) (e : Env) (c : Call) :
  reachable w -> valid_env e -> valid_call c ->
  msg_sender e <> owner w ->
  paused (transact e c w) = paused w /\
  dailyMintLimit (transact e c w) = dailyMintLimit w /\
  gemRewards (transact e c w) = gemRewards w /\
  criticalWeights (transact e c w) = criticalWeights w /\
  criticalMultipliers (transact e c w) = criticalMultipliers w /\
  (is_admin_call c = true ->
     dispatch e c w = Fail (CustomError "OwnableUnauthorizedAccount")) /\
  (msg_sender e <> pendingOwner w -> owner (transact e c w) = owner w).
Proof.
  intros Hreach Henv Hcall Hother.
  pose proof (reachable_wf w Hreach) as Hwf.
  assert (Hframe :
    paused (transact e c w) = paused w /\
    dailyMintLimit (transact e c w) = dailyMintLimit w /\
    gemRewards (transact e c w) = gemRewards w /\
    criticalWeights (transact e c w) = criticalWeights w /\
    criticalMultipliers (transact e c w) = criticalMultipliers w /\
    (msg_sender e <> pendingOwner w -> owner (transact e c w) = owner w)).
  { unfold transact.
    destruct (dispatch e c w) as [[[] w'] |] eqn:Hrun; [| done].
    invert_dispatch Hwf Henv Hcall Hrun; unfold executed_world; world_simpl;
      try done; try congruence.
    by destruct (negb _). }
  destruct Hframe as (? & ? & ? & ? & ? & ?).
  repeat (split; [done |]). split; [| done].
  intros Hadmin.
  destruct c; try discriminate; cbn [dispatch];
    unfold pause, unpause, emergencyPause, setDailyLimit, updateGemReward,
      updateCriticalWeights, transferOwnership, renounceOwnership;
    monad_unfold; cbv beta;
    by destruct (Z.eqb_spec (owner w) (msg_sender e)); [congruence |].
Qed.

(** *** Upgrading *)

(** X5: [upgrade] in full.  In a reachable state the caller's level is at
    most [MAX_LEVEL]; at [MAX_LEVEL] the call fails with "Max level reached";
    below it the price is [(level + 1) * UPGRADE_COST_MULTIPLIER], and the
    call fails with "Insufficient balance" or "Insufficient allowance" when
    the caller's balance or the allowance given to the game is below the
    price; otherwise it succeeds, raises the level by exactly one and
    nothing else in the record, burns the price from the caller's balance,
    takes it off the allowance unless that is unlimited, and logs
    PlayerUpgraded with the new level and the price. *)
Theorem upgrade_spec (e : Env) (w : World) :
  let a := msg_sender e in
  let p := getPlayerData a w in
  let t := minerToken w in
  let cost := (level p + 1) * UPGRADE_COST_MULTIPLIER in
  reachable w -> a <> 0 ->
  0 <= level p <= MAX_LEVEL /\
  (level p = MAX_LEVEL -> upgrade e w = Fail (Revert "Max level reached")) /\
  (level p < MAX_LEVEL -> balanceOf t a < cost ->
     upgrade e w = Fail (Revert "Insufficient balance")) /\
  (level p < MAX_LEVEL -> cost <= balanceOf t a ->
     allowance t a (this w) < cost ->
     upgrade e w = Fail (Revert "Insufficient allowance")) /\
  (level p < MAX_LEVEL -> cost <= balanceOf t a ->
     cost <= allowance t a (this w) ->
     exists w', upgrade e w = Ok (tt, w') /\
       getPlayerData a w' = set_level (level p + 1) p /\
       balanceOf (minerToken w') a = balanceOf t a - cost /\
       allowance (minerToken w') a (this w) =
         (if allowance t a (this w) <? MAX_UINT256
          then allowance t a (this w) - cost
          else allowance t a (this w)) /\
       events w' = events w ++ [PlayerUpgraded a (level p + 1) cost]).
Proof.
  cbv zeta. unfold getPlayerData. intros Hreach Hsender.
  pose proof (reachable_wf w Hreach) as Hwf.
  pose proof (wf_level _ (wf_players w Hwf (msg_sender e))) as Hlvl.
  destruct (upgrade_cost_fits _ Hlvl) as [Hnext Hcost].
  split; [done |]. rewrite upgrade_run. cbv zeta.
  split.
  { intros Hmax. destruct (Z.ltb_spec (level (players w !!! msg_sender e)) MAX_LEVEL);
      [lia | done]. }
  split.
  { intros Hmax Hbal.
    destruct (Z.ltb_spec (level (players w !!! msg_sender e)) MAX_LEVEL); [| lia].
    rewrite Hnext. cbn [bindR]. rewrite Hcost. cbn [bindR].
    destruct (Z.leb_spec ((level (players w !!! msg_sender e) + 1) * UPGRADE_COST_MULTIPLIER)
                (balanceOf (minerToken w) (msg_sender e))); [lia | done]. }
  split.
  { intros Hmax Hbal Hal.
    destruct (Z.ltb_spec (level (players w !!! msg_sender e)) MAX_LEVEL); [| lia].
    rewrite Hnext. cbn [bindR]. rewrite Hcost. cbn [bindR].
    destruct (Z.leb_spec ((level (players w !!! msg_sender e) + 1) * UPGRADE_COST_MULTIPLIER)
                (balanceOf (minerToken w) (msg_sender e))); [| lia].
    destruct (Z.leb_spec ((level (players w !!! msg_sender e) + 1) * UPGRADE_COST_MULTIPLIER)
                (allowance (minerToken w) (msg_sender e) (this w))); [lia | done]. }
  intros Hmax Hbal Hal.
  destruct (Z.ltb_spec (level (players w !!! msg_sender e)) MAX_LEVEL); [| lia].
  rewrite Hnext. cbn [bindR]. rewrite Hcost. cbn [bindR].
  destruct (Z.leb_spec ((level (players w !!! msg_sender e) + 1) * UPGRADE_COST_MULTIPLIER)
              (balanceOf (minerToken w) (msg_sender e))); [| lia].
  destruct (Z.leb_spec ((level (players w !!! msg_sender e) + 1) * UPGRADE_COST_MULTIPLIER)
              (allowance (minerToken w) (msg_sender e) (this w))); [| lia].
  rewrite uint128_small.
  2:{ unfold MAX_LEVEL in *. split; [lia |].
      apply Z.le_lt_trans with 100; [lia | reflexivity]. }
  unfold burnFrom.
  destruct (Z.eqb_spec (msg_sender e) 0); [done |].
  destruct (Z.ltb_spec (balanceOf (minerToken w) (msg_sender e))
              ((level (players w !!! msg_sender e) + 1) * UPGRADE_COST_MULTIPLIER));
    [lia |].
  destruct (Z.ltb_spec (allowance (minerToken w) (msg_sender e) (this w)) MAX_UINT256).
  - destruct (Z.ltb_spec (allowance (minerToken w) (msg_sender e) (this w))
                ((level (players w !!! msg_sender e) + 1) * UPGRADE_COST_MULTIPLIER));
      [lia |].
    cbn [bindR]. eexists. split; [reflexivity |]. world_simpl.
    rewrite lookup_total_insert_eq. unfold balanceOf, allowance. cbn.
    by rewrite !mapping_get_insert.
  - cbn [bindR]. eexists. split; [reflexivity |]. world_simpl.
    rewrite lookup_total_insert_eq. unfold balanceOf, allowance. cbn.
    by rewrite !mapping_get_insert.
Qed.

(** *** The cached power *)

(** X6: a direct tap refreshes the cached power.  After a successful
    [tapMine] the [totalPower] of the caller's record is the sum of the
    powers of the registered miners the registry reports as the caller's
    (a miner given away counts for nothing, though it stays registered),
    times the level plus one; the level and the registered miners are as
    before. *)
Theorem tap_caches_owned_power (e : Env) (w w' : World) (count : Z) :
  let a := msg_sender e in
  reachable w -> valid_env e ->
  tapMine e count w = Ok (tt, w') ->
  totalPower (getPlayerData a w')
    = owned_power e a (getRegisteredMiners a w) * (level (getPlayerData a w) + 1) /\
  0 <= totalPower (getPlayerData a w') <= MAX_UINT128 /\
  level (getPlayerData a w') = level (getPlayerData a w) /\
  getRegisteredMiners a w' = getRegisteredMiners a w.
Proof.
  cbv zeta. unfold getPlayerData, getRegisteredMiners. intros Hreach Henv Hrun.
  pose proof (reachable_wf w Hreach) as Hwf.
  apply tapMine_inv in Hrun
    as (_ & _ & r & ch & tsc & evs & crit & -> & _ & _ & _ & _ & Hpower);
    [| done | done].
  unfold executed_world. world_simpl. rewrite lookup_total_insert_eq.
  cbn [totalPower level registeredMiners tapped_player set_lastTapBlock
       set_totalTaps set_pendingRewards set_tapsSinceCritical set_criticalHits
       set_totalPower].
  rewrite uint128_small.
  2:{ split; [lia |]. apply Z.le_lt_trans with MAX_UINT128; [lia | reflexivity]. }
  done.
Qed.

(** *** Registering and unregistering *)

Lemma unregister_loop_found e tokenId n : forall i w k last,
  (n + i = length (registeredMiners (players w !!! msg_sender e)))%nat ->
  (i <= k)%nat ->
  registeredMiners (players w !!! msg_sender e) !! k = Some tokenId ->
  (forall j, (i <= j < k)%nat ->
     registeredMiners (players w !!! msg_sender e) !! j <> Some tokenId) ->
  registeredMiners (players w !!! msg_sender e)
    !! (length (registeredMiners (players w !!! msg_sender e)) - 1)%nat
    = Some last ->
  unregister_loop e tokenId n i w =
    Ok (tt,
        set_events (events w ++ [MinerUnregistered (msg_sender e) tokenId])
          (set_players
             (<[msg_sender e :=
                  set_registeredMiners
                    (take (length (registeredMiners (players w !!! msg_sender e)) - 1)
                       (<[k := last]> (registeredMiners (players w !!! msg_sender e))))
                    (players w !!! msg_sender e)]> (players w)) w)).
Proof.
  induction n as [| n IH]; intros i w k last Hlen Hik Hk Hfirst Hlast.
  { apply lookup_lt_Some in Hk. lia. }
  cbn [unregister_loop]. monad_unfold. cbv beta zeta. unfold array_get at 1.
  destruct (registeredMiners (players w !!! msg_sender e) !! i) as [current |] eqn:Hcur.
  2:{ apply lookup_ge_None in Hcur. lia. }
  destruct (Z.eqb_spec current tokenId) as [-> | Hne].
  - assert (k = i) as ->.
    { destruct (decide (k = i)) as [| Hki]; [done |].
      destruct (Hfirst i); [lia | done]. }
    unfold array_get. rewrite Hlast. world_simpl.
    rewrite lookup_total_insert_eq, insert_insert_eq.
    cbn [registeredMiners set_registeredMiners]. rewrite length_insert.
    reflexivity.
  - apply IH; try done; [lia | |].
    + destruct (decide (k = i)) as [-> | Hki]; [congruence | lia].
    + intros j Hj. apply Hfirst. lia.
Qed.

Lemma unregister_loop_missing e tokenId n : forall i w,
  (n + i = length (registeredMiners (players w !!! msg_sender e)))%nat ->
  (forall j, (i <= j)%nat ->
     registeredMiners (players w !!! msg_sender e) !! j <> Some tokenId) ->
  unregister_loop e tokenId n i w = Fail (Revert "Miner not registered").
Proof.
  induction n as [| n IH]; intros i w Hlen Hnone; [done |].
  cbn [unregister_loop]. monad_unfold. cbv beta zeta. unfold array_get at 1.
  destruct (registeredMiners (players w !!! msg_sender e) !! i) as [current |] eqn:Hcur.
  2:{ apply lookup_ge_None in Hcur. lia. }
  destruct (Z.eqb_spec current tokenId) as [-> | Hne].
  - by destruct (Hnone i); [lia |].
  - apply IH; [lia |]. intros j Hj. apply Hnone. lia.
Qed.

(** The first position of an element of a list. *)
Lemma first_occurrence (l : list Z) (x : Z) :
  x ∈ l ->
  exists k, l !! k = Some x /\ forall j, (j < k)%nat -> l !! j <> Some x.
Proof.
  induction l as [| y l IH]; intros Hin; [by apply elem_of_nil in Hin |].
  destruct (decide (y = x)) as [-> | Hne].
  - exists 0%nat. split; [done |]. intros j Hj. lia.
  - apply elem_of_cons in Hin as [-> | Hin]; [done |].
    destruct (IH Hin) as (k & Hk & Hfirst). exists (S k). split; [done |].
    intros [| j] Hj; cbn; [congruence |]. apply Hfirst. lia.
Qed.

(** Overwriting position [k] with the last element and dropping the last
    removes exactly the element that stood at [k]. *)
Lemma swap_remove_elem_of (l : list Z) (k : nat) (x last y : Z) :
  NoDup l -> l !! k = Some x -> l !! (length l - 1)%nat = Some last ->
  y ∈ take (length l - 1) (<[k := last]> l) <-> y ∈ l /\ y <> x.
Proof.
  intros Hnd Hk Hlast. pose proof (lookup_lt_Some _ _ _ Hk) as Hklen.
  rewrite NoDup_alt in Hnd. split.
  - intros Hy. apply list_elem_of_lookup in Hy as [j Hj].
    assert (Hjlen : (j < length l - 1)%nat).
    { apply lookup_lt_Some in Hj. rewrite length_take, length_insert in Hj. lia. }
    rewrite lookup_take_lt in Hj by done.
    destruct (decide (k = j)) as [Hkj | Hkj].
    + subst j. rewrite list_lookup_insert_eq in Hj by done. simplify_eq.
      split; [by eapply list_elem_of_lookup_2 |].
      intros ->. pose proof (Hnd _ _ _ Hk Hlast). lia.
    + rewrite list_lookup_insert_ne in Hj by done.
      split; [by eapply list_elem_of_lookup_2 |].
      intros ->. pose proof (Hnd _ _ _ Hk Hj). lia.
  - intros [Hy Hne]. apply list_elem_of_lookup in Hy as [j Hj].
    pose proof (lookup_lt_Some _ _ _ Hj) as Hjlen.
    destruct (decide (j = length l - 1)%nat) as [Hjl | Hjl].
    + subst j. simplify_eq.
      apply list_elem_of_lookup. exists k.
      assert (k <> length l - 1)%nat by (intros ->; congruence).
      rewrite lookup_take_lt by lia. by rewrite list_lookup_insert_eq.
    + apply list_elem_of_lookup. exists j.
      rewrite lookup_take_lt by lia.
      rewrite list_lookup_insert_ne; [done |]. intros ->. congruence.
Qed.

(** X7: [unregisterMiner] removes exactly the asset named.  In a reachable
    state the call fails with "Miner not registered" when the asset is not
    among the caller's registered miners; when it is, the call succeeds, the
    registered miners afterwards are the ones before without that asset (in
    an order that may differ, the last one having taken the freed place),
    one fewer, and MinerUnregistered is logged. *)
Theorem unregisterMiner_spec (e : Env) (w : World) (tokenId : Z) :
  let a := msg_sender e in
  reachable w ->
  (tokenId ∉ getRegisteredMiners a w ->
     unregisterMiner e tokenId w = Fail (Revert "Miner not registered")) /\
  (tokenId ∈ getRegisteredMiners a w ->
     exists w', unregisterMiner e tokenId w = Ok (tt, w') /\
       (forall x, x ∈ getRegisteredMiners a w' <->
                  x ∈ getRegisteredMiners a w /\ x <> tokenId) /\
       length (getRegisteredMiners a w')
         = (length (getRegisteredMiners a w) - 1)%nat /\
       NoDup (getRegisteredMiners a w') /\
       events w' = events w ++ [MinerUnregistered a tokenId]).
Proof.
  cbv zeta. unfold getRegisteredMiners. intros Hreach.
  pose proof (reachable_wf w Hreach) as Hwf.
  pose proof (wf_no_duplicate _ (wf_players w Hwf (msg_sender e))) as Hnd.
  split.
  - intros Hnot. unfold unregisterMiner, bind, read_player, view.
    apply unregister_loop_missing; [lia |].
    intros j _ Hj. apply Hnot. by eapply list_elem_of_lookup_2.
  - intros Hin. destruct (first_occurrence _ _ Hin) as (k & Hk & Hfirst).
    pose proof (lookup_lt_Some _ _ _ Hk) as Hklen.
    destruct (registeredMiners (players w !!! msg_sender e)
                !! (length (registeredMiners (players w !!! msg_sender e)) - 1)%nat)
      as [last |] eqn:Hlast.
    2:{ apply lookup_ge_None in Hlast. lia. }
    eexists. split.
    { unfold unregisterMiner, bind, read_player, view.
      apply (unregister_loop_found _ _ _ 0%nat w k last); [lia | lia | done | | done].
      intros j Hj. apply Hfirst. lia. }
    world_simpl. rewrite lookup_total_insert_eq. cbn [registeredMiners set_registeredMiners].
    split; [intros x; by apply swap_remove_elem_of |].
    split; [rewrite length_take, length_insert; lia |].
    split; [by apply swap_remove_NoDup | done].
Qed.

(** X8: registering an asset and unregistering it again is a round trip.
    After a successful [registerMiner] the matching [unregisterMiner]
    succeeds and gives the caller's record back exactly as it was, the
    order of the registered miners included. *)
Theorem register_unregister_round_trip (e : Env) (w w1 : World) (tokenId : Z) :
  let a := msg_sender e in
  registerMiner e tokenId w = Ok (tt, w1) ->
  getRegisteredMiners a w1 = getRegisteredMiners a w ++ [tokenId] /\
  exists w2, unregisterMiner e tokenId w1 = Ok (tt, w2) /\
    getPlayerData a w2 = getPlayerData a w /\
    getRegisteredMiners a w2 = getRegisteredMiners a w /\
    events w2 = events w ++ [MinerRegistered a tokenId; MinerUnregistered a tokenId].
Proof.
  cbv zeta. unfold getRegisteredMiners, getPlayerData. intros Hrun.
  apply registerMiner_inv in Hrun. cbv zeta in Hrun.
  destruct Hrun as (_ & _ & Hnew & ->). world_simpl.
  rewrite lookup_total_insert_eq. cbn [registeredMiners set_registeredMiners].
  split; [done |]. eexists. split.
  { unfold unregisterMiner, bind, read_player, view. world_simpl.
    rewrite lookup_total_insert_eq. cbn [registeredMiners set_registeredMiners].
    apply (unregister_loop_found _ _ _ 0%nat _
             (length (registeredMiners (players w !!! msg_sender e))) tokenId);
      world_simpl; rewrite ?lookup_total_insert_eq;
      cbn [registeredMiners set_registeredMiners]; rewrite ?length_app; cbn [length].
    - lia.
    - lia.
    - by rewrite lookup_app_r, Nat.sub_diag.
    - intros j Hj Hfound. rewrite lookup_app_l in Hfound by lia.
      apply Hnew. by eapply list_elem_of_lookup_2.
    - rewrite lookup_app_r by lia.
      replace (_ - _ - _)%nat with 0%nat by lia. done. }
  world_simpl. rewrite !lookup_total_insert_eq.
  cbn [registeredMiners set_registeredMiners]. rewrite length_app. cbn [length].
  replace (length (registeredMiners (players w !!! msg_sender e)) + 1 - 1)%nat
    with (length (registeredMiners (players w !!! msg_sender e))) by lia.
  rewrite insert_app_r_alt, Nat.sub_diag by lia. cbn [insert list_insert].
  rewrite take_app_length.
  split; [by destruct (players w !!! msg_sender e) |].
  split; [done |]. by rewrite <- app_assoc.
Qed.

(** *** The daily limit *)

Lemma MAX_DAILY_MINT_ether : 1000000 * ether = MAX_DAILY_MINT.
Proof. reflexivity. Qed.

Lemma mint_limits_reachable w :
  reachable w ->
  0 < dailyMintLimit w <= MAX_DAILY_MINT /\ 0 <= todaysMinted w <= MAX_DAILY_MINT.
Proof.
  apply (reachable_invariant
           (fun w => 0 < dailyMintLimit w <= MAX_DAILY_MINT /\
                     0 <= todaysMinted w <= MAX_DAILY_MINT)).
  - intros e self token _. cbn. split; split; try lia; by vm_compute.
  - intros e c w0 w' Hwf IH Henv Hcall Hrun.
    invert_dispatch Hwf Henv Hcall Hrun; unfold executed_world; world_simpl;
      try done.
    + destruct (negb _); world_simpl; lia.
    + rewrite MAX_DAILY_MINT_ether in Krange. lia.
  - intros t w0 IH. exact IH.
Qed.

(** X9: the circuit breaker.  In every reachable state the daily limit is
    positive and at most [MAX_DAILY_MINT], whatever the owner has set, and
    the amount counted as minted today is between zero and
    [MAX_DAILY_MINT]; a successful [withdraw] counts exactly the amount
    paid, from zero on a day other than the current one, and leaves the
    count within the limit. *)
Theorem daily_mint_is_capped (w : World) :
  reachable w ->
  0 < dailyMintLimit w <= MAX_DAILY_MINT /\
  0 <= todaysMinted w <= MAX_DAILY_MINT /\
  (forall e w', withdraw e w = Ok (tt, w') ->
     let today := block_timestamp e / one_day in
     currentDay w' = today /\
     todaysMinted w' =
       (if today =? currentDay w then todaysMinted w else 0)
       + pendingRewards (getPlayerData (msg_sender e) w) /\
     todaysMinted w' <= dailyMintLimit w' /\
     dailyMintLimit w' = dailyMintLimit w).
Proof.
  intros Hreach. destruct (mint_limits_reachable w Hreach) as [Hlimit Hminted].
  split; [done |]. split; [done |].
  intros e w' Hrun. cbv zeta. unfold getPlayerData.
  apply withdraw_inv in Hrun. cbv zeta in Hrun.
  destruct Hrun as (_ & Hfits & _ & t & _ & ->). world_simpl.
  destruct (Z.eqb_spec (block_timestamp e / one_day) (currentDay w)) as [Hday | Hday];
    cbn [negb] in *; world_simpl; repeat split; (done || lia).
Qed.

(** X10: withdrawal is all or nothing.  [withdraw] pays the whole pending
    amount or fails: a player whose pending rewards exceed the daily limit
    cannot withdraw on any day, and once the pending rewards exceed
    [MAX_DAILY_MINT], the highest limit the owner can set, no transaction
    brings them back under it, so they stay out of reach. *)
Theorem withdraw_is_all_or_nothing (w : World) (a : address) :
  reachable w ->
  (forall e, msg_sender e = a ->
     dailyMintLimit w < pendingRewards (getPlayerData a w) ->
     exists err, withdraw e w = Fail err) /\
  (MAX_DAILY_MINT < pendingRewards (getPlayerData a w) ->
     forall e c, valid_env e -> valid_call c ->
       pendingRewards (getPlayerData a w)
         <= pendingRewards (getPlayerData a (transact e c w))).
Proof.
  unfold getPlayerData. intros Hreach.
  pose proof (reachable_wf w Hreach) as Hwf.
  destruct (mint_limits_reachable w Hreach) as [Hlimit Hminted].
  assert (Hfail : forall e w', msg_sender e = a ->
            dailyMintLimit w < pendingRewards (players w !!! a) ->
            withdraw e w <> Ok (tt, w')).
  { intros e w' <- Hover Hrun. apply withdraw_inv in Hrun. cbv zeta in Hrun.
    destruct Hrun as (_ & Hfits & _). destruct (negb _); lia. }
  split.
  - intros e Hsender Hover.
    destruct (withdraw e w) as [[[] w'] |] eqn:Hrun; [| eauto].
    by destruct (Hfail e w' Hsender Hover).
  - intros Hover e c Henv Hcall. unfold transact.
    destruct (dispatch e c w) as [[[] w'] |] eqn:Hrun; [| done].
    invert_dispatch Hwf Henv Hcall Hrun; unfold executed_world; world_simpl;
      try done.
    all: destruct (decide (msg_sender e = a)) as [<- | Hother];
      [ rewrite ?lookup_total_insert_eq
      | rewrite ?lookup_total_insert_ne by done; done ];
      cbn [pendingRewards tapped_player set_lastTapBlock set_totalTaps
           set_pendingRewards set_totalMined set_registeredMiners set_level];
      try lia.
    destruct (negb _); lia.
Qed.

(** *** The rolls of a tap *)

(** X11: the critical multiplier follows the weight bands.  In a reachable
    state the four weights are non-negative and sum to 100, and
    [_selectMultiplier] returns 2, 5, 10 or 50 according to the band of the
    cumulated weights in which [seed mod 100] falls; the return after the
    loop is never reached. *)
Theorem multiplier_follows_the_weights (w : World) (seed : Z) :
  reachable w ->
  exists w0 w1 w2 w3,
    criticalWeights w = [w0; w1; w2; w3] /\
    0 <= w0 /\ 0 <= w1 /\ 0 <= w2 /\ 0 <= w3 /\ w0 + w1 + w2 + w3 = 100 /\
    _selectMultiplier w seed =
      Ok (if seed mod 100 <? w0 then 2
          else if seed mod 100 <? w0 + w1 then 5
          else if seed mod 100 <? w0 + w1 + w2 then 10
          else 50).
Proof.
  intros Hreach. pose proof (wf_world_config w (reachable_wf w Hreach)) as Hc.
  destruct (config_weights w Hc) as (a & b & c & d & Hw & ? & ? & ? & ? & Hsum).
  destruct Hc as (Hm & _).
  exists a, b, c, d. repeat (split; [done |]).
  pose proof MAX_UINT256_big.
  pose proof (Z.mod_pos_bound seed 100 ltac:(lia)) as Hr.
  unfold _selectMultiplier, _selectMultiplier_loop. rewrite Hw, Hm.
  unfold array_get. cbn [lookup list_lookup bindR].
  rewrite (checked_add_ok 0 a) by lia. cbn [bindR]. rewrite Z.add_0_l.
  destruct (Z.ltb_spec (seed mod 100) a); [done |].
  rewrite (checked_add_ok a b) by lia. cbn [bindR].
  destruct (Z.ltb_spec (seed mod 100) (a + b)); [done |].
  rewrite (checked_add_ok (a + b) c) by lia. cbn [bindR].
  destruct (Z.ltb_spec (seed mod 100) (a + b + c)); [done |].
  rewrite (checked_add_ok (a + b + c) d) by lia. cbn [bindR].
  destruct (Z.ltb_spec (seed mod 100) (a + b + c + d)); [done | lia].
Qed.

(** X12: the gem follows the drop chances.  For every gem table and every
    seed [_selectGem] returns without failing: ruby, sapphire or diamond
    according to the band of the cumulated drop chances in which
    [seed mod 100] falls, and no gem beyond the three bands.  When the three
    chances sum to 100 or more, as they do in the table of the constructor,
    a gem is always found. *)
Theorem gem_follows_the_drop_chances (w : World) (seed : Z) :
  let r := seed mod 100 in
  let ruby := dropChance (gemRewards w RUBY) in
  let sapphire := dropChance (gemRewards w SAPPHIRE) in
  let diamond := dropChance (gemRewards w DIAMOND) in
  _selectGem w seed =
    Ok (if r <? ruby then RUBY
        else if r <? ruby + sapphire then SAPPHIRE
        else if r <? ruby + sapphire + diamond then DIAMOND
        else NONE) /\
  (100 <= ruby + sapphire + diamond -> _selectGem w seed <> Ok NONE) /\
  (gemRewards w = initial_gemRewards -> _selectGem w seed <> Ok NONE).
Proof.
  cbv zeta.
  pose proof (Z.mod_pos_bound seed 100 ltac:(lia)) as Hr.
  assert (Hrun : _selectGem w seed =
    Ok (if seed mod 100 <? dropChance (gemRewards w RUBY) then RUBY
        else if seed mod 100 <? dropChance (gemRewards w RUBY)
                                + dropChance (gemRewards w SAPPHIRE) then SAPPHIRE
        else if seed mod 100 <? dropChance (gemRewards w RUBY)
                                + dropChance (gemRewards w SAPPHIRE)
                                + dropChance (gemRewards w DIAMOND) then DIAMOND
        else NONE)).
  { unfold _selectGem.
    destruct (Z.ltb_spec (seed mod 100) (dropChance (gemRewards w RUBY))); [done |].
    rewrite checked_sub_ok by lia. cbn [bindR].
    destruct (Z.ltb_spec (seed mod 100 - dropChance (gemRewards w RUBY))
                (dropChance (gemRewards w SAPPHIRE))),
             (Z.ltb_spec (seed mod 100)
                (dropChance (gemRewards w RUBY) + dropChance (gemRewards w SAPPHIRE)));
      try lia; [done |].
    rewrite checked_sub_ok by lia. cbn [bindR].
    destruct (Z.ltb_spec (seed mod 100 - dropChance (gemRewards w RUBY)
                          - dropChance (gemRewards w SAPPHIRE))
                (dropChance (gemRewards w DIAMOND))),
             (Z.ltb_spec (seed mod 100)
                (dropChance (gemRewards w RUBY) + dropChance (gemRewards w SAPPHIRE)
                 + dropChance (gemRewards w DIAMOND)));
      try lia; done. }
  split; [exact Hrun |].
  assert (Hfull : 100 <= dropChance (gemRewards w RUBY)
                         + dropChance (gemRewards w SAPPHIRE)
                         + dropChance (gemRewards w DIAMOND) ->
                  _selectGem w seed <> Ok NONE).
  { intros Hsum. rewrite Hrun.
    destruct (Z.ltb_spec (seed mod 100) (dropChance (gemRewards w RUBY))); [done |].
    destruct (Z.ltb_spec (seed mod 100)
                (dropChance (gemRewards w RUBY) + dropChance (gemRewards w SAPPHIRE)));
      [done |].
    destruct (Z.ltb_spec (seed mod 100)
                (dropChance (gemRewards w RUBY) + dropChance (gemRewards w SAPPHIRE)
                 + dropChance (gemRewards w DIAMOND))); [done | lia]. }
  split; [exact Hfull |].
  intros Htable. apply Hfull. rewrite Htable. cbn. lia.
Qed.

Lemma final_streak_last ts : forall streak,
  final_streak ts streak =
    match last ts with
    | Some t => streak_after t
    | None => streak
    end.
Proof.
  unfold final_streak.
  induction ts as [| t ts IH]; intros streak; [done |].
  cbn [fold_left]. rewrite IH. destruct ts as [| t' ts]; [done |].
  change (last (t :: t' :: ts)) with (last (t' :: ts)).
  destruct (last (t' :: ts)) eqn:Hlast; [done |].
  by apply last_None in Hlast.
Qed.

(** X13: the critical roll, for every tap of every batch.  Tap [k] of a
    batch rolls on the sub-seed hashed from the sub-seed of the tap before
    it, and starts from the dry streak that tap left: zero after a critical
    tap, one more after any other.  It is critical exactly when its sub-seed
    modulo 100 is below [CRITICAL_BASE_CHANCE] plus the pity bonus of that
    streak, and the bonus never exceeds [MAX_PITY_BONUS]: a sub-seed below
    10 is always critical, and one from 60 on never is, however long the
    streak.  A tap that is not critical pays the base reward.  After the
    batch the caller's streak is what the last tap left, every critical tap
    has counted one critical hit, and the [Tapped] notification says
    whether any tap was critical. *)
Theorem critical_roll_of_a_tap (e : Env) (w w' : World) (taps seed r : Z)
    (isCommitReveal : bool) :
  let a := msg_sender e in
  let p := getPlayerData a w in
  let p' := getPlayerData a w' in
  let power := owned_power e a (registeredMiners p) * (level p + 1) in
  let base := base_tap_reward power isCommitReveal in
  let ts := batch_taps (Z.to_nat taps) 0 seed (tapsSinceCritical p) in
  reachable w -> valid_env e ->
  _executeTaps e taps seed isCommitReveal w = Ok (r, w') ->
  length ts = Z.to_nat taps /\
  (forall t, ts !! 0%nat = Some t ->
     tap_streak t = tapsSinceCritical p /\
     tap_subSeed t = keccak256 (encode_uint256 seed ++ encode_uint16 0)) /\
  (forall k t t', ts !! k = Some t -> ts !! S k = Some t' ->
     tap_streak t' = (if is_critical t then 0 else wrap256 (tap_streak t + 1)) /\
     tap_subSeed t' =
       keccak256 (encode_uint256 (tap_subSeed t) ++ encode_uint16 (tap_index t'))) /\
  (forall k t, ts !! k = Some t ->
     0 <= tap_streak t <= tapsSinceCritical p + Z.of_nat k /\
     exists pity,
       _calculatePityBonus (tap_streak t) = Ok pity /\
       0 <= pity <= MAX_PITY_BONUS /\
       is_critical t = (tap_subSeed t mod 100 <? CRITICAL_BASE_CHANCE + pity) /\
       (tap_subSeed t mod 100 < 10 -> is_critical t = true) /\
       (60 <= tap_subSeed t mod 100 -> is_critical t = false) /\
       (is_critical t = false -> tap_pays w base t = base)) /\
  r = sum_list (map (tap_pays w base) ts) /\
  tapsSinceCritical p' =
    match last ts with
    | Some t => if is_critical t then 0 else wrap256 (tap_streak t + 1)
    | None => tapsSinceCritical p
    end /\
  criticalHits p' =
    fold_left (fun hits t => if is_critical t then wrap256 (hits + 1) else hits)
      ts (criticalHits p) /\
  last (events w') = Some (Tapped a taps r (existsb is_critical ts)).
Proof.
  cbv zeta. unfold getPlayerData. intros Hreach Henv Hrun.
  pose proof (reachable_wf w Hreach) as Hwf.
  pose proof (wf_players w Hwf (msg_sender e)) as Hwp.
  pose proof (proj1 (wf_tapsSinceCritical _ Hwp)) as Hstreak.
  apply executeTaps_trace in Hrun; [| exact Henv | exact Hwp].
  cbv zeta in Hrun.
  destruct Hrun as (_ & _ & Hpities & Hreward & _ & evs & -> & _).
  split; [apply batch_taps_length |].
  split.
  { intros t Ht.
    by destruct (proj1 (batch_taps_chain _ _ _ _) t Ht) as (_ & ? & ?). }
  split.
  { intros k t t' Ht Ht'.
    by destruct (proj2 (batch_taps_chain _ _ _ _) k t t' Ht Ht') as (_ & ? & ?). }
  split.
  { intros k t Ht. split; [by eapply batch_taps_streak |].
    rewrite Forall_lookup in Hpities. destruct (Hpities k t Ht) as [pity Hpity].
    pose proof (pity_bonus_inv _ _ Hpity) as Hrange.
    exists pity. split; [exact Hpity |]. split; [exact Hrange |].
    unfold tap_pays, is_critical, pity_of. rewrite Hpity.
    split; [reflexivity |].
    unfold CRITICAL_BASE_CHANCE, MAX_PITY_BONUS in *.
    split; [| split].
    - intros Hlow. destruct (Z.ltb_spec (tap_subSeed t mod 100) (10 + pity)); [done | lia].
    - intros Hhigh. destruct (Z.ltb_spec (tap_subSeed t mod 100) (10 + pity)); [lia | done].
    - by intros ->. }
  split; [exact Hreward |].
  unfold executed_world. world_simpl. rewrite lookup_total_insert_eq.
  cbn [tapsSinceCritical criticalHits tapped_player set_lastTapBlock set_totalTaps
       set_pendingRewards set_tapsSinceCritical set_criticalHits set_totalPower].
  split; [exact (final_streak_last _ _) |]. split; [reflexivity |].
  by rewrite !app_assoc, last_snoc.
Qed.

(** ** The ledger *)

Lemma sum_balances_insert_new (m : gmap address Z) a v :
  m !! a = None -> sum_balances (<[a := v]> m) = v + sum_balances m.
Proof.
  intros Hnone. unfold sum_balances.
  rewrite map_fold_insert_L; [done | | done]. intros; lia.
Qed.

Lemma sum_balances_insert (m : gmap address Z) a v :
  sum_balances (<[a := v]> m) = sum_balances m - mapping_get m a + v.
Proof.
  unfold mapping_get. destruct (m !! a) as [x |] eqn:Hx; cbn.
  - rewrite <- (insert_delete_id m a x Hx) at 2.
    rewrite <- insert_delete_eq.
    rewrite !sum_balances_insert_new by apply lookup_delete_eq. lia.
  - rewrite sum_balances_insert_new by done. lia.
Qed.

Lemma balance_le_sum (m : gmap address Z) a :
  (forall b, 0 <= mapping_get m b) -> mapping_get m a <= sum_balances m.
Proof.
  revert a. induction m as [| k x m Hk IH] using map_ind; intros a Hpos.
  - unfold mapping_get. rewrite lookup_empty. cbn. unfold sum_balances.
    by rewrite map_fold_empty.
  - rewrite sum_balances_insert_new by done.
    assert (Hm : forall b, 0 <= mapping_get m b).
    { intros b. destruct (decide (b = k)) as [-> | Hne].
      - unfold mapping_get. by rewrite Hk.
      - specialize (Hpos b). by rewrite mapping_get_insert_ne in Hpos. }
    pose proof (Hpos k) as Hx. rewrite mapping_get_insert in Hx.
    destruct (decide (a = k)) as [-> | Hne].
    + rewrite mapping_get_insert.
      specialize (IH k Hm). unfold mapping_get in IH. rewrite Hk in IH. cbn in IH.
      lia.
    + rewrite mapping_get_insert_ne by done. specialize (IH a Hm). lia.
Qed.

Lemma wf_token_balance t a : wf_token t -> 0 <= balanceOf t a <= totalSupply t.
Proof.
  intros [Hpos Hsum _ _]. split; [apply Hpos |].
  rewrite <- Hsum. by apply balance_le_sum.
Qed.

Lemma MAX_SUPPLY_small : MAX_SUPPLY < MAX_UINT256.
Proof. reflexivity. Qed.

Lemma MAX_SUPPLY_pos : 0 < MAX_SUPPLY.
Proof. reflexivity. Qed.

(** [mint] is the role check, the two supply checks and the count of what
    was minted, around ERC20's [_mint]. *)
Lemma mint_run caller to amount t :
  mint caller to amount t =
    if negb (bool_decide (caller ∈ minters t))
    then Fail (CustomError "AccessControlUnauthorizedAccount")
    else
      let? _ := requireR (amount <=? MAX_SUPPLY) "MinerToken: Amount exceeds max" in
      let? room := checked_sub MAX_SUPPLY amount in
      let? _ := requireR (totalSupply t <=? room) "MinerToken: Max supply exceeded" in
      let? minted := checked_add (totalMinted t) amount in
      let? t' := _mint to amount t in
      Ok (set_totalMinted minted t').
Proof.
  unfold mint, _mint, set_totalMinted. destruct (negb _); [done |]. cbv zeta.
  destruct (requireR (amount <=? MAX_SUPPLY) _); [| done]. cbn [bindR].
  destruct (checked_sub _ _) as [room |]; [| done]. cbn [bindR].
  destruct (requireR (totalSupply t <=? room) _); [| done]. cbn [bindR].
  destruct (checked_add (totalMinted t) amount) as [minted |]; [| done]. cbn [bindR].
  destruct (to =? 0); [done |].
  by destruct (checked_add (totalSupply t) amount).
Qed.

Lemma mint_ok caller to amount t :
  wf_token t -> 0 <= amount ->
  caller ∈ minters t -> to <> 0 ->
  totalSupply t + amount <= MAX_SUPPLY ->
  totalMinted t + amount <= MAX_UINT256 ->
  mint caller to amount t =
    Ok (mkMinerToken (totalSupply t + amount) (totalMinted t + amount)
          (<[to := balanceOf t to + amount]> (balances t))
          (allowances t) (minters t)).
Proof.
  intros Hwf Hamount Hrole Hto Hroom Hminted.
  pose proof (wf_token_balance t to Hwf) as Hbal.
  pose proof (wf_token_balance t 0 Hwf) as Hsupply.
  pose proof MAX_SUPPLY_small.
  unfold mint. rewrite bool_decide_eq_true_2 by done. cbn [negb]. cbv zeta.
  unfold requireR.
  destruct (Z.leb_spec amount MAX_SUPPLY); [| lia]. cbn [bindR].
  rewrite checked_sub_ok by lia. cbn [bindR].
  destruct (Z.leb_spec (totalSupply t) (MAX_SUPPLY - amount)); [| lia]. cbn [bindR].
  rewrite checked_add_ok by lia. cbn [bindR].
  destruct (Z.eqb_spec to 0); [congruence |].
  rewrite checked_add_ok by lia. cbn [bindR].
  rewrite wrap256_small; [reflexivity |]. unfold is_uint256. lia.
Qed.

Lemma mint_inv caller to amount t t' :
  mint caller to amount t = Ok t' ->
  caller ∈ minters t /\ to <> 0 /\ amount <= MAX_SUPPLY /\
  totalSupply t + amount <= MAX_SUPPLY /\
  totalMinted t + amount <= MAX_UINT256.
Proof.
  unfold mint. intros Hrun.
  destruct (bool_decide_reflect (caller ∈ minters t)); [| done]. cbn [negb] in Hrun.
  cbv zeta in Hrun. unfold requireR in Hrun.
  destruct (Z.leb_spec amount MAX_SUPPLY); [| done]. cbn [bindR] in Hrun.
  destruct (checked_sub _ _) as [room |] eqn:Hroom; [| done].
  apply checked_sub_inv in Hroom as [-> _]. cbn [bindR] in Hrun.
  destruct (Z.leb_spec (totalSupply t) (MAX_SUPPLY - amount)); [| done].
  cbn [bindR] in Hrun.
  destruct (checked_add (totalMinted t) amount) as [minted |] eqn:Hminted; [| done].
  apply checked_add_inv in Hminted as [-> ?]. cbn [bindR] in Hrun.
  destruct (Z.eqb_spec to 0); [done |].
  repeat split; (done || lia).
Qed.

Lemma wf_token_minted t to amount :
  wf_token t -> 0 <= amount ->
  totalSupply t + amount <= MAX_SUPPLY ->
  totalMinted t + amount <= MAX_UINT256 ->
  wf_token
    (mkMinerToken (totalSupply t + amount) (totalMinted t + amount)
       (<[to := balanceOf t to + amount]> (balances t))
       (allowances t) (minters t)).
Proof.
  intros Hwf Hamount Hroom Hminted.
  pose proof (wf_token_balance t to Hwf) as Hbal.
  destruct Hwf as [Hpos Hsum Hcap Hmint].
  constructor; cbn.
  - intros b. unfold balanceOf in *. cbn.
    destruct (decide (b = to)) as [-> | Hne].
    + rewrite mapping_get_insert. lia.
    + rewrite mapping_get_insert_ne by done. apply Hpos.
  - rewrite sum_balances_insert. unfold balanceOf in *. lia.
  - done.
  - lia.
Qed.

Lemma wf_token_burned t account value :
  wf_token t -> 0 <= value <= balanceOf t account ->
  wf_token
    (mkMinerToken (totalSupply t - value) (totalMinted t)
       (<[account := balanceOf t account - value]> (balances t))
       (allowances t) (minters t)).
Proof.
  intros Hwf Hvalue.
  pose proof (wf_token_balance t account Hwf) as Hbal.
  destruct Hwf as [Hpos Hsum Hcap Hmint].
  constructor; cbn.
  - intros b. unfold balanceOf in *. cbn.
    destruct (decide (b = account)) as [-> | Hne].
    + rewrite mapping_get_insert. lia.
    + rewrite mapping_get_insert_ne by done. apply Hpos.
  - rewrite sum_balances_insert. unfold balanceOf in *. lia.
  - lia.
  - lia.
Qed.

Lemma burn_inv account value t t' :
  wf_token t -> 0 <= value -> _burn account value t = Ok t' ->
  account <> 0 /\ value <= balanceOf t account /\
  t' = mkMinerToken (totalSupply t - value) (totalMinted t)
         (<[account := balanceOf t account - value]> (balances t))
         (allowances t) (minters t).
Proof.
  intros Hwf Hvalue Hrun. unfold _burn in Hrun.
  pose proof (wf_token_balance t account Hwf) as Hbal.
  destruct (Z.eqb_spec account 0); [done |]. cbv zeta in Hrun.
  destruct (Z.ltb_spec (balanceOf t account) value); [done |].
  rewrite wrap256_small in Hrun.
  2:{ pose proof MAX_SUPPLY_small. destruct Hwf. unfold is_uint256. lia. }
  by simplify_eq.
Qed.

(** [burnFrom] is the spending of the allowance followed by [_burn]. *)
Lemma burnFrom_run spender account value t :
  burnFrom spender account value t =
    let currentAllowance := allowance t account spender in
    let? allowances' :=
      if currentAllowance <? MAX_UINT256 then
        if currentAllowance <? value
        then Fail (CustomError "ERC20InsufficientAllowance")
        else Ok (<[(account, spender) := currentAllowance - value]> (allowances t))
      else Ok (allowances t) in
    let? t' := _burn account value t in
    Ok (mkMinerToken (totalSupply t') (totalMinted t') (balances t')
          allowances' (minters t')).
Proof.
  unfold burnFrom, _burn. cbv zeta.
  destruct (if allowance t account spender <? MAX_UINT256 then _ else _)
    as [allowances' |]; [| done].
  cbn [bindR]. destruct (account =? 0); [done |].
  by destruct (balanceOf t account <? value).
Qed.

Lemma wf_token_allowances t al :
  wf_token t ->
  wf_token (mkMinerToken (totalSupply t) (totalMinted t) (balances t) al (minters t)).
Proof. intros [? ? ? ?]. by constructor. Qed.

Lemma constructor_MinerToken_run defaultAdmin :
  defaultAdmin <> 0 ->
  constructor_MinerToken defaultAdmin =
    Ok (mkMinerToken INITIAL_SUPPLY INITIAL_SUPPLY
          (<[defaultAdmin := INITIAL_SUPPLY]> ∅) ∅ {[ defaultAdmin ]}).
Proof.
  intros Hadmin. unfold constructor_MinerToken, _mint.
  destruct (Z.eqb_spec defaultAdmin 0); [congruence |].
  cbn [totalSupply totalMinted balances allowances minters].
  rewrite checked_add_ok by (by vm_compute). cbn [bindR].
  unfold set_totalMinted, balanceOf, mapping_get.
  cbn [totalSupply totalMinted balances allowances minters].
  rewrite lookup_empty. cbn [default].
  replace (wrap256 (0 + INITIAL_SUPPLY)) with INITIAL_SUPPLY by (by vm_compute).
  reflexivity.
Qed.

(** X14: the ledger keeps its books.  The constructor mints the initial
    supply to the administrator, and every function of the contract keeps
    what it established: no balance is negative, the balances sum to the
    total supply, the total supply is at most [MAX_SUPPLY], and it is at
    most what was ever minted.  [mint] and [batchMint] raise the total
    supply and the minted count by what they minted; [burn] and [burnFrom]
    lower the total supply by what they burned and leave the minted count,
    so the cap binds the tokens in circulation, not the tokens ever
    minted. *)
Theorem ledger_keeps_its_books :
  (forall defaultAdmin t,
     constructor_MinerToken defaultAdmin = Ok t ->
     wf_token t /\ totalSupply t = INITIAL_SUPPLY /\
     totalMinted t = INITIAL_SUPPLY /\
     balanceOf t defaultAdmin = INITIAL_SUPPLY /\
     defaultAdmin ∈ minters t) /\
  (forall caller to amount t t',
     wf_token t -> 0 <= amount -> mint caller to amount t = Ok t' ->
     wf_token t' /\ totalSupply t' = totalSupply t + amount /\
     totalMinted t' = totalMinted t + amount) /\
  (forall caller value t t',
     wf_token t -> 0 <= value -> burn caller value t = Ok t' ->
     wf_token t' /\ totalSupply t' = totalSupply t - value /\
     totalMinted t' = totalMinted t /\
     balanceOf t' caller = balanceOf t caller - value) /\
  (forall spender account value t t',
     wf_token t -> 0 <= value -> burnFrom spender account value t = Ok t' ->
     wf_token t' /\ totalSupply t' = totalSupply t - value /\
     totalMinted t' = totalMinted t /\
     balanceOf t' account = balanceOf t account - value).
Proof.
  split; [| split; [| split]].
  - intros admin t Hrun.
    destruct (Z.eqb_spec admin 0) as [-> | Hadmin]; [discriminate Hrun |].
    rewrite constructor_MinerToken_run in Hrun by done.
    injection Hrun as <-. cbn [totalSupply totalMinted minters].
    split.
    { constructor; cbn [totalSupply totalMinted balances].
      - intros b. unfold balanceOf. cbn [balances].
        destruct (decide (b = admin)) as [-> | Hne].
        + rewrite mapping_get_insert. by vm_compute.
        + rewrite mapping_get_insert_ne by done. unfold mapping_get.
          by rewrite lookup_empty.
      - rewrite sum_balances_insert_new by apply lookup_empty.
        unfold sum_balances. rewrite map_fold_empty. apply Z.add_0_r.
      - by vm_compute.
      - split; by vm_compute. }
    split; [reflexivity |]. split; [reflexivity |]. split.
    + unfold balanceOf. cbn [balances]. apply mapping_get_insert.
    + set_solver.
  - intros caller to amount t t' Hwf Hamount Hrun.
    pose proof (mint_inv _ _ _ _ _ Hrun) as (Hrole & Hto & _ & Hroom & Hminted).
    rewrite mint_ok in Hrun by done. simplify_eq. cbn.
    split; [by apply wf_token_minted | done].
  - intros caller value t t' Hwf Hvalue Hrun. unfold burn in Hrun.
    apply burn_inv in Hrun as (_ & Hbal & ->); [| done | done]. cbn.
    split; [apply wf_token_burned; [done | lia] |].
    split; [done |]. split; [done |].
    unfold balanceOf. cbn. by rewrite mapping_get_insert.
  - intros spender account value t t' Hwf Hvalue Hrun.
    rewrite burnFrom_run in Hrun. cbv zeta in Hrun.
    destruct (if allowance t account spender <? MAX_UINT256 then _ else _)
      as [allowances' |]; [| done].
    cbn [bindR] in Hrun.
    destruct (_burn account value t) as [t1 |] eqn:Hburn; [| done].
    apply burn_inv in Hburn as (_ & Hbal & ->); [| done | done].
    cbn [bindR] in Hrun. injection Hrun as <-.
    split.
    { exact (wf_token_allowances
               (mkMinerToken (totalSupply t - value) (totalMinted t)
                  (<[account := balanceOf t account - value]> (balances t))
                  (allowances t) (minters t))
               allowances'
               (wf_token_burned t account value Hwf (conj Hvalue Hbal))). }
    cbn [totalSupply totalMinted balances].
    split; [reflexivity |]. split; [reflexivity |].
    unfold balanceOf. cbn [balances]. apply mapping_get_insert.
Qed.

(** X15: [mint] in full.  The ledger refuses a caller without the minter
    role; it reverts with "MinerToken: Amount exceeds max" for an amount
    above [MAX_SUPPLY] and with "MinerToken: Max supply exceeded" for an
    amount that would take the total supply above [MAX_SUPPLY]; otherwise,
    for a receiver other than the zero address, it succeeds and credits the
    receiver with exactly the amount, leaving every other balance, the
    allowances and the roles as they were. *)
Theorem mint_spec (caller to amount : Z) (t : MinerToken) :
  wf_token t -> 0 <= amount ->
  (caller ∉ minters t ->
     mint caller to amount t
       = Fail (CustomError "AccessControlUnauthorizedAccount")) /\
  (caller ∈ minters t -> MAX_SUPPLY < amount ->
     mint caller to amount t = Fail (Revert "MinerToken: Amount exceeds max")) /\
  (caller ∈ minters t -> amount <= MAX_SUPPLY ->
     MAX_SUPPLY < totalSupply t + amount ->
     mint caller to amount t = Fail (Revert "MinerToken: Max supply exceeded")) /\
  (caller ∈ minters t -> to <> 0 ->
     totalSupply t + amount <= MAX_SUPPLY ->
     totalMinted t + amount <= MAX_UINT256 ->
     exists t', mint caller to amount t = Ok t' /\
       balanceOf t' to = balanceOf t to + amount /\
       (forall b, b <> to -> balanceOf t' b = balanceOf t b) /\
       totalSupply t' = totalSupply t + amount /\
       totalSupply t' <= MAX_SUPPLY /\
       allowances t' = allowances t /\ minters t' = minters t).
Proof.
  intros Hwf Hamount.
  split; [| split; [| split]].
  - intros Hrole. unfold mint. by rewrite bool_decide_eq_false_2.
  - intros Hrole Hbig. unfold mint. rewrite bool_decide_eq_true_2 by done.
    cbn [negb]. cbv zeta. unfold requireR.
    by destruct (Z.leb_spec amount MAX_SUPPLY); [lia |].
  - intros Hrole Hsmall Hfull. unfold mint. rewrite bool_decide_eq_true_2 by done.
    cbn [negb]. cbv zeta. unfold requireR.
    destruct (Z.leb_spec amount MAX_SUPPLY); [| lia]. cbn [bindR].
    rewrite checked_sub_ok by lia. cbn [bindR].
    by destruct (Z.leb_spec (totalSupply t) (MAX_SUPPLY - amount)); [lia |].
  - intros Hrole Hto Hroom Hminted. eexists. split; [by apply mint_ok |].
    unfold balanceOf. cbn. rewrite mapping_get_insert.
    split; [done |]. split; [| done].
    intros b Hne. by rewrite mapping_get_insert_ne.
Qed.

(** *** Minting in a batch *)

Ltac supply_lia := pose proof MAX_SUPPLY_small; lia.

Lemma sum_list_nonneg (l : list Z) : Forall (fun x => 0 <= x) l -> 0 <= sum_list l.
Proof.
  induction 1 as [| x l Hx _ IH]; [done |]. unfold sum_list in *. cbn. lia.
Qed.

Lemma Forall_uint256_nonneg (l : list Z) :
  Forall is_uint256 l -> Forall (fun x => 0 <= x) l.
Proof. intros H. eapply Forall_impl; [exact H |]. by intros x [? _]. Qed.

Lemma sum_list_drop (l : list Z) i x :
  l !! i = Some x -> sum_list (drop i l) = x + sum_list (drop (S i) l).
Proof. intros Hi. by rewrite (drop_S _ _ _ Hi). Qed.

Lemma batchMint_total_run amounts :
  Forall (fun x => 0 <= x) amounts -> forall n i acc,
  (n + i = length amounts)%nat -> 0 <= acc <= MAX_UINT256 ->
  batchMint_total amounts n i acc =
    if acc + sum_list (drop i amounts) <=? MAX_UINT256
    then Ok (acc + sum_list (drop i amounts))
    else Fail Panic.
Proof.
  intros Hpos. induction n as [| n IH]; intros i acc Hlen Hacc.
  - rewrite drop_ge by lia. unfold sum_list. cbn. rewrite Z.add_0_r.
    by destruct (Z.leb_spec acc MAX_UINT256); [| lia].
  - cbn [batchMint_total]. unfold array_get.
    destruct (amounts !! i) as [amount |] eqn:Hi.
    2:{ apply lookup_ge_None in Hi. lia. }
    cbn [bindR]. rewrite (sum_list_drop _ _ _ Hi).
    assert (Hamount : 0 <= amount).
    { rewrite Forall_forall in Hpos. apply Hpos. by eapply list_elem_of_lookup_2. }
    assert (Hrest : 0 <= sum_list (drop (S i) amounts)).
    { apply sum_list_nonneg. by apply Forall_drop. }
    unfold checked_add at 1 2.
    destruct (Z.leb_spec (acc + amount) MAX_UINT256) as [Hfits | Hover]; cbn [bindR].
    + unfold requireR. destruct (Z.leb_spec acc (acc + amount)); [| lia].
      cbn [bindR]. rewrite IH by lia. by rewrite Z.add_assoc.
    + by destruct (Z.leb_spec (acc + (amount + sum_list (drop (S i) amounts)))
                     MAX_UINT256); [lia |].
Qed.

Lemma batchMint_loop_never_reverts recipients amounts reason n : forall i t,
  batchMint_loop recipients amounts n i t <> Fail (Revert reason).
Proof.
  induction n as [| n IH]; intros i t; [done |].
  cbn [batchMint_loop]. unfold array_get.
  destruct (recipients !! i) as [to |]; [| done]. cbn [bindR].
  destruct (amounts !! i) as [amount |]; [| done]. cbn [bindR].
  unfold _mint. destruct (to =? 0); [done |].
  unfold checked_add at 1.
  destruct (_ <=? MAX_UINT256); [| done]. cbn [bindR totalMinted].
  unfold checked_add at 1.
  destruct (_ <=? MAX_UINT256); [| done]. cbn [bindR].
  apply IH.
Qed.

Lemma mint_each_inv caller recipients : forall amounts t t',
  wf_token t -> Forall (fun x => 0 <= x) amounts ->
  length recipients = length amounts ->
  mint_each caller recipients amounts t = Ok t' ->
  wf_token t' /\
  totalSupply t' = totalSupply t + sum_list amounts /\
  totalMinted t' = totalMinted t + sum_list amounts /\
  minters t' = minters t /\
  (recipients <> [] -> caller ∈ minters t).
Proof.
  induction recipients as [| to recipients IH]; intros amounts t t' Hwf Hpos Hlen Hrun.
  - destruct amounts; [| done]. cbn in Hrun. injection Hrun as <-.
    unfold sum_list. cbn. rewrite !Z.add_0_r. done.
  - destruct amounts as [| amount amounts]; [done |].
    apply Forall_cons in Hpos as [Hamount Hpos].
    cbn [mint_each] in Hrun.
    destruct (mint caller to amount t) as [t1 |] eqn:Hmint; [| done].
    cbn [bindR] in Hrun.
    pose proof (mint_inv _ _ _ _ _ Hmint) as (Hrole & Hto & _ & Hroom & Hminted).
    rewrite mint_ok in Hmint by done. injection Hmint as <-.
    apply IH in Hrun as (Hwf' & Hsupply & Hcount & Hminters & _);
      [| by apply wf_token_minted | done | by injection Hlen].
    cbn [totalSupply totalMinted minters] in *.
    unfold sum_list in *. cbn [fold_right].
    split; [done |]. split; [lia |]. split; [lia |]. split; [done | done].
Qed.

Lemma batchMint_loop_mint_each caller recipients amounts :
  length recipients = length amounts ->
  Forall (fun x => 0 <= x) amounts ->
  forall n i t t',
    (n + i = length recipients)%nat -> wf_token t -> caller ∈ minters t ->
    totalSupply t + sum_list (drop i amounts) <= MAX_SUPPLY ->
    batchMint_loop recipients amounts n i t = Ok t' <->
    mint_each caller (drop i recipients) (drop i amounts) t = Ok t'.
Proof.
  intros Hlen Hpos. induction n as [| n IH]; intros i t t' Hn Hwf Hrole Hroom.
  - rewrite !drop_ge by supply_lia. done.
  - cbn [batchMint_loop]. unfold array_get.
    destruct (recipients !! i) as [to |] eqn:Hto.
    2:{ apply lookup_ge_None in Hto. supply_lia. }
    destruct (amounts !! i) as [amount |] eqn:Hamt.
    2:{ apply lookup_ge_None in Hamt. supply_lia. }
    cbn [bindR]. rewrite (drop_S _ _ _ Hto), (drop_S _ _ _ Hamt).
    rewrite (sum_list_drop _ _ _ Hamt) in Hroom.
    cbn [mint_each].
    assert (Hamount : 0 <= amount).
    { rewrite Forall_forall in Hpos. apply Hpos. by eapply list_elem_of_lookup_2. }
    assert (Hrest : 0 <= sum_list (drop (S i) amounts)).
    { apply sum_list_nonneg. by apply Forall_drop. }
    pose proof (wf_token_balance t to Hwf) as Hbal.
    destruct (Z.eqb_spec to 0) as [-> | Hne].
    { unfold _mint. cbn [Z.eqb bindR].
      destruct (mint caller 0 amount t) as [t1 |] eqn:Hmint; [| done].
      by apply mint_inv in Hmint as (_ & ? & _). }
    unfold _mint. destruct (Z.eqb_spec to 0); [congruence |].
    rewrite checked_add_ok by supply_lia. cbn [bindR totalMinted].
    rewrite wrap256_small by (unfold is_uint256; supply_lia).
    destruct (Z.leb_spec (totalMinted t + amount) MAX_UINT256) as [Hfits | Hover].
    + rewrite checked_add_ok by done. cbn [bindR].
      rewrite mint_ok by (done || supply_lia). cbn [bindR].
      unfold set_totalMinted. cbn [totalSupply balances allowances minters].
      apply IH; [supply_lia | apply wf_token_minted; (done || supply_lia) | done |].
      cbn [totalSupply]. supply_lia.
    + unfold checked_add at 1.
      destruct (Z.leb_spec (totalMinted t + amount) MAX_UINT256); [supply_lia |].
      cbn [bindR].
      destruct (mint caller to amount t) as [t1 |] eqn:Hmint; [| done].
      apply mint_inv in Hmint as (_ & _ & _ & _ & ?). supply_lia.
Qed.

(** X16: [batchMint] is the minting of each amount to its recipient, in
    one piece.  On a ledger whose books are in order and for amounts of
    type [uint256], a batch succeeds exactly when the two arrays are
    non-empty and equally long and minting the amounts one call of [mint]
    after the other succeeds, and it leaves the very ledger those calls
    leave; the total supply and the minted count have grown by the sum of
    the amounts and the books are in order again. *)
Theorem batchMint_is_mint_each (caller : address) (recipients amounts : list Z)
    (t t' : MinerToken) :
  wf_token t -> Forall is_uint256 amounts ->
  (batchMint caller recipients amounts t = Ok t' <->
     recipients <> [] /\ length recipients = length amounts /\
     mint_each caller recipients amounts t = Ok t') /\
  (batchMint caller recipients amounts t = Ok t' ->
     wf_token t' /\
     totalSupply t' = totalSupply t + sum_list amounts /\
     totalMinted t' = totalMinted t + sum_list amounts).
Proof.
  intros Hwf Hrange. pose proof (Forall_uint256_nonneg _ Hrange) as Hpos.
  pose proof (sum_list_nonneg _ Hpos) as Hsum.
  pose proof (wf_token_balance t 0 Hwf) as Hsupply.
  assert (Hiff :
    batchMint caller recipients amounts t = Ok t' <->
    recipients <> [] /\ length recipients = length amounts /\
    mint_each caller recipients amounts t = Ok t').
  { unfold batchMint. split.
    - intros Hrun.
      destruct (bool_decide_reflect (caller ∈ minters t)) as [Hrole |]; [| done].
      cbn [negb] in Hrun. unfold requireR in Hrun.
      destruct (Nat.ltb_spec 0 (length recipients)) as [Hne |]; [| done].
      cbn [bindR] in Hrun.
      destruct (Nat.eqb_spec (length recipients) (length amounts)) as [Hlen |];
        [| done].
      cbn [bindR] in Hrun.
      rewrite (batchMint_total_run amounts Hpos) in Hrun by (unfold MAX_UINT256; supply_lia).
      rewrite drop_0, Z.add_0_l in Hrun.
      destruct (Z.leb_spec (sum_list amounts) MAX_UINT256); [| done].
      cbn [bindR] in Hrun.
      destruct (checked_sub MAX_SUPPLY _) as [room |] eqn:Hroom; [| done].
      apply checked_sub_inv in Hroom as [-> ?]. cbn [bindR] in Hrun.
      destruct (Z.leb_spec (totalSupply t) (MAX_SUPPLY - sum_list amounts)); [| done].
      cbn [bindR] in Hrun.
      apply (batchMint_loop_mint_each caller) in Hrun;
        [| done | done | supply_lia | done | done | rewrite drop_0; supply_lia].
      rewrite !drop_0 in Hrun.
      split; [by destruct recipients; [cbn in Hne; supply_lia |] |]. done.
    - intros (Hne & Hlen & Hrun).
      pose proof (mint_each_inv _ _ _ _ _ Hwf Hpos Hlen Hrun)
        as (Hwf' & Htotal & _ & _ & Hrole).
      specialize (Hrole Hne).
      pose proof (wf_supply_cap _ Hwf') as Hcap.
      rewrite bool_decide_eq_true_2 by done. cbn [negb]. unfold requireR.
      destruct (Nat.ltb_spec 0 (length recipients)) as [_ | Hempty].
      2:{ destruct recipients; [done | cbn in Hempty; supply_lia]. }
      cbn [bindR].
      destruct (Nat.eqb_spec (length recipients) (length amounts)); [| done].
      cbn [bindR].
      rewrite (batchMint_total_run amounts Hpos) by (unfold MAX_UINT256; supply_lia).
      rewrite drop_0, Z.add_0_l.
      destruct (Z.leb_spec (sum_list amounts) MAX_UINT256); [| supply_lia].
      cbn [bindR]. rewrite checked_sub_ok by supply_lia. cbn [bindR].
      destruct (Z.leb_spec (totalSupply t) (MAX_SUPPLY - sum_list amounts)); [| supply_lia].
      cbn [bindR].
      apply (batchMint_loop_mint_each caller);
        [done | done | supply_lia | done | done | rewrite drop_0; supply_lia |].
      by rewrite !drop_0. }
  split; [exact Hiff |].
  intros Hrun. apply Hiff in Hrun as (_ & Hlen & Hrun).
  by pose proof (mint_each_inv _ _ _ _ _ Hwf Hpos Hlen Hrun) as (? & ? & ? & _).
Qed.

(** X17: an overflowing batch panics.  [batchMint] never reverts with
    "MinerToken: Arithmetic overflow": the addition inside that check is a
    checked addition and panics first.  And a batch whose amounts sum to
    more than [MAX_SUPPLY] does not reach "MinerToken: Max supply exceeded"
    either; it panics in the subtraction [MAX_SUPPLY - totalAmount]. *)
Theorem batchMint_overflow_is_a_panic (caller : address)
    (recipients amounts : list Z) (t : MinerToken) :
  Forall is_uint256 amounts ->
  batchMint caller recipients amounts t
    <> Fail (Revert "MinerToken: Arithmetic overflow") /\
  (caller ∈ minters t -> recipients <> [] ->
   length recipients = length amounts ->
   MAX_SUPPLY < sum_list amounts ->
   batchMint caller recipients amounts t = Fail Panic).
Proof.
  intros Hrange. pose proof (Forall_uint256_nonneg _ Hrange) as Hpos.
  split.
  - unfold batchMint. destruct (negb _); [discriminate |]. unfold requireR.
    destruct (0 <? length recipients)%nat; cbn [bindR]; [| discriminate].
    destruct (length recipients =? length amounts)%nat; cbn [bindR];
      [| discriminate].
    rewrite (batchMint_total_run amounts Hpos) by (unfold MAX_UINT256; lia).
    destruct (_ <=? MAX_UINT256); cbn [bindR]; [| discriminate].
    unfold checked_sub. destruct (_ <=? MAX_SUPPLY); cbn [bindR]; [| discriminate].
    destruct (_ <=? _); cbn [bindR]; [| discriminate].
    apply batchMint_loop_never_reverts.
  - intros Hrole Hne Hlen Hbig. unfold batchMint.
    rewrite bool_decide_eq_true_2 by done. cbn [negb]. unfold requireR.
    destruct (Nat.ltb_spec 0 (length recipients)) as [_ | Hempty].
    2:{ destruct recipients; [done | cbn in Hempty; lia]. }
    cbn [bindR].
    destruct (Nat.eqb_spec (length recipients) (length amounts)); [| done].
    cbn [bindR].
    rewrite (batchMint_total_run amounts Hpos) by (unfold MAX_UINT256; lia).
    rewrite drop_0, Z.add_0_l.
    destruct (Z.leb_spec (sum_list amounts) MAX_UINT256); [| reflexivity].
    cbn [bindR]. unfold checked_sub.
    by destruct (Z.leb_spec (sum_list amounts) MAX_SUPPLY); [lia |].
Qed.

(** *** The ledger behind [withdraw] *)

(** X18: [withdraw] pays on the ledger.  A withdrawal that succeeds over a
    ledger whose books are in order found the game holding the minter role,
    credited the caller's balance with exactly the pending amount, raised
    the total supply by the same and left it at most [MAX_SUPPLY], and
    touched no other balance.  Without the minter role every withdrawal
    fails, and one that passes the game's own checks is refused by the
    ledger with AccessControlUnauthorizedAccount. *)
Theorem withdraw_pays_on_the_ledger (e : Env) (w : World) :
  let a := msg_sender e in
  let p := getPlayerData a w in
  let amount := pendingRewards p in
  let t := minerToken w in
  let minted :=
    if negb (block_timestamp e / one_day =? currentDay w) then 0
    else todaysMinted w in
  reachable w -> wf_token t ->
  (forall w', withdraw e w = Ok (tt, w') ->
     let t' := minerToken w' in
     this w ∈ minters t /\ a <> 0 /\
     balanceOf t' a = balanceOf t a + amount /\
     (forall b, b <> a -> balanceOf t' b = balanceOf t b) /\
     totalSupply t' = totalSupply t + amount /\
     totalSupply t' <= MAX_SUPPLY /\
     wf_token t' /\
     events w' = events w ++ [Withdrawn a amount]) /\
  (this w ∉ minters t ->
     (exists err, withdraw e w = Fail err) /\
     (0 < amount -> minted + amount <= dailyMintLimit w ->
      totalMined p + amount <= MAX_UINT256 ->
      withdraw e w = Fail (CustomError "AccessControlUnauthorizedAccount"))).
Proof.
  cbv zeta. unfold getPlayerData. intros Hreach Hwf. split.
  - intros w' Hrun. apply withdraw_inv in Hrun. cbv zeta in Hrun.
    destruct Hrun as (Hamount & _ & _ & t' & Hmint & ->). world_simpl.
    pose proof (mint_inv _ _ _ _ _ Hmint) as (Hrole & Hto & _ & Hroom & Hminted).
    pose proof (wf_token_minted _ (msg_sender e) _ Hwf (Z.lt_le_incl _ _ Hamount)
                  Hroom Hminted) as Hwf'.
    rewrite mint_ok in Hmint by (done || lia). injection Hmint as <-.
    split; [done |]. split; [done |].
    split; [unfold balanceOf; cbn [balances]; apply mapping_get_insert |].
    split.
    { intros b Hne. unfold balanceOf. cbn [balances].
      by rewrite mapping_get_insert_ne. }
    cbn [totalSupply]. split; [done |]. split; [done |]. split; [exact Hwf' | done].
  - intros Hrole. split.
    + destruct (withdraw e w) as [[[] w'] |] eqn:Hrun; [| eauto].
      apply withdraw_inv in Hrun. cbv zeta in Hrun.
      destruct Hrun as (_ & _ & _ & t' & Hmint & _).
      by apply mint_inv in Hmint as (? & _).
    + intros Hamount Hlimit Hmined.
      destruct (mint_limits_reachable w Hreach) as [Hcap Hminted].
      assert (Hfits : (if negb (block_timestamp e / one_day =? currentDay w)
                       then 0 else todaysMinted w)
                      + pendingRewards (players w !!! msg_sender e) <= MAX_UINT256).
      { apply Z.le_trans with MAX_DAILY_MINT; [lia | by vm_compute]. }
      rewrite withdraw_run. cbv zeta.
      destruct (Z.ltb_spec 0 (pendingRewards (players w !!! msg_sender e))); [| lia].
      rewrite checked_add_ok by done. cbn [bindR].
      destruct (Z.leb_spec
                  ((if negb (block_timestamp e / one_day =? currentDay w)
                    then 0 else todaysMinted w)
                   + pendingRewards (players w !!! msg_sender e))
                  (dailyMintLimit w)); [| lia].
      rewrite checked_add_ok by done. cbn [bindR].
      unfold mint. by rewrite bool_decide_eq_false_2.
Qed.

(** ** The asset registry *)

Lemma power_bound_facts :
  NFT.LEGENDARY_POWER <= MAX_UINT256 / 1000 /\
  50 * (MAX_UINT256 / 1000) <= MAX_UINT256 /\
  NFT.MAX_SUPPLY + 1 <= MAX_UINT256.
Proof. split; [| split]; by vm_compute. Qed.

Lemma getPowerByRarity_range r :
  NFT.COMMON_POWER <= NFT._getPowerByRarity r <= NFT.LEGENDARY_POWER.
Proof. destruct r; by vm_compute. Qed.

Lemma getPowerByRarity_values r :
  NFT._getPowerByRarity r =
    match r with
    | NFT.COMMON => 1
    | NFT.RARE => 3
    | NFT.EPIC => 7
    | NFT.LEGENDARY => 15
    end.
Proof. by destruct r. Qed.

(** [mintMiner] up to the point where the receiver is asked. *)
Lemma mintMiner_run e code to r minerName s :
  NFT.wf_registry s ->
  NFT.mintMiner e code to r minerName s =
    if bool_decide (msg_sender e ∈ NFT.minterRole s) then
      if NFT.totalSupply s <? NFT.MAX_SUPPLY then
        if (String.length minerName <=? 32)%nat then
          if to =? 0 then Fail (CustomError "ERC721InvalidReceiver")
          else
            match NFT.checkOnERC721Received code (msg_sender e) to
                    (NFT.totalSupply s) (NFT.handed_over to s) with
            | Ok s1 =>
                Ok (NFT.totalSupply s,
                    NFT.recorded e to (NFT.totalSupply s) r minerName s1)
            | Fail err => Fail err
            end
        else Fail (Revert "MinerNFT: Name too long")
      else Fail (Revert "MinerNFT: Max supply reached")
    else Fail (CustomError "AccessControlUnauthorizedAccount").
Proof.
  intros [Hcounter Hcap _ Howned _ _]. unfold NFT.mintMiner, NFT.onlyRole.
  destruct (bool_decide _); [| done]. cbn [bindR]. unfold requireR.
  destruct (Z.ltb_spec (NFT.totalSupply s) NFT.MAX_SUPPLY) as [Hroom |]; [| done].
  cbn [bindR]. destruct (String.length minerName <=? 32)%nat; [| done].
  cbn [bindR]. cbv zeta.
  destruct power_bound_facts as (_ & _ & Hbig).
  rewrite checked_add_ok by lia. cbn [bindR].
  unfold NFT._safeMint. destruct (to =? 0); [done |].
  assert (Hfree : NFT._ownerOf (NFT.set_tokenIdCounter (NFT._tokenIdCounter s + 1) s)
                    (NFT._tokenIdCounter s) = 0).
  { change (NFT._ownerOf s (NFT._tokenIdCounter s) = 0).
    destruct (Z.eq_dec (NFT._ownerOf s (NFT._tokenIdCounter s)) 0) as [| Hne]; [done |].
    apply Howned in Hne. lia. }
  rewrite Hfree. cbn [Z.eqb negb]. unfold NFT.handed_over. rewrite Hcounter.
  destruct (NFT.checkOnERC721Received _ _ _ _ _) as [s1 |]; reflexivity.
Qed.

Lemma seq_snoc_Z (n : nat) :
  map Z.of_nat (seq 0 n) ++ [Z.of_nat n] = map Z.of_nat (seq 0 (S n)).
Proof. by rewrite seq_S, map_app. Qed.

Lemma wf_registry_minted e to r minerName s :
  NFT.wf_registry s -> NFT.totalSupply s < NFT.MAX_SUPPLY -> to <> 0 ->
  (String.length minerName <= 32)%nat ->
  NFT.wf_registry
    (NFT.mkRegistry (NFT.totalSupply s + 1)
       (<[NFT.totalSupply s := to]> (NFT._owners s))
       (NFT._allTokens s ++ [NFT.totalSupply s])
       (<[NFT.totalSupply s :=
            NFT.mkMinerData r (NFT._getPowerByRarity r) (block_timestamp e)
              minerName]> (NFT.miners s))
       (NFT.minterRole s) (NFT.gameRole s) (NFT.adminRole s)
       (NFT._baseTokenURI s)
       (NFT.log s ++
        [NFT.MinerMinted to (NFT.totalSupply s) r (NFT._getPowerByRarity r)])).
Proof.
  intros [Hcounter Hcap Hall Howned Hrecord Hnone] Hroom Hto Hname.
  pose proof (getPowerByRarity_range r) as Hpower.
  destruct power_bound_facts as (Hlegend & _ & _).
  unfold NFT.totalSupply in *. rewrite Hcounter in *.
  constructor; unfold NFT.totalSupply, NFT._ownerOf;
    cbn [NFT._tokenIdCounter NFT._allTokens NFT._owners NFT.miners].
  - rewrite length_app. cbn [length]. lia.
  - rewrite length_app. cbn [length]. lia.
  - rewrite length_app. cbn [length]. rewrite Nat.add_1_r, <- seq_snoc_Z.
    by rewrite <- Hall.
  - intros tokenId.
    destruct (decide (tokenId = Z.of_nat (length (NFT._allTokens s)))) as [-> | Hne].
    + rewrite mapping_get_insert. lia.
    + rewrite mapping_get_insert_ne by done.
      specialize (Howned tokenId). unfold NFT._ownerOf in Howned. lia.
  - intros tokenId Hin.
    destruct (decide (tokenId = Z.of_nat (length (NFT._allTokens s)))) as [-> | Hne].
    + rewrite lookup_insert_eq. eexists. split; [done |].
      cbn [NFT.power NFT.name]. split; [lia | done].
    + rewrite lookup_insert_ne by done. apply Hrecord. lia.
  - intros tokenId Hout. rewrite lookup_insert_ne by lia. apply Hnone. lia.
Qed.

Lemma registry_reads_after_mint tokenId to (m : NFT.MinerData) s1 s other :
  NFT._owners s1 = <[tokenId := to]> (NFT._owners s) ->
  NFT.miners s1 = <[tokenId := m]> (NFT.miners s) ->
  other <> tokenId ->
  NFT.ownerOf s1 other = NFT.ownerOf s other /\
  NFT.getMiner s1 other = NFT.getMiner s other.
Proof.
  intros Ho Hm Hne. unfold NFT.ownerOf, NFT.getMiner, NFT._ownerOf.
  rewrite Ho, Hm, mapping_get_insert_ne by done.
  by rewrite lookup_total_insert_ne.
Qed.

Lemma handed_over_reads to s :
  NFT.wf_registry s -> to <> 0 ->
  NFT.ownerOf (NFT.handed_over to s) (NFT.totalSupply s) = Ok to /\
  NFT.getMiner (NFT.handed_over to s) (NFT.totalSupply s)
    = Ok (NFT.mkMinerData NFT.COMMON 0 0 EmptyString).
Proof.
  intros Hwf Hto. pose proof (NFT.wf_no_record s Hwf (NFT.totalSupply s)) as Hnone.
  rewrite (NFT.wf_counter s Hwf) in Hnone.
  unfold NFT.ownerOf, NFT.getMiner, NFT._ownerOf, NFT.handed_over, requireR.
  rewrite (NFT.wf_counter s Hwf). cbn [NFT._owners NFT.miners NFT.set_minted
                                       NFT.set_tokenIdCounter].
  rewrite mapping_get_insert. destruct (Z.eqb_spec to 0); [done |].
  split; [done |]. cbn [negb bindR].
  rewrite lookup_total_alt, Hnone by lia. reflexivity.
Qed.

(** X19: [mintMiner] in full.  On a registry whose storage is in order the
    call is refused to a caller without the minter role, once [MAX_SUPPLY]
    tokens exist, for a name of more than 32 bytes and for the zero
    address as receiver.  Otherwise the new token, numbered by the tokens
    that existed, is assigned to the receiver, and a receiver that has code
    is asked while the token is its own and has no record yet; the storage
    it comes back with is the one the call goes on from.  If the receiver
    turns the token down or reverts, so does the call.  If it accepts, the
    call writes the record of the token (the rarity, the power of that
    rarity, 1, 3, 7 or 15, the time of the block, the name) over whatever
    the receiver left there and touches no other record.  For a receiver
    without code the call succeeds, the token belongs to the receiver with
    that record, no other token is touched, and the storage is in order
    again. *)
Theorem mintMiner_spec (e : Env) (code : NFT.Code) (to : address)
    (r : NFT.Rarity) (minerName : string) (s : NFT.Registry) :
  let tokenId := NFT.totalSupply s in
  let handed := NFT.handed_over to s in
  let record :=
    NFT.mkMinerData r
      (match r with
       | NFT.COMMON => 1
       | NFT.RARE => 3
       | NFT.EPIC => 7
       | NFT.LEGENDARY => 15
       end) (block_timestamp e) minerName in
  NFT.wf_registry s ->
  (msg_sender e ∉ NFT.minterRole s ->
     NFT.mintMiner e code to r minerName s
       = Fail (CustomError "AccessControlUnauthorizedAccount")) /\
  (msg_sender e ∈ NFT.minterRole s -> NFT.MAX_SUPPLY <= NFT.totalSupply s ->
     NFT.mintMiner e code to r minerName s
       = Fail (Revert "MinerNFT: Max supply reached")) /\
  (msg_sender e ∈ NFT.minterRole s -> NFT.totalSupply s < NFT.MAX_SUPPLY ->
   (32 < String.length minerName)%nat ->
     NFT.mintMiner e code to r minerName s
       = Fail (Revert "MinerNFT: Name too long")) /\
  (msg_sender e ∈ NFT.minterRole s -> NFT.totalSupply s < NFT.MAX_SUPPLY ->
   (String.length minerName <= 32)%nat ->
     (to = 0 ->
        NFT.mintMiner e code to r minerName s
          = Fail (CustomError "ERC721InvalidReceiver")) /\
     (to <> 0 ->
        NFT.ownerOf handed tokenId = Ok to /\
        NFT.getMiner handed tokenId
          = Ok (NFT.mkMinerData NFT.COMMON 0 0 EmptyString) /\
        (forall hook, code to = Some hook ->
           match hook (msg_sender e) tokenId handed with
           | NFT.HookReturned true s1 =>
               exists s',
                 NFT.mintMiner e code to r minerName s = Ok (tokenId, s') /\
                 NFT.miners s' !! tokenId = Some record /\
                 (forall other, other <> tokenId ->
                    NFT.miners s' !! other = NFT.miners s1 !! other) /\
                 (forall other, NFT.ownerOf s' other = NFT.ownerOf s1 other) /\
                 NFT.log s' =
                   NFT.log s1 ++ [NFT.MinerMinted to tokenId r (NFT.power record)]
           | NFT.HookReturned false _ | NFT.HookReverted None =>
               NFT.mintMiner e code to r minerName s
                 = Fail (CustomError "ERC721InvalidReceiver")
           | NFT.HookReverted (Some reason) =>
               NFT.mintMiner e code to r minerName s = Fail reason
           end) /\
        (code to = None ->
           exists s',
             NFT.mintMiner e code to r minerName s = Ok (tokenId, s') /\
             NFT.totalSupply s' = NFT.totalSupply s + 1 /\
             NFT.ownerOf s tokenId = Fail (CustomError "ERC721NonexistentToken") /\
             NFT.ownerOf s' tokenId = Ok to /\
             NFT.getMiner s' tokenId = Ok record /\
             (forall other, other <> tokenId ->
                NFT.ownerOf s' other = NFT.ownerOf s other /\
                NFT.getMiner s' other = NFT.getMiner s other) /\
             NFT.log s' =
               NFT.log s ++ [NFT.MinerMinted to tokenId r (NFT.power record)] /\
             NFT.wf_registry s'))).
Proof.
  cbv zeta. intros Hwf. rewrite (mintMiner_run _ _ _ _ _ _ Hwf).
  pose proof (NFT.wf_owned s Hwf (NFT.totalSupply s)) as Hfresh.
  rewrite (NFT.wf_counter s Hwf) in Hfresh.
  split; [intros Hrole; by rewrite bool_decide_eq_false_2 |].
  split.
  { intros Hrole Hfull. rewrite bool_decide_eq_true_2 by done.
    by destruct (Z.ltb_spec (NFT.totalSupply s) NFT.MAX_SUPPLY); [lia |]. }
  split.
  { intros Hrole Hroom Hlong. rewrite bool_decide_eq_true_2 by done.
    destruct (Z.ltb_spec (NFT.totalSupply s) NFT.MAX_SUPPLY); [| lia].
    by destruct (Nat.leb_spec (String.length minerName) 32); [lia |]. }
  intros Hrole Hroom Hname. rewrite bool_decide_eq_true_2 by done.
  destruct (Z.ltb_spec (NFT.totalSupply s) NFT.MAX_SUPPLY); [| lia].
  destruct (Nat.leb_spec (String.length minerName) 32); [| lia].
  split; [by intros -> |]. intros Hto.
  destruct (Z.eqb_spec to 0); [done |].
  destruct (handed_over_reads to s Hwf Hto) as [Howner Hminer].
  split; [exact Howner |]. split; [exact Hminer |].
  unfold NFT.checkOnERC721Received. split.
  - intros hook ->.
    destruct (hook (msg_sender e) (NFT.totalSupply s) (NFT.handed_over to s))
      as [[] s1 | [reason |]]; try reflexivity.
    eexists. split; [reflexivity |]. unfold NFT.recorded.
    cbn [NFT.miners NFT.set_log NFT.set_miners NFT.log NFT.power].
    split; [by rewrite lookup_insert_eq, getPowerByRarity_values |].
    split; [intros other Hne; by rewrite lookup_insert_ne |].
    split; [done |]. by rewrite getPowerByRarity_values.
  - intros ->. eexists. split; [reflexivity |].
    split.
    { unfold NFT.totalSupply. cbn [NFT._allTokens NFT.recorded NFT.set_log
        NFT.set_miners NFT.handed_over NFT.set_minted NFT.set_tokenIdCounter].
      rewrite length_app. cbn [length]. lia. }
    split.
    { unfold NFT.ownerOf.
      destruct (Z.eqb_spec (NFT._ownerOf s (NFT.totalSupply s)) 0) as [| Hne]; [done |].
      apply Hfresh in Hne. lia. }
    split; [exact Howner |].
    split.
    { unfold NFT.getMiner, NFT._ownerOf, requireR, NFT.recorded, NFT.handed_over.
      rewrite (NFT.wf_counter s Hwf).
      cbn [NFT._owners NFT.miners NFT.set_log NFT.set_miners NFT.set_minted
           NFT.set_tokenIdCounter].
      rewrite mapping_get_insert. destruct (Z.eqb_spec to 0); [done |].
      cbn [negb bindR]. by rewrite lookup_total_insert_eq, getPowerByRarity_values. }
    split.
    { intros other Hne.
      eapply (registry_reads_after_mint (NFT.totalSupply s) to); [| | exact Hne];
        unfold NFT.recorded, NFT.handed_over; rewrite (NFT.wf_counter s Hwf);
        reflexivity. }
    split.
    { cbn [NFT.log NFT.recorded NFT.set_log NFT.power].
      by rewrite getPowerByRarity_values. }
    unfold NFT.recorded, NFT.handed_over. rewrite (NFT.wf_counter s Hwf).
    by apply (wf_registry_minted e to r minerName s).
Qed.

(** *** Upgrading and renaming a miner *)

Lemma wf_registry_exists s tokenId :
  NFT.wf_registry s ->
  (NFT._ownerOf s tokenId =? 0) = negb (bool_decide (0 <= tokenId < NFT.totalSupply s)).
Proof.
  intros Hwf. pose proof (NFT.wf_owned s Hwf tokenId) as Howned.
  rewrite (NFT.wf_counter s Hwf) in Howned.
  destruct (Z.eqb_spec (NFT._ownerOf s tokenId) 0) as [Hz | Hnz],
           (bool_decide_reflect (0 <= tokenId < NFT.totalSupply s)) as [Hin | Hout];
    cbn [negb]; try done.
  - apply Howned in Hin. congruence.
  - apply Howned in Hnz. contradiction.
Qed.

Lemma wf_registry_power s tokenId :
  NFT.wf_registry s ->
  0 <= NFT.power (NFT.miners s !!! tokenId) <= MAX_UINT256 / 1000.
Proof.
  intros Hwf. pose proof (NFT.wf_record s Hwf tokenId) as Hrecord.
  pose proof (NFT.wf_no_record s Hwf tokenId) as Hnone.
  destruct (decide (0 <= tokenId < NFT._tokenIdCounter s)) as [Hin | Hout].
  - destruct (Hrecord Hin) as (m & Hm & Hpower & _).
    rewrite (lookup_total_correct _ _ _ Hm). unfold NFT.COMMON_POWER in Hpower. lia.
  - rewrite lookup_total_alt, (Hnone Hout). cbn.
    split; [done | by vm_compute].
Qed.

Lemma upgradeMiner_run e tokenId additionalPower s :
  NFT.wf_registry s -> is_uint256 additionalPower ->
  NFT.upgradeMiner e tokenId additionalPower s =
    let m := NFT.miners s !!! tokenId in
    if bool_decide (msg_sender e ∈ NFT.gameRole s) then
      if bool_decide (0 <= tokenId < NFT.totalSupply s) then
        if NFT.power m + additionalPower <=? MAX_UINT256 then
          if NFT.power m + additionalPower <=? MAX_UINT256 / 1000 then
            Ok (NFT.set_log
                  (NFT.log s ++
                   [NFT.MinerUpgraded tokenId (NFT.power m + additionalPower)])
                  (NFT.set_miners
                     (<[tokenId := NFT.set_power (NFT.power m + additionalPower) m]>
                        (NFT.miners s)) s))
          else Fail (Revert "MinerNFT: Power too high")
        else Fail Panic
      else Fail (Revert "MinerNFT: Token does not exist")
    else Fail (CustomError "AccessControlUnauthorizedAccount").
Proof.
  intros Hwf [Hadd _]. pose proof (wf_registry_power s tokenId Hwf) as [Hpower _].
  unfold NFT.upgradeMiner, NFT.onlyRole. cbv zeta.
  destruct (bool_decide _); [| done]. cbn [bindR].
  rewrite (wf_registry_exists s tokenId Hwf), negb_involutive. unfold requireR.
  destruct (bool_decide _); [| done]. cbn [bindR].
  unfold checked_add.
  destruct (_ <=? MAX_UINT256); [| done]. cbn [bindR].
  destruct (Z.leb_spec (NFT.power (NFT.miners s !!! tokenId))
              (NFT.power (NFT.miners s !!! tokenId) + additionalPower)); [| lia].
  cbn [bindR].
  destruct (_ <=? MAX_UINT256 / 1000); [| done]. cbn [bindR].
  cbn [NFT.miners NFT.set_miners NFT.log]. rewrite lookup_total_insert_eq.
  reflexivity.
Qed.

Lemma wf_registry_miners s tokenId (m : NFT.MinerData) :
  NFT.wf_registry s -> 0 <= tokenId < NFT.totalSupply s ->
  NFT.COMMON_POWER <= NFT.power m <= MAX_UINT256 / 1000 ->
  (String.length (NFT.name m) <= 32)%nat ->
  forall l,
    NFT.wf_registry
      (NFT.set_log l (NFT.set_miners (<[tokenId := m]> (NFT.miners s)) s)).
Proof.
  intros [Hcounter Hcap Hall Howned Hrecord Hnone] Hin Hpower Hname l.
  unfold NFT.totalSupply in *.
  constructor; unfold NFT.totalSupply, NFT._ownerOf;
    cbn [NFT.set_log NFT.set_miners NFT._tokenIdCounter NFT._allTokens
         NFT._owners NFT.miners]; try done.
  - intros other Hother. destruct (decide (other = tokenId)) as [-> | Hne].
    + rewrite lookup_insert_eq. by eexists.
    + rewrite lookup_insert_ne by done. by apply Hrecord.
  - intros other Hout. rewrite lookup_insert_ne by lia. by apply Hnone.
Qed.

(** X20: [upgradeMiner] in full.  With an additional power of type
    [uint256] on a registry whose storage is in order, the call never
    reverts with "MinerNFT: Power overflow" (the sum inside that check is a
    checked addition and panics first); it succeeds exactly when the caller
    holds the game role, the token exists and the new power is at most
    [type(uint256).max / 1000]; it then adds the additional power to the
    power of that token, touches nothing else of the record, no owner and
    no other token, and leaves the storage in order. *)
Theorem upgradeMiner_spec (e : Env) (tokenId additionalPower : Z)
    (s : NFT.Registry) :
  let m := NFT.miners s !!! tokenId in
  NFT.wf_registry s -> is_uint256 additionalPower ->
  NFT.upgradeMiner e tokenId additionalPower s
    <> Fail (Revert "MinerNFT: Power overflow") /\
  ((exists s', NFT.upgradeMiner e tokenId additionalPower s = Ok s') <->
     msg_sender e ∈ NFT.gameRole s /\ 0 <= tokenId < NFT.totalSupply s /\
     NFT.power m + additionalPower <= MAX_UINT256 / 1000) /\
  (forall s', NFT.upgradeMiner e tokenId additionalPower s = Ok s' ->
     NFT.getMiner s' tokenId =
       Ok (NFT.set_power (NFT.power m + additionalPower) m) /\
     (forall other, NFT.ownerOf s' other = NFT.ownerOf s other) /\
     (forall other, other <> tokenId ->
        NFT.getMiner s' other = NFT.getMiner s other) /\
     NFT.totalSupply s' = NFT.totalSupply s /\
     NFT.log s' =
       NFT.log s ++ [NFT.MinerUpgraded tokenId (NFT.power m + additionalPower)] /\
     NFT.wf_registry s').
Proof.
  cbv zeta. intros Hwf Hadd. rewrite (upgradeMiner_run _ _ _ _ Hwf Hadd). cbv zeta.
  pose proof (wf_registry_power s tokenId Hwf) as Hpower.
  assert (Hthousand : MAX_UINT256 / 1000 <= MAX_UINT256) by (by vm_compute).
  destruct (bool_decide_reflect (msg_sender e ∈ NFT.gameRole s)) as [Hrole | Hrole].
  2:{ split; [discriminate |]. split; [| discriminate].
      split; [by intros [? ?] | tauto]. }
  destruct (bool_decide_reflect (0 <= tokenId < NFT.totalSupply s)) as [Hin | Hout].
  2:{ split; [discriminate |]. split; [| discriminate].
      split; [by intros [? ?] | tauto]. }
  destruct (Z.leb_spec (NFT.power (NFT.miners s !!! tokenId) + additionalPower)
              MAX_UINT256) as [Hfits | Hover].
  2:{ split; [discriminate |]. split; [| discriminate].
      split; [by intros [? ?] | lia]. }
  destruct (Z.leb_spec (NFT.power (NFT.miners s !!! tokenId) + additionalPower)
              (MAX_UINT256 / 1000)) as [Hsmall | Hlarge].
  2:{ split; [discriminate |]. split; [| discriminate].
      split; [by intros [? ?] | lia]. }
  split; [discriminate |]. split; [split; [done | eauto] |].
  intros s' Hrun. injection Hrun as <-.
  destruct Hadd as [Hadd0 _].
  pose proof (NFT.wf_record s Hwf tokenId) as Hrecord.
  rewrite (NFT.wf_counter s Hwf) in Hrecord.
  destruct (Hrecord Hin) as (m & Hm & Hrange & Hname).
  pose proof (wf_registry_exists s tokenId Hwf) as Hexists.
  rewrite bool_decide_eq_true_2 in Hexists by done. cbn [negb] in Hexists.
  split.
  { unfold NFT.getMiner, NFT._ownerOf, requireR in *.
    cbn [NFT.set_log NFT.set_miners NFT._owners NFT.miners].
    rewrite Hexists. cbn [negb bindR]. by rewrite lookup_total_insert_eq. }
  split; [done |]. split.
  { intros other Hne. unfold NFT.getMiner, NFT._ownerOf.
    cbn [NFT.set_log NFT.set_miners NFT._owners NFT.miners].
    by rewrite lookup_total_insert_ne. }
  split; [done |]. split; [done |].
  apply wf_registry_miners; try done.
  - rewrite (lookup_total_correct _ _ _ Hm) in *. cbn [NFT.power NFT.set_power].
    unfold NFT.COMMON_POWER in *. lia.
  - by rewrite (lookup_total_correct _ _ _ Hm).
Qed.

(** X21: [renameMiner] in full.  On a registry whose storage is in order
    the call fails for a token that does not exist, reverts with
    "MinerNFT: Not the owner" for any caller but the owner of the token and
    with "MinerNFT: Name too long" for a name of more than 32 bytes;
    otherwise it succeeds and changes the name and nothing else: the
    rarity, the power and the minting time of the token, its owner and
    every other token are as before. *)
Theorem renameMiner_spec (e : Env) (tokenId : Z) (newName : string)
    (s : NFT.Registry) :
  let m := NFT.miners s !!! tokenId in
  NFT.wf_registry s ->
  (~ (0 <= tokenId < NFT.totalSupply s) ->
     NFT.renameMiner e tokenId newName s
       = Fail (CustomError "ERC721NonexistentToken")) /\
  (forall tokenOwner, NFT.ownerOf s tokenId = Ok tokenOwner ->
     tokenOwner <> msg_sender e ->
     NFT.renameMiner e tokenId newName s
       = Fail (Revert "MinerNFT: Not the owner")) /\
  (NFT.ownerOf s tokenId = Ok (msg_sender e) ->
   (32 < String.length newName)%nat ->
     NFT.renameMiner e tokenId newName s
       = Fail (Revert "MinerNFT: Name too long")) /\
  (NFT.ownerOf s tokenId = Ok (msg_sender e) ->
   (String.length newName <= 32)%nat ->
     exists s', NFT.renameMiner e tokenId newName s = Ok s' /\
       NFT.getMiner s' tokenId = Ok (NFT.set_name newName m) /\
       NFT.power (NFT.set_name newName m) = NFT.power m /\
       (forall other, NFT.ownerOf s' other = NFT.ownerOf s other) /\
       (forall other, other <> tokenId ->
          NFT.getMiner s' other = NFT.getMiner s other) /\
       NFT.log s' = NFT.log s ++ [NFT.MinerRenamed tokenId newName] /\
       NFT.wf_registry s').
Proof.
  cbv zeta. intros Hwf.
  pose proof (wf_registry_exists s tokenId Hwf) as Hexists.
  unfold NFT.renameMiner.
  split; [| split; [| split]].
  - intros Hout. unfold NFT.ownerOf.
    rewrite Hexists, bool_decide_eq_false_2 by done. done.
  - intros tokenOwner -> Hother. cbn [bindR]. unfold requireR.
    by destruct (Z.eqb_spec tokenOwner (msg_sender e)).
  - intros -> Hlong. cbn [bindR]. unfold requireR. rewrite Z.eqb_refl. cbn [bindR].
    by destruct (Nat.leb_spec (String.length newName) 32); [lia |].
  - intros Howner Hshort. rewrite Howner. cbn [bindR]. unfold requireR.
    rewrite Z.eqb_refl. cbn [bindR].
    destruct (Nat.leb_spec (String.length newName) 32); [| lia]. cbn [bindR].
    eexists. split; [reflexivity |].
    assert (Hin : 0 <= tokenId < NFT.totalSupply s).
    { destruct (decide (0 <= tokenId < NFT.totalSupply s)) as [| Hout]; [done |].
      unfold NFT.ownerOf in Howner.
      rewrite Hexists, bool_decide_eq_false_2 in Howner by done. done. }
    rewrite bool_decide_eq_true_2 in Hexists by done. cbn [negb] in Hexists.
    pose proof (NFT.wf_record s Hwf tokenId) as Hrecord.
    rewrite (NFT.wf_counter s Hwf) in Hrecord.
    destruct (Hrecord Hin) as (m & Hm & Hrange & Hname).
    split.
    { unfold NFT.getMiner, NFT._ownerOf, requireR in *.
      cbn [NFT.set_log NFT.set_miners NFT._owners NFT.miners].
      rewrite Hexists. cbn [negb bindR]. by rewrite lookup_total_insert_eq. }
    split; [done |]. split; [done |]. split.
    { intros other Hne. unfold NFT.getMiner, NFT._ownerOf.
      cbn [NFT.set_log NFT.set_miners NFT._owners NFT.miners].
      by rewrite lookup_total_insert_ne. }
    split; [done |].
    apply wf_registry_miners; try done.
    by rewrite (lookup_total_correct _ _ _ Hm).
Qed.

(** *** Minting in a batch *)

Lemma mintMiner_ok e code to r minerName s :
  NFT.wf_registry s -> msg_sender e ∈ NFT.minterRole s ->
  NFT.totalSupply s < NFT.MAX_SUPPLY -> (String.length minerName <= 32)%nat ->
  to <> 0 -> code to = None ->
  NFT.mintMiner e code to r minerName s =
    Ok (NFT.totalSupply s,
        NFT.mkRegistry (NFT.totalSupply s + 1)
          (<[NFT.totalSupply s := to]> (NFT._owners s))
          (NFT._allTokens s ++ [NFT.totalSupply s])
          (<[NFT.totalSupply s :=
               NFT.mkMinerData r (NFT._getPowerByRarity r) (block_timestamp e)
                 minerName]> (NFT.miners s))
          (NFT.minterRole s) (NFT.gameRole s) (NFT.adminRole s)
          (NFT._baseTokenURI s)
          (NFT.log s ++
           [NFT.MinerMinted to (NFT.totalSupply s) r (NFT._getPowerByRarity r)])).
Proof.
  intros Hwf Hrole Hroom Hname Hto Hplain.
  rewrite (mintMiner_run _ _ _ _ _ _ Hwf).
  rewrite bool_decide_eq_true_2 by done.
  destruct (Z.ltb_spec (NFT.totalSupply s) NFT.MAX_SUPPLY); [| lia].
  destruct (Nat.leb_spec (String.length minerName) 32); [| lia].
  destruct (Z.eqb_spec to 0); [done |].
  unfold NFT.checkOnERC721Received. rewrite Hplain.
  unfold NFT.recorded, NFT.handed_over. by rewrite (NFT.wf_counter s Hwf).
Qed.

(** What [mintMiner] does when its guards pass and the receiver has code. *)
Lemma mintMiner_asks e code to r minerName s hook :
  NFT.wf_registry s -> msg_sender e ∈ NFT.minterRole s ->
  NFT.totalSupply s < NFT.MAX_SUPPLY -> (String.length minerName <= 32)%nat ->
  to <> 0 -> code to = Some hook ->
  NFT.mintMiner e code to r minerName s =
    match hook (msg_sender e) (NFT.totalSupply s) (NFT.handed_over to s) with
    | NFT.HookReturned true s1 =>
        Ok (NFT.totalSupply s,
            NFT.recorded e to (NFT.totalSupply s) r minerName s1)
    | NFT.HookReturned false _ | NFT.HookReverted None =>
        Fail (CustomError "ERC721InvalidReceiver")
    | NFT.HookReverted (Some reason) => Fail reason
    end.
Proof.
  intros Hwf Hrole Hroom Hname Hto Hhook.
  rewrite (mintMiner_run _ _ _ _ _ _ Hwf).
  rewrite bool_decide_eq_true_2 by done.
  destruct (Z.ltb_spec (NFT.totalSupply s) NFT.MAX_SUPPLY); [| lia].
  destruct (Nat.leb_spec (String.length minerName) 32); [| lia].
  destruct (Z.eqb_spec to 0); [done |].
  unfold NFT.checkOnERC721Received. rewrite Hhook.
  by destruct (hook _ _ _) as [[] s1 | [reason |]].
Qed.

Lemma mintMiner_refused e code r minerName s :
  NFT.wf_registry s -> msg_sender e ∈ NFT.minterRole s ->
  NFT.totalSupply s < NFT.MAX_SUPPLY -> (String.length minerName <= 32)%nat ->
  NFT.mintMiner e code 0 r minerName s =
    Fail (CustomError "ERC721InvalidReceiver").
Proof.
  intros Hwf Hrole Hroom Hname.
  rewrite (mintMiner_run _ _ _ _ _ _ Hwf).
  rewrite bool_decide_eq_true_2 by done.
  destruct (Z.ltb_spec (NFT.totalSupply s) NFT.MAX_SUPPLY); [| lia].
  by destruct (Nat.leb_spec (String.length minerName) 32); [| lia].
Qed.

Lemma registry_reads_of_minted e to r minerName s :
  to <> 0 ->
  let s1 :=
    NFT.mkRegistry (NFT.totalSupply s + 1)
      (<[NFT.totalSupply s := to]> (NFT._owners s))
      (NFT._allTokens s ++ [NFT.totalSupply s])
      (<[NFT.totalSupply s :=
           NFT.mkMinerData r (NFT._getPowerByRarity r) (block_timestamp e)
             minerName]> (NFT.miners s))
      (NFT.minterRole s) (NFT.gameRole s) (NFT.adminRole s)
      (NFT._baseTokenURI s)
      (NFT.log s ++
       [NFT.MinerMinted to (NFT.totalSupply s) r (NFT._getPowerByRarity r)]) in
  NFT.totalSupply s1 = NFT.totalSupply s + 1 /\
  NFT.ownerOf s1 (NFT.totalSupply s) = Ok to /\
  NFT.getMiner s1 (NFT.totalSupply s) =
    Ok (NFT.mkMinerData r (NFT._getPowerByRarity r) (block_timestamp e) minerName).
Proof.
  intros Hto. cbv zeta. split; [| split].
  - unfold NFT.totalSupply. cbn [NFT._allTokens]. rewrite length_app. cbn [length]. lia.
  - unfold NFT.ownerOf, NFT._ownerOf. cbn [NFT._owners].
    rewrite mapping_get_insert. by destruct (Z.eqb_spec to 0).
  - unfold NFT.getMiner, NFT._ownerOf, requireR. cbn [NFT._owners NFT.miners].
    rewrite mapping_get_insert. destruct (Z.eqb_spec to 0); [done |].
    cbn [negb bindR]. by rewrite lookup_total_insert_eq.
Qed.

Lemma batchMintMiners_loop_run e code to rarities :
  to <> 0 -> code to = None ->
  forall n i tokenIds s,
    NFT.wf_registry s -> msg_sender e ∈ NFT.minterRole s ->
    (i + n <= length rarities)%nat -> (i + n <= length tokenIds)%nat ->
    NFT.totalSupply s + Z.of_nat n <= NFT.MAX_SUPPLY ->
    exists tokenIds' s',
      NFT.batchMintMiners_loop e code to rarities n i tokenIds s
        = Ok (tokenIds', s') /\
      NFT.wf_registry s' /\
      NFT.totalSupply s' = NFT.totalSupply s + Z.of_nat n /\
      length tokenIds' = length tokenIds /\
      (forall j, (j < i)%nat -> tokenIds' !! j = tokenIds !! j) /\
      (forall k, (k < n)%nat ->
         tokenIds' !! (i + k)%nat = Some (NFT.totalSupply s + Z.of_nat k)) /\
      (forall tokenId,
         ~ (NFT.totalSupply s <= tokenId < NFT.totalSupply s + Z.of_nat n) ->
         NFT.ownerOf s' tokenId = NFT.ownerOf s tokenId /\
         NFT.getMiner s' tokenId = NFT.getMiner s tokenId) /\
      (forall k r, (k < n)%nat -> rarities !! (i + k)%nat = Some r ->
         NFT.ownerOf s' (NFT.totalSupply s + Z.of_nat k) = Ok to /\
         NFT.getMiner s' (NFT.totalSupply s + Z.of_nat k) =
           Ok (NFT.mkMinerData r (NFT._getPowerByRarity r) (block_timestamp e)
                 EmptyString)).
Proof.
  intros Hto Hplain.
  induction n as [| n IH]; intros i tokenIds s Hwf Hrole Hrarities Hids Hroom.
  { exists tokenIds, s. cbn [NFT.batchMintMiners_loop].
    split; [done |]. split; [done |]. split; [lia |]. split; [done |].
    split; [done |]. split; [intros k Hk; lia |]. split; [done |].
    intros k r Hk. lia. }
  cbn [NFT.batchMintMiners_loop].
  destruct (lookup_lt_is_Some_2 rarities i ltac:(lia)) as [r0 Hr0].
  rewrite Hr0. cbn [bindR].
  rewrite (mintMiner_ok e code to r0 EmptyString s) by (done || cbn; lia).
  cbn [bindR fst snd].
  rewrite bool_decide_eq_true_2 by lia.
  pose proof (wf_registry_minted e to r0 EmptyString s Hwf ltac:(lia) Hto
                ltac:(cbn; lia)) as Hwf1.
  destruct (registry_reads_of_minted e to r0 EmptyString s Hto)
    as (Hsupply1 & Howner1 & Hminer1).
  match goal with
  | |- context [NFT.batchMintMiners_loop _ _ _ _ _ _ _ ?s1] => set (s1' := s1) in *
  end.
  pose proof (fun other =>
                registry_reads_after_mint (NFT.totalSupply s) to
                  (NFT.mkMinerData r0 (NFT._getPowerByRarity r0) (block_timestamp e)
                     EmptyString) s1' s other eq_refl eq_refl) as Hreads1.
  destruct (IH (S i) (<[i := NFT.totalSupply s]> tokenIds) s1' Hwf1 Hrole
              ltac:(lia) ltac:(rewrite length_insert; lia) ltac:(lia))
    as (tokenIds' & s' & Hrun & Hwf' & Hsupply' & Hlen' & Hbefore & Hnew
        & Hother & Hminted).
  exists tokenIds', s'. rewrite length_insert in Hlen'.
  split; [done |]. split; [done |]. split; [lia |]. split; [done |].
  split.
  { intros j Hj. rewrite Hbefore by lia. by rewrite list_lookup_insert_ne by lia. }
  split.
  { intros [| k] Hk.
    - rewrite Nat.add_0_r, Hbefore by lia.
      rewrite list_lookup_insert_eq by lia. f_equal. lia.
    - replace (i + S k)%nat with (S i + k)%nat by lia.
      rewrite Hnew by lia. f_equal. lia. }
  split.
  { intros tokenId Hout.
    destruct (Hother tokenId ltac:(lia)) as [-> ->].
    apply Hreads1. lia. }
  intros [| k] r Hk Hr.
  - rewrite Nat.add_0_r in Hr. rewrite Hr0 in Hr. injection Hr as <-.
    replace (NFT.totalSupply s + Z.of_nat 0) with (NFT.totalSupply s) by lia.
    destruct (Hother (NFT.totalSupply s) ltac:(lia)) as [-> ->]. done.
  - replace (i + S k)%nat with (S i + k)%nat in Hr by lia.
    replace (NFT.totalSupply s + Z.of_nat (S k))
      with (NFT.totalSupply s1' + Z.of_nat k) by lia.
    by apply Hminted; [lia |].
Qed.

(** X22: [batchMintMiners] in full, for a caller that holds the minter
    role on a registry whose storage is in order.  A count of zero or of
    more than 20 is refused, then a rarity array of another length, then a
    batch that would pass [MAX_SUPPLY]; the zero address as receiver, or a
    receiver with code that turns the first token down or reverts on it,
    fails the whole batch.  For a receiver without code the call succeeds:
    it returns [count] consecutive token ids starting at the number of
    tokens that existed, token [k] of the batch belongs to the receiver and
    carries rarity [k] of the array, the power of that rarity and an empty
    name, and the tokens that existed are untouched. *)
Theorem batchMintMiners_spec (e : Env) (code : NFT.Code)
    (to : address) (rarities : list NFT.Rarity) (count : Z) (s : NFT.Registry) :
  NFT.wf_registry s -> msg_sender e ∈ NFT.minterRole s ->
  (~ (0 < count <= 20) ->
     NFT.batchMintMiners e code to rarities count s
       = Fail (Revert "MinerNFT: Invalid count")) /\
  (0 < count <= 20 -> Z.of_nat (length rarities) <> count ->
     NFT.batchMintMiners e code to rarities count s
       = Fail (Revert "MinerNFT: Arrays mismatch")) /\
  (0 < count <= 20 -> Z.of_nat (length rarities) = count ->
   NFT.MAX_SUPPLY < NFT.totalSupply s + count ->
     NFT.batchMintMiners e code to rarities count s
       = Fail (Revert "MinerNFT: Max supply exceeded")) /\
  (0 < count <= 20 -> Z.of_nat (length rarities) = count ->
   NFT.totalSupply s + count <= NFT.MAX_SUPPLY ->
     (to = 0 ->
        NFT.batchMintMiners e code to rarities count s
          = Fail (CustomError "ERC721InvalidReceiver")) /\
     (to <> 0 -> forall hook, code to = Some hook ->
        match hook (msg_sender e) (NFT.totalSupply s) (NFT.handed_over to s) with
        | NFT.HookReturned true _ => True
        | NFT.HookReturned false _ | NFT.HookReverted None =>
            NFT.batchMintMiners e code to rarities count s
              = Fail (CustomError "ERC721InvalidReceiver")
        | NFT.HookReverted (Some reason) =>
            NFT.batchMintMiners e code to rarities count s = Fail reason
        end) /\
     (to <> 0 -> code to = None ->
        exists tokenIds s',
          NFT.batchMintMiners e code to rarities count s = Ok (tokenIds, s') /\
          Z.of_nat (length tokenIds) = count /\
          NFT.totalSupply s' = NFT.totalSupply s + count /\
          (forall k r, rarities !! k = Some r ->
             tokenIds !! k = Some (NFT.totalSupply s + Z.of_nat k) /\
             NFT.ownerOf s' (NFT.totalSupply s + Z.of_nat k) = Ok to /\
             NFT.getMiner s' (NFT.totalSupply s + Z.of_nat k) =
               Ok (NFT.mkMinerData r (NFT._getPowerByRarity r) (block_timestamp e)
                     EmptyString)) /\
          (forall tokenId, 0 <= tokenId < NFT.totalSupply s ->
             NFT.ownerOf s' tokenId = NFT.ownerOf s tokenId /\
             NFT.getMiner s' tokenId = NFT.getMiner s tokenId) /\
          NFT.wf_registry s')).
Proof.
  intros Hwf Hrole.
  assert (Hsupply : 0 <= NFT.totalSupply s <= NFT.MAX_SUPPLY).
  { split; [unfold NFT.totalSupply; lia | apply (NFT.wf_cap s Hwf)]. }
  assert (Hbig : NFT.MAX_SUPPLY + 20 <= MAX_UINT256) by (by vm_compute).
  assert (Hmax : NFT.MAX_SUPPLY = 10000) by done.
  unfold NFT.batchMintMiners, NFT.onlyRole, requireR.
  rewrite bool_decide_eq_true_2 by done. cbn [bindR].
  split; [| split; [| split]].
  - intros Hcount.
    destruct (Z.ltb_spec 0 count), (Z.leb_spec count 20); cbn [andb]; try done. lia.
  - intros Hcount Hlen.
    destruct (Z.ltb_spec 0 count), (Z.leb_spec count 20); try lia. cbn [andb bindR].
    by destruct (Z.eqb_spec (Z.of_nat (length rarities)) count).
  - intros Hcount Hlen Hfull.
    destruct (Z.ltb_spec 0 count), (Z.leb_spec count 20); try lia. cbn [andb bindR].
    destruct (Z.eqb_spec (Z.of_nat (length rarities)) count); [| done]. cbn [bindR].
    rewrite checked_add_ok by lia. cbn [bindR].
    by destruct (Z.leb_spec (NFT.totalSupply s + count) NFT.MAX_SUPPLY); [lia |].
  - intros Hcount Hlen Hroom.
    destruct (Z.ltb_spec 0 count), (Z.leb_spec count 20); try lia. cbn [andb bindR].
    destruct (Z.eqb_spec (Z.of_nat (length rarities)) count); [| done]. cbn [bindR].
    rewrite checked_add_ok by lia. cbn [bindR].
    destruct (Z.leb_spec (NFT.totalSupply s + count) NFT.MAX_SUPPLY); [| lia].
    cbn [bindR].
    split; [| split].
    + intros ->. destruct (Z.to_nat count) as [| n] eqn:Hn; [lia |].
      cbn [NFT.batchMintMiners_loop].
      destruct (lookup_lt_is_Some_2 rarities 0 ltac:(lia)) as [r0 Hr0].
      rewrite Hr0. cbn [bindR].
      by rewrite (mintMiner_refused e code r0 EmptyString s) by (done || cbn; lia).
    + intros Hto hook Hhook.
      destruct (Z.to_nat count) as [| n] eqn:Hn; [lia |].
      cbn [NFT.batchMintMiners_loop].
      destruct (lookup_lt_is_Some_2 rarities 0 ltac:(lia)) as [r0 Hr0].
      rewrite Hr0. cbn [bindR].
      rewrite (mintMiner_asks e code to r0 EmptyString s hook)
        by (done || cbn; lia).
      by destruct (hook _ _ _) as [[] s1 | [reason |]].
    + intros Hto Hplain.
      destruct (batchMintMiners_loop_run e code to rarities Hto Hplain
                  (Z.to_nat count) 0%nat (replicate (Z.to_nat count) 0) s Hwf Hrole
                  ltac:(lia) ltac:(rewrite length_replicate; lia) ltac:(lia))
        as (tokenIds & s' & Hrun & Hwf' & Hsupply' & Hlen' & _ & Hnew & Hother
            & Hminted).
      exists tokenIds, s'. rewrite length_replicate in Hlen'.
      split; [done |]. split; [lia |]. split; [lia |].
      split; [| split; [| done]].
      * intros k r Hr. pose proof (lookup_lt_Some _ _ _ Hr) as Hk.
        split; [apply (Hnew k); lia |]. apply (Hminted k r); [lia | done].
      * intros tokenId Hin. apply Hother. lia.
Qed.

(** *** The registry as the game sees it *)

Lemma owned_power_le e a (bound : Z) miners :
  (forall t, 0 <= nft_power e t <= bound) ->
  owned_power e a miners <= Z.of_nat (length miners) * bound.
Proof.
  intros Hpow. unfold owned_power, sum_list.
  induction miners as [| t rest IH]; [cbn; lia |].
  cbn [map fold_right length].
  destruct (nft_ownerOf e t) as [o |]; [destruct (o =? a) |];
    specialize (Hpow t); nia.
Qed.

Lemma registry_env_power s e tokenId :
  NFT.wf_registry s ->
  0 <= nft_power (registry_env s e) tokenId <= MAX_UINT256 / 1000.
Proof.
  intros Hwf. cbn [registry_env nft_power].
  unfold NFT.getMiner, requireR.
  destruct (negb _); cbn [bindR].
  - by apply wf_registry_power.
  - split; [done | by vm_compute].
Qed.

(** X23: the game over the registry.  When the storage of the registry
    is in order, the powers the game reads from it are at most
    [type(uint256).max / 1000], so the environment is one the game is
    specified for; and since a player of a reachable world has at most 50
    registered miners, the loop of [_calculateAndCachePower] that adds up
    the powers of the miners the player still owns never overflows: it
    returns their sum, which is at most [50 * (type(uint256).max / 1000)]. *)
Theorem power_sum_never_overflows (s : NFT.Registry) (e : Env) (w : World)
    (a : address) :
  NFT.wf_registry s -> reachable w -> 0 < block_number e < 2 ^ 64 ->
  valid_env (registry_env s e) /\
  sum_owned_power (registry_env s e) a (getRegisteredMiners a w) 0
    = Ok (owned_power (registry_env s e) a (getRegisteredMiners a w)) /\
  0 <= owned_power (registry_env s e) a (getRegisteredMiners a w)
    <= 50 * (MAX_UINT256 / 1000) /\
  50 * (MAX_UINT256 / 1000) <= MAX_UINT256.
Proof.
  intros Hwf Hreach Hblock.
  pose proof (wf_players w (reachable_wf w Hreach) a) as Hplayer.
  pose proof (wf_miner_cap _ Hplayer) as Hcap.
  unfold MAX_REGISTERED_MINERS in Hcap.
  destruct power_bound_facts as (_ & Hfifty & _).
  pose proof (fun t => registry_env_power s e t Hwf) as Hpower.
  assert (Hthousand : 0 <= MAX_UINT256 / 1000) by (by vm_compute).
  pose proof (owned_power_le (registry_env s e) a (MAX_UINT256 / 1000)
                (getRegisteredMiners a w) Hpower) as Hle.
  pose proof (owned_power_nonneg (registry_env s e) a (getRegisteredMiners a w)
                (fun t => proj1 (Hpower t))) as Hnonneg.
  unfold getRegisteredMiners in *.
  assert (Hsum : owned_power (registry_env s e) a
                   (registeredMiners (players w !!! a))
                 <= 50 * (MAX_UINT256 / 1000)) by nia.
  split.
  { split; [done |]. intros t. specialize (Hpower t). lia. }
  split; [| split; [lia | done]].
  rewrite sum_owned_power_ok; [f_equal | intros t; apply Hpower | lia].
Qed.

End MinerGame.

(** ** The scenario, run with Keccak-256 *)

Ltac by_computation := vm_compute; first [reflexivity | discriminate].

Lemma scenario_env_valid sender number timestamp :
  0 < number < 2 ^ 64 -> valid_env (scenario_env sender number timestamp).
Proof.
  intros Hn. split; [exact Hn |]. intros tokenId. cbn.
  destruct (tokenId =? 7); vm_compute; split; discriminate.
Qed.

Lemma scenario_world_reachable : reachable Keccak.keccak256 scenario_world.
Proof.
  apply reachable_deploy, scenario_env_valid. split; [reflexivity | reflexivity].
Qed.

(** Player 6 taps twenty times in block 11. *)
Lemma tapped_reachable :
  reachable Keccak.keccak256
    (transact Keccak.keccak256 (scenario_env 6 11 1700000100) (TapMine 20)
       scenario_world).
Proof.
  apply reachable_transact.
  - exact scenario_world_reachable.
  - apply scenario_env_valid. split; reflexivity.
  - split; by_computation.
Qed.

Lemma pity_bonus_of_every_streak_witness :
  let tapped :=
    transact Keccak.keccak256 (scenario_env 6 11 1700000100) (TapMine 20)
      scenario_world in
  0 <= 60 <= tapsSinceCritical (players tapped !!! 6) + 2 ^ 16 /\
  tapsSinceCritical (players tapped !!! 6) < 2 ^ 194 /\
  _calculatePityBonus 60 =
    Ok (Z.min ((60 - PITY_THRESHOLD) * PITY_INCREMENT) MAX_PITY_BONUS).
Proof.
  cbv zeta.
  assert (Hn : 0 <= 60 <= tapsSinceCritical
                            (players
                               (transact Keccak.keccak256
                                  (scenario_env 6 11 1700000100) (TapMine 20)
                                  scenario_world) !!! 6) + 2 ^ 16)
    by (split; by_computation).
  split; [exact Hn |].
  destruct (pity_bonus_of_every_streak Keccak.keccak256 _ 6 60 tapped_reachable Hn)
    as ([_ Hstreak] & _ & Hgrow & _).
  split; [exact Hstreak |]. apply Hgrow. reflexivity.
Defined.

(** The function taken alone: at [n = 2^255 + 50] the checked
    multiplication by [PITY_INCREMENT] leaves [uint256] and the function
    panics.  No dry streak of a reachable state gets there. *)
Lemma pity_bonus_overflow :
  75 <= 2 ^ 255 + 50 /\
  _calculatePityBonus (2 ^ 255 + 50) = Fail Panic /\
  _calculatePityBonus (2 ^ 255 + 50) <> Ok MAX_PITY_BONUS.
Proof.
  split; [vm_compute; discriminate |].
  split; [vm_compute; reflexivity | vm_compute; discriminate].
Qed.

(** C1, counterexample: with no asset registered ([P = 0], [L = 0]) one
    direct tap on seed 1315 is critical with multiplier 2 and finds a
    diamond; it pays 2020 tokens, above [BASE_REWARD * 1 * 1 * 50] = 500. *)
Lemma direct_tap_gem_exceeds_bound :
  let e := scenario_env 6 11 1700000100 in
  let p := players scenario_world !!! 6 in
  let P := owned_power e 6 (registeredMiners p) in
  let L := level p in
  exists totalReward w',
    _executeTaps Keccak.keccak256 e 1 1315 false scenario_world
      = Ok (totalReward, w') /\
    totalReward = 2020 * 10 ^ 18 /\
    BASE_REWARD * (P * (L + 1) + 1) * 1 * 50 = 500 * 10 ^ 18 /\
    BASE_REWARD * (P * (L + 1) + 1) * 1 * 50 < totalReward.
Proof.
  cbv zeta. eexists _, _. split; [vm_compute; reflexivity |].
  split; [reflexivity |]. split; [reflexivity | reflexivity].
Qed.

Lemma direct_tap_reward_bounds_witness :
  let e := scenario_env 5 11 1700000100 in
  exists totalReward w',
    _executeTaps Keccak.keccak256 e 20 12345 false scenario_world
      = Ok (totalReward, w') /\
    BASE_REWARD * (0 * (0 + 1) + 1) * 20 <= totalReward /\
    totalTaps (players w' !!! 5) = 20.
Proof.
  cbv zeta.
  destruct (direct_tap_reward_bounds Keccak.keccak256
              (scenario_env 5 11 1700000100) scenario_world 20 12345)
    as [(r & w' & Hrun & Hlo & _ & _ & Htaps & _) _].
  - exact scenario_world_reachable.
  - apply scenario_env_valid. split; reflexivity.
  - split; by_computation.
  - by_computation.
  - by_computation.
  - by_computation.
  - by_computation.
  - exists r, w'. split; [exact Hrun |]. split; [exact Hlo |].
    apply Htaps. by_computation.
Defined.

(** Player 5 commits to three taps with secret 111 and nonce 222. *)
Lemma committed_reachable :
  reachable Keccak.keccak256
    (transact Keccak.keccak256 (scenario_env 5 20 1700000200)
       (CommitTap
          (Keccak.keccak256
             (encode_address 5 ++ encode_uint256 111 ++ encode_uint256 222 ++
              encode_uint128 3)) 3)
       scenario_world).
Proof.
  apply reachable_transact.
  - exact scenario_world_reachable.
  - apply scenario_env_valid. split; reflexivity.
  - split; [split | split]; by_computation.
Qed.

(** C2, counterexample: a commitment made in block 20 and revealed with the
    matching secret and nonce in block 21, exactly [COMMIT_REVEAL_BLOCKS]
    later, does not succeed: the digest of block 21 cannot be read yet. *)
Lemma reveal_one_block_after_commit_fails :
  let committed :=
    transact Keccak.keccak256 (scenario_env 5 20 1700000200)
      (CommitTap
         (Keccak.keccak256
            (encode_address 5 ++ encode_uint256 111 ++ encode_uint256 222 ++
             encode_uint128 3)) 3)
      scenario_world in
  let e := scenario_env 5 21 1700000212 in
  let commit := commitments committed !!! 5 in
  pending_commit commit = true /\
  hash commit =
    Keccak.keccak256
      (encode_address 5 ++ encode_uint256 111 ++ encode_uint256 222 ++
       encode_uint128 (taps commit)) /\
  block_number e - blockNumber commit = COMMIT_REVEAL_BLOCKS /\
  revealTap Keccak.keccak256 e 111 222 committed
    = Fail (Revert "Block hash not available").
Proof.
  cbv zeta. split; [vm_compute; reflexivity |].
  split; [vm_compute; reflexivity |].
  split; [vm_compute; reflexivity |]. vm_compute. reflexivity.
Qed.

Lemma reveal_window_witness :
  let committed :=
    transact Keccak.keccak256 (scenario_env 5 20 1700000200)
      (CommitTap
         (Keccak.keccak256
            (encode_address 5 ++ encode_uint256 111 ++ encode_uint256 222 ++
             encode_uint128 3)) 3)
      scenario_world in
  exists w',
    revealTap Keccak.keccak256 (scenario_env 5 22 1700000224) 111 222 committed
      = Ok (tt, w') /\
    revealed (commitments w' !!! 5) = true.
Proof.
  cbv zeta.
  destruct (reveal_window Keccak.keccak256 (scenario_env 5 22 1700000224)
              (transact Keccak.keccak256 (scenario_env 5 20 1700000200)
                 (CommitTap
                    (Keccak.keccak256
                       (encode_address 5 ++ encode_uint256 111 ++
                        encode_uint256 222 ++ encode_uint128 3)) 3)
                 scenario_world) 111 222)
    as (_ & _ & Hopen & _).
  - exact committed_reachable.
  - apply scenario_env_valid. split; reflexivity.
  - vm_compute; reflexivity.
  - vm_compute; reflexivity.
  - vm_compute; reflexivity.
  - by_computation.
  - destruct Hopen as (w' & Hrun & Hrev & _).
    + split; by_computation.
    + by_computation.
    + by_computation.
    + by_computation.
    + by_computation.
    + exists w'. split; [exact Hrun | exact Hrev].
Defined.

(** C3, the code at two inputs: the gem roll is gated by the same
    [subSeed mod 100] that decided criticality.  On seed 14 the tap is
    critical (5 < 10) and the bits above the eighth read 0, below any drop
    chance, yet no gem is found because 5 is not below 5; on seed 92 the
    higher bits read 25, which is not below 5, yet a gem is found because
    [subSeed mod 100 = 4]. *)
Theorem gem_roll_shares_critical_bits :
  let e := scenario_env 6 11 1700000100 in
  let subSeed seed :=
    Keccak.keccak256 (encode_uint256 seed ++ encode_uint16 0) in
  (subSeed 14 mod 100 = 5 /\
   Z.shiftr (subSeed 14) 8 mod 100 = 0 /\
   exists reward w',
     _executeTaps Keccak.keccak256 e 1 14 false scenario_world
       = Ok (reward, w') /\
     criticalHits (players w' !!! 6) = 1 /\
     events w' = [Tapped 6 1 reward true]) /\
  (subSeed 92 mod 100 = 4 /\
   Z.shiftr (subSeed 92) 8 mod 100 = 25 /\
   exists reward w',
     _executeTaps Keccak.keccak256 e 1 92 false scenario_world
       = Ok (reward, w') /\
     events w' = [GemFound 6 RUBY (100 * 10 ^ 18); Tapped 6 1 reward true]).
Proof.
  cbv zeta. split.
  - split; [vm_compute; reflexivity |]. split; [vm_compute; reflexivity |].
    eexists _, _. split; [vm_compute; reflexivity |].
    split; vm_compute; reflexivity.
  - split; [vm_compute; reflexivity |]. split; [vm_compute; reflexivity |].
    eexists _, _. split; [vm_compute; reflexivity |]. vm_compute; reflexivity.
Qed.

Lemma tap_limit_all_or_nothing_witness :
  let e := scenario_env 6 11 1700000100 in
  let tap := transact Keccak.keccak256 e (TapMine 20) in
  let spent := tap (tap (tap (tap (tap scenario_world)))) in
  mapping_get (blockTaps spent) (6, 11) = 100 /\
  transact Keccak.keccak256 e (TapMine 1) spent = spent.
Proof.
  cbv zeta. split; [by_computation |].
  refine (proj2 (proj1 (proj2
    (tap_limit_all_or_nothing Keccak.keccak256 (scenario_env 6 11 1700000100)
       _ 1 0 false 0 0 _)))).
  by_computation.
Defined.

Lemma withdraw_guards_witness :
  let tapped :=
    transact Keccak.keccak256 (scenario_env 6 11 1700000100) (TapMine 20)
      scenario_world in
  let e := scenario_env 6 12 1700000112 in
  exists w',
    withdraw e tapped = Ok (tt, w') /\
    pendingRewards (players w' !!! 6) = 0 /\
    totalMined (players w' !!! 6) =
      totalMined (players tapped !!! 6) + pendingRewards (players tapped !!! 6) /\
    withdraw e w' = Fail (Revert "No pending rewards").
Proof.
  cbv zeta.
  assert (Hok : exists w',
    withdraw (scenario_env 6 12 1700000112)
      (transact Keccak.keccak256 (scenario_env 6 11 1700000100)
         (TapMine 20) scenario_world) = Ok (tt, w'))
    by (vm_compute; eexists; reflexivity).
  destruct Hok as [w' Hrun]. exists w'. split; [exact Hrun |].
  destruct (proj1 (proj2 (proj2 (proj2
    (withdraw_guards Keccak.keccak256 (scenario_env 6 12 1700000112)
       (transact Keccak.keccak256 (scenario_env 6 11 1700000100)
          (TapMine 20) scenario_world))))) w' Hrun)
    as (_ & _ & Hzero & Hmined & Hagain).
  split; [exact Hzero |]. split; [exact Hmined | exact Hagain].
Defined.

Lemma single_pending_commitment_witness :
  let committed :=
    transact Keccak.keccak256 (scenario_env 5 20 1700000200)
      (CommitTap
         (Keccak.keccak256
            (encode_address 5 ++ encode_uint256 111 ++ encode_uint256 222 ++
             encode_uint128 3)) 3)
      scenario_world in
  outstanding_commits 5 (events committed) = 1 /\
  commitTap (scenario_env 5 21 1700000212) 12345 4 committed
    = Fail (Revert "Pending commitment").
Proof.
  cbv zeta.
  destruct (single_pending_commitment Keccak.keccak256 _ committed_reachable)
    as (Hcount & Hcommit & _).
  split.
  - apply (Hcount 5). by_computation.
  - apply (Hcommit (scenario_env 5 21 1700000212)).
    + by_computation.
    + by_computation.
    + split; by_computation.
Defined.

Lemma registered_reachable :
  reachable Keccak.keccak256
    (transact Keccak.keccak256 (scenario_env 5 11 1700000100) (RegisterMiner 7)
       scenario_world).
Proof.
  apply reachable_transact.
  - exact scenario_world_reachable.
  - apply scenario_env_valid. split; reflexivity.
  - split; by_computation.
Qed.

Lemma registered_miners_invariant_witness :
  let registered :=
    transact Keccak.keccak256 (scenario_env 5 11 1700000100) (RegisterMiner 7)
      scenario_world in
  registeredMiners (players registered !!! 5) = [7] /\
  NoDup (registeredMiners (players registered !!! 5)) /\
  registerMiner (scenario_env 5 12 1700000112) 7 registered
    = Fail (Revert "Already registered").
Proof.
  cbv zeta.
  destruct (registered_miners_invariant Keccak.keccak256 _ registered_reachable)
    as (Hinv & _ & Hfail).
  split; [by_computation |]. split; [apply (Hinv 5) |].
  apply (Hfail (scenario_env 5 12 1700000112) 7).
  - reflexivity.
  - by_computation.
  - vm_compute. constructor.
Defined.

Lemma critical_weights_update_witness :
  exists w',
    updateCriticalWeights (scenario_env 1 11 1700000100) [50; 30; 15; 5]
      scenario_world = Ok (tt, w') /\
    criticalWeights w' = [50; 30; 15; 5].
Proof.
  destruct (critical_weights_update Keccak.keccak256
              (scenario_env 1 11 1700000100) scenario_world [50; 30; 15; 5])
    as ([_ Haccept] & Hstored & _).
  - exact scenario_world_reachable.
  - repeat constructor; by_computation.
  - reflexivity.
  - destruct Haccept as [w' Hrun]; [split; reflexivity |].
    exists w'. split; [exact Hrun | exact (Hstored w' Hrun)].
Defined.

(** A commit-reveal batch of three taps on seed 14 by a player without
    assets: the first tap is critical with multiplier 2, the second is not,
    the third is critical with multiplier 2 and finds a sapphire. *)
Lemma gem_bonus_is_flat_witness :
  let e := scenario_env 6 11 1700000100 in
  let p := players scenario_world !!! 6 in
  let power := owned_power e 6 (registeredMiners p) * (level p + 1) in
  let base := BASE_REWARD * (power + 1) * 110 / 100 in
  let ts := batch_taps Keccak.keccak256 (Z.to_nat 3) 0 14 (tapsSinceCritical p) in
  exists reward w',
    _executeTaps Keccak.keccak256 e 3 14 true scenario_world = Ok (reward, w') /\
    reward = sum_list (map (tap_pays scenario_world base) ts) /\
    sum_list (map (tap_pays scenario_world base) ts)
      = base * 2 + base + (base * 2 + bonus (gemRewards scenario_world SAPPHIRE)).
Proof.
  cbv zeta.
  assert (Hok : exists reward w',
    _executeTaps Keccak.keccak256 (scenario_env 6 11 1700000100) 3 14 true
      scenario_world = Ok (reward, w'))
    by (vm_compute; eexists _, _; reflexivity).
  destruct Hok as (reward & w' & Hrun). exists reward, w'.
  split; [exact Hrun |]. split; [| by_computation].
  exact (proj1 (gem_bonus_is_flat Keccak.keccak256 (scenario_env 6 11 1700000100)
                  scenario_world 3 14 true reward w' scenario_world_reachable
                  (scenario_env_valid 6 11 1700000100 (conj eq_refl eq_refl))
                  Hrun)).
Defined.

(** ** More of the scenario, run with Keccak-256 *)

(** The owner then lowers the daily limit to one unit. *)
Lemma limited_reachable :
  reachable Keccak.keccak256
    (transact Keccak.keccak256 (scenario_env 1 12 1700000112) (SetDailyLimit 1)
       (transact Keccak.keccak256 (scenario_env 6 11 1700000100) (TapMine 20)
          scenario_world)).
Proof.
  apply reachable_transact.
  - exact tapped_reachable.
  - apply scenario_env_valid. split; reflexivity.
  - split; by_computation.
Qed.

(** The game over the ledger on which player 5 holds tokens. *)
Lemma funded_reachable :
  reachable Keccak.keccak256 (set_minerToken funded_token scenario_world).
Proof. apply reachable_ledger, scenario_world_reachable. Qed.

Lemma scenario_token_wf : wf_token scenario_token.
Proof.
  split.
  - intros a. unfold balanceOf, mapping_get. cbn. by rewrite lookup_empty.
  - reflexivity.
  - by_computation.
  - split; by_computation.
Qed.

Lemma scenario_registry_wf : NFT.wf_registry scenario_registry.
Proof.
  split.
  - reflexivity.
  - by_computation.
  - reflexivity.
  - intros tokenId. unfold NFT._ownerOf, mapping_get. cbn.
    destruct (decide (tokenId = 0)) as [-> | Hne].
    + rewrite lookup_singleton_eq. cbn. lia.
    + rewrite lookup_singleton_ne by done. cbn. lia.
  - intros tokenId Hin. cbn in Hin. assert (tokenId = 0) as -> by lia.
    eexists. split; [apply lookup_singleton_eq |].
    split; [split; by_computation | cbn; lia].
  - intros tokenId Hout. cbn in Hout. apply lookup_singleton_ne. lia.
Qed.

(** The environment of player 5 in block 11 over the scenario's registry. *)
Lemma registry_env_valid :
  valid_env (registry_env scenario_registry (scenario_env 5 11 1700000100)).
Proof.
  split; [split; reflexivity |]. intros tokenId.
  pose proof (registry_env_power scenario_registry
                (scenario_env 5 11 1700000100) tokenId scenario_registry_wf)
    as [Hlow Hhigh].
  split; [exact Hlow |].
  apply (Z.le_trans _ _ _ Hhigh). by_computation.
Qed.

Lemma expired_commitment_is_permanent_witness :
  let committed :=
    transact Keccak.keccak256 (scenario_env 5 20 1700000200)
      (CommitTap
         (Keccak.keccak256
            (encode_address 5 ++ encode_uint256 111 ++ encode_uint256 222 ++
             encode_uint128 3)) 3)
      scenario_world in
  let e := scenario_env 5 277 1700003284 in
  (exists err, revealTap Keccak.keccak256 e 111 222 committed = Fail err) /\
  (exists err, commitTap e 12345 4 committed = Fail err) /\
  getCommitment 5 (transact Keccak.keccak256 e (TapMine 1) committed)
    = getCommitment 5 committed.
Proof.
  cbv zeta.
  destruct (expired_commitment_is_permanent Keccak.keccak256 _
              (scenario_env 5 277 1700003284) 5 committed_reachable)
    as [Hshut Hkept].
  - apply scenario_env_valid. split; reflexivity.
  - by_computation.
  - by_computation.
  - destruct (Hshut eq_refl) as [Hcommit Hreveal].
    split; [apply Hreveal |]. split; [apply Hcommit |].
    apply Hkept. split; by_computation.
Defined.

Lemma rewards_are_conserved_witness :
  let tapped :=
    transact Keccak.keccak256 (scenario_env 6 11 1700000100) (TapMine 20)
      scenario_world in
  credited 6 (events tapped)
    = pendingRewards (getPlayerData 6 tapped) + totalMined (getPlayerData 6 tapped).
Proof.
  cbv zeta.
  exact (proj1 (rewards_are_conserved Keccak.keccak256 _ 6 tapped_reachable)).
Defined.

Lemma pause_stops_tapping_only_witness :
  let stopped :=
    transact Keccak.keccak256 (scenario_env 1 11 1700000100) Pause
      scenario_world in
  tapMine Keccak.keccak256 (scenario_env 5 12 1700000112) 1 stopped
    = Fail (CustomError "EnforcedPause").
Proof.
  cbv zeta.
  refine (proj1 (proj2 (proj2
    (pause_stops_tapping_only Keccak.keccak256 (scenario_env 5 12 1700000112)
       _ _))) 1).
  by_computation.
Defined.

Lemma configuration_is_the_owners_witness :
  let e := scenario_env 6 11 1700000100 in
  dispatch Keccak.keccak256 e (SetDailyLimit 5) scenario_world
    = Fail (CustomError "OwnableUnauthorizedAccount") /\
  dailyMintLimit (transact Keccak.keccak256 e (SetDailyLimit 5) scenario_world)
    = dailyMintLimit scenario_world.
Proof.
  cbv zeta.
  destruct (configuration_is_the_owners Keccak.keccak256 scenario_world
              (scenario_env 6 11 1700000100) (SetDailyLimit 5))
    as (_ & Hlimit & _ & _ & _ & Hrefused & _).
  - exact scenario_world_reachable.
  - apply scenario_env_valid. split; reflexivity.
  - split; by_computation.
  - by_computation.
  - split; [apply Hrefused; reflexivity | exact Hlimit].
Defined.

Lemma upgrade_spec_witness :
  let funded := set_minerToken funded_token scenario_world in
  exists w',
    upgrade (scenario_env 5 11 1700000100) funded = Ok (tt, w') /\
    getPlayerData 5 w' = set_level 1 (getPlayerData 5 funded) /\
    balanceOf (minerToken w') 5 = balanceOf funded_token 5 - 100 * 10 ^ 18.
Proof.
  cbv zeta.
  destruct (upgrade_spec Keccak.keccak256 (scenario_env 5 11 1700000100)
              (set_minerToken funded_token scenario_world))
    as (_ & _ & _ & _ & Hpaid).
  - exact funded_reachable.
  - by_computation.
  - destruct Hpaid as (w' & Hrun & Hplayer & Hbalance & _).
    + by_computation.
    + by_computation.
    + by_computation.
    + exists w'. split; [exact Hrun |]. split; [exact Hplayer | exact Hbalance].
Defined.

Lemma tap_caches_owned_power_witness :
  let registered :=
    transact Keccak.keccak256 (scenario_env 5 11 1700000100) (RegisterMiner 7)
      scenario_world in
  let e := scenario_env 5 12 1700000112 in
  exists w',
    tapMine Keccak.keccak256 e 1 registered = Ok (tt, w') /\
    totalPower (getPlayerData 5 w')
      = owned_power e 5 (getRegisteredMiners 5 registered)
        * (level (getPlayerData 5 registered) + 1) /\
    owned_power e 5 (getRegisteredMiners 5 registered) = 3.
Proof.
  cbv zeta.
  assert (Hok : exists w',
    tapMine Keccak.keccak256 (scenario_env 5 12 1700000112) 1
      (transact Keccak.keccak256 (scenario_env 5 11 1700000100)
         (RegisterMiner 7) scenario_world) = Ok (tt, w'))
    by (vm_compute; eexists; reflexivity).
  destruct Hok as [w' Hrun]. exists w'. split; [exact Hrun |].
  split; [| by_computation].
  refine (proj1 (tap_caches_owned_power Keccak.keccak256
                   (scenario_env 5 12 1700000112) _ w' 1 registered_reachable
                   _ Hrun)).
  apply scenario_env_valid. split; reflexivity.
Defined.

Lemma unregisterMiner_spec_witness :
  let registered :=
    transact Keccak.keccak256 (scenario_env 5 11 1700000100) (RegisterMiner 7)
      scenario_world in
  let e := scenario_env 5 12 1700000112 in
  exists w',
    unregisterMiner e 7 registered = Ok (tt, w') /\
    length (getRegisteredMiners 5 w')
      = (length (getRegisteredMiners 5%Z registered) - 1)%nat /\
    unregisterMiner e 8 registered = Fail (Revert "Miner not registered").
Proof.
  cbv zeta.
  destruct (unregisterMiner_spec Keccak.keccak256 (scenario_env 5 12 1700000112)
              _ 7 registered_reachable) as [_ Hfound].
  destruct (unregisterMiner_spec Keccak.keccak256 (scenario_env 5 12 1700000112)
              _ 8 registered_reachable) as [Hmissing _].
  destruct Hfound as (w' & Hrun & _ & Hlength & _).
  { vm_compute. apply list_elem_of_here. }
  exists w'. split; [exact Hrun |]. split; [exact Hlength |].
  apply Hmissing. vm_compute. intros Hin.
  apply list_elem_of_singleton in Hin. discriminate Hin.
Defined.

Lemma register_unregister_round_trip_witness :
  let e := scenario_env 5 11 1700000100 in
  exists w1 w2,
    registerMiner e 7 scenario_world = Ok (tt, w1) /\
    unregisterMiner e 7 w1 = Ok (tt, w2) /\
    getPlayerData 5 w2 = getPlayerData 5 scenario_world.
Proof.
  cbv zeta.
  assert (Hok : exists w1,
    registerMiner (scenario_env 5 11 1700000100) 7 scenario_world = Ok (tt, w1))
    by (vm_compute; eexists; reflexivity).
  destruct Hok as [w1 Hrun].
  destruct (register_unregister_round_trip (scenario_env 5 11 1700000100)
              scenario_world w1 7 Hrun) as (_ & w2 & Hback & Hplayer & _).
  exists w1, w2. split; [exact Hrun |]. split; [exact Hback | exact Hplayer].
Defined.

Lemma daily_mint_is_capped_witness :
  let tapped :=
    transact Keccak.keccak256 (scenario_env 6 11 1700000100) (TapMine 20)
      scenario_world in
  0 < dailyMintLimit tapped <= MAX_DAILY_MINT /\
  exists w',
    withdraw (scenario_env 6 12 1700000112) tapped = Ok (tt, w') /\
    todaysMinted w' <= dailyMintLimit w'.
Proof.
  cbv zeta.
  destruct (daily_mint_is_capped Keccak.keccak256 _ tapped_reachable)
    as (Hlimit & _ & Hpaid).
  split; [exact Hlimit |].
  assert (Hok : exists w',
    withdraw (scenario_env 6 12 1700000112)
      (transact Keccak.keccak256 (scenario_env 6 11 1700000100)
         (TapMine 20) scenario_world) = Ok (tt, w'))
    by (vm_compute; eexists; reflexivity).
  destruct Hok as [w' Hrun]. exists w'. split; [exact Hrun |].
  exact (proj1 (proj2 (proj2 (Hpaid _ w' Hrun)))).
Defined.

Lemma withdraw_is_all_or_nothing_witness :
  let limited :=
    transact Keccak.keccak256 (scenario_env 1 12 1700000112) (SetDailyLimit 1)
      (transact Keccak.keccak256 (scenario_env 6 11 1700000100) (TapMine 20)
         scenario_world) in
  dailyMintLimit limited < pendingRewards (getPlayerData 6 limited) /\
  exists err, withdraw (scenario_env 6 13 1700000124) limited = Fail err.
Proof.
  cbv zeta.
  assert (Hover :
    dailyMintLimit
      (transact Keccak.keccak256 (scenario_env 1 12 1700000112) (SetDailyLimit 1)
         (transact Keccak.keccak256 (scenario_env 6 11 1700000100) (TapMine 20)
            scenario_world))
    < pendingRewards
        (getPlayerData 6
           (transact Keccak.keccak256 (scenario_env 1 12 1700000112)
              (SetDailyLimit 1)
              (transact Keccak.keccak256 (scenario_env 6 11 1700000100)
                 (TapMine 20) scenario_world)))) by by_computation.
  split; [exact Hover |].
  apply (proj1 (withdraw_is_all_or_nothing Keccak.keccak256 _ 6 limited_reachable)
           (scenario_env 6 13 1700000124) eq_refl Hover).
Defined.

Lemma multiplier_follows_the_weights_witness :
  exists w0 w1 w2 w3,
    criticalWeights scenario_world = [w0; w1; w2; w3] /\
    0 <= w0 /\ 0 <= w1 /\ 0 <= w2 /\ 0 <= w3 /\ w0 + w1 + w2 + w3 = 100 /\
    _selectMultiplier scenario_world 12345 =
      Ok (if 12345 mod 100 <? w0 then 2
          else if 12345 mod 100 <? w0 + w1 then 5
          else if 12345 mod 100 <? w0 + w1 + w2 then 10
          else 50).
Proof.
  exact (multiplier_follows_the_weights Keccak.keccak256 scenario_world 12345
           scenario_world_reachable).
Defined.

Lemma critical_roll_of_a_tap_witness :
  let e := scenario_env 6 11 1700000100 in
  let p := getPlayerData 6 scenario_world in
  let ts := batch_taps Keccak.keccak256 (Z.to_nat 3) 0 14 (tapsSinceCritical p) in
  exists r w',
    _executeTaps Keccak.keccak256 e 3 14 false scenario_world = Ok (r, w') /\
    map is_critical ts = [true; false; true] /\
    map tap_streak ts = [0; 0; 1] /\
    tapsSinceCritical (getPlayerData 6 w') =
      match last ts with
      | Some t => if is_critical t then 0 else wrap256 (tap_streak t + 1)
      | None => tapsSinceCritical p
      end /\
    last (events w') = Some (Tapped 6 3 r (existsb is_critical ts)).
Proof.
  cbv zeta.
  assert (Hok : exists r w',
    _executeTaps Keccak.keccak256 (scenario_env 6 11 1700000100) 3 14 false
      scenario_world = Ok (r, w'))
    by (vm_compute; eexists _, _; reflexivity).
  destruct Hok as (r & w' & Hrun).
  destruct (critical_roll_of_a_tap Keccak.keccak256
              (scenario_env 6 11 1700000100) scenario_world w' 3 14 r false
              scenario_world_reachable
              (scenario_env_valid 6 11 1700000100 (conj eq_refl eq_refl)) Hrun)
    as (_ & _ & _ & _ & _ & Hstreak & _ & Hlast).
  exists r, w'. split; [exact Hrun |]. split; [by_computation |].
  split; [by_computation |]. split; [exact Hstreak | exact Hlast].
Defined.

Lemma mint_spec_witness :
  exists t',
    mint 999 5 100 scenario_token = Ok t' /\
    balanceOf t' 5 = balanceOf scenario_token 5 + 100 /\
    totalSupply t' = totalSupply scenario_token + 100.
Proof.
  destruct (mint_spec 999 5 100 scenario_token scenario_token_wf)
    as (_ & _ & _ & Hminted).
  - by_computation.
  - destruct Hminted as (t' & Hrun & Hbalance & _ & Hsupply & _).
    + by_computation.
    + by_computation.
    + by_computation.
    + by_computation.
    + exists t'. split; [exact Hrun |]. split; [exact Hbalance | exact Hsupply].
Defined.

Lemma batchMint_is_mint_each_witness :
  exists t',
    batchMint 999 [5; 6] [10; 20] scenario_token = Ok t' /\
    mint_each 999 [5; 6] [10; 20] scenario_token = Ok t' /\
    totalSupply t' = totalSupply scenario_token + sum_list [10; 20].
Proof.
  assert (Hok : exists t', batchMint 999 [5; 6] [10; 20] scenario_token = Ok t')
    by (vm_compute; eexists; reflexivity).
  destruct Hok as [t' Hrun].
  destruct (batchMint_is_mint_each 999 [5; 6] [10; 20] scenario_token t'
              scenario_token_wf) as [Hiff Hbooks].
  - repeat constructor; by_computation.
  - exists t'. split; [exact Hrun |].
    split; [exact (proj2 (proj2 (proj1 Hiff Hrun))) |].
    exact (proj1 (proj2 (Hbooks Hrun))).
Defined.

Lemma batchMint_overflow_is_a_panic_witness :
  MAX_SUPPLY < sum_list [MAX_SUPPLY; 1] /\
  batchMint 999 [5; 6] [MAX_SUPPLY; 1] scenario_token = Fail Panic.
Proof.
  assert (Hover : MAX_SUPPLY < sum_list [MAX_SUPPLY; 1]) by by_computation.
  split; [exact Hover |].
  refine (proj2 (batchMint_overflow_is_a_panic 999 [5; 6] [MAX_SUPPLY; 1]
                   scenario_token _) _ _ _ Hover).
  - repeat constructor; by_computation.
  - by_computation.
  - discriminate.
  - reflexivity.
Defined.

Lemma withdraw_pays_on_the_ledger_witness :
  let tapped :=
    transact Keccak.keccak256 (scenario_env 6 11 1700000100) (TapMine 20)
      scenario_world in
  exists w',
    withdraw (scenario_env 6 12 1700000112) tapped = Ok (tt, w') /\
    balanceOf (minerToken w') 6
      = balanceOf (minerToken tapped) 6 + pendingRewards (getPlayerData 6 tapped) /\
    totalSupply (minerToken w') <= MAX_SUPPLY.
Proof.
  cbv zeta.
  assert (Hok : exists w',
    withdraw (scenario_env 6 12 1700000112)
      (transact Keccak.keccak256 (scenario_env 6 11 1700000100)
         (TapMine 20) scenario_world) = Ok (tt, w'))
    by (vm_compute; eexists; reflexivity).
  destruct Hok as [w' Hrun].
  assert (Hledger :
    minerToken
      (transact Keccak.keccak256 (scenario_env 6 11 1700000100) (TapMine 20)
         scenario_world) = scenario_token) by by_computation.
  destruct (withdraw_pays_on_the_ledger Keccak.keccak256
              (scenario_env 6 12 1700000112) _ tapped_reachable) as [Hpaid _].
  - rewrite Hledger. exact scenario_token_wf.
  - destruct (Hpaid w' Hrun) as (_ & _ & Hbalance & _ & _ & Hcap & _).
    exists w'. split; [exact Hrun |]. split; [exact Hbalance | exact Hcap].
Defined.

(** A mint to a plain account, and a mint to a contract whose hook renames
    the token it is handed: the name the hook gave is overwritten. *)
Lemma mintMiner_spec_witness :
  let e := scenario_env 1 11 1700000100 in
  let tokenId := NFT.totalSupply scenario_registry in
  let renaming : NFT.Code :=
    fun a =>
      if a =? 6 then
        Some (fun _ handedId s =>
                match NFT.renameMiner (scenario_env 6 11 1700000100) handedId
                        "Mine" s with
                | Ok s' => NFT.HookReturned true s'
                | Fail err => NFT.HookReverted (Some err)
                end)
      else None in
  (exists s',
     NFT.mintMiner e (fun _ => None) 6 NFT.EPIC "Drill" scenario_registry
       = Ok (tokenId, s') /\
     NFT.ownerOf s' tokenId = Ok 6 /\
     NFT.getMiner s' tokenId
       = Ok (NFT.mkMinerData NFT.EPIC 7 1700000100 "Drill")) /\
  NFT.getMiner (NFT.handed_over 6 scenario_registry) tokenId
    = Ok (NFT.mkMinerData NFT.COMMON 0 0 EmptyString) /\
  (exists s',
     NFT.mintMiner e renaming 6 NFT.EPIC "Drill" scenario_registry
       = Ok (tokenId, s') /\
     NFT.miners s' !! tokenId
       = Some (NFT.mkMinerData NFT.EPIC 7 1700000100 "Drill")).
Proof.
  cbv zeta.
  destruct (mintMiner_spec (scenario_env 1 11 1700000100) (fun _ => None) 6
              NFT.EPIC "Drill" scenario_registry scenario_registry_wf)
    as (_ & _ & _ & Hplain).
  destruct Hplain as [_ Hplain]; [by_computation | by_computation | cbn; lia |].
  destruct Hplain as (_ & Hhanded & _ & Hplain); [discriminate |].
  destruct (Hplain eq_refl) as (s' & Hrun & _ & _ & Howner & Hminer & _).
  split; [exists s'; split; [exact Hrun |]; split; [exact Howner | exact Hminer] |].
  split; [exact Hhanded |].
  destruct (mintMiner_spec (scenario_env 1 11 1700000100)
              (fun a =>
                 if a =? 6 then
                   Some (fun _ handedId s =>
                           match NFT.renameMiner (scenario_env 6 11 1700000100)
                                   handedId "Mine" s with
                           | Ok s' => NFT.HookReturned true s'
                           | Fail err => NFT.HookReverted (Some err)
                           end)
                 else None) 6
              NFT.EPIC "Drill" scenario_registry scenario_registry_wf)
    as (_ & _ & _ & Hasked).
  destruct Hasked as [_ Hasked]; [by_computation | by_computation | cbn; lia |].
  destruct Hasked as (_ & _ & Hasked & _); [discriminate |].
  specialize (Hasked _ eq_refl). cbv beta in Hasked.
  destruct (NFT.renameMiner (scenario_env 6 11 1700000100)
              (NFT.totalSupply scenario_registry) "Mine"
              (NFT.handed_over 6 scenario_registry)) as [s1 | err] eqn:Hrename.
  - destruct Hasked as (s2 & Hrun2 & Hrecord & _).
    exists s2. split; [exact Hrun2 | exact Hrecord].
  - exfalso. revert Hrename. by_computation.
Defined.

Lemma upgradeMiner_spec_witness :
  let e := scenario_env 999 11 1700000100 in
  exists s',
    NFT.upgradeMiner e 0 4 scenario_registry = Ok s' /\
    NFT.getMiner s' 0
      = Ok (NFT.set_power (NFT.power (NFT.miners scenario_registry !!! 0) + 4)
              (NFT.miners scenario_registry !!! 0)) /\
    NFT.upgradeMiner e 0 MAX_UINT256 scenario_registry = Fail Panic.
Proof.
  cbv zeta.
  destruct (upgradeMiner_spec (scenario_env 999 11 1700000100) 0 4
              scenario_registry scenario_registry_wf)
    as (_ & [_ Hruns] & Hupgraded).
  - split; by_computation.
  - destruct Hruns as [s' Hrun].
    { split; [by_computation |].
      split; [split; by_computation | by_computation]. }
    exists s'. split; [exact Hrun |].
    split; [exact (proj1 (Hupgraded s' Hrun)) | by_computation].
Defined.

Lemma renameMiner_spec_witness :
  exists s',
    NFT.renameMiner (scenario_env 5 11 1700000100) 0 "Drill" scenario_registry
      = Ok s' /\
    NFT.getMiner s' 0
      = Ok (NFT.set_name "Drill" (NFT.miners scenario_registry !!! 0)) /\
    NFT.renameMiner (scenario_env 6 11 1700000100) 0 "Drill" scenario_registry
      = Fail (Revert "MinerNFT: Not the owner").
Proof.
  destruct (renameMiner_spec (scenario_env 5 11 1700000100) 0 "Drill"
              scenario_registry scenario_registry_wf)
    as (_ & _ & _ & Hrenamed).
  destruct (renameMiner_spec (scenario_env 6 11 1700000100) 0 "Drill"
              scenario_registry scenario_registry_wf)
    as (_ & Hstranger & _).
  destruct Hrenamed as (s' & Hrun & Hminer & _).
  - by_computation.
  - cbn. lia.
  - exists s'. split; [exact Hrun |]. split; [exact Hminer |].
    apply (Hstranger 5); by_computation.
Defined.

Lemma batchMintMiners_spec_witness :
  let e := scenario_env 1 11 1700000100 in
  exists tokenIds s',
    NFT.batchMintMiners e (fun _ => None) 6 [NFT.COMMON; NFT.LEGENDARY] 2
      scenario_registry = Ok (tokenIds, s') /\
    tokenIds !! 1%nat = Some (NFT.totalSupply scenario_registry + 1) /\
    NFT.ownerOf s' (NFT.totalSupply scenario_registry + 1) = Ok 6 /\
    NFT.totalSupply s' = NFT.totalSupply scenario_registry + 2.
Proof.
  cbv zeta.
  destruct (batchMintMiners_spec (scenario_env 1 11 1700000100) (fun _ => None)
              6 [NFT.COMMON; NFT.LEGENDARY] 2 scenario_registry
              scenario_registry_wf)
    as (_ & _ & _ & Hminted).
  - by_computation.
  - destruct Hminted as (_ & _ & Hminted);
      [split; by_computation | reflexivity | by_computation |].
    destruct Hminted as (tokenIds & s' & Hrun & _ & Hsupply & Htokens & _);
      [discriminate | reflexivity |].
    exists tokenIds, s'. split; [exact Hrun |].
    destruct (Htokens 1%nat NFT.LEGENDARY eq_refl) as (Hid & Howner & _).
    split; [exact Hid |]. split; [exact Howner | exact Hsupply].
Defined.

Lemma power_sum_never_overflows_witness :
  let e := registry_env scenario_registry (scenario_env 5 11 1700000100) in
  let registered :=
    transact Keccak.keccak256 e (RegisterMiner 0) scenario_world in
  getRegisteredMiners 5 registered = [0] /\
  sum_owned_power e 5 (getRegisteredMiners 5 registered) 0
    = Ok (owned_power e 5 (getRegisteredMiners 5 registered)) /\
  owned_power e 5 (getRegisteredMiners 5 registered) = 3.
Proof.
  cbv zeta. split; [by_computation |]. split; [| by_computation].
  refine (proj1 (proj2
    (power_sum_never_overflows Keccak.keccak256 scenario_registry
       (scenario_env 5 11 1700000100) _ 5 scenario_registry_wf _ _))).
  - apply reachable_transact.
    + exact scenario_world_reachable.
    + exact registry_env_valid.
    + split; by_computation.
  - split; reflexivity.
Defined.

